(** * Media Foundation video sessions and the AVCC / Annex-B container codec

    A shallow embedding of [Ocean::Media::MediaFoundation::VideoDecoder] and
    [Ocean::Media::MediaFoundation::VideoEncoder] (VideoDecoder.cpp,
    VideoDecoder.h, VideoEncoder.cpp, VideoEncoder.h).

    Conventions of the embedding:
    - machine integers are [Z] with the wrap-around written out ([u32], [size_t]);
      [size_t] is 64 bits wide (x64 build);
    - a byte buffer [const void* data, size_t size] is an [option (list byte)]
      ([None] is [nullptr]) together with the size the caller passes;
    - [ocean_assert] is the release-build no-op;
    - [ScopedLock] is not modelled: every public method runs to completion. *)

From Stdlib Require Import ZArith List Bool Lia String.
From Stdlib Require Import Strings.Byte.
From Stdlib Require Import Floats.SpecFloat.
Import ListNotations.
Open Scope Z_scope.

(** ** Machine integers *)

Module Int.

Definition u32 (z : Z) : Z := z mod 2 ^ 32.

(** [size_t] of the x64 target. *)
Definition size_t (z : Z) : Z := z mod 2 ^ 64.

Definition u8 (b : byte) : Z := Z.of_N (Byte.to_N b).

(** [uint32_t(x) << k] *)
Definition shl32 (x k : Z) : Z := u32 (Z.shiftl x k).

(** [size_t(x) << k] *)
Definition shlsz (x k : Z) : Z := size_t (Z.shiftl x k).

(** [a + b] on [size_t] operands. *)
Definition addsz (a b : Z) : Z := size_t (a + b).

(** [a - b] on [size_t] operands. *)
Definition subsz (a b : Z) : Z := size_t (a - b).

Definition UINT32_MAX : Z := 2 ^ 32 - 1.

End Int.

Import Int.

(** ** [double]: IEEE 754 binary64 *)

Module Double.

Definition double := spec_float.

Definition prec : Z := 53.
Definition emax : Z := 1024.

Definition mul : double -> double -> double := SFmul prec emax.
Definition add : double -> double -> double := SFadd prec emax.
Definition leb : double -> double -> bool := SFleb.

(** [double(n)] of an integer, and the literal [m * 2^e]. *)
Definition ofZ (n : Z) : double := binary_normalize prec emax n 0 false.
Definition literal (m e : Z) : double := binary_normalize prec emax m e false.

Definition zero : double := S754_zero false.
Definition half : double := literal 1 (-1).
Definition thousand : double := ofZ 1000.

(** [UINT32(x)]: truncation towards zero; [None] where the truncated value
    is not a [UINT32] (or [x] is not finite), which the language leaves
    undefined. *)
Definition toUINT32 (x : double) : option Z :=
  match x with
  | S754_zero _ => Some 0
  | S754_finite s m e =>
      let t := if 0 <=? e then Zpos m * 2 ^ e else Zpos m / 2 ^ (- e) in
      if s then (if t =? 0 then Some 0 else None)
      else if t <=? UINT32_MAX then Some t else None
  | _ => None
  end.

End Double.

(** ** Bitstream container codec (VideoDecoder.cpp) *)

Module Codec.

(** [data[i]] on a [const uint8_t*]; the code never indexes at or beyond the
    size it was given. *)
Definition at_ (data : list byte) (i : Z) : Z := u8 (nth (Z.to_nat i) data x00).

(** The bytes [data + from, data + from + n) handed to [vector::insert]. *)
Definition bytes (data : list byte) (from n : Z) : list byte :=
  firstn (Z.to_nat n) (skipn (Z.to_nat from) data).

(** [static const uint8_t startCode[] = {0x00, 0x00, 0x00, 0x01}] *)
Definition startCode : list byte := [x00; x00; x00; x01].

(** The 4-byte big-endian read of both [convertAvccToAnnexB] and [isAvcc]:
    [(uint32_t(d[o]) << 24) | (uint32_t(d[o+1]) << 16) | (uint32_t(d[o+2]) << 8) | uint32_t(d[o+3])] *)
Definition read32 (data : list byte) (o : Z) : Z :=
  Z.lor (Z.lor (Z.lor (shl32 (at_ data o) 24) (shl32 (at_ data (addsz o 1)) 16))
               (shl32 (at_ data (addsz o 2)) 8))
        (u32 (at_ data (addsz o 3))).

(** The 2-byte big-endian read of the configuration-record paths:
    [(size_t(d[o]) << 8) | d[o+1]] *)
Definition read16 (data : list byte) (o : Z) : Z :=
  Z.lor (shlsz (at_ data o) 8) (at_ data (addsz o 1)).

(** The [while (offset + 4 <= avccSize)] loop of the non-configuration path.
    [None] is the model running out of fuel; [nalLoop_total] shows that it
    does not happen with the fuel [convertAvccToAnnexB] supplies. *)
Fixpoint nalLoop (fuel : nat) (data : list byte) (avccSize offset : Z)
         (annexBData : list byte) : option (list byte) :=
  match fuel with
  | O => None
  | S fuel' =>
      if addsz offset 4 <=? avccSize then
        let nalLength := read32 data offset in
        let offset := addsz offset 4 in
        if (nalLength =? 0) || (avccSize <? addsz offset nalLength) then
          Some annexBData
        else
          nalLoop fuel' data avccSize (addsz offset nalLength)
                  (annexBData ++ startCode ++ bytes data offset nalLength)
      else Some annexBData
  end.

(** A [for (i = 0; i < count && offset + 2 <= avccSize; ++i)] loop over
    2-byte length-prefixed units; [n] is the number of iterations the counter
    still allows.  Shared shape of the SPS loop, the PPS loop and the inner
    HEVC loop; returns the offset and the output reached. *)
Fixpoint unitLoop (n : nat) (data : list byte) (avccSize offset : Z)
         (annexBData : list byte) : Z * list byte :=
  match n with
  | O => (offset, annexBData)
  | S n' =>
      if addsz offset 2 <=? avccSize then
        let unitLength := read16 data offset in
        let offset := addsz offset 2 in
        if avccSize <? addsz offset unitLength then
          (offset, annexBData)
        else
          unitLoop n' data avccSize (addsz offset unitLength)
                   (annexBData ++ startCode ++ bytes data offset unitLength)
      else (offset, annexBData)
  end.

(** The outer [for (arrayIdx = 0; arrayIdx < numArrays && offset + 3 <= avccSize; ++arrayIdx)]
    loop of the HEVC configuration record. *)
Fixpoint arrayLoop (n : nat) (data : list byte) (avccSize offset : Z)
         (annexBData : list byte) : Z * list byte :=
  match n with
  | O => (offset, annexBData)
  | S n' =>
      if addsz offset 3 <=? avccSize then
        let offset := addsz offset 1 in
        (* uint16_t numNalus = (uint16_t(data[offset]) << 8) | data[offset + 1] *)
        let numNalus := (Z.lor (Z.shiftl (at_ data offset) 8)
                               (at_ data (addsz offset 1))) mod 2 ^ 16 in
        let offset := addsz offset 2 in
        let '(offset, annexBData) :=
          unitLoop (Z.to_nat numNalus) data avccSize offset annexBData in
        arrayLoop n' data avccSize offset annexBData
      else (offset, annexBData)
  end.

Definition isHevcMime (mime : string) : bool :=
  String.eqb mime "video/hevc" || String.eqb mime "video/h265".

Definition isEmpty (v : list byte) : bool :=
  match v with [] => true | _ => false end.

(** [VideoDecoder::convertAvccToAnnexB]: the returned [bool] and the content
    of the caller's [annexBData] afterwards.  The outer [option] is [None]
    only when [nalLoop] runs out of fuel. *)
Definition convertAvccToAnnexB (avccData : option (list byte)) (avccSize : Z)
           (annexBData : list byte) (isCodecConfig : bool) (mime : string)
  : option (bool * list byte) :=
  match avccData with
  | None => Some (false, annexBData)
  | Some data =>
      if avccSize <? 4 then Some (false, annexBData)
      else if negb isCodecConfig then
        (* annexBData.clear() *)
        match nalLoop (S (Z.to_nat avccSize)) data avccSize 0 [] with
        | Some out => Some (negb (isEmpty out), out)
        | None => None
        end
      else if isHevcMime mime then
        if avccSize <? 23 then Some (false, annexBData)
        else
          let numArrays := at_ data 22 in
          let '(_, out) := arrayLoop (Z.to_nat numArrays) data avccSize 23 [] in
          Some (negb (isEmpty out), out)
      else
        if avccSize <? 7 then Some (false, annexBData)
        else
          let offset := 5 in
          let numSPS := Z.land (at_ data offset) 31 in
          let offset := addsz offset 1 in
          let '(offset, out) := unitLoop (Z.to_nat numSPS) data avccSize offset [] in
          if offset <? avccSize then
            let numPPS := at_ data offset in
            let offset := addsz offset 1 in
            let '(_, out) := unitLoop (Z.to_nat numPPS) data avccSize offset out in
            Some (negb (isEmpty out), out)
          else Some (negb (isEmpty out), out)
  end.

(** [VideoDecoder::isAvcc] *)
Definition isAvcc (data : option (list byte)) (size : Z) (isCodecConfig : bool) : bool :=
  match data with
  | None => false
  | Some byteData =>
      if size <? 4 then false
      else if isCodecConfig then
        if (at_ byteData 0 =? 0) && (at_ byteData 1 =? 0) && (at_ byteData 2 =? 0)
           && (at_ byteData 3 =? 1) then false
        else if (at_ byteData 0 =? 0) && (at_ byteData 1 =? 0) && (at_ byteData 2 =? 1)
        then false
        else true
      else
        if (at_ byteData 0 =? 0) && (at_ byteData 1 =? 0) && (at_ byteData 2 =? 0)
           && (at_ byteData 3 =? 1) then false
        else if (at_ byteData 0 =? 0) && (at_ byteData 1 =? 0) && (at_ byteData 2 =? 1)
        then
          let possibleLength := read32 byteData 0 in
          if (0 <? possibleLength) && (possibleLength <=? subsz size 4) then true
          else false
        else true
  end.

(** The size a caller holding the buffer [b] passes along with it. *)
Definition sizeOf (b : list byte) : Z := Z.of_nat (List.length b).

End Codec.

Import Codec.

(** ** The Media Foundation platform (mfapi.h, mftransform.h, mferror.h)

    The transform and every other platform object is external to the
    repository.  The sessions are written against an arbitrary platform: a
    state [W] and one function per platform call the source makes. *)

Module MF.

Definition HRESULT := Z.

(** Values of the Windows SDK headers, as unsigned 32-bit patterns. *)
Definition S_OK : HRESULT := 0.
Definition MF_E_INVALIDMEDIATYPE : HRESULT := 0xC00D36B4.
Definition MF_E_NOTACCEPTING : HRESULT := 0xC00D36B5.
Definition MF_E_NO_MORE_TYPES : HRESULT := 0xC00D36B9.
Definition MF_E_TRANSFORM_STREAM_CHANGE : HRESULT := 0xC00D6D61.
Definition MF_E_TRANSFORM_NEED_MORE_INPUT : HRESULT := 0xC00D6D72.

Definition MFT_OUTPUT_STREAM_PROVIDES_SAMPLES : Z := 0x100.
Definition MFT_OUTPUT_STREAM_LAZY_READ : Z := 0x400.

Inductive MFT_MESSAGE_TYPE :=
| MFT_MESSAGE_COMMAND_FLUSH
| MFT_MESSAGE_COMMAND_DRAIN
| MFT_MESSAGE_NOTIFY_BEGIN_STREAMING
| MFT_MESSAGE_NOTIFY_END_STREAMING
| MFT_MESSAGE_NOTIFY_END_OF_STREAM
| MFT_MESSAGE_NOTIFY_START_OF_STREAM.

Inductive GUID :=
| GUID_NULL
| MFMediaType_Video
| MFVideoFormat_H264
| MFVideoFormat_HEVC
| MFVideoFormat_NV12
| MFT_CATEGORY_VIDEO_DECODER
| MFT_CATEGORY_VIDEO_ENCODER
| GUID_other (n : nat).

Definition GUID_eqb (a b : GUID) : bool :=
  match a, b with
  | GUID_NULL, GUID_NULL
  | MFMediaType_Video, MFMediaType_Video
  | MFVideoFormat_H264, MFVideoFormat_H264
  | MFVideoFormat_HEVC, MFVideoFormat_HEVC
  | MFVideoFormat_NV12, MFVideoFormat_NV12
  | MFT_CATEGORY_VIDEO_DECODER, MFT_CATEGORY_VIDEO_DECODER
  | MFT_CATEGORY_VIDEO_ENCODER, MFT_CATEGORY_VIDEO_ENCODER => true
  | GUID_other n, GUID_other m => Nat.eqb n m
  | _, _ => false
  end.

(** An [IMFTransform*]. *)
Definition Handle := nat.

(** An [IMFMediaType]: the attributes the sessions read or write. *)
Record MediaType := {
  MF_MT_MAJOR_TYPE : option GUID;
  MF_MT_SUBTYPE : option GUID;
  MF_MT_FRAME_SIZE : option (Z * Z);
  MF_MT_FRAME_RATE : option (Z * Z);
  MF_MT_AVG_BITRATE : option Z;
  MF_MT_INTERLACE_MODE : option Z;
  MF_MT_DEFAULT_STRIDE : option Z;
  MF_MT_MPEG_SEQUENCE_HEADER : option (list byte)
}.

(** What [MFCreateMediaType] hands out. *)
Definition emptyMediaType : MediaType :=
  {| MF_MT_MAJOR_TYPE := None; MF_MT_SUBTYPE := None; MF_MT_FRAME_SIZE := None;
     MF_MT_FRAME_RATE := None; MF_MT_AVG_BITRATE := None; MF_MT_INTERLACE_MODE := None;
     MF_MT_DEFAULT_STRIDE := None; MF_MT_MPEG_SEQUENCE_HEADER := None |}.

Definition MFVideoInterlace_Progressive : Z := 2.

(** [GUID subtype = GUID_NULL; type->GetGUID(MF_MT_SUBTYPE, &subtype)] *)
Definition subtypeOf (t : MediaType) : GUID :=
  match MF_MT_SUBTYPE t with Some g => g | None => GUID_NULL end.

(** [MFT_OUTPUT_STREAM_INFO] *)
Record StreamInfo := { dwFlags : Z; cbSize : Z }.

(** [(dwFlags & (MFT_OUTPUT_STREAM_PROVIDES_SAMPLES | MFT_OUTPUT_STREAM_LAZY_READ)) != 0] *)
Definition providesSamples (i : StreamInfo) : bool :=
  negb (Z.land (dwFlags i)
               (Z.lor MFT_OUTPUT_STREAM_PROVIDES_SAMPLES MFT_OUTPUT_STREAM_LAZY_READ) =? 0).

(** An [IMF2DBuffer] view: [Lock2D] succeeded with a non-null scanline. *)
Record Buffer2D := { scanline0 : list byte; stride : Z }.

(** The buffer [ConvertToContiguousBuffer] returns.  [buffer2D] is [Some]
    when [QueryInterface(IMF2DBuffer)] is [S_OK] and non-null, its content
    [Some] when [Lock2D] is [S_OK] with a non-null scanline; [locked] is
    [Some] when [Lock] is [S_OK] with a non-null pointer, and its length is
    the reported [bufferLength]. *)
Record MediaBuffer := {
  buffer2D : option (option Buffer2D);
  locked : option (list byte)
}.

(** The [IMFSample] found in [outputDataBuffer.pSample] after
    [ProcessOutput].  [sampleTime] is [Some] when [GetSampleTime] is [S_OK];
    [cleanPoint] when [GetUINT32(MFSampleExtension_CleanPoint)] is [S_OK];
    [contiguous] when [ConvertToContiguousBuffer] is [S_OK]. *)
Record OutputSample := {
  sampleTime : option Z;
  cleanPoint : option Z;
  contiguous : option MediaBuffer
}.

(** A picture handed to [VideoEncoder::pushFrame]. *)
Record InputFrame := {
  frameIsValid : bool;
  frameWidth : Z;
  frameHeight : Z;
  framePixelFormat : nat
}.

(** What the media buffer of an input sample holds: the caller's bytes
    ([memcpy]) or the picture the pixel converter wrote at a stride. *)
Inductive Payload :=
| EncodedBytes (data : list byte)
| Nv12Picture (frame : InputFrame) (absStride paddingElements : Z).

(** The [IMFSample] given to [ProcessInput]. *)
Record InputSample := {
  currentLength : Z;
  payload : Payload;
  inputSampleTime : Z;
  inputSampleDuration : option Z
}.

(** The platform.  Getters of media types answer [Some] when the call is
    [S_OK] with a valid object.  [ProcessOutput] receives the size of the
    caller-provided buffer ([None] when [pSample] is left [nullptr]) and
    answers with the [HRESULT] and the final [pSample]. *)
Class Platform (W : Type) : Type := {
  MFStartup : W -> HRESULT * W;
  MFShutdown : W -> W;
  (* hr, ppActivate != nullptr, activateCount *)
  MFTEnumEx : GUID -> option GUID -> option GUID -> W -> (HRESULT * bool * Z) * W;
  (* ppActivate[i]->ActivateObject: hr and the transform, if valid *)
  ActivateObject : Z -> W -> (HRESULT * option Handle) * W;
  ReleaseTransform : Handle -> W -> W;
  MFCreateMediaType : W -> HRESULT * W;
  MFCreateSample : W -> HRESULT * W;
  MFCreateMemoryBuffer : Z -> W -> HRESULT * W;
  (* IMFMediaBuffer::Lock on the buffer just created: hr, pointer != nullptr *)
  LockBuffer : W -> (HRESULT * bool) * W;
  SetInputType : Handle -> MediaType -> W -> HRESULT * W;
  SetOutputType : Handle -> MediaType -> W -> HRESULT * W;
  GetInputAvailableType : Handle -> Z -> W -> (HRESULT * MediaType) * W;
  GetOutputAvailableType : Handle -> Z -> W -> (HRESULT * MediaType) * W;
  GetInputCurrentType : Handle -> W -> option MediaType * W;
  GetOutputCurrentType : Handle -> W -> option MediaType * W;
  GetOutputStreamInfo : Handle -> W -> (HRESULT * StreamInfo) * W;
  ProcessMessage : Handle -> MFT_MESSAGE_TYPE -> W -> HRESULT * W;
  ProcessInput : Handle -> InputSample -> W -> HRESULT * W;
  ProcessOutput : Handle -> option Z -> W -> (HRESULT * option OutputSample) * W;
  (* QueryInterface(ICodecAPI): S_OK with a valid interface *)
  QueryCodecAPI : Handle -> W -> bool * W;
  (* ICodecAPI::SetValue(&CODECAPI_AVEncMPVGOPSize, VT_UI4 value) *)
  SetGopSize : Handle -> Z -> W -> HRESULT * W;
  (* CV::FrameConverter::Comfort::convertAndCopy(frame, targetFrame) *)
  convertAndCopy : InputFrame -> Z -> Z -> Z -> Z -> W -> bool * W;
  (* Frame::strideBytes2paddingElements(FORMAT_Y_UV12_LIMITED_RANGE, width, stride, padding, 0) *)
  strideBytes2paddingElements : Z -> Z -> option Z;
  (* Frame::isValid() of a frame built for FORMAT_Y_UV12_LIMITED_RANGE at width x height *)
  frameTypeIsValid : Z -> Z -> bool
}.

(** The calls a session makes on its transform, with their results, in
    order.  The trace is instrumentation of the model; the sessions
    never read it. *)
Inductive Event :=
| EvProcessMessage (h : Handle) (m : MFT_MESSAGE_TYPE) (hr : HRESULT)
| EvProcessInput (h : Handle) (s : InputSample) (hr : HRESULT)
| EvProcessOutput (h : Handle) (callerBuffer : option Z) (hr : HRESULT)
                  (pSample : option OutputSample)
| EvSetGopSize (h : Handle) (gopSize : Z) (hr : HRESULT).

End MF.

Import MF.

(** ** Running a method

    A method runs on a state holding the object ([this]), the platform and
    the trace.  [Diverge] is a loop of the source still running when the fuel
    of the model is used up, with the state reached so far; [Undefined] is
    undefined behaviour of the source (a floating-point value converted to an
    integer type that cannot hold it, a copy beyond the end of a buffer). *)

Module Run.

Record St (T W : Type) := mkSt { this : T; world : W; trace : list Event }.
Arguments mkSt {T W}.
Arguments this {T W}.
Arguments world {T W}.
Arguments trace {T W}.

Inductive Res (S A : Type) :=
| Ok (a : A) (s : S)
| Diverge (s : S)
| Undefined.
Arguments Ok {S A}.
Arguments Diverge {S A}.
Arguments Undefined {S A}.

Definition M (S A : Type) := S -> Res S A.

Definition ret {S A} (a : A) : M S A := fun s => Ok a s.

Definition bind {S A B} (m : M S A) (k : A -> M S B) : M S B :=
  fun s => match m s with
           | Ok a s' => k a s'
           | Diverge s' => Diverge s'
           | Undefined => Undefined
           end.

Definition diverge {S A} : M S A := fun s => Diverge s.

Definition undefined {S A} : M S A := fun _ => Undefined.

Definition get {T W} : M (St T W) T := fun s => Ok (this s) s.

Definition modify {T W} (f : T -> T) : M (St T W) unit :=
  fun s => Ok tt (mkSt (f (this s)) (world s) (trace s)).

(** A platform call. *)
Definition call {T W A} (f : W -> A * W) : M (St T W) A :=
  fun s => let '(a, w) := f (world s) in Ok a (mkSt (this s) w (trace s)).

Definition call_ {T W} (f : W -> W) : M (St T W) unit :=
  fun s => Ok tt (mkSt (this s) (f (world s)) (trace s)).

Definition emit {T W} (e : Event) : M (St T W) unit :=
  fun s => Ok tt (mkSt (this s) (world s) (trace s ++ [e])).

(** What holds when [m] has run from [s]: [Q] of the answer and the state
    when it returns, [D] of the state when a loop is still running, [U] when
    the behaviour is undefined. *)
Definition post {S A} (m : M S A) (s : S) (Q : A -> S -> Prop) (D : S -> Prop) (U : Prop)
  : Prop :=
  match m s with
  | Ok a s' => Q a s'
  | Diverge s' => D s'
  | Undefined => U
  end.

End Run.

Import Run.

Declare Scope run_scope.
Delimit Scope run_scope with run.
Notation "x <- m ;; k" := (bind m (fun x => k))
  (at level 61, m at next level, right associativity) : run_scope.
Notation "' p <- m ;; k" := (bind m (fun x => match x with p => k end))
  (at level 61, p pattern, m at next level, right associativity) : run_scope.
Notation "m ;;; k" := (bind m (fun _ => k))
  (at level 61, right associativity) : run_scope.

(** [hr == S_OK] *)
Definition isOk (hr : HRESULT) : bool := hr =? S_OK.

Section TransformCalls.

Context {T W : Type} `{Platform W}.
Local Open Scope run_scope.

Definition processMessage (h : Handle) (m : MFT_MESSAGE_TYPE) : M (St T W) HRESULT :=
  hr <- call (ProcessMessage h m) ;;
  emit (EvProcessMessage h m hr) ;;;
  ret hr.

Definition processInput (h : Handle) (s : InputSample) : M (St T W) HRESULT :=
  hr <- call (ProcessInput h s) ;;
  emit (EvProcessInput h s hr) ;;;
  ret hr.

Definition processOutput (h : Handle) (callerBuffer : option Z)
  : M (St T W) (HRESULT * option OutputSample) :=
  r <- call (ProcessOutput h callerBuffer) ;;
  emit (EvProcessOutput h callerBuffer (fst r) (snd r)) ;;;
  ret r.

Definition setGopSize (h : Handle) (gopSize : Z) : M (St T W) HRESULT :=
  hr <- call (SetGopSize h gopSize) ;;
  emit (EvSetGopSize h gopSize hr) ;;;
  ret hr.

End TransformCalls.

(** ** VideoDecoder (VideoDecoder.h, VideoDecoder.cpp) *)

Module Decoder.

(** The data members of [class VideoDecoder] ([lock_] apart). *)
Record VideoDecoder := {
  decoder_ : option Handle;
  width_ : Z;
  height_ : Z;
  isStarted_ : bool;
  mfStarted_ : bool;
  mftProvidesOutputSamples_ : bool;
  outputBufferSize_ : Z
}.

(** The default member initialisers: [VideoDecoder::VideoDecoder()]. *)
Definition VideoDecoder_ : VideoDecoder :=
  {| decoder_ := None; width_ := 0; height_ := 0; isStarted_ := false;
     mfStarted_ := false; mftProvidesOutputSamples_ := false; outputBufferSize_ := 0 |}.

Definition set_decoder_ (v : option Handle) (d : VideoDecoder) : VideoDecoder :=
  {| decoder_ := v; width_ := width_ d; height_ := height_ d; isStarted_ := isStarted_ d;
     mfStarted_ := mfStarted_ d; mftProvidesOutputSamples_ := mftProvidesOutputSamples_ d;
     outputBufferSize_ := outputBufferSize_ d |}.

Definition set_size (w h : Z) (d : VideoDecoder) : VideoDecoder :=
  {| decoder_ := decoder_ d; width_ := w; height_ := h; isStarted_ := isStarted_ d;
     mfStarted_ := mfStarted_ d; mftProvidesOutputSamples_ := mftProvidesOutputSamples_ d;
     outputBufferSize_ := outputBufferSize_ d |}.

Definition set_isStarted_ (v : bool) (d : VideoDecoder) : VideoDecoder :=
  {| decoder_ := decoder_ d; width_ := width_ d; height_ := height_ d; isStarted_ := v;
     mfStarted_ := mfStarted_ d; mftProvidesOutputSamples_ := mftProvidesOutputSamples_ d;
     outputBufferSize_ := outputBufferSize_ d |}.

Definition set_mfStarted_ (v : bool) (d : VideoDecoder) : VideoDecoder :=
  {| decoder_ := decoder_ d; width_ := width_ d; height_ := height_ d; isStarted_ := isStarted_ d;
     mfStarted_ := v; mftProvidesOutputSamples_ := mftProvidesOutputSamples_ d;
     outputBufferSize_ := outputBufferSize_ d |}.

(** [mftProvidesOutputSamples_ = ...; outputBufferSize_ = info.cbSize] *)
Definition set_streamInfo (provides : bool) (size : Z) (d : VideoDecoder) : VideoDecoder :=
  {| decoder_ := decoder_ d; width_ := width_ d; height_ := height_ d; isStarted_ := isStarted_ d;
     mfStarted_ := mfStarted_ d; mftProvidesOutputSamples_ := provides;
     outputBufferSize_ := size |}.

(** A decoded [Frame], by the arguments of its constructor: the frame type,
    the two plane initialisers (the memory from the plane pointer onwards
    and the padding elements) and the relative timestamp in microseconds,
    once set.  The default-constructed, invalid [Frame()] is [None]. *)
Record Frame := {
  width : Z;
  height : Z;
  yPlane : list byte;
  uvPlane : list byte;
  paddingElements : Z;
  relativeTimestamp : option Z
}.

Definition setRelativeTimestamp (t : Z) (f : Frame) : Frame :=
  {| width := width f; height := height f; yPlane := yPlane f; uvPlane := uvPlane f;
     paddingElements := paddingElements f; relativeTimestamp := Some t |}.

(** [VideoDecoder::mimeToVideoFormat] *)
Definition mimeToVideoFormat (mime : string) : GUID :=
  if String.eqb mime "video/avc" || String.eqb mime "video/h264" then MFVideoFormat_H264
  else if String.eqb mime "video/hevc" || String.eqb mime "video/h265" then MFVideoFormat_HEVC
  else GUID_NULL.

Section Methods.

Context {W : Type} `{Platform W}.
Local Open Scope run_scope.

Local Abbreviation Method := (M (St VideoDecoder W)).

(** [Frame::isValid()] *)
Definition isValid (f : option Frame) : bool :=
  match f with
  | Some fr => frameTypeIsValid (width fr) (height fr)
  | None => false
  end.

(** [VideoDecoder::isInitialized] *)
Definition isInitialized : Method bool :=
  d <- get ;;
  ret (match decoder_ d with Some _ => true | None => false end).

(** [VideoDecoder::isStarted] *)
Definition isStarted : Method bool :=
  d <- get ;;
  ret (isStarted_ d).

(** The [for (DWORD typeIndex = 0u; ; ++typeIndex)] loop of [initialize]:
    the first NV12 output type the transform accepts; answers
    [outputTypeSet]. *)
Fixpoint selectOutputType (fuel : nat) (h : Handle) (typeIndex : Z) : Method bool :=
  match fuel with
  | O => diverge
  | S fuel' =>
      '(hr, availableOutputType) <- call (GetOutputAvailableType h typeIndex) ;;
      if negb (isOk hr) then ret false
      else if GUID_eqb (subtypeOf availableOutputType) MFVideoFormat_NV12 then
        hr <- call (SetOutputType h availableOutputType) ;;
        if isOk hr then ret true
        else selectOutputType fuel' h (u32 (typeIndex + 1))
      else selectOutputType fuel' h (u32 (typeIndex + 1))
  end.

(** The [for (UINT32 i = 0u; i < activateCount; ++i)] loop of
    [initialize]; [n] counts the candidates left.  Answers the transform
    moved into [decoder_]; [decoderCreated] is this being [Some]. *)
Fixpoint createDecoder (fuel n : nat) (i : Z) (inputType : MediaType)
  : Method (option Handle) :=
  match n with
  | O => ret None
  | S n' =>
      '(hr, decoder) <- call (ActivateObject i) ;;
      match decoder with
      | None => createDecoder fuel n' (i + 1) inputType
      | Some h =>
          if negb (isOk hr) then
            call_ (ReleaseTransform h) ;;;
            createDecoder fuel n' (i + 1) inputType
          else
            hr <- call (SetInputType h inputType) ;;
            if negb (isOk hr) then
              call_ (ReleaseTransform h) ;;;
              createDecoder fuel n' (i + 1) inputType
            else
              outputTypeSet <- selectOutputType fuel h 0 ;;
              outputTypeSet <-
                (if negb outputTypeSet then
                   '(hr, fallbackType) <- call (GetOutputAvailableType h 0) ;;
                   if isOk hr then
                     hr <- call (SetOutputType h fallbackType) ;;
                     ret (isOk hr)
                   else ret false
                 else ret true) ;;
              if negb outputTypeSet then
                call_ (ReleaseTransform h) ;;;
                createDecoder fuel n' (i + 1) inputType
              else
                modify (set_decoder_ (Some h)) ;;;
                ret (Some h)
      end
  end.

(** [VideoDecoder::initialize].  The releases of the activation objects
    and of their array are not modelled. *)
Definition initialize (fuel : nat) (mime : string) (width height : Z)
           (codecConfigData : option (list byte)) (codecConfigSize : Z) : Method bool :=
  if String.eqb mime "" || (width =? 0) || (height =? 0) then ret false
  else
    d <- get ;;
    match decoder_ d with
    | Some _ => ret false
    | None =>
        startupResult <- call MFStartup ;;
        if negb (isOk startupResult) then ret false
        else
          modify (set_mfStarted_ true) ;;;
          let videoFormat := mimeToVideoFormat mime in
          if GUID_eqb videoFormat GUID_NULL then ret false
          else
            '(hr, _, activateCount) <-
              call (MFTEnumEx MFT_CATEGORY_VIDEO_DECODER (Some videoFormat) None) ;;
            if negb (isOk hr) || (activateCount =? 0) then ret false
            else
              hr <- call MFCreateMediaType ;;
              if negb (isOk hr) then ret false
              else
                let inputType :=
                  {| MF_MT_MAJOR_TYPE := Some MFMediaType_Video;
                     MF_MT_SUBTYPE := Some videoFormat;
                     MF_MT_FRAME_SIZE := Some (width, height);
                     MF_MT_FRAME_RATE := None;
                     MF_MT_AVG_BITRATE := None;
                     MF_MT_INTERLACE_MODE := None;
                     MF_MT_DEFAULT_STRIDE := None;
                     MF_MT_MPEG_SEQUENCE_HEADER :=
                       match codecConfigData with
                       | Some config =>
                           if 0 <? codecConfigSize
                           then Some (bytes config 0 (u32 codecConfigSize))
                           else None
                       | None => None
                       end |} in
                decoderCreated <-
                  createDecoder fuel (Z.to_nat activateCount) 0 inputType ;;
                match decoderCreated with
                | None => ret false
                | Some h =>
                    '(hr, outputStreamInfo) <- call (GetOutputStreamInfo h) ;;
                    (if isOk hr then
                       modify (set_streamInfo (providesSamples outputStreamInfo)
                                              (cbSize outputStreamInfo))
                     else ret tt) ;;;
                    modify (set_size width height) ;;;
                    ret true
                end
    end.

(** [VideoDecoder::start] *)
Definition start : Method bool :=
  d <- get ;;
  match decoder_ d with
  | None => ret false
  | Some h =>
      if isStarted_ d then ret true
      else
        beginStreamingResult <- processMessage h MFT_MESSAGE_NOTIFY_BEGIN_STREAMING ;;
        if negb (isOk beginStreamingResult) then ret false
        else
          startStreamResult <- processMessage h MFT_MESSAGE_NOTIFY_START_OF_STREAM ;;
          if negb (isOk startStreamResult) then ret false
          else
            modify (set_isStarted_ true) ;;;
            ret true
  end.

(** [VideoDecoder::stop] *)
Definition stop : Method bool :=
  d <- get ;;
  match decoder_ d with
  | None => ret true
  | Some h =>
      if negb (isStarted_ d) then ret true
      else
        processMessage h MFT_MESSAGE_COMMAND_DRAIN ;;;
        processMessage h MFT_MESSAGE_NOTIFY_END_OF_STREAM ;;;
        processMessage h MFT_MESSAGE_NOTIFY_END_STREAMING ;;;
        modify (set_isStarted_ false) ;;;
        ret true
  end.

(** [int64_t(presentationTime) * 10], two's complement. *)
Definition toSampleTime (presentationTime : Z) : Z :=
  let s64 z := (z + 2 ^ 63) mod 2 ^ 64 - 2 ^ 63 in
  s64 (s64 presentationTime * 10).

(** [VideoDecoder::pushSample].  The media buffer is created with
    [DWORD(size)] bytes and [memcpy] writes [size] bytes to it: from
    [2 ^ 32] bytes on the copy runs beyond the end of the buffer. *)
Definition pushSample (data : option (list byte)) (size : Z) (presentationTime : Z)
  : Method bool :=
  match data with
  | None => ret false
  | Some sampleData =>
      if size =? 0 then ret false
      else
        d <- get ;;
        match decoder_ d with
        | None => ret false
        | Some h =>
            if negb (isStarted_ d) then ret false
            else
              hr <- call (MFCreateMemoryBuffer (u32 size)) ;;
              if negb (isOk hr) then ret false
              else
                '(hr, bufferData) <- call LockBuffer ;;
                if negb (isOk hr) || negb bufferData then ret false
                else if 2 ^ 32 <=? size then undefined
                else
                  hr <- call MFCreateSample ;;
                  if negb (isOk hr) then ret false
                  else
                    let inputSample :=
                      {| currentLength := u32 size;
                         payload := EncodedBytes (bytes sampleData 0 size);
                         inputSampleTime := toSampleTime presentationTime;
                         inputSampleDuration := None |} in
                    processInputResult <- processInput h inputSample ;;
                    if processInputResult =? MF_E_NOTACCEPTING then ret false
                    else if negb (isOk processInputResult) then ret false
                    else ret true
        end
  end.

(** The [for (DWORD typeIndex = 0u; ; ++typeIndex)] loop of [popFrame] on
    a stream change: sets the first NV12 output type, whatever
    [SetOutputType] answers. *)
Fixpoint renegotiateOutputType (fuel : nat) (h : Handle) (typeIndex : Z) : Method unit :=
  match fuel with
  | O => diverge
  | S fuel' =>
      '(hr, availableType) <- call (GetOutputAvailableType h typeIndex) ;;
      if negb (isOk hr) then ret tt
      else if GUID_eqb (subtypeOf availableType) MFVideoFormat_NV12 then
        call (SetOutputType h availableType) ;;;
        ret tt
      else renegotiateOutputType fuel' h (u32 (typeIndex + 1))
  end.

(** The size of the caller-provided output buffer of [popFrame]:
    [bufferSize = outputBufferSize_; if (bufferSize == 0u) bufferSize = width_ * height_ * 3u / 2u]. *)
Definition callerBufferSize (d : VideoDecoder) : Z :=
  if outputBufferSize_ d =? 0
  then u32 (u32 (width_ d * height_ d) * 3) / 2
  else outputBufferSize_ d.

(** The frame [popFrame] builds from a successful output sample. *)
Definition frameOfBuffer (outputWidth outputHeight : Z) (mediaBuffer : MediaBuffer)
  : option Frame :=
  match buffer2D mediaBuffer with
  | Some view =>
      match view with
      | Some b2 =>
          let absStride := u32 (if stride b2 <? 0 then - stride b2 else stride b2) in
          match strideBytes2paddingElements outputWidth absStride with
          | Some padding =>
              Some {| width := outputWidth; height := outputHeight;
                      yPlane := scanline0 b2;
                      uvPlane := skipn (Z.to_nat (size_t (absStride * outputHeight)))
                                       (scanline0 b2);
                      paddingElements := padding;
                      relativeTimestamp := None |}
          | None => None
          end
      | None => None
      end
  | None =>
      match locked mediaBuffer with
      | Some bufferData =>
          let expectedSize := u32 (u32 (outputWidth * outputHeight) * 3) / 2 in
          if expectedSize <=? sizeOf bufferData then
            Some {| width := outputWidth; height := outputHeight;
                    yPlane := bufferData;
                    uvPlane := skipn (Z.to_nat (u32 (outputWidth * outputHeight))) bufferData;
                    paddingElements := 0;
                    relativeTimestamp := None |}
          else None
      | None => None
      end
  end.

(** [popFrame] from [ProcessOutput] onwards. *)
Definition popFrameOutput (fuel : nat) (h : Handle) (callerBuffer : option Z)
           (presentationTime : option Z) : Method (option Frame * option Z) :=
  '(processOutputResult, pSample) <- processOutput h callerBuffer ;;
  if processOutputResult =? MF_E_TRANSFORM_NEED_MORE_INPUT then
    ret (None, presentationTime)
  else if processOutputResult =? MF_E_TRANSFORM_STREAM_CHANGE then
    renegotiateOutputType fuel h 0 ;;;
    '(hr, streamInfo) <- call (GetOutputStreamInfo h) ;;
    (if isOk hr then
       modify (set_streamInfo (providesSamples streamInfo) (cbSize streamInfo))
     else ret tt) ;;;
    ret (None, presentationTime)
  else if negb (isOk processOutputResult) then
    ret (None, presentationTime)
  else
    match pSample with
    | None => ret (None, presentationTime)
    | Some outputSample =>
        d <- get ;;
        currentOutputType <- call (GetOutputCurrentType h) ;;
        let '(outputWidth, outputHeight) :=
          match currentOutputType with
          | Some t =>
              match MF_MT_FRAME_SIZE t with
              | Some size => size
              | None => (width_ d, height_ d)
              end
          | None => (width_ d, height_ d)
          end in
        let frame :=
          match contiguous outputSample with
          | Some mediaBuffer => frameOfBuffer outputWidth outputHeight mediaBuffer
          | None => None
          end in
        let presentationTime :=
          match presentationTime with
          | Some previous =>
              match sampleTime outputSample with
              | Some t => Some (Z.quot t 10)
              | None => Some previous
              end
          | None => None
          end in
        let frame :=
          if isValid frame then
            option_map (setRelativeTimestamp
                          (match presentationTime with Some t => t | None => 0 end))
                       frame
          else frame in
        ret (frame, presentationTime)
    end.

(** [VideoDecoder::popFrame].  [presentationTime] is [None] for
    [nullptr], else the value the caller's variable holds; the second
    component of the answer is that variable afterwards. *)
Definition popFrame (fuel : nat) (presentationTime : option Z)
  : Method (option Frame * option Z) :=
  d <- get ;;
  match decoder_ d with
  | None => ret (None, presentationTime)
  | Some h =>
      if negb (mftProvidesOutputSamples_ d) then
        hr <- call MFCreateSample ;;
        if negb (isOk hr) then ret (None, presentationTime)
        else
          let bufferSize := callerBufferSize d in
          hr <- call (MFCreateMemoryBuffer bufferSize) ;;
          if negb (isOk hr) then ret (None, presentationTime)
          else popFrameOutput fuel h (Some bufferSize) presentationTime
      else popFrameOutput fuel h None presentationTime
  end.


(** [VideoDecoder::release] *)
Definition release : Method unit :=
  d <- get ;;
  (match decoder_ d with
   | Some h =>
       (if isStarted_ d then stop ;;; ret tt else ret tt) ;;;
       call_ (ReleaseTransform h) ;;;
       modify (set_decoder_ None)
   | None => ret tt
   end) ;;;
  modify (set_size 0 0) ;;;
  modify (set_streamInfo false 0) ;;;
  d <- get ;;
  if mfStarted_ d then
    call_ MFShutdown ;;;
    modify (set_mfStarted_ false)
  else ret tt.

End Methods.

End Decoder.

(** ** VideoEncoder (VideoEncoder.h, VideoEncoder.cpp) *)

Module Encoder.

Import Double.

(** [enum BufferFlags : uint32_t] *)
Definition BUFFER_FLAG_NONE : Z := 0.
Definition BUFFER_FLAG_KEY_FRAME : Z := 1.
Definition BUFFER_FLAG_CODEC_CONFIG : Z := 2.
Definition BUFFER_FLAG_END_OF_STREAM : Z := 4.
Definition BUFFER_FLAG_PARTIAL_FRAME : Z := 8.

(** [class VideoEncoder::Sample] *)
Record Sample := {
  data_ : list byte;
  presentationTime_ : Z;
  bufferFlags_ : Z
}.

(** [Sample()]: the invalid sample. *)
Definition Sample_ : Sample :=
  {| data_ := []; presentationTime_ := - 2 ^ 63; bufferFlags_ := BUFFER_FLAG_NONE |}.

Definition Sample_isValid (s : Sample) : bool := negb (isEmpty (data_ s)).

Definition isKeyFrame (s : Sample) : bool :=
  negb (Z.land (bufferFlags_ s) BUFFER_FLAG_KEY_FRAME =? 0).

Definition isConfiguration (s : Sample) : bool :=
  negb (Z.land (bufferFlags_ s) BUFFER_FLAG_CODEC_CONFIG =? 0).

(** [Sample::isEndOfStream] *)
Definition isEndOfStream (s : Sample) : bool :=
  negb (Z.land (bufferFlags_ s) BUFFER_FLAG_END_OF_STREAM =? 0).

(** [Sample::isPartialFrame] *)
Definition isPartialFrame (s : Sample) : bool :=
  negb (Z.land (bufferFlags_ s) BUFFER_FLAG_PARTIAL_FRAME =? 0).

Definition maximalWidth_ : Z := 1920 * 8.
Definition maximalHeight_ : Z := 1080 * 8.
Definition bitrateMbps1_ : Z := 1000 * 1000.
Definition bitrateMbps10_ : Z := bitrateMbps1_ * 10.
Definition maximalBitrate_ : Z := bitrateMbps10_ * 10.

(** The data members of [class VideoEncoder] ([lock_] apart). *)
Record VideoEncoder := {
  encoder_ : option Handle;
  width_ : Z;
  height_ : Z;
  isStarted_ : bool;
  mfStarted_ : bool;
  mftProvidesOutputSamples_ : bool;
  outputBufferSize_ : Z;
  codecConfigEmitted_ : bool;
  encodedSamples_ : list Sample
}.

(** The default member initialisers: [VideoEncoder::VideoEncoder()]. *)
Definition VideoEncoder_ : VideoEncoder :=
  {| encoder_ := None; width_ := 0; height_ := 0; isStarted_ := false;
     mfStarted_ := false; mftProvidesOutputSamples_ := false; outputBufferSize_ := 0;
     codecConfigEmitted_ := false; encodedSamples_ := [] |}.

Definition set_encoder_ (v : option Handle) (e : VideoEncoder) : VideoEncoder :=
  {| encoder_ := v; width_ := width_ e; height_ := height_ e; isStarted_ := isStarted_ e;
     mfStarted_ := mfStarted_ e; mftProvidesOutputSamples_ := mftProvidesOutputSamples_ e;
     outputBufferSize_ := outputBufferSize_ e; codecConfigEmitted_ := codecConfigEmitted_ e;
     encodedSamples_ := encodedSamples_ e |}.

Definition set_size (w h : Z) (e : VideoEncoder) : VideoEncoder :=
  {| encoder_ := encoder_ e; width_ := w; height_ := h; isStarted_ := isStarted_ e;
     mfStarted_ := mfStarted_ e; mftProvidesOutputSamples_ := mftProvidesOutputSamples_ e;
     outputBufferSize_ := outputBufferSize_ e; codecConfigEmitted_ := codecConfigEmitted_ e;
     encodedSamples_ := encodedSamples_ e |}.

Definition set_isStarted_ (v : bool) (e : VideoEncoder) : VideoEncoder :=
  {| encoder_ := encoder_ e; width_ := width_ e; height_ := height_ e; isStarted_ := v;
     mfStarted_ := mfStarted_ e; mftProvidesOutputSamples_ := mftProvidesOutputSamples_ e;
     outputBufferSize_ := outputBufferSize_ e; codecConfigEmitted_ := codecConfigEmitted_ e;
     encodedSamples_ := encodedSamples_ e |}.

Definition set_mfStarted_ (v : bool) (e : VideoEncoder) : VideoEncoder :=
  {| encoder_ := encoder_ e; width_ := width_ e; height_ := height_ e;
     isStarted_ := isStarted_ e; mfStarted_ := v;
     mftProvidesOutputSamples_ := mftProvidesOutputSamples_ e;
     outputBufferSize_ := outputBufferSize_ e; codecConfigEmitted_ := codecConfigEmitted_ e;
     encodedSamples_ := encodedSamples_ e |}.

(** [mftProvidesOutputSamples_ = ...; outputBufferSize_ = info.cbSize] *)
Definition set_streamInfo (provides : bool) (size : Z) (e : VideoEncoder) : VideoEncoder :=
  {| encoder_ := encoder_ e; width_ := width_ e; height_ := height_ e;
     isStarted_ := isStarted_ e; mfStarted_ := mfStarted_ e;
     mftProvidesOutputSamples_ := provides; outputBufferSize_ := size;
     codecConfigEmitted_ := codecConfigEmitted_ e; encodedSamples_ := encodedSamples_ e |}.

Definition set_codecConfigEmitted_ (v : bool) (e : VideoEncoder) : VideoEncoder :=
  {| encoder_ := encoder_ e; width_ := width_ e; height_ := height_ e;
     isStarted_ := isStarted_ e; mfStarted_ := mfStarted_ e;
     mftProvidesOutputSamples_ := mftProvidesOutputSamples_ e;
     outputBufferSize_ := outputBufferSize_ e; codecConfigEmitted_ := v;
     encodedSamples_ := encodedSamples_ e |}.

Definition set_encodedSamples_ (v : list Sample) (e : VideoEncoder) : VideoEncoder :=
  {| encoder_ := encoder_ e; width_ := width_ e; height_ := height_ e;
     isStarted_ := isStarted_ e; mfStarted_ := mfStarted_ e;
     mftProvidesOutputSamples_ := mftProvidesOutputSamples_ e;
     outputBufferSize_ := outputBufferSize_ e; codecConfigEmitted_ := codecConfigEmitted_ e;
     encodedSamples_ := v |}.

(** [encodedSamples_.push_back(sample)] *)
Definition push_back (s : Sample) (e : VideoEncoder) : VideoEncoder :=
  set_encodedSamples_ (encodedSamples_ e ++ [s]) e.

(** [VideoEncoder::mimeToVideoFormat] *)
Definition mimeToVideoFormat (mime : string) : GUID :=
  if String.eqb mime "video/avc" || String.eqb mime "video/h264" then MFVideoFormat_H264
  else if String.eqb mime "video/hevc" || String.eqb mime "video/h265" then MFVideoFormat_HEVC
  else GUID_NULL.

(** The GOP size [initialize] hands to [ICodecAPI::SetValue]; [None] where
    the conversion to [UINT32] is undefined. *)
Definition gopSizeOf (iFrameInterval : Z) (frameRate : double) : option Z :=
  if iFrameInterval <? 0 then Some UINT32_MAX
  else if iFrameInterval =? 0 then Some 1
  else
    match toUINT32 (add (mul (ofZ iFrameInterval) frameRate) half) with
    | Some gopSize => Some (if gopSize =? 0 then 1 else gopSize)
    | None => None
    end.

Section Methods.

Context {W : Type} `{Platform W}.
Local Open Scope run_scope.

Local Abbreviation Method := (M (St VideoEncoder W)).

(** [VideoEncoder::isInitialized] *)
Definition isInitialized : Method bool :=
  e <- get ;;
  ret (match encoder_ e with Some _ => true | None => false end).

(** [VideoEncoder::isStarted] *)
Definition isStarted : Method bool :=
  e <- get ;;
  ret (isStarted_ e).

(** The [for (DWORD typeIndex = 0u; ; ++typeIndex)] loop of [initialize]
    over the available input types; answers [inputTypeSet]. *)
Fixpoint selectInputType (fuel : nat) (h : Handle) (typeIndex : Z)
         (width height frameRateNumerator frameRateDenominator : Z) : Method bool :=
  match fuel with
  | O => diverge
  | S fuel' =>
      '(hr, availableInputType) <- call (GetInputAvailableType h typeIndex) ;;
      if negb (isOk hr) then ret false
      else if GUID_eqb (subtypeOf availableInputType) MFVideoFormat_NV12 then
        let availableInputType :=
          {| MF_MT_MAJOR_TYPE := MF_MT_MAJOR_TYPE availableInputType;
             MF_MT_SUBTYPE := MF_MT_SUBTYPE availableInputType;
             MF_MT_FRAME_SIZE := Some (width, height);
             MF_MT_FRAME_RATE := Some (frameRateNumerator, frameRateDenominator);
             MF_MT_AVG_BITRATE := MF_MT_AVG_BITRATE availableInputType;
             MF_MT_INTERLACE_MODE := Some MFVideoInterlace_Progressive;
             MF_MT_DEFAULT_STRIDE := MF_MT_DEFAULT_STRIDE availableInputType;
             MF_MT_MPEG_SEQUENCE_HEADER := MF_MT_MPEG_SEQUENCE_HEADER availableInputType |} in
        hr <- call (SetInputType h availableInputType) ;;
        if isOk hr then ret true
        else selectInputType fuel' h (u32 (typeIndex + 1))
                             width height frameRateNumerator frameRateDenominator
      else selectInputType fuel' h (u32 (typeIndex + 1))
                           width height frameRateNumerator frameRateDenominator
  end.

(** The GOP configuration of [initialize] on the accepted transform. *)
Definition configureGopSize (h : Handle) (iFrameInterval : Z) (frameRate : double)
  : Method unit :=
  codecApi <- call (QueryCodecAPI h) ;;
  if codecApi then
    match gopSizeOf iFrameInterval frameRate with
    | Some gopSize =>
        setGopSize h gopSize ;;;
        (* a failure is logged as a warning *)
        ret tt
    | None => undefined
    end
  else ret tt.

(** The [for (UINT32 i = 0u; i < activateCount; ++i)] loop of
    [initialize]; [n] counts the candidates left.  Answers the transform
    moved into [encoder_]; [encoderCreated] is this being [Some]. *)
Fixpoint createEncoder (fuel n : nat) (i : Z) (videoFormat : GUID)
         (width height frameRateNumerator frameRateDenominator bitrate : Z)
         (iFrameInterval : Z) (frameRate : double) : Method (option Handle) :=
  match n with
  | O => ret None
  | S n' =>
      let continue :=
        createEncoder fuel n' (i + 1) videoFormat width height frameRateNumerator
                      frameRateDenominator bitrate iFrameInterval frameRate in
      '(hr, encoder) <- call (ActivateObject i) ;;
      match encoder with
      | None => continue
      | Some h =>
          if negb (isOk hr) then call_ (ReleaseTransform h) ;;; continue
          else
            hr <- call MFCreateMediaType ;;
            if negb (isOk hr) then call_ (ReleaseTransform h) ;;; continue
            else
              let outputType :=
                {| MF_MT_MAJOR_TYPE := Some MFMediaType_Video;
                   MF_MT_SUBTYPE := Some videoFormat;
                   MF_MT_FRAME_SIZE := Some (width, height);
                   MF_MT_FRAME_RATE := Some (frameRateNumerator, frameRateDenominator);
                   MF_MT_AVG_BITRATE := Some bitrate;
                   MF_MT_INTERLACE_MODE := Some MFVideoInterlace_Progressive;
                   MF_MT_DEFAULT_STRIDE := None;
                   MF_MT_MPEG_SEQUENCE_HEADER := None |} in
              hr <- call (SetOutputType h outputType) ;;
              if negb (isOk hr) then call_ (ReleaseTransform h) ;;; continue
              else
                inputTypeSet <-
                  selectInputType fuel h 0 width height
                                  frameRateNumerator frameRateDenominator ;;
                inputTypeSet <-
                  (if negb inputTypeSet then
                     hr <- call MFCreateMediaType ;;
                     if isOk hr then
                       (* (width + 31u) & ~31u *)
                       let alignedStride :=
                         Z.land (u32 (width + 31)) (u32 (Z.lnot 31)) in
                       let inputType :=
                         {| MF_MT_MAJOR_TYPE := Some MFMediaType_Video;
                            MF_MT_SUBTYPE := Some MFVideoFormat_NV12;
                            MF_MT_FRAME_SIZE := Some (width, height);
                            MF_MT_FRAME_RATE :=
                              Some (frameRateNumerator, frameRateDenominator);
                            MF_MT_AVG_BITRATE := None;
                            MF_MT_INTERLACE_MODE := Some MFVideoInterlace_Progressive;
                            MF_MT_DEFAULT_STRIDE := Some alignedStride;
                            MF_MT_MPEG_SEQUENCE_HEADER := None |} in
                       hr <- call (SetInputType h inputType) ;;
                       ret (isOk hr)
                     else ret false
                   else ret true) ;;
                if negb inputTypeSet then call_ (ReleaseTransform h) ;;; continue
                else
                  modify (set_encoder_ (Some h)) ;;;
                  configureGopSize h iFrameInterval frameRate ;;;
                  ret (Some h)
      end
  end.

(** [VideoEncoder::initialize].  The releases of the activation objects
    and of their array are not modelled. *)
Definition initialize (fuel : nat) (width height : Z) (mime : string)
           (frameRate : double) (bitrate : Z) (iFrameInterval : Z) : Method bool :=
  if (width =? 0) || (height =? 0) || (maximalWidth_ <? width) || (maximalHeight_ <? height)
  then ret false
  else if (bitrate =? 0) || (u32 maximalBitrate_ <? bitrate) then ret false
  else if leb frameRate zero then ret false
  else if String.eqb mime "" then ret false
  else
    e <- get ;;
    match encoder_ e with
    | Some _ => ret false
    | None =>
        startupResult <- call MFStartup ;;
        if negb (isOk startupResult) then ret false
        else
          modify (set_mfStarted_ true) ;;;
          let videoFormat := mimeToVideoFormat mime in
          if GUID_eqb videoFormat GUID_NULL then ret false
          else
            '(hr, _, activateCount) <-
              call (MFTEnumEx MFT_CATEGORY_VIDEO_ENCODER None (Some videoFormat)) ;;
            if negb (isOk hr) || (activateCount =? 0) then ret false
            else
              match toUINT32 (add (mul frameRate thousand) half) with
              | None => undefined
              | Some frameRateNumerator =>
                  let frameRateDenominator := 1000 in
                  encoderCreated <-
                    createEncoder fuel (Z.to_nat activateCount) 0 videoFormat
                                  width height frameRateNumerator frameRateDenominator
                                  bitrate iFrameInterval frameRate ;;
                  match encoderCreated with
                  | None => ret false
                  | Some h =>
                      '(hr, outputStreamInfo) <- call (GetOutputStreamInfo h) ;;
                      (if isOk hr then
                         modify (set_streamInfo (providesSamples outputStreamInfo)
                                                (cbSize outputStreamInfo))
                       else ret tt) ;;;
                      modify (set_size width height) ;;;
                      ret true
                  end
              end
    end.

(** [VideoEncoder::start] *)
Definition start : Method bool :=
  e <- get ;;
  match encoder_ e with
  | None => ret false
  | Some h =>
      if isStarted_ e then ret true
      else
        processMessage h MFT_MESSAGE_COMMAND_FLUSH ;;;
        beginStreamingResult <- processMessage h MFT_MESSAGE_NOTIFY_BEGIN_STREAMING ;;
        if negb (isOk beginStreamingResult) then ret false
        else
          startStreamResult <- processMessage h MFT_MESSAGE_NOTIFY_START_OF_STREAM ;;
          if negb (isOk startStreamResult) then ret false
          else
            modify (set_isStarted_ true) ;;;
            ret true
  end.

(** The body of [if (isKeyFrame && !codecConfigEmitted_)] in
    [drainOutputSamples]: the sequence header of the current output type,
    if there is one, enqueued as the configuration sample. *)
Definition emitCodecConfig (h : Handle) (samplePresentationTime : Z) : Method unit :=
  currentOutputType <- call (GetOutputCurrentType h) ;;
  match currentOutputType with
  | Some t =>
      match MF_MT_MPEG_SEQUENCE_HEADER t with
      | Some configData =>
          if 0 <? sizeOf configData then
            modify (push_back {| data_ := configData;
                                 presentationTime_ := samplePresentationTime;
                                 bufferFlags_ := BUFFER_FLAG_CODEC_CONFIG |}) ;;;
            modify (set_codecConfigEmitted_ true)
          else ret tt
      | None => ret tt
      end
  | None => ret tt
  end.

(** [isKeyFrame] of an output sample: the clean-point attribute is there
    and not zero. *)
Definition isCleanPoint (outputSample : OutputSample) : bool :=
  match cleanPoint outputSample with
  | Some value => negb (value =? 0)
  | None => false
  end.

(** The payload of an output sample, enqueued when it can be locked and
    is not empty.  Answers whether a sample was collected. *)
Definition collectPayload (outputSample : OutputSample) (samplePresentationTime : Z)
           (isKeyFrame : bool) : Method bool :=
  match contiguous outputSample with
  | Some mediaBuffer =>
      match locked mediaBuffer with
      | Some encodedData =>
          if 0 <? sizeOf encodedData then
            let flags :=
              if isKeyFrame then Z.lor BUFFER_FLAG_NONE BUFFER_FLAG_KEY_FRAME
              else BUFFER_FLAG_NONE in
            modify (push_back {| data_ := encodedData;
                                 presentationTime_ := samplePresentationTime;
                                 bufferFlags_ := flags |}) ;;;
            ret true
          else ret false
      | None => ret false
      end
  | None => ret false
  end.

(** What one pass of the [while (true)] loop of [drainOutputSamples] does
    with a successful output: the configuration sample, if due, then the
    payload.  Answers whether a payload sample was collected. *)
Definition collectOutput (h : Handle) (outputSample : OutputSample) : Method bool :=
  let samplePresentationTime :=
    Z.quot (match sampleTime outputSample with Some t => t | None => 0 end) 10 in
  let isKeyFrame := isCleanPoint outputSample in
  e <- get ;;
  (if isKeyFrame && negb (codecConfigEmitted_ e)
   then emitCodecConfig h samplePresentationTime
   else ret tt) ;;;
  collectPayload outputSample samplePresentationTime isKeyFrame.

(** The size of the caller-provided output buffer of [drainOutputSamples]:
    [bufferSize = outputBufferSize_; if (bufferSize == 0u) bufferSize = width_ * height_]. *)
Definition callerBufferSize (e : VideoEncoder) : Z :=
  if outputBufferSize_ e =? 0 then u32 (width_ e * height_ e) else outputBufferSize_ e.

(** One pass of the loop from [ProcessOutput] onwards; [continue] is the
    rest of the loop. *)
Definition drainOutput (h : Handle) (callerBuffer : option Z) (samplesCollected : Z)
           (continue : Z -> Method Z) : Method Z :=
  '(processOutputResult, pSample) <- processOutput h callerBuffer ;;
  if processOutputResult =? MF_E_TRANSFORM_NEED_MORE_INPUT then ret samplesCollected
  else if processOutputResult =? MF_E_TRANSFORM_STREAM_CHANGE then
    '(hr, outputType) <- call (GetOutputAvailableType h 0) ;;
    (if isOk hr then call (SetOutputType h outputType) ;;; ret tt else ret tt) ;;;
    '(hr, streamInfo) <- call (GetOutputStreamInfo h) ;;
    (if isOk hr then
       modify (set_streamInfo (providesSamples streamInfo) (cbSize streamInfo))
     else ret tt) ;;;
    continue samplesCollected
  else if negb (isOk processOutputResult) then ret samplesCollected
  else
    match pSample with
    | Some outputSample =>
        collected <- collectOutput h outputSample ;;
        continue (if collected then samplesCollected + 1 else samplesCollected)
    | None => continue samplesCollected
    end.

(** The [while (true)] loop of [drainOutputSamples]. *)
Fixpoint drainLoop (fuel : nat) (h : Handle) (samplesCollected : Z) : Method Z :=
  match fuel with
  | O => diverge
  | S fuel' =>
      e <- get ;;
      if negb (mftProvidesOutputSamples_ e) then
        hr <- call MFCreateSample ;;
        if negb (isOk hr) then ret samplesCollected
        else
          let bufferSize := callerBufferSize e in
          hr <- call (MFCreateMemoryBuffer bufferSize) ;;
          if negb (isOk hr) then ret samplesCollected
          else drainOutput h (Some bufferSize) samplesCollected (drainLoop fuel' h)
      else drainOutput h None samplesCollected (drainLoop fuel' h)
  end.

(** [VideoEncoder::drainOutputSamples]; called with a valid [encoder_]
    only ([encoder_->ProcessOutput]). *)
Definition drainOutputSamples (fuel : nat) : Method Z :=
  e <- get ;;
  match encoder_ e with
  | Some h => drainLoop fuel h 0
  | None => undefined
  end.

(** [VideoEncoder::stop] *)
Definition stop (fuel : nat) : Method bool :=
  e <- get ;;
  match encoder_ e with
  | None => ret true
  | Some h =>
      if negb (isStarted_ e) then ret true
      else
        processMessage h MFT_MESSAGE_COMMAND_DRAIN ;;;
        drainOutputSamples fuel ;;;
        processMessage h MFT_MESSAGE_NOTIFY_END_OF_STREAM ;;;
        processMessage h MFT_MESSAGE_NOTIFY_END_STREAMING ;;;
        modify (set_isStarted_ false) ;;;
        ret true
  end.

(** [int64_t(presentationTime) * 10], two's complement. *)
Definition toSampleTime (presentationTime : Z) : Z :=
  let s64 z := (z + 2 ^ 63) mod 2 ^ 64 - 2 ^ 63 in
  s64 (s64 presentationTime * 10).

(** [VideoEncoder::pushFrame] from [ProcessInput] onwards. *)
Definition submit (fuel : nat) (h : Handle) (inputSample : InputSample) : Method bool :=
  processInputResult <- processInput h inputSample ;;
  if processInputResult =? MF_E_NOTACCEPTING then
    drainOutputSamples fuel ;;;
    processInputResult <- processInput h inputSample ;;
    if negb (isOk processInputResult) then ret false
    else
      drainOutputSamples fuel ;;;
      ret true
  else if negb (isOk processInputResult) then
    (if processInputResult =? MF_E_INVALIDMEDIATYPE then
       (* diagnostics for the log *)
       call (GetInputCurrentType h) ;;; ret tt
     else ret tt) ;;;
    ret false
  else
    drainOutputSamples fuel ;;;
    ret true.

(** [VideoEncoder::pushFrame] *)
Definition pushFrame (fuel : nat) (frame : InputFrame) (presentationTime : Z)
  : Method bool :=
  if negb (frameIsValid frame) then ret false
  else
    e <- get ;;
    match encoder_ e with
    | None => ret false
    | Some h =>
        if negb (isStarted_ e) then ret false
        else if negb (frameWidth frame =? width_ e) || negb (frameHeight frame =? height_ e)
        then ret false
        else
          currentInputType <- call (GetInputCurrentType h) ;;
          let expectedStride :=
            match currentInputType with
            | Some t =>
                match MF_MT_DEFAULT_STRIDE t with
                | Some actualStride => actualStride
                | None => width_ e
                end
            | None => width_ e
            end in
          let yPlaneSize := u32 (expectedStride * height_ e) in
          let uvPlaneSize := u32 (expectedStride * (height_ e / 2)) in
          let nv12BufferSize := u32 (yPlaneSize + uvPlaneSize) in
          hr <- call (MFCreateMemoryBuffer nv12BufferSize) ;;
          if negb (isOk hr) then ret false
          else
            '(hr, bufferData) <- call LockBuffer ;;
            if negb (isOk hr) || negb bufferData then ret false
            else
              (* LONG(expectedStride) *)
              let stride := (expectedStride + 2 ^ 31) mod 2 ^ 32 - 2 ^ 31 in
              let absStride := u32 (if stride <? 0 then - stride else stride) in
              let paddingElements :=
                match strideBytes2paddingElements (width_ e) absStride with
                | Some p => p
                | None => 0
                end in
              converted <-
                call (convertAndCopy frame (width_ e) (height_ e) absStride paddingElements) ;;
              if negb converted then ret false
              else
                hr <- call MFCreateSample ;;
                if negb (isOk hr) then ret false
                else
                  inputMediaType <- call (GetInputCurrentType h) ;;
                  let sampleDuration :=
                    match inputMediaType with
                    | Some t =>
                        match MF_MT_FRAME_RATE t with
                        | Some (frameRateNum, frameRateDenom) =>
                            if 0 <? frameRateNum
                            then Some (Z.quot (frameRateDenom * 10000000) frameRateNum)
                            else None
                        | None => None
                        end
                    | None => None
                    end in
                  let inputSample :=
                    {| currentLength := nv12BufferSize;
                       payload := Nv12Picture frame absStride paddingElements;
                       inputSampleTime := toSampleTime presentationTime;
                       inputSampleDuration := sampleDuration |} in
                  submit fuel h inputSample
    end.

(** [VideoEncoder::popSample] *)
Definition popSample (fuel : nat) : Method Sample :=
  e <- get ;;
  match encodedSamples_ e with
  | sample :: rest =>
      modify (set_encodedSamples_ rest) ;;;
      ret sample
  | [] =>
      match encoder_ e with
      | None => ret Sample_
      | Some _ =>
          if negb (isStarted_ e) then ret Sample_
          else
            drainOutputSamples fuel ;;;
            e <- get ;;
            match encodedSamples_ e with
            | sample :: rest =>
                modify (set_encodedSamples_ rest) ;;;
                ret sample
            | [] => ret Sample_
            end
      end
  end.

(** [VideoEncoder::release] *)
Definition release (fuel : nat) : Method unit :=
  e <- get ;;
  (match encoder_ e with
   | Some h =>
       (if isStarted_ e then stop fuel ;;; ret tt else ret tt) ;;;
       call_ (ReleaseTransform h) ;;;
       modify (set_encoder_ None)
   | None => ret tt
   end) ;;;
  modify (set_encodedSamples_ []) ;;;
  modify (set_size 0 0) ;;;
  modify (set_streamInfo false 0) ;;;
  modify (set_codecConfigEmitted_ false) ;;;
  e <- get ;;
  if mfStarted_ e then
    call_ MFShutdown ;;;
    modify (set_mfStarted_ false)
  else ret tt.

End Methods.

End Encoder.

(** ** Reference notions the properties are stated with

    These follow the wording of the documentation, not the code. *)

Module Reference.

(** The value of four bytes read as a big-endian number. *)
Definition be32 (b0 b1 b2 b3 : byte) : Z :=
  u8 b0 * 2 ^ 24 + u8 b1 * 2 ^ 16 + u8 b2 * 2 ^ 8 + u8 b3.

(** Direct AVCC parsing: the payloads of a buffer that is a concatenation
    of units, each a 4-byte big-endian length, positive and fitting the
    rest of the buffer, followed by that many bytes.  [None] for a buffer
    that is not of this form. *)
Fixpoint parseAvccFrom (fuel : nat) (b : list byte) : option (list (list byte)) :=
  match b with
  | [] => Some []
  | b0 :: b1 :: b2 :: b3 :: rest =>
      match fuel with
      | O => None
      | S fuel' =>
          let n := Z.to_nat (be32 b0 b1 b2 b3) in
          if (n =? 0)%nat || (List.length rest <? n)%nat then None
          else
            match parseAvccFrom fuel' (skipn n rest) with
            | Some nals => Some (firstn n rest :: nals)
            | None => None
            end
      end
  | _ => None
  end.

Definition parseAvcc (b : list byte) : option (list (list byte)) :=
  parseAvccFrom (List.length b) b.

(** [00 00 00 01] *)
Definition isStartCode4 (b0 b1 b2 b3 : byte) : bool :=
  (u8 b0 =? 0) && (u8 b1 =? 0) && (u8 b2 =? 0) && (u8 b3 =? 1).

(** Scanning for 4-byte start codes, left to right: the bytes before the
    first start code, and the payload after each start code. *)
Fixpoint scanStartCodes (l : list byte) : list byte * list (list byte) :=
  match l with
  | [] => ([], [])
  | b0 :: t =>
      match t with
      | b1 :: b2 :: b3 :: rest =>
          if isStartCode4 b0 b1 b2 b3 then
            let '(payload, nals) := scanStartCodes rest in ([], payload :: nals)
          else
            let '(payload, nals) := scanStartCodes t in (b0 :: payload, nals)
      | _ =>
          let '(payload, nals) := scanStartCodes t in (b0 :: payload, nals)
      end
  end.

(** The NAL payloads of an Annex-B stream delimited by 4-byte start codes. *)
Definition splitAnnexB (l : list byte) : list (list byte) := snd (scanStartCodes l).

(** Whether the bytes [00 00 00 01] occur somewhere in [l]. *)
Fixpoint hasStartCode (l : list byte) : bool :=
  match l with
  | [] => false
  | b0 :: t =>
      match t with
      | b1 :: b2 :: b3 :: _ => isStartCode4 b0 b1 b2 b3 || hasStartCode t
      | _ => false
      end
  end.

(** The Annex-B stream of a sequence of payloads: each behind a 4-byte
    start code. *)
Definition annexB (nals : list (list byte)) : list byte :=
  flat_map (fun payload => startCode ++ payload) nals.

(** A buffer that begins with the 4-byte start code. *)
Definition beginsWithStartCode4 (b : list byte) : bool :=
  match b with
  | b0 :: b1 :: b2 :: b3 :: _ => isStartCode4 b0 b1 b2 b3
  | _ => false
  end.

(** A buffer that begins with the 3-byte start code [00 00 01]. *)
Definition beginsWithStartCode3 (b : list byte) : bool :=
  match b with
  | b0 :: b1 :: b2 :: _ => (u8 b0 =? 0) && (u8 b1 =? 0) && (u8 b2 =? 1)
  | _ => false
  end.

(** The first four bytes of a buffer as a big-endian number. *)
Definition leadingLength (b : list byte) : Z :=
  be32 (nth 0 b x00) (nth 1 b x00) (nth 2 b x00) (nth 3 b x00).

Definition isProcessOutput (e : Event) : bool :=
  match e with EvProcessOutput _ _ _ _ => true | _ => false end.

Definition isProcessInput (e : Event) : bool :=
  match e with EvProcessInput _ _ _ => true | _ => false end.

(** An output request after which [drainOutputSamples] keeps looping. *)
Definition continues (hr : HRESULT) : bool :=
  isOk hr || (hr =? MF_E_TRANSFORM_STREAM_CHANGE).

(** An output request that is answered by a success or a stream change. *)
Definition keepsDraining (e : Event) : bool :=
  match e with
  | EvProcessOutput _ _ hr _ => continues hr
  | _ => false
  end.

(** The transform calls of one pass of [drainOutputSamples]: output
    requests only, each but the last one answered by a success or a stream
    change. *)
Fixpoint isDrainPass (evs : list Event) : bool :=
  match evs with
  | [] => true
  | EvProcessOutput _ _ hr _ :: rest =>
      match rest with
      | [] => true
      | _ => continues hr && isDrainPass rest
      end
  | _ => false
  end.

(** A pass of [drainOutputSamples] that ran until the transform had no
    more output: output requests only, the last one answered by neither a
    success nor a stream change (more input needed, or an error), each one
    before it by one of the two. *)
Fixpoint isCompletePass (evs : list Event) : bool :=
  match evs with
  | [] => false
  | EvProcessOutput _ _ hr _ :: rest =>
      match rest with
      | [] => negb (continues hr)
      | _ => continues hr && isCompletePass rest
      end
  | _ => false
  end.

(** The number of output requests among transform calls. *)
Definition outputRequests (evs : list Event) : nat :=
  List.length (filter isProcessOutput evs).

(** The sample times of the inputs among transform calls, in order. *)
Definition inputTimes (evs : list Event) : list Z :=
  flat_map (fun e => match e with
                     | EvProcessInput _ inputSample _ => [inputSampleTime inputSample]
                     | _ => []
                     end) evs.

(** The payload sample a successful output request carries, if any. *)
Definition payloadOf (e : Event) : list Encoder.Sample :=
  match e with
  | EvProcessOutput _ _ hr (Some outputSample) =>
      if isOk hr then
        match contiguous outputSample with
        | Some mediaBuffer =>
            match locked mediaBuffer with
            | Some encodedData =>
                if 0 <? sizeOf encodedData then
                  [ {| Encoder.data_ := encodedData;
                       Encoder.presentationTime_ :=
                         Z.quot (match sampleTime outputSample with
                                 | Some t => t | None => 0 end) 10;
                       Encoder.bufferFlags_ :=
                         match cleanPoint outputSample with
                         | Some c => if c =? 0 then Encoder.BUFFER_FLAG_NONE
                                     else Encoder.BUFFER_FLAG_KEY_FRAME
                         | None => Encoder.BUFFER_FLAG_NONE
                         end |} ]
                else []
            | None => []
            end
        | None => []
        end
      else []
  | _ => []
  end.

Definition payloadsOf (evs : list Event) : list Encoder.Sample := flat_map payloadOf evs.

Definition configurationSamples (q : list Encoder.Sample) : nat :=
  List.length (filter Encoder.isConfiguration q).

Definition mediaSamples (q : list Encoder.Sample) : list Encoder.Sample :=
  filter (fun s => negb (Encoder.isConfiguration s)) q.

(** The members of the encoder that draining leaves alone. *)
Definition sameSession (e e' : Encoder.VideoEncoder) : Prop :=
  Encoder.encoder_ e' = Encoder.encoder_ e
  /\ Encoder.isStarted_ e' = Encoder.isStarted_ e
  /\ Encoder.width_ e' = Encoder.width_ e
  /\ Encoder.height_ e' = Encoder.height_ e
  /\ Encoder.mfStarted_ e' = Encoder.mfStarted_ e.

(** From [e] to [e'] samples were appended to the queue: the media samples
    [payload], and at most one configuration sample, none if one had been
    emitted before; [codecConfigEmitted_] is set by that sample only and is
    never cleared. *)
Definition Enqueued (e e' : Encoder.VideoEncoder) (payload : list Encoder.Sample) : Prop :=
  sameSession e e'
  /\ exists new,
      Encoder.encodedSamples_ e' = Encoder.encodedSamples_ e ++ new
      /\ mediaSamples new = payload
      /\ (configurationSamples new <= if Encoder.codecConfigEmitted_ e then 0 else 1)%nat
      /\ Encoder.codecConfigEmitted_ e'
         = Encoder.codecConfigEmitted_ e || (0 <? configurationSamples new)%nat.

(** The configuration samples handed out and queued so far are covered by
    [codecConfigEmitted_]: none while it is false, at most one after. *)
Definition Budget (popped : list Encoder.Sample) (e : Encoder.VideoEncoder) : Prop :=
  (configurationSamples popped + configurationSamples (Encoder.encodedSamples_ e)
   <= if Encoder.codecConfigEmitted_ e then 1 else 0)%nat.

(** From [e] with [popped] handed out to [e'] with [popped'] handed out,
    [codecConfigEmitted_] was not cleared and the budget was kept. *)
Definition Keeps (popped : list Encoder.Sample) (e : Encoder.VideoEncoder)
           (popped' : list Encoder.Sample) (e' : Encoder.VideoEncoder) : Prop :=
  (Encoder.codecConfigEmitted_ e = true -> Encoder.codecConfigEmitted_ e' = true)
  /\ (Budget popped e -> Budget popped' e').

(** A call of the encoder's public interface between [initialize] and
    [release]. *)
Inductive Op :=
| OpStart
| OpStop
| OpPushFrame (frame : InputFrame) (presentationTime : Z)
| OpPopSample.

Section Ops.

Context {W : Type} `{Platform W}.
Local Open Scope run_scope.

(** One pass of [drainOutputSamples] from [s] to [s']: the transform
    calls [evs], and the samples they carried enqueued. *)
Definition Drained (s s' : St Encoder.VideoEncoder W) (evs : list Event) : Prop :=
  Enqueued (this s) (this s') (payloadsOf evs)
  /\ trace s' = trace s ++ evs
  /\ isDrainPass evs = true.

(** The platform can refuse the sample or the memory buffer of an output
    request. *)
Definition bufferRefused : Prop :=
  exists w : W,
    isOk (fst (MFCreateSample w)) = false
    \/ exists n, isOk (fst (MFCreateMemoryBuffer n w)) = false.

(** A pass of [drainOutputSamples] as the loop ends it: on the first
    output request answered by neither a success nor a stream change, or
    before that on a buffer the platform refused. *)
Definition Finished (evs : list Event) : Prop :=
  isCompletePass evs = true \/ (isDrainPass evs = true /\ bufferRefused).

(** The transform calls of a submission by [VideoEncoder::pushFrame] that
    answered [b]: one input that failed otherwise than by backpressure; or
    one accepted input and a drain pass; or one input refused by
    backpressure, a drain pass, the same input once more, and a drain pass
    if that was accepted. *)
Definition Submitted (h : Handle) (i : InputSample) (b : bool) (evs : list Event) : Prop :=
  (exists hr,
      evs = [EvProcessInput h i hr]
      /\ isOk hr = false /\ hr <> MF_E_NOTACCEPTING /\ b = false)
  \/ (exists hr pass,
         evs = EvProcessInput h i hr :: pass
         /\ isOk hr = true /\ Finished pass /\ b = true)
  \/ (exists pass1 hr2 pass2,
         evs = EvProcessInput h i MF_E_NOTACCEPTING :: pass1
                 ++ EvProcessInput h i hr2 :: pass2
         /\ Finished pass1
         /\ b = isOk hr2
         /\ (if isOk hr2 then Finished pass2 else pass2 = [])).

(** A pass of [drainOutputSamples] still running after [n] output
    requests, every one of which the transform answered by a success or
    a stream change. *)
Definition Starved (n : nat) (s s' : St Encoder.VideoEncoder W) : Prop :=
  exists evs, Drained s s' evs /\ forallb keepsDraining evs = true /\ List.length evs = n.

(** The configuration sample that is due when the encoder in state [s]
    handles the output [outputSample]: for a clean point, while no
    configuration sample has been emitted, the sequence header of the
    current output type, when the type has one that is not empty, at the
    time of the output. *)
Definition configurationDue (h : Handle) (outputSample : OutputSample)
           (s : St Encoder.VideoEncoder W) : list Encoder.Sample :=
  if Encoder.isCleanPoint outputSample && negb (Encoder.codecConfigEmitted_ (this s)) then
    match fst (GetOutputCurrentType h (world s)) with
    | Some outputType =>
        match MF_MT_MPEG_SEQUENCE_HEADER outputType with
        | Some header =>
            if 0 <? sizeOf header then
              [ {| Encoder.data_ := header;
                   Encoder.presentationTime_ :=
                     Z.quot (match sampleTime outputSample with
                             | Some t => t | None => 0 end) 10;
                   Encoder.bufferFlags_ := Encoder.BUFFER_FLAG_CODEC_CONFIG |} ]
            else []
        | None => []
        end
    | None => []
    end
  else [].

(** Runs the calls in order; answers the samples [popSample] returned. *)
Fixpoint runOps (fuel : nat) (ops : list Op) (popped : list Encoder.Sample)
  : M (St Encoder.VideoEncoder W) (list Encoder.Sample) :=
  match ops with
  | [] => ret popped
  | OpStart :: rest => Encoder.start ;;; runOps fuel rest popped
  | OpStop :: rest => Encoder.stop fuel ;;; runOps fuel rest popped
  | OpPushFrame frame t :: rest =>
      Encoder.pushFrame fuel frame t ;;; runOps fuel rest popped
  | OpPopSample :: rest =>
      sample <- Encoder.popSample fuel ;;
      runOps fuel rest (popped ++ [sample])
  end.

End Ops.

(** *** Sessions over their lifetime *)


(** The members of the decoder other than the stream information. *)
Definition sameDecoder (d d' : Decoder.VideoDecoder) : Prop :=
  Decoder.decoder_ d' = Decoder.decoder_ d
  /\ Decoder.isStarted_ d' = Decoder.isStarted_ d
  /\ Decoder.width_ d' = Decoder.width_ d
  /\ Decoder.height_ d' = Decoder.height_ d
  /\ Decoder.mfStarted_ d' = Decoder.mfStarted_ d.

(** The presentation time [popFrame] leaves in the caller's variable and
    stamps on a valid frame, for an output sample: the sample time in
    microseconds when the sample has one. *)
Definition poppedTime (presentationTime : option Z) (outputSample : OutputSample)
  : option Z :=
  match presentationTime with
  | Some previous =>
      match sampleTime outputSample with
      | Some t => Some (Z.quot t 10)
      | None => Some previous
      end
  | None => None
  end.

(** A sample as [drainOutputSamples] builds them: not empty, and flagged as
    nothing, as a key frame or as the codec configuration. *)
Definition wellFormed (s : Encoder.Sample) : bool :=
  Encoder.Sample_isValid s
  && ((Encoder.bufferFlags_ s =? Encoder.BUFFER_FLAG_NONE)
      || (Encoder.bufferFlags_ s =? Encoder.BUFFER_FLAG_KEY_FRAME)
      || (Encoder.bufferFlags_ s =? Encoder.BUFFER_FLAG_CODEC_CONFIG)).

(** From [e] to [e'] well-formed samples were appended to the queue, and
    nothing else happened to it. *)
Definition Grown (e e' : Encoder.VideoEncoder) : Prop :=
  exists new,
    Encoder.encodedSamples_ e' = Encoder.encodedSamples_ e ++ new
    /\ forallb wellFormed new = true.

(** A call on the transform that submits input or requests output. *)
Definition isTransfer (e : Event) : bool := isProcessInput e || isProcessOutput e.

(** The same of an encoder; without a transform the queue is empty and no
    configuration sample counts as emitted. *)
Definition EncoderInvariant (e : Encoder.VideoEncoder) : Prop :=
  match Encoder.encoder_ e with
  | Some _ =>
      Encoder.mfStarted_ e = true
      /\ Encoder.width_ e <> 0 /\ Encoder.width_ e <= Encoder.maximalWidth_
      /\ Encoder.height_ e <> 0 /\ Encoder.height_ e <= Encoder.maximalHeight_
      /\ forallb wellFormed (Encoder.encodedSamples_ e) = true
  | None =>
      Encoder.isStarted_ e = false /\ Encoder.width_ e = 0 /\ Encoder.height_ e = 0
      /\ Encoder.mftProvidesOutputSamples_ e = false /\ Encoder.outputBufferSize_ e = 0
      /\ Encoder.codecConfigEmitted_ e = false /\ Encoder.encodedSamples_ e = []
  end.


(** A call of the encoder's public interface. *)
Inductive EncoderCall :=
| CallEncoderInitialize (width height : Z) (mime : string) (frameRate : Double.double)
                        (bitrate iFrameInterval : Z)
| CallEncoderRelease
| CallEncoder (op : Op).

Section Calls.

Context {W : Type} `{Platform W}.
Local Open Scope run_scope.



(** Runs the calls in order; answers the samples [popSample] returned. *)
Fixpoint runEncoder (fuel : nat) (calls : list EncoderCall) (popped : list Encoder.Sample)
  : M (St Encoder.VideoEncoder W) (list Encoder.Sample) :=
  match calls with
  | [] => ret popped
  | CallEncoderInitialize width height mime frameRate bitrate iFrameInterval :: rest =>
      Encoder.initialize fuel width height mime frameRate bitrate iFrameInterval ;;;
      runEncoder fuel rest popped
  | CallEncoderRelease :: rest => Encoder.release fuel ;;; runEncoder fuel rest popped
  | CallEncoder OpStart :: rest => Encoder.start ;;; runEncoder fuel rest popped
  | CallEncoder OpStop :: rest => Encoder.stop fuel ;;; runEncoder fuel rest popped
  | CallEncoder (OpPushFrame frame t) :: rest =>
      Encoder.pushFrame fuel frame t ;;; runEncoder fuel rest popped
  | CallEncoder OpPopSample :: rest =>
      sample <- Encoder.popSample fuel ;;
      runEncoder fuel rest (popped ++ [sample])
  end.

(** From [s] to [s'] the encoder made the transform calls [evs], all of
    them inputs or output requests, and appended the samples they carried
    to its queue. *)
Definition Moved (s s' : St Encoder.VideoEncoder W) (evs : list Event) : Prop :=
  trace s' = trace s ++ evs
  /\ Enqueued (this s) (this s') (payloadsOf evs)
  /\ Grown (this s) (this s')
  /\ forallb isTransfer evs = true.

End Calls.



(** The media samples with content among [q]: what a caller that skips
    invalid and configuration samples sees. *)
Definition validMedia (q : list Encoder.Sample) : list Encoder.Sample :=
  filter (fun s => Encoder.Sample_isValid s && negb (Encoder.isConfiguration s)) q.

(** The greatest presentation time, in microseconds, whose sample time in
    100-nanosecond units fits [int64_t]. *)
Definition maximalPresentationTime : Z := (2 ^ 63 - 1) / 10.

(** *** Byte streams, written rather than read *)

(** The byte of value [z mod 256]. *)
Definition byteOf (z : Z) : byte :=
  match Byte.of_N (Z.to_N (z mod 256)) with
  | Some b => b
  | None => x00
  end.

(** [n] as four and as two big-endian bytes. *)
Definition be32bytes (n : Z) : list byte :=
  [byteOf (n / 2 ^ 24); byteOf (n / 2 ^ 16); byteOf (n / 2 ^ 8); byteOf n].

Definition be16bytes (n : Z) : list byte := [byteOf (n / 2 ^ 8); byteOf n].

(** The AVCC stream of a sequence of payloads: each behind its length as
    four big-endian bytes. *)
Definition avcc (nals : list (list byte)) : list byte :=
  flat_map (fun payload => be32bytes (sizeOf payload) ++ payload) nals.

(** Payloads each behind their length as two big-endian bytes, as the
    parameter sets of a decoder configuration record are stored. *)
Definition units16 (nals : list (list byte)) : list byte :=
  flat_map (fun payload => be16bytes (sizeOf payload) ++ payload) nals.

(** Bytes that do not begin with a complete AVCC unit: fewer than four of
    them, or a length prefix that is zero or exceeds what follows it. *)
Definition incompleteUnit (tail : list byte) : bool :=
  (sizeOf tail <? 4) || (leadingLength tail =? 0) || (sizeOf tail - 4 <? leadingLength tail).

(** An AVCDecoderConfigurationRecord (ISO/IEC 14496-15): five header bytes,
    a byte whose low five bits count the sequence parameter sets, these,
    a byte counting the picture parameter sets, these, and whatever
    follows. *)
Definition avcConfigurationRecord (header : list byte) (reserved : byte)
           (spss ppss : list (list byte)) (trailing : list byte) : list byte :=
  header ++ [reserved] ++ units16 spss
         ++ [byteOf (Z.of_nat (List.length ppss))] ++ units16 ppss ++ trailing.

(** One array of an HEVCDecoderConfigurationRecord: the byte carrying the
    unit type, the number of units as two bytes, and the units. *)
Definition hevcArray (a : byte * list (list byte)) : list byte :=
  fst a :: be16bytes (Z.of_nat (List.length (snd a))) ++ units16 (snd a).

(** An HEVCDecoderConfigurationRecord: 22 header bytes, a byte counting the
    arrays, the arrays, and whatever follows. *)
Definition hevcConfigurationRecord (header : list byte)
           (arrays : list (byte * list (list byte))) (trailing : list byte) : list byte :=
  header ++ [byteOf (Z.of_nat (List.length arrays))] ++ flat_map hevcArray arrays ++ trailing.

(** What a loop of the conversion appended to the output it was given:
    nothing, or bytes beginning with a start code. *)
Definition Appended (acc out : list byte) : Prop :=
  out = acc \/ exists rest, out = acc ++ startCode ++ rest.

(** *** Key-frame cadence *)



(** The payloads all below [2 ^ 16] bytes. *)
Definition fit16 (nals : list (list byte)) : bool :=
  forallb (fun payload => sizeOf payload <? 2 ^ 16) nals.

(** The arrays all of fewer than [2 ^ 16] units, each below [2 ^ 16] bytes. *)
Definition fitArrays (arrays : list (byte * list (list byte))) : bool :=
  forallb (fun a => (Z.of_nat (List.length (snd a)) <? 2 ^ 16) && fit16 (snd a)) arrays.

End Reference.

Import Reference.

(** ** A scripted platform

    A transform that answers [ProcessInput] and [ProcessOutput] from a
    script, used to run the sessions on concrete inputs. *)

Module Scripted.

Record Script := {
  (* the answers of ProcessInput, in order; S_OK once used up *)
  inputResults : list HRESULT;
  (* the answers of ProcessOutput, in order; MF_E_TRANSFORM_NEED_MORE_INPUT once used up *)
  outputResults : list (HRESULT * option OutputSample);
  (* the answers of GetOutputCurrentType, in order; none once used up *)
  outputTypes : list (option MediaType);
  (* the answer of GetOutputStreamInfo *)
  streamInfo : StreamInfo;
  (* the answer of ICodecAPI::SetValue *)
  gopResult : HRESULT
}.

Definition nv12Type : MediaType :=
  {| MF_MT_MAJOR_TYPE := Some MFMediaType_Video; MF_MT_SUBTYPE := Some MFVideoFormat_NV12;
     MF_MT_FRAME_SIZE := None; MF_MT_FRAME_RATE := Some (30000, 1000);
     MF_MT_AVG_BITRATE := None; MF_MT_INTERLACE_MODE := None;
     MF_MT_DEFAULT_STRIDE := None; MF_MT_MPEG_SEQUENCE_HEADER := None |}.

Definition availableType (typeIndex : Z) (w : Script) : (HRESULT * MediaType) * Script :=
  if typeIndex =? 0 then ((S_OK, nv12Type), w) else ((MF_E_NO_MORE_TYPES, emptyMediaType), w).

#[global] Instance platform : Platform Script := {|
  MFStartup w := (S_OK, w);
  MFShutdown w := w;
  MFTEnumEx _ _ _ w := ((S_OK, true, 1), w);
  ActivateObject _ w := ((S_OK, Some 0%nat), w);
  ReleaseTransform _ w := w;
  MFCreateMediaType w := (S_OK, w);
  MFCreateSample w := (S_OK, w);
  MFCreateMemoryBuffer _ w := (S_OK, w);
  LockBuffer w := ((S_OK, true), w);
  SetInputType _ _ w := (S_OK, w);
  SetOutputType _ _ w := (S_OK, w);
  GetInputAvailableType _ := availableType;
  GetOutputAvailableType _ := availableType;
  GetInputCurrentType _ w := (Some nv12Type, w);
  GetOutputCurrentType _ w :=
    match outputTypes w with
    | t :: rest =>
        (t, {| inputResults := inputResults w; outputResults := outputResults w;
               outputTypes := rest; streamInfo := streamInfo w; gopResult := gopResult w |})
    | [] => (None, w)
    end;
  GetOutputStreamInfo _ w := ((S_OK, streamInfo w), w);
  ProcessMessage _ _ w := (S_OK, w);
  ProcessInput _ _ w :=
    match inputResults w with
    | hr :: rest =>
        (hr, {| inputResults := rest; outputResults := outputResults w;
                outputTypes := outputTypes w; streamInfo := streamInfo w;
                gopResult := gopResult w |})
    | [] => (S_OK, w)
    end;
  ProcessOutput _ _ w :=
    match outputResults w with
    | r :: rest =>
        (r, {| inputResults := inputResults w; outputResults := rest;
               outputTypes := outputTypes w; streamInfo := streamInfo w;
               gopResult := gopResult w |})
    | [] => ((MF_E_TRANSFORM_NEED_MORE_INPUT, None), w)
    end;
  QueryCodecAPI _ w := (true, w);
  SetGopSize _ _ w := (gopResult w, w);
  convertAndCopy _ _ _ _ _ w := (true, w);
  strideBytes2paddingElements width strideBytes :=
    if width <=? strideBytes then Some (strideBytes - width) else None;
  frameTypeIsValid width height := (0 <? width) && (0 <? height)
|}.

Definition script (inputs : list HRESULT) (outputs : list (HRESULT * option OutputSample))
           (types : list (option MediaType)) : Script :=
  {| inputResults := inputs; outputResults := outputs; outputTypes := types;
     streamInfo := {| dwFlags := 0; cbSize := 0 |}; gopResult := S_OK |}.

(** An output unit carrying [data], marked as a clean point or not. *)
Definition unit_ (keyFrame : bool) (time : Z) (data : list byte) : option OutputSample :=
  Some {| sampleTime := Some time;
          cleanPoint := Some (if keyFrame then 1 else 0);
          contiguous := Some {| buffer2D := None; locked := Some data |} |}.

(** An output type carrying a sequence header. *)
Definition typeWithHeader (header : list byte) : option MediaType :=
  Some {| MF_MT_MAJOR_TYPE := Some MFMediaType_Video;
          MF_MT_SUBTYPE := Some MFVideoFormat_H264;
          MF_MT_FRAME_SIZE := Some (64, 64); MF_MT_FRAME_RATE := Some (30000, 1000);
          MF_MT_AVG_BITRATE := None; MF_MT_INTERLACE_MODE := None;
          MF_MT_DEFAULT_STRIDE := None; MF_MT_MPEG_SEQUENCE_HEADER := Some header |}.

(** A started 64x64 encoder on transform 0, nothing emitted or queued. *)
Definition startedEncoder : Encoder.VideoEncoder :=
  {| Encoder.encoder_ := Some 0%nat; Encoder.width_ := 64; Encoder.height_ := 64;
     Encoder.isStarted_ := true; Encoder.mfStarted_ := true;
     Encoder.mftProvidesOutputSamples_ := true; Encoder.outputBufferSize_ := 0;
     Encoder.codecConfigEmitted_ := false; Encoder.encodedSamples_ := [] |}.

(** A started 64x64 decoder on transform 0 whose transform declared
    [declared] as its output size and provisions no samples. *)
Definition startedDecoder (declared : Z) : Decoder.VideoDecoder :=
  {| Decoder.decoder_ := Some 0%nat; Decoder.width_ := 64; Decoder.height_ := 64;
     Decoder.isStarted_ := true; Decoder.mfStarted_ := true;
     Decoder.mftProvidesOutputSamples_ := false; Decoder.outputBufferSize_ := declared |}.

Definition picture64 : InputFrame :=
  {| frameIsValid := true; frameWidth := 64; frameHeight := 64; framePixelFormat := 0 |}.

(** A started decoder whose transform holds one decoded frame. *)
Definition bufferedDecoder : St Decoder.VideoDecoder Script :=
  mkSt (startedDecoder 0) (script [] [(S_OK, unit_ true 0 [x65])] []) [].


(** A started encoder whose transform holds two encoded samples. *)
Definition bufferedEncoder : St Encoder.VideoEncoder Script :=
  mkSt startedEncoder
       (script [] [(S_OK, unit_ false 10 [x41]); (S_OK, unit_ false 20 [x42])] []) [].

(** A started encoder whose transform refuses the first input, accepts the
    second, and holds one encoded sample. *)
Definition refusingEncoder : St Encoder.VideoEncoder Script :=
  mkSt startedEncoder
       (script [MF_E_NOTACCEPTING; S_OK] [(S_OK, unit_ false 10 [x41])] []) [].

(** A started encoder whose transform hands over a key frame, then reports
    a stream change, then hands over a key frame of the new stream; the
    output type carries a sequence header before and after the change. *)
Definition renegotiatingEncoder : St Encoder.VideoEncoder Script :=
  mkSt startedEncoder
       (script []
               [(S_OK, unit_ true 0 [x65]);
                (MF_E_TRANSFORM_STREAM_CHANGE, None);
                (S_OK, unit_ true 330 [x66])]
               [typeWithHeader [x67]; typeWithHeader [x68]]) [].

(** A started encoder whose output type carries no sequence header when
    the first key frame is handed over, and one at the second. *)
Definition lateHeaderEncoder : St Encoder.VideoEncoder Script :=
  mkSt startedEncoder
       (script []
               [(S_OK, unit_ true 0 [x65]); (S_OK, unit_ true 330 [x66])]
               [Some nv12Type; typeWithHeader [x67]]) [].


(** 30.0, 29.97 and 0.3 as [double]. *)
Definition fps30 : Double.double := Double.ofZ 30.
Definition fps2997 : Double.double := Double.literal 0x1df851eb851eb8 (-48).
Definition fps03 : Double.double := Double.literal 0x13333333333333 (-54).

(** A fresh decoder and a fresh encoder. *)
Definition freshDecoder : St Decoder.VideoDecoder Script :=
  mkSt Decoder.VideoDecoder_ (script [] [] []) [].
Definition freshEncoder : St Encoder.VideoEncoder Script :=
  mkSt Encoder.VideoEncoder_ (script [] [] []) [].

(** A started decoder whose transform refuses the first input. *)
Definition refusingDecoder : St Decoder.VideoDecoder Script :=
  mkSt (startedDecoder 0) (script [MF_E_NOTACCEPTING] [] []) [].

End Scripted.

(** * Properties *)

(** ** Machine integers and byte reads *)

Section IntFacts.

Lemma u8_range (b : byte) : 0 <= u8 b < 256.
Proof.
    unfold u8. pose proof (Byte.to_N_bounded b) as Hb.
    split; [apply N2Z.is_nonneg|].
    apply N2Z.inj_le in Hb. simpl in Hb. lia.
Qed.

Lemma size_t_small (z : Z) : 0 <= z < 2 ^ 64 -> size_t z = z.
Proof. intros Hz. unfold size_t. now apply Z.mod_small. Qed.

Lemma u32_small (z : Z) : 0 <= z < 2 ^ 32 -> u32 z = z.
Proof. intros Hz. unfold u32. now apply Z.mod_small. Qed.

Lemma addsz_small (a b : Z) : 0 <= a + b < 2 ^ 64 -> addsz a b = a + b.
Proof. intros Hz. unfold addsz. now apply size_t_small. Qed.

Lemma land_shifted_low (hi lo k : Z) :
    0 <= k -> 0 <= lo < 2 ^ k -> Z.land (hi * 2 ^ k) lo = 0.
Proof.
    intros Hk Hlo. apply Z.bits_inj'. intros n Hn.
    rewrite Z.land_spec, Z.bits_0.
    destruct (Z.ltb_spec n k) as [Hlt | Hge].
    - rewrite Z.mul_pow2_bits_low by lia. reflexivity.
    - destruct (Z.eqb_spec lo 0) as [-> | Hne].
      + rewrite Z.bits_0. apply andb_false_r.
      + rewrite (Z.bits_above_log2 lo n); [apply andb_false_r | lia |].
        apply Z.log2_lt_pow2; [lia|].
        apply Z.lt_le_trans with (2 ^ k); [lia|].
        apply Z.pow_le_mono_r; lia.
Qed.

Lemma lor_shifted_low (hi lo k : Z) :
    0 <= k -> 0 <= lo < 2 ^ k -> Z.lor (hi * 2 ^ k) lo = hi * 2 ^ k + lo.
Proof.
    intros Hk Hlo.
    pose proof (Z.add_lor_land (hi * 2 ^ k) lo) as Hadd.
    rewrite (land_shifted_low hi lo k Hk Hlo) in Hadd. lia.
Qed.

Lemma shl32_byte (x k : Z) :
    0 <= x < 256 -> 0 <= k <= 24 -> shl32 x k = x * 2 ^ k.
Proof.
    intros Hx Hk. unfold shl32. rewrite Z.shiftl_mul_pow2 by lia.
    apply u32_small.
    assert (0 < 2 ^ k) by (apply Z.pow_pos_nonneg; lia).
    assert (2 ^ k <= 2 ^ 24) by (apply Z.pow_le_mono_r; lia).
    split; [nia|].
    apply Z.le_lt_trans with (255 * 2 ^ 24); [nia | reflexivity].
Qed.

End IntFacts.

Section CodecFacts.

Lemma at_range (data : list byte) (i : Z) : 0 <= at_ data i < 256.
Proof. apply u8_range. Qed.

(** The bit-level read of the code is the big-endian value of the four
    bytes. *)
Lemma read32_value (data : list byte) (o : Z) :
  0 <= o -> o + 3 < 2 ^ 64 ->
  read32 data o
  = at_ data o * 2 ^ 24 + at_ data (o + 1) * 2 ^ 16 + at_ data (o + 2) * 2 ^ 8
    + at_ data (o + 3).
Proof.
  intros Ho Hmax. unfold read32.
  rewrite !addsz_small by lia.
  pose proof (at_range data o) as H0.
  pose proof (at_range data (o + 1)) as H1.
  pose proof (at_range data (o + 2)) as H2.
  pose proof (at_range data (o + 3)) as H3.
  rewrite !shl32_byte by lia.
  rewrite (u32_small (at_ data (o + 3))) by lia.
  rewrite (lor_shifted_low (at_ data o) (at_ data (o + 1) * 2 ^ 16) 24) by lia.
  replace (at_ data o * 2 ^ 24 + at_ data (o + 1) * 2 ^ 16)
    with ((at_ data o * 2 ^ 8 + at_ data (o + 1)) * 2 ^ 16) by ring.
  rewrite (lor_shifted_low _ (at_ data (o + 2) * 2 ^ 8) 16) by lia.
  replace ((at_ data o * 2 ^ 8 + at_ data (o + 1)) * 2 ^ 16 + at_ data (o + 2) * 2 ^ 8)
    with ((at_ data o * 2 ^ 16 + at_ data (o + 1) * 2 ^ 8 + at_ data (o + 2)) * 2 ^ 8)
    by ring.
  rewrite (lor_shifted_low _ (at_ data (o + 3)) 8) by lia.
  ring.
Qed.

End CodecFacts.

(** ** Format detection *)

Lemma at_nth (b : list byte) (n : nat) : at_ b (Z.of_nat n) = u8 (nth n b x00).
Proof. unfold at_. now rewrite Nat2Z.id. Qed.

Lemma read32_leading (b : list byte) : read32 b 0 = leadingLength b.
Proof.
  rewrite read32_value by lia. unfold leadingLength, be32.
  change (0 + 1) with (Z.of_nat 1). change (0 + 2) with (Z.of_nat 2).
  change (0 + 3) with (Z.of_nat 3). change 0 with (Z.of_nat 0) at 1.
  now rewrite !at_nth.
Qed.

Lemma leadingLength_range (b : list byte) : 0 <= leadingLength b < 2 ^ 32.
Proof.
  unfold leadingLength, be32.
  pose proof (u8_range (nth 0 b x00)). pose proof (u8_range (nth 1 b x00)).
  pose proof (u8_range (nth 2 b x00)). pose proof (u8_range (nth 3 b x00)).
  lia.
Qed.

(** [isAvcc] on a regular sample, by the leading bytes. *)
Lemma isAvcc_sample (b : list byte) (size : Z) :
  4 <= size < 2 ^ 64 ->
  isAvcc (Some b) size false
  = if (at_ b 0 =? 0) && (at_ b 1 =? 0) && (at_ b 2 =? 0) && (at_ b 3 =? 1) then false
    else if (at_ b 0 =? 0) && (at_ b 1 =? 0) && (at_ b 2 =? 1)
         then (0 <? leadingLength b) && (leadingLength b <=? size - 4)
         else true.
Proof.
  intros Hsize. unfold isAvcc.
  destruct (Z.ltb_spec size 4) as [Hlt | _]; [lia|].
  rewrite read32_leading.
  unfold subsz. rewrite size_t_small by lia.
  destruct ((at_ b 0 =? 0) && (at_ b 1 =? 0) && (at_ b 2 =? 0) && (at_ b 3 =? 1)); [reflexivity|].
  destruct ((at_ b 0 =? 0) && (at_ b 1 =? 0) && (at_ b 2 =? 1)); [|reflexivity].
  now destruct ((0 <? leadingLength b) && (leadingLength b <=? size - 4)).
Qed.

Lemma beginsWithStartCode4_at (b : list byte) :
  4 <= sizeOf b ->
  beginsWithStartCode4 b
  = (at_ b 0 =? 0) && (at_ b 1 =? 0) && (at_ b 2 =? 0) && (at_ b 3 =? 1).
Proof.
  unfold sizeOf. destruct b as [|b0 [|b1 [|b2 [|b3 rest]]]]; simpl List.length; try lia.
  intros _. reflexivity.
Qed.

Lemma beginsWithStartCode3_at (b : list byte) :
  4 <= sizeOf b ->
  beginsWithStartCode3 b = (at_ b 0 =? 0) && (at_ b 1 =? 0) && (at_ b 2 =? 1).
Proof.
  unfold sizeOf. destruct b as [|b0 [|b1 [|b2 [|b3 rest]]]]; simpl List.length; try lia.
  intros _. reflexivity.
Qed.

Lemma beginsWithStartCode4_length (b : list byte) :
  beginsWithStartCode4 b = true -> 4 <= sizeOf b.
Proof.
  unfold sizeOf. destruct b as [|b0 [|b1 [|b2 [|b3 rest]]]]; simpl; try discriminate.
  intros _. lia.
Qed.

(** C6.  On a regular sample of at least four bytes, [isAvcc] answers false
    for a buffer beginning [00 00 00 01]; for a buffer beginning [00 00 01]
    it answers whether the first four bytes, read as a big-endian length, are
    positive and at most [size - 4]; for any other beginning it answers true;
    and [isAvcc({00,00,02,10}, 4, false)] is true. *)
Theorem isAvcc_regular_samples (b : list byte) :
  4 <= sizeOf b < 2 ^ 64 ->
  (beginsWithStartCode4 b = true -> isAvcc (Some b) (sizeOf b) false = false)
  /\ (beginsWithStartCode3 b = true ->
      (isAvcc (Some b) (sizeOf b) false = true
       <-> 0 < leadingLength b /\ leadingLength b <= sizeOf b - 4))
  /\ (beginsWithStartCode4 b = false -> beginsWithStartCode3 b = false ->
      isAvcc (Some b) (sizeOf b) false = true)
  /\ isAvcc (Some [x00; x00; x02; x10]) 4 false = true.
Proof.
  intros Hsize.
  assert (H4 : 4 <= sizeOf b) by lia.
  rewrite (isAvcc_sample b (sizeOf b) Hsize).
  rewrite (beginsWithStartCode4_at b H4), (beginsWithStartCode3_at b H4).
  assert (Hexcl : (at_ b 0 =? 0) && (at_ b 1 =? 0) && (at_ b 2 =? 1) = true ->
                  (at_ b 0 =? 0) && (at_ b 1 =? 0) && (at_ b 2 =? 0) && (at_ b 3 =? 1) = false).
  { intros H3. apply andb_prop in H3. destruct H3 as [_ H2]. apply Z.eqb_eq in H2.
    rewrite H2. simpl. now rewrite andb_false_r. }
  split; [|split; [|split]].
  - intros ->. reflexivity.
  - intros H3. rewrite (Hexcl H3), H3.
    rewrite andb_true_iff, Z.ltb_lt, Z.leb_le. reflexivity.
  - intros -> ->. reflexivity.
  - reflexivity.
Qed.

Lemma isAvcc_regular_samples_witness :
  4 <= sizeOf [x00; x00; x01; x02; x65] < 2 ^ 64
  /\ isAvcc (Some [x00; x00; x02; x10]) 4 false = true.
Proof.
  assert (Hsize : 4 <= sizeOf [x00; x00; x01; x02; x65] < 2 ^ 64) by (vm_compute; split; congruence).
  split; [exact Hsize|].
  apply (isAvcc_regular_samples [x00; x00; x01; x02; x65] Hsize).
Defined.

(** C10.  With a null pointer or a size below four, [isAvcc] and
    [convertAvccToAnnexB] answer false for every [isCodecConfig] and [mime],
    and the caller's [annexBData] is left as it was. *)
Theorem short_input_rejected (data : option (list byte)) (size : Z)
        (annexBData : list byte) (isCodecConfig : bool) (mime : string) :
  data = None \/ size < 4 ->
  isAvcc data size isCodecConfig = false
  /\ convertAvccToAnnexB data size annexBData isCodecConfig mime = Some (false, annexBData).
Proof.
  intros [-> | Hsize].
  - split; reflexivity.
  - unfold isAvcc, convertAvccToAnnexB.
    destruct data as [b|]; [|split; reflexivity].
    destruct (Z.ltb_spec size 4) as [_ | Hge]; [|lia].
    split; reflexivity.
Qed.

Lemma short_input_rejected_witness :
  (Some [x00; x00; x01] = None \/ 3 < 4)
  /\ isAvcc (Some [x00; x00; x01]) 3 true = false
  /\ convertAvccToAnnexB (Some [x00; x00; x01]) 3 [xff] true "video/hevc"%string = Some (false, [xff]).
Proof.
  assert (Hshort : Some [x00; x00; x01] = None \/ 3 < 4) by (right; reflexivity).
  split; [exact Hshort|].
  apply (short_input_rejected (Some [x00; x00; x01]) 3 [xff] true "video/hevc"%string Hshort).
Defined.

(** A successful non-configuration conversion has accepted the first length
    prefix. *)
Lemma convert_success_first_unit (b old out : list byte) (mime : string) :
  sizeOf b < 2 ^ 64 ->
  convertAvccToAnnexB (Some b) (sizeOf b) old false mime = Some (true, out) ->
  4 <= sizeOf b /\ 0 < leadingLength b /\ leadingLength b <= sizeOf b - 4 /\ out <> [].
Proof.
  intros Hmax. unfold convertAvccToAnnexB.
  destruct (Z.ltb_spec (sizeOf b) 4) as [Hlt | Hge]; [discriminate|].
  cbn [negb]. cbn [nalLoop].
  rewrite read32_leading.
  pose proof (leadingLength_range b) as HL.
  rewrite (addsz_small 0 4) by lia.
  destruct (Z.leb_spec (0 + 4) (sizeOf b)) as [_ | Hno]; [|lia].
  rewrite (addsz_small (0 + 4) (leadingLength b)) by lia.
  destruct (Z.eqb_spec (leadingLength b) 0) as [H0 | Hne]; [discriminate|].
  destruct (Z.ltb_spec (sizeOf b) (0 + 4 + leadingLength b)) as [Hover | Hfit]; [discriminate|].
  cbn [orb].
  destruct (nalLoop _ _ _ _ _) as [out'|]; [|discriminate].
  intros Heq. injection Heq as Hne' ->.
  repeat split; try lia.
  intros ->. discriminate.
Qed.

(** C1, as the code has it.  Where the non-configuration conversion of [b]
    succeeds (its output is then not empty), [isAvcc] answers true exactly
    when [b] does not begin with [00 00 00 01], that is, when the first
    length prefix is not 1.  A buffer beginning with the 4-byte start code is
    never reported as AVCC; a buffer beginning with the 3-byte start code
    [00 00 01 XX] is reported as AVCC exactly when [256 + XX <= size - 4]. *)
Theorem detection_vs_conversion (b : list byte) :
  sizeOf b < 2 ^ 64 ->
  (forall old out mime,
      convertAvccToAnnexB (Some b) (sizeOf b) old false mime = Some (true, out) ->
      out <> [] /\ isAvcc (Some b) (sizeOf b) false = negb (beginsWithStartCode4 b))
  /\ (beginsWithStartCode4 b = true -> isAvcc (Some b) (sizeOf b) false = false)
  /\ (beginsWithStartCode3 b = true -> 4 <= sizeOf b ->
      leadingLength b = 256 + u8 (nth 3 b x00)
      /\ isAvcc (Some b) (sizeOf b) false = (leadingLength b <=? sizeOf b - 4)).
Proof.
  intros Hmax. split; [|split].
  - intros old out mime Hconv.
    destruct (convert_success_first_unit b old out mime Hmax Hconv)
      as (H4 & Hpos & Hfit & Hout).
    split; [exact Hout|].
    rewrite isAvcc_sample by lia.
    rewrite (beginsWithStartCode4_at b H4).
    destruct ((at_ b 0 =? 0) && (at_ b 1 =? 0) && (at_ b 2 =? 0) && (at_ b 3 =? 1));
      [reflexivity|].
    destruct ((at_ b 0 =? 0) && (at_ b 1 =? 0) && (at_ b 2 =? 1)); [|reflexivity].
    cbn [negb]. apply andb_true_intro. split; [now apply Z.ltb_lt | now apply Z.leb_le].
  - intros H4. pose proof (beginsWithStartCode4_length b H4) as Hlen.
    rewrite isAvcc_sample by lia.
    rewrite <- (beginsWithStartCode4_at b Hlen), H4. reflexivity.
  - intros H3 H4.
    assert (HL : leadingLength b = 256 + u8 (nth 3 b x00)).
    { unfold sizeOf in H4. destruct b as [|b0 [|b1 [|b2 [|b3 rest]]]]; simpl List.length in H4;
        try lia.
      unfold beginsWithStartCode3 in H3.
      apply andb_prop in H3. destruct H3 as [H01 H2].
      apply andb_prop in H01. destruct H01 as [H0 H1].
      apply Z.eqb_eq in H0, H1, H2.
      unfold leadingLength, be32. cbn [nth]. rewrite H0, H1, H2. reflexivity. }
    split; [exact HL|].
    rewrite isAvcc_sample by lia.
    rewrite (beginsWithStartCode3_at b H4) in H3. rewrite H3.
    assert (Hexcl : (at_ b 0 =? 0) && (at_ b 1 =? 0) && (at_ b 2 =? 0) && (at_ b 3 =? 1) = false).
    { apply andb_prop in H3. destruct H3 as [_ H2]. apply Z.eqb_eq in H2.
      rewrite H2. simpl. now rewrite andb_false_r. }
    rewrite Hexcl.
    pose proof (u8_range (nth 3 b x00)).
    destruct (Z.ltb_spec 0 (leadingLength b)) as [_ | Hle]; [reflexivity | lia].
Qed.

Lemma detection_vs_conversion_witness :
  sizeOf [x00; x00; x00; x02; x65; x88] < 2 ^ 64
  /\ isAvcc (Some [x00; x00; x00; x02; x65; x88]) 6 false = true.
Proof.
  assert (Hmax : sizeOf [x00; x00; x00; x02; x65; x88] < 2 ^ 64) by reflexivity.
  split; [exact Hmax|].
  apply (proj1 (detection_vs_conversion [x00; x00; x00; x02; x65; x88] Hmax)
               [] [x00; x00; x00; x01; x65; x88] "video/avc"%string).
  vm_compute. reflexivity.
Defined.

(** C1 as stated fails: a buffer whose first length prefix is 1 is converted
    with success and a non-empty output, yet [isAvcc] answers false; and a
    hand-built Annex-B buffer beginning with the 3-byte start code is reported
    as AVCC once it is long enough. *)
Lemma detection_vs_conversion_counterexample :
  (convertAvccToAnnexB (Some [x00; x00; x00; x01; x65]) 5 [] false "video/avc"%string
   = Some (true, [x00; x00; x00; x01; x65])
   /\ [x00; x00; x00; x01; x65] <> []
   /\ isAvcc (Some [x00; x00; x00; x01; x65]) 5 false = false)
  /\ (beginsWithStartCode3 ([x00; x00; x01; x09] ++ repeat xff 265) = true
      /\ isAvcc (Some ([x00; x00; x01; x09] ++ repeat xff 265))
                (sizeOf ([x00; x00; x01; x09] ++ repeat xff 265)) false = true).
Proof.
  split; [split; [|split] | split].
  - vm_compute. reflexivity.
  - discriminate.
  - reflexivity.
  - reflexivity.
  - vm_compute. reflexivity.
Qed.

(** ** Round trip of the non-configuration conversion *)

Lemma sizeOf_app (l r : list byte) : sizeOf (l ++ r) = sizeOf l + sizeOf r.
Proof. unfold sizeOf. rewrite length_app. lia. Qed.

Lemma sizeOf_nonneg (l : list byte) : 0 <= sizeOf l.
Proof. unfold sizeOf. lia. Qed.

Lemma at_app_r (pre b : list byte) (k : nat) :
  at_ (pre ++ b) (sizeOf pre + Z.of_nat k) = u8 (nth k b x00).
Proof.
  unfold at_, sizeOf. rewrite <- Nat2Z.inj_add, Nat2Z.id.
  rewrite app_nth2 by lia. f_equal. f_equal. lia.
Qed.

Lemma bytes_app_r (pre hd rest : list byte) (n : nat) :
  bytes (pre ++ hd ++ rest) (sizeOf pre + sizeOf hd) (Z.of_nat n) = firstn n rest.
Proof.
  unfold bytes, sizeOf. rewrite <- Nat2Z.inj_add, !Nat2Z.id.
  rewrite app_assoc, <- length_app.
  rewrite skipn_app, skipn_all, Nat.sub_diag. reflexivity.
Qed.

(** The loop of the code emits the units direct parsing finds, each behind a
    start code, and ends by itself. *)
Lemma nalLoop_units (fuel : nat) :
  forall (b : list byte) (nals : list (list byte)),
    parseAvccFrom fuel b = Some nals ->
    forall (pre acc : list byte) (fuel2 : nat),
      sizeOf (pre ++ b) < 2 ^ 63 ->
      (List.length b < fuel2)%nat ->
      nalLoop fuel2 (pre ++ b) (sizeOf (pre ++ b)) (sizeOf pre) acc
      = Some (acc ++ annexB nals).
Proof.
  induction fuel as [|fuel IH]; intros b nals Hparse pre acc fuel2 Hmax Hfuel.
  - destruct b as [|b0 [|b1 [|b2 [|b3 rest]]]]; try discriminate.
    injection Hparse as <-.
    destruct fuel2 as [|fuel2]; [simpl in Hfuel; lia|].
    cbn [nalLoop]. pose proof (sizeOf_nonneg pre) as Hpre.
    rewrite sizeOf_app in *. change (sizeOf []) with 0 in *.
    rewrite addsz_small by lia.
    destruct (Z.leb_spec (sizeOf pre + 4) (sizeOf pre + 0)) as [Hle | _]; [lia|].
    cbn [annexB flat_map]. now rewrite app_nil_r.
  - destruct b as [|b0 [|b1 [|b2 [|b3 rest]]]]; try discriminate.
    + injection Hparse as <-.
      destruct fuel2 as [|fuel2]; [simpl in Hfuel; lia|].
      cbn [nalLoop]. pose proof (sizeOf_nonneg pre) as Hpre.
      rewrite sizeOf_app in *. change (sizeOf []) with 0 in *.
      rewrite addsz_small by lia.
      destruct (Z.leb_spec (sizeOf pre + 4) (sizeOf pre + 0)) as [Hle | _]; [lia|].
      cbn [annexB flat_map]. now rewrite app_nil_r.
    + cbn [parseAvccFrom] in Hparse.
      set (n := Z.to_nat (be32 b0 b1 b2 b3)) in *.
      destruct ((n =? 0)%nat || (List.length rest <? n)%nat) eqn:Hbad; [discriminate|].
      apply orb_false_elim in Hbad. destruct Hbad as [Hn0 Hnfit].
      apply Nat.eqb_neq in Hn0. apply Nat.ltb_ge in Hnfit.
      destruct (parseAvccFrom fuel (skipn n rest)) as [nals'|] eqn:Hrest; [|discriminate].
      injection Hparse as <-.
      destruct fuel2 as [|fuel2]; [simpl in Hfuel; lia|].
      pose proof (sizeOf_nonneg pre) as Hpre.
      pose proof (sizeOf_nonneg rest) as Hrestlen.
      assert (Hsize : sizeOf (pre ++ b0 :: b1 :: b2 :: b3 :: rest)
                      = sizeOf pre + 4 + sizeOf rest).
      { rewrite sizeOf_app. unfold sizeOf. simpl List.length. lia. }
      assert (Hval : read32 (pre ++ b0 :: b1 :: b2 :: b3 :: rest) (sizeOf pre)
                     = be32 b0 b1 b2 b3).
      { rewrite read32_value by lia. unfold be32.
        replace (sizeOf pre) with (sizeOf pre + Z.of_nat 0) at 1 by (simpl; lia).
        change 1 with (Z.of_nat 1). change 2 with (Z.of_nat 2) at 3.
        change 3 with (Z.of_nat 3).
        rewrite !at_app_r. reflexivity. }
      assert (Hbe : be32 b0 b1 b2 b3 = Z.of_nat n).
      { unfold n. rewrite Z2Nat.id; [reflexivity|].
        unfold be32. pose proof (u8_range b0). pose proof (u8_range b1).
        pose proof (u8_range b2). pose proof (u8_range b3). lia. }
      assert (Hnle : Z.of_nat n <= sizeOf rest) by (unfold sizeOf; lia).
      cbn [nalLoop]. rewrite Hval, Hbe, Hsize in *.
      rewrite (addsz_small (sizeOf pre) 4) by lia.
      destruct (Z.leb_spec (sizeOf pre + 4) (sizeOf pre + 4 + sizeOf rest)) as [_ | Hno];
        [|lia].
      rewrite (addsz_small (sizeOf pre + 4) (Z.of_nat n)) by lia.
      destruct (Z.eqb_spec (Z.of_nat n) 0) as [Hz | _]; [lia|].
      destruct (Z.ltb_spec (sizeOf pre + 4 + sizeOf rest) (sizeOf pre + 4 + Z.of_nat n))
        as [Hover | _]; [lia|].
      cbn [orb].
      assert (Hbytes : bytes (pre ++ b0 :: b1 :: b2 :: b3 :: rest) (sizeOf pre + 4) (Z.of_nat n)
                       = firstn n rest).
      { change (b0 :: b1 :: b2 :: b3 :: rest) with ([b0; b1; b2; b3] ++ rest).
        change 4 with (sizeOf [b0; b1; b2; b3]). apply bytes_app_r. }
      rewrite Hbytes.
      assert (Hsplit : pre ++ b0 :: b1 :: b2 :: b3 :: rest
                       = (pre ++ [b0; b1; b2; b3] ++ firstn n rest) ++ skipn n rest).
      { rewrite <- !app_assoc. cbn [app]. now rewrite firstn_skipn. }
      assert (Hpre' : sizeOf (pre ++ [b0; b1; b2; b3] ++ firstn n rest)
                      = sizeOf pre + 4 + Z.of_nat n).
      { rewrite !sizeOf_app. unfold sizeOf at 2 3. rewrite firstn_length_le by lia.
        simpl List.length. lia. }
      assert (Hall : sizeOf ((pre ++ [b0; b1; b2; b3] ++ firstn n rest) ++ skipn n rest)
                     = sizeOf pre + 4 + sizeOf rest).
      { rewrite <- Hsplit. exact Hsize. }
      rewrite Hsplit at 1. rewrite <- Hall, <- Hpre'.
      rewrite (IH (skipn n rest) nals' Hrest).
      * cbn [annexB flat_map]. now rewrite <- !app_assoc.
      * rewrite Hall. lia.
      * rewrite length_skipn. simpl List.length in Hfuel. lia.
Qed.

Lemma isStartCode4_last0 (a b c : byte) : isStartCode4 a b c x00 = false.
Proof. unfold isStartCode4. change (u8 x00 =? 1) with false. apply andb_false_r. Qed.

Lemma hasStartCode_tail (a : byte) (p : list byte) :
  hasStartCode (a :: p) = false -> hasStartCode p = false.
Proof.
  destruct p as [|c1 [|c2 [|c3 p]]]; try reflexivity.
  cbn [hasStartCode]. intros Hp. apply orb_false_elim in Hp. apply Hp.
Qed.

(** A payload free of start codes is read back whole up to the next start
    code. *)
Lemma scan_payload_then_code (p r : list byte) :
  hasStartCode p = false ->
  scanStartCodes (p ++ startCode ++ r)
  = (p, fst (scanStartCodes r) :: snd (scanStartCodes r)).
Proof.
  induction p as [|a p IH]; intros Hp.
  - cbn [app startCode scanStartCodes]. change (isStartCode4 x00 x00 x00 x01) with true.
    cbv iota. now destruct (scanStartCodes r).
  - pose proof (IH (hasStartCode_tail a p Hp)) as IHp.
    assert (Hstep : scanStartCodes ((a :: p) ++ startCode ++ r)
                    = let '(payload, nals) := scanStartCodes (p ++ startCode ++ r) in
                      (a :: payload, nals)).
    { destruct p as [|c1 [|c2 [|c3 p]]].
      - cbn [app startCode]. cbn [scanStartCodes]. now rewrite isStartCode4_last0.
      - cbn [app startCode]. cbn [scanStartCodes]. now rewrite isStartCode4_last0.
      - cbn [app startCode]. cbn [scanStartCodes]. now rewrite isStartCode4_last0.
      - cbn [hasStartCode] in Hp. apply orb_false_elim in Hp. destruct Hp as [Hhere _].
        cbn [app]. cbn [scanStartCodes]. now rewrite Hhere. }
    rewrite Hstep, IHp. reflexivity.
Qed.

Lemma scan_payload_end (p : list byte) :
  hasStartCode p = false -> scanStartCodes p = (p, []).
Proof.
  induction p as [|a p IH]; intros Hp; [reflexivity|].
  pose proof (IH (hasStartCode_tail a p Hp)) as IHp.
  destruct p as [|c1 [|c2 [|c3 p]]]; try reflexivity.
  cbn [hasStartCode] in Hp. apply orb_false_elim in Hp. destruct Hp as [Hhere _].
  cbn [scanStartCodes]. rewrite Hhere.
  cbn [scanStartCodes] in IHp. now rewrite IHp.
Qed.

Lemma scan_annexB (nals : list (list byte)) :
  forallb (fun payload => negb (hasStartCode payload)) nals = true ->
  forall p, hasStartCode p = false -> scanStartCodes (p ++ annexB nals) = (p, nals).
Proof.
  induction nals as [|q nals IH]; intros Hnals p Hp.
  - cbn [annexB flat_map]. rewrite app_nil_r. now apply scan_payload_end.
  - cbn [forallb] in Hnals. apply andb_prop in Hnals. destruct Hnals as [Hq Hrest].
    apply negb_true_iff in Hq.
    cbn [annexB flat_map]. rewrite <- app_assoc.
    rewrite scan_payload_then_code by exact Hp.
    fold (annexB nals). now rewrite (IH Hrest q Hq).
Qed.

Lemma splitAnnexB_annexB (nals : list (list byte)) :
  forallb (fun payload => negb (hasStartCode payload)) nals = true ->
  splitAnnexB (annexB nals) = nals.
Proof.
  intros Hnals. unfold splitAnnexB.
  pose proof (scan_annexB nals Hnals [] eq_refl) as Hscan.
  cbn [app] in Hscan. now rewrite Hscan.
Qed.

(** The loop of the non-configuration path ends by itself within the fuel
    the model gives it. *)
Lemma nalLoop_total (fuel : nat) :
  forall (data : list byte) (avccSize offset : Z) (acc : list byte),
    0 <= offset <= avccSize -> avccSize < 2 ^ 63 ->
    avccSize - offset < Z.of_nat fuel ->
    nalLoop fuel data avccSize offset acc <> None.
Proof.
  induction fuel as [|fuel IH]; intros data avccSize offset acc Hoff Hmax Hfuel.
  - lia.
  - cbn [nalLoop].
    destruct (Z.leb_spec (addsz offset 4) avccSize) as [Hle | _]; [|discriminate].
    destruct ((read32 data offset =? 0)
              || (avccSize <? addsz (addsz offset 4) (read32 data offset))) eqn:Hstop;
      [discriminate|].
    apply orb_false_elim in Hstop. destruct Hstop as [Hne Hfit].
    apply Z.eqb_neq in Hne. apply Z.ltb_ge in Hfit.
    rewrite read32_value in * by lia.
    pose proof (at_range data offset). pose proof (at_range data (offset + 1)).
    pose proof (at_range data (offset + 2)). pose proof (at_range data (offset + 3)).
    rewrite (addsz_small offset 4) in * by lia.
    rewrite addsz_small in * by lia.
    apply IH; lia.
Qed.

(** [convertAvccToAnnexB] returns for every buffer an address space holds. *)
Lemma convertAvccToAnnexB_total (avccData : option (list byte)) (avccSize : Z)
      (annexBData : list byte) (isCodecConfig : bool) (mime : string) :
  avccSize < 2 ^ 63 ->
  convertAvccToAnnexB avccData avccSize annexBData isCodecConfig mime <> None.
Proof.
  intros Hmax. unfold convertAvccToAnnexB.
  destruct avccData as [data|]; [|discriminate].
  destruct (Z.ltb_spec avccSize 4) as [_ | Hge]; [discriminate|].
  destruct isCodecConfig; cbn [negb].
  - destruct (isHevcMime mime).
    + destruct (avccSize <? 23); [discriminate|].
      destruct (arrayLoop _ _ _ _ _). discriminate.
    + destruct (avccSize <? 7); [discriminate|].
      destruct (unitLoop _ _ _ _ _) as [offset out].
      destruct (offset <? avccSize); [|discriminate].
      destruct (unitLoop _ _ _ _ _). discriminate.
  - pose proof (nalLoop_total (S (Z.to_nat avccSize)) data avccSize 0 []) as Htotal.
    destruct (nalLoop _ _ _ _ _); [discriminate|].
    exfalso. apply Htotal; try lia. reflexivity.
Qed.

Lemma parseAvcc_nonempty (fuel : nat) (b : list byte) (p : list byte)
      (nals : list (list byte)) :
  parseAvccFrom fuel b = Some (p :: nals) -> 4 <= sizeOf b.
Proof.
  unfold sizeOf.
  destruct fuel; destruct b as [|b0 [|b1 [|b2 [|b3 rest]]]]; try discriminate;
    intros _; simpl List.length; lia.
Qed.

(** C5, as the code has it.  For a buffer that direct length-prefix parsing
    reads as a non-empty sequence of units whose payloads do not contain the
    bytes [00 00 00 01], the non-configuration conversion succeeds, its
    output is each payload behind a 4-byte start code, and scanning that
    output for 4-byte start codes gives back the same payloads, in the same
    order and number. *)
Theorem avcc_round_trip (b : list byte) (nals : list (list byte))
        (old : list byte) (mime : string) :
  parseAvcc b = Some nals ->
  nals <> [] ->
  forallb (fun payload => negb (hasStartCode payload)) nals = true ->
  sizeOf b < 2 ^ 63 ->
  convertAvccToAnnexB (Some b) (sizeOf b) old false mime = Some (true, annexB nals)
  /\ splitAnnexB (annexB nals) = nals
  /\ List.length (splitAnnexB (annexB nals)) = List.length nals.
Proof.
  intros Hparse Hne Hclean Hmax.
  pose proof (splitAnnexB_annexB nals Hclean) as Hsplit.
  split; [|split; [exact Hsplit | now rewrite Hsplit]].
  destruct nals as [|p nals]; [contradiction|].
  unfold parseAvcc in Hparse.
  pose proof (parseAvcc_nonempty _ _ _ _ Hparse) as H4.
  unfold convertAvccToAnnexB.
  destruct (Z.ltb_spec (sizeOf b) 4) as [Hlt | _]; [lia|].
  cbn [negb].
  pose proof (nalLoop_units _ b (p :: nals) Hparse [] [] (S (Z.to_nat (sizeOf b)))) as Hloop.
  cbn [app] in Hloop. change (sizeOf []) with 0 in Hloop.
  rewrite Hloop.
  - reflexivity.
  - exact Hmax.
  - unfold sizeOf. rewrite Nat2Z.id. lia.
Qed.

Lemma avcc_round_trip_witness :
  (parseAvcc [x00; x00; x00; x02; x65; x88; x00; x00; x00; x01; x41]
   = Some [[x65; x88]; [x41]])
  /\ convertAvccToAnnexB (Some [x00; x00; x00; x02; x65; x88; x00; x00; x00; x01; x41])
                         11 [xff] false "video/avc"
     = Some (true, [x00; x00; x00; x01; x65; x88; x00; x00; x00; x01; x41])
  /\ splitAnnexB [x00; x00; x00; x01; x65; x88; x00; x00; x00; x01; x41]
     = [[x65; x88]; [x41]].
Proof.
  assert (Hparse : parseAvcc [x00; x00; x00; x02; x65; x88; x00; x00; x00; x01; x41]
                   = Some [[x65; x88]; [x41]]) by reflexivity.
  split; [exact Hparse|].
  destruct (avcc_round_trip [x00; x00; x00; x02; x65; x88; x00; x00; x00; x01; x41]
                            [[x65; x88]; [x41]] [xff] "video/avc" Hparse)
    as (Hconv & Hsplit & _).
  - discriminate.
  - reflexivity.
  - reflexivity.
  - split; [exact Hconv | exact Hsplit].
Defined.

(** C5 as stated fails: a well-formed unit whose payload is [00 00 00 01] is
    converted with success, and scanning the output for start codes finds
    two empty payloads where direct parsing finds the one payload. *)
Lemma avcc_round_trip_counterexample :
  parseAvcc [x00; x00; x00; x04; x00; x00; x00; x01] = Some [[x00; x00; x00; x01]]
  /\ convertAvccToAnnexB (Some [x00; x00; x00; x04; x00; x00; x00; x01]) 8 [] false "video/avc"
     = Some (true, [x00; x00; x00; x01; x00; x00; x00; x01])
  /\ splitAnnexB [x00; x00; x00; x01; x00; x00; x00; x01] = [[]; []]
  /\ splitAnnexB [x00; x00; x00; x01; x00; x00; x00; x01] <> [[x00; x00; x00; x01]].
Proof.
  split; [reflexivity|]. split; [vm_compute; reflexivity|].
  split; [reflexivity | discriminate].
Qed.

(** ** Reasoning about runs *)

Section PostRules.

Context {S A : Type}.

Lemma post_ret (a : A) (s : S) Q D U : Q a s -> post (ret a) s Q D U.
Proof. intros HQ. exact HQ. Qed.

Lemma post_bind {B : Type} (m : M S A) (k : A -> M S B) (s : S) Q D U :
  post m s (fun a s' => post (k a) s' Q D U) D U -> post (bind m k) s Q D U.
Proof. unfold post, bind. destruct (m s); auto. Qed.

Lemma post_weaken (m : M S A) (s : S) (Q Q' : A -> S -> Prop) (D D' : S -> Prop)
      (U U' : Prop) :
  post m s Q D U ->
  (forall a s', Q a s' -> Q' a s') -> (forall s', D s' -> D' s') -> (U -> U') ->
  post m s Q' D' U'.
Proof. unfold post. destruct (m s); auto. Qed.

Lemma post_diverge (s : S) (Q : A -> S -> Prop) (D : S -> Prop) U :
  D s -> post diverge s Q D U.
Proof. intros HD. exact HD. Qed.

Lemma post_undefined (s : S) (Q : A -> S -> Prop) (D : S -> Prop) (U : Prop) :
  U -> post undefined s Q D U.
Proof. intros HU. exact HU. Qed.

(** A run that returns, read back from its postcondition. *)
Lemma post_ok (m : M S A) (s : S) Q D U (a : A) (s' : S) :
  post m s Q D U -> m s = Ok a s' -> Q a s'.
Proof. unfold post. intros Hp Heq. now rewrite Heq in Hp. Qed.

Lemma post_diverged (m : M S A) (s : S) Q D U (s' : S) :
  post m s Q D U -> m s = Diverge s' -> D s'.
Proof. unfold post. intros Hp Heq. now rewrite Heq in Hp. Qed.

Lemma post_returns (m : M S A) (s : S) Q :
  post m s Q (fun _ => False) False -> exists a s', m s = Ok a s' /\ Q a s'.
Proof. unfold post. destruct (m s) as [a s'| |]; try contradiction. eauto. Qed.

End PostRules.

Lemma post_and {S A : Type} (m : M S A) (s : S) (Q1 Q2 : A -> S -> Prop)
      (D1 D2 : S -> Prop) (U1 U2 : Prop) :
  post m s Q1 D1 U1 -> post m s Q2 D2 U2 ->
  post m s (fun a s' => Q1 a s' /\ Q2 a s') (fun s' => D1 s' /\ D2 s') (U1 /\ U2).
Proof. unfold post. destruct (m s); auto. Qed.

Section StateRules.

Context {T W : Type} `{Platform W}.

Lemma post_get (s : St T W) Q D U : Q (this s) s -> post get s Q D U.
Proof. intros HQ. exact HQ. Qed.

Lemma post_modify (f : T -> T) (s : St T W) Q D U :
  Q tt (mkSt (f (this s)) (world s) (trace s)) -> post (modify f) s Q D U.
Proof. intros HQ. exact HQ. Qed.

Lemma post_call {A : Type} (f : W -> A * W) (s : St T W) Q D U :
  (forall a w, f (world s) = (a, w) -> Q a (mkSt (this s) w (trace s))) ->
  post (call f) s Q D U.
Proof.
  intros HQ. unfold post, call. destruct (f (world s)) as [a w] eqn:Hf. now apply HQ.
Qed.

Lemma post_call_ (f : W -> W) (s : St T W) Q D U :
  Q tt (mkSt (this s) (f (world s)) (trace s)) -> post (call_ f) s Q D U.
Proof. intros HQ. exact HQ. Qed.

Lemma post_emit (e : Event) (s : St T W) Q D U :
  Q tt (mkSt (this s) (world s) (trace s ++ [e])) -> post (emit e) s Q D U.
Proof. intros HQ. exact HQ. Qed.

Lemma post_processMessage (h : Handle) (m : MFT_MESSAGE_TYPE) (s : St T W) Q D U :
  (forall hr w, Q hr (mkSt (this s) w (trace s ++ [EvProcessMessage h m hr]))) ->
  post (processMessage h m) s Q D U.
Proof.
  intros HQ. unfold processMessage. apply post_bind, post_call. intros hr w _.
  apply post_bind, post_emit, post_ret. apply HQ.
Qed.

Lemma post_processInput (h : Handle) (i : InputSample) (s : St T W) Q D U :
  (forall hr w, Q hr (mkSt (this s) w (trace s ++ [EvProcessInput h i hr]))) ->
  post (processInput h i) s Q D U.
Proof.
  intros HQ. unfold processInput. apply post_bind, post_call. intros hr w _.
  apply post_bind, post_emit, post_ret. apply HQ.
Qed.

Lemma post_processOutput (h : Handle) (callerBuffer : option Z) (s : St T W) Q D U :
  (forall hr pSample w,
      Q (hr, pSample)
        (mkSt (this s) w (trace s ++ [EvProcessOutput h callerBuffer hr pSample]))) ->
  post (processOutput h callerBuffer) s Q D U.
Proof.
  intros HQ. unfold processOutput. apply post_bind, post_call. intros [hr pSample] w _.
  apply post_bind, post_emit, post_ret. apply HQ.
Qed.

(** An output request whose answer is known. *)
Lemma post_processOutput_answer (h : Handle) (callerBuffer : option Z)
      (s : St T W) (r : HRESULT * option OutputSample) (w' : W) Q D U :
  ProcessOutput h callerBuffer (world s) = (r, w') ->
  Q r (mkSt (this s) w' (trace s ++ [EvProcessOutput h callerBuffer (fst r) (snd r)])) ->
  post (processOutput h callerBuffer) s Q D U.
Proof.
  intros Hanswer HQ. unfold processOutput, post, bind, call, emit, ret.
  rewrite Hanswer. exact HQ.
Qed.

Lemma post_setGopSize (h : Handle) (gopSize : Z) (s : St T W) Q D U :
  (forall hr w, Q hr (mkSt (this s) w (trace s ++ [EvSetGopSize h gopSize hr]))) ->
  post (setGopSize h gopSize) s Q D U.
Proof.
  intros HQ. unfold setGopSize. apply post_bind, post_call. intros hr w _.
  apply post_bind, post_emit, post_ret. apply HQ.
Qed.

End StateRules.

Ltac wp_step :=
  lazymatch goal with
  | |- post (bind _ _) _ _ _ _ => apply post_bind
  | |- post (ret _) _ _ _ _ => apply post_ret
  | |- post get _ _ _ _ => apply post_get
  | |- post (modify _) _ _ _ _ => apply post_modify
  | |- post (call _) _ _ _ _ => apply post_call; intros ? ? ?
  | |- post (call_ _) _ _ _ _ => apply post_call_
  | |- post (emit _) _ _ _ _ => apply post_emit
  | |- post (processMessage _ _) _ _ _ _ => apply post_processMessage; intros ? ?
  | |- post (processInput _ _) _ _ _ _ => apply post_processInput; intros ? ?
  | |- post (processOutput _ _) _ _ _ _ => apply post_processOutput; intros ? ? ?
  | |- post (setGopSize _ _) _ _ _ _ => apply post_setGopSize; intros ? ?
  | |- post diverge _ _ _ _ => apply post_diverge
  | |- post undefined _ _ _ _ => apply post_undefined
  | |- post (if ?c then _ else _) _ _ _ _ => destruct c eqn:?
  | |- post (match ?x with _ => _ end) _ _ _ _ => destruct x eqn:?
  end; cbv beta; cbn [this world trace].

Ltac wp := repeat wp_step.

(** ** Decoder: submission *)

Section DecoderFacts.

Context {W : Type} `{Platform W}.

(** What [pushSample] does: the decoder is left as it was, and either no
    input was submitted and the answer is false, or the decoder is started
    and exactly one input was submitted, whose success is the answer.  Its
    behaviour is undefined only for a sample of [2 ^ 32] bytes or more that
    reaches the copy. *)
Lemma Decoder_pushSample_post (data : option (list byte)) (size t : Z)
      (s : St Decoder.VideoDecoder W) :
  post (Decoder.pushSample data size t) s
       (fun b s' =>
          this s' = this s
          /\ ((b = false /\ trace s' = trace s)
              \/ exists h i hr,
                  Decoder.decoder_ (this s) = Some h
                  /\ Decoder.isStarted_ (this s) = true
                  /\ trace s' = trace s ++ [EvProcessInput h i hr]
                  /\ b = isOk hr))
       (fun _ => False)
       (2 ^ 32 <= size /\ data <> None
        /\ Decoder.decoder_ (this s) <> None /\ Decoder.isStarted_ (this s) = true).
Proof.
  unfold Decoder.pushSample. wp; try (split; try reflexivity; auto).
  all: try (right; eexists _, _, hr; repeat split; try reflexivity).
  all: try (now apply negb_false_iff).
  - now apply Z.leb_le.
  - repeat split; try discriminate. now apply negb_false_iff.
  - match goal with Hr : (hr =? MF_E_NOTACCEPTING) = true |- _ =>
      apply Z.eqb_eq in Hr; now subst hr end.
  - match goal with Hr : negb (isOk hr) = true |- _ =>
      apply negb_true_iff in Hr; now symmetry end.
  - match goal with Hr : negb (isOk hr) = false |- _ =>
      apply negb_false_iff in Hr; now symmetry end.
Qed.


(** [pushSample] on a started decoder, where the platform hands out the
    media buffer and the sample: the bytes are submitted once, with the
    sample time [int64_t(presentationTime) * 10], and the answer is whether
    the transform accepted them. *)
Lemma Decoder_pushSample_run (sampleData : list byte) (size t : Z)
      (s : St Decoder.VideoDecoder W) (h : Handle) (w1 w2 w3 : W) :
  Decoder.decoder_ (this s) = Some h ->
  Decoder.isStarted_ (this s) = true ->
  size <> 0 -> size < 2 ^ 32 ->
  MFCreateMemoryBuffer (u32 size) (world s) = (S_OK, w1) ->
  LockBuffer w1 = ((S_OK, true), w2) ->
  MFCreateSample w2 = (S_OK, w3) ->
  Decoder.pushSample (Some sampleData) size t s
  = let inputSample :=
      {| currentLength := u32 size;
         payload := EncodedBytes (bytes sampleData 0 size);
         inputSampleTime := Decoder.toSampleTime t;
         inputSampleDuration := None |} in
    let answer := ProcessInput h inputSample w3 in
    Ok (isOk (fst answer))
       (mkSt (this s) (snd answer)
             (trace s ++ [EvProcessInput h inputSample (fst answer)])).
Proof.
  intros Hvalid Hstarted Hsize Hmax Hbuffer Hlock Hsample. cbv zeta.
  destruct (ProcessInput h _ w3) as [answer w4] eqn:Hinput. cbn [fst snd].
  assert (Hpost : post (Decoder.pushSample (Some sampleData) size t) s
                       (fun b s' =>
                          Ok b s'
                          = Ok (isOk answer)
                               (mkSt (this s) w4
                                     (trace s
                                      ++ [EvProcessInput
                                            h {| currentLength := u32 size;
                                                 payload := EncodedBytes
                                                              (bytes sampleData 0 size);
                                                 inputSampleTime := Decoder.toSampleTime t;
                                                 inputSampleDuration := None |}
                                            answer])))
                       (fun _ => False) False).
  { unfold Decoder.pushSample.
    destruct (Z.eqb_spec size 0) as [|_]; [contradiction|].
    destruct (Z.leb_spec (2 ^ 32) size) as [|_]; [lia|].
    apply post_bind, post_get. cbv beta. rewrite Hvalid, Hstarted. cbn [negb].
    apply post_bind, post_call. intros hr0 w0 Hc. rewrite Hbuffer in Hc.
    injection Hc as <- <-. cbv beta. cbn [this world trace].
    change (isOk S_OK) with true. cbn [negb].
    apply post_bind, post_call. intros [hr1 locked1] w0 Hc. cbn [world] in Hc.
    rewrite Hlock in Hc. injection Hc as <- <- <-. cbv beta iota. cbn [this world trace].
    change (isOk S_OK) with true. cbn [negb orb].
    apply post_bind, post_call. intros hr2 w0 Hc. cbn [world] in Hc.
    rewrite Hsample in Hc. injection Hc as <- <-. cbv beta. cbn [this world trace].
    change (isOk S_OK) with true. cbn [negb].
    unfold processInput.
    apply post_bind, post_bind, post_call. intros hr3 w0 Hc. cbn [world] in Hc.
    rewrite Hinput in Hc. injection Hc as <- <-. cbv beta. cbn [this world trace].
    apply post_bind, post_emit, post_ret. cbn [this world trace].
    destruct (Z.eqb_spec answer MF_E_NOTACCEPTING) as [-> | _]; [apply post_ret; reflexivity|].
    destruct (isOk answer); apply post_ret; reflexivity. }
  unfold post in Hpost.
  destruct (Decoder.pushSample (Some sampleData) size t s); [exact Hpost | contradiction..].
Qed.

End DecoderFacts.

(** ** Encoder: draining *)

Lemma sameSession_refl (e : Encoder.VideoEncoder) : sameSession e e.
Proof. repeat split. Qed.

Lemma sameSession_trans (e1 e2 e3 : Encoder.VideoEncoder) :
  sameSession e1 e2 -> sameSession e2 e3 -> sameSession e1 e3.
Proof.
  unfold sameSession. intros (A1 & A2 & A3 & A4 & A5) (B1 & B2 & B3 & B4 & B5).
  repeat split; congruence.
Qed.

Lemma configurationSamples_app (l r : list Encoder.Sample) :
  configurationSamples (l ++ r) = (configurationSamples l + configurationSamples r)%nat.
Proof. unfold configurationSamples. now rewrite filter_app, length_app. Qed.

Lemma mediaSamples_app (l r : list Encoder.Sample) :
  mediaSamples (l ++ r) = mediaSamples l ++ mediaSamples r.
Proof. unfold mediaSamples. apply filter_app. Qed.

Lemma Enqueued_refl (e : Encoder.VideoEncoder) : Enqueued e e [].
Proof.
  split; [apply sameSession_refl|]. exists []. rewrite app_nil_r.
  repeat split; try reflexivity.
  - destruct (Encoder.codecConfigEmitted_ e); cbn; lia.
  - cbn. now rewrite orb_false_r.
Qed.

Lemma Enqueued_trans (e1 e2 e3 : Encoder.VideoEncoder) (p q : list Encoder.Sample) :
  Enqueued e1 e2 p -> Enqueued e2 e3 q -> Enqueued e1 e3 (p ++ q).
Proof.
  intros (S1 & n1 & Q1 & M1 & C1 & F1) (S2 & n2 & Q2 & M2 & C2 & F2).
  split; [eapply sameSession_trans; eassumption|].
  exists (n1 ++ n2). rewrite Q2, Q1, <- app_assoc.
  rewrite mediaSamples_app, M1, M2, configurationSamples_app.
  repeat split; try reflexivity.
  - rewrite F1 in C2.
    destruct (Encoder.codecConfigEmitted_ e1); cbn [orb] in C2.
    + lia.
    + destruct (Nat.ltb_spec 0 (configurationSamples n1)); lia.
  - rewrite F2, F1.
    destruct (Encoder.codecConfigEmitted_ e1); [reflexivity|]. cbn [orb].
    destruct (Nat.ltb_spec 0 (configurationSamples n1));
      destruct (Nat.ltb_spec 0 (configurationSamples n2));
      destruct (Nat.ltb_spec 0 (configurationSamples n1 + configurationSamples n2));
      try reflexivity; lia.
Qed.

(** The stream information is not part of what [Enqueued] speaks of. *)
Lemma Enqueued_streamInfo (e e' : Encoder.VideoEncoder) (p : list Encoder.Sample)
      (provides : bool) (size : Z) :
  Enqueued e e' p -> Enqueued e (Encoder.set_streamInfo provides size e') p.
Proof. intros HE. exact HE. Qed.

Section EncoderDrain.

Context {W : Type} `{Platform W}.

(** The media samples carried by transform calls are not configuration
    samples. *)
Lemma payloadOf_media (e : Event) :
  mediaSamples (payloadOf e) = payloadOf e /\ configurationSamples (payloadOf e) = 0%nat.
Proof.
  destruct e as [| | h cb hr [os|] |]; try (split; reflexivity).
  unfold payloadOf. destruct (isOk hr); [|split; reflexivity].
  destruct (contiguous os) as [mb|]; [|split; reflexivity].
  destruct (locked mb) as [d|]; [|split; reflexivity].
  destruct (0 <? sizeOf d); [|split; reflexivity].
  destruct (cleanPoint os) as [c|]; [destruct (c =? 0)|]; split; reflexivity.
Qed.

Lemma payloadsOf_media (evs : list Event) :
  mediaSamples (payloadsOf evs) = payloadsOf evs
  /\ configurationSamples (payloadsOf evs) = 0%nat.
Proof.
  induction evs as [|e evs [IHm IHc]]; [split; reflexivity|].
  destruct (payloadOf_media e) as [Hm Hc].
  unfold payloadsOf in *. cbn [flat_map].
  rewrite mediaSamples_app, configurationSamples_app, Hm, Hc, IHm, IHc.
  split; reflexivity.
Qed.

(** What the configuration block enqueues: nothing, or the one
    configuration sample, after which [codecConfigEmitted_] is set. *)
Lemma emitCodecConfig_post (h : Handle) (t : Z) (s : St Encoder.VideoEncoder W) :
  post (Encoder.emitCodecConfig h t) s
       (fun _ s' =>
          trace s' = trace s
          /\ sameSession (this s) (this s')
          /\ ((Encoder.encodedSamples_ (this s') = Encoder.encodedSamples_ (this s)
               /\ Encoder.codecConfigEmitted_ (this s') = Encoder.codecConfigEmitted_ (this s))
              \/ exists d,
                  d <> []
                  /\ Encoder.encodedSamples_ (this s')
                     = Encoder.encodedSamples_ (this s)
                       ++ [ {| Encoder.data_ := d; Encoder.presentationTime_ := t;
                               Encoder.bufferFlags_ := Encoder.BUFFER_FLAG_CODEC_CONFIG |} ]
                  /\ Encoder.codecConfigEmitted_ (this s') = true))
       (fun _ => False) False.
Proof.
  unfold Encoder.emitCodecConfig. wp.
  all: split; [reflexivity|]; split; [repeat split|].
  all: try (left; split; reflexivity).
  right. exists l. repeat split.
  intros ->. discriminate.
Qed.

(** What the payload block enqueues: the media sample of the output, if it
    carries one. *)
Lemma collectPayload_post (h : Handle) (callerBuffer : option Z) (outputSample : OutputSample)
      (s : St Encoder.VideoEncoder W) :
  post (Encoder.collectPayload
          outputSample
          (Z.quot (match sampleTime outputSample with Some t => t | None => 0 end) 10)
          (Encoder.isCleanPoint outputSample)) s
       (fun _ s' =>
          trace s' = trace s
          /\ sameSession (this s) (this s')
          /\ Encoder.codecConfigEmitted_ (this s') = Encoder.codecConfigEmitted_ (this s)
          /\ Encoder.encodedSamples_ (this s')
             = Encoder.encodedSamples_ (this s)
               ++ payloadOf (EvProcessOutput h callerBuffer S_OK (Some outputSample)))
       (fun _ => False) False.
Proof.
  unfold Encoder.collectPayload, payloadOf. change (isOk S_OK) with true. cbv iota.
  wp.
  all: split; [reflexivity|]; split; [repeat split|]; split; [reflexivity|].
  all: try (symmetry; apply app_nil_r).
  cbn [Encoder.push_back Encoder.set_encodedSamples_ Encoder.encodedSamples_].
  unfold Encoder.isCleanPoint.
  destruct (cleanPoint outputSample) as [c|]; [destruct (c =? 0)|]; reflexivity.
Qed.

Lemma post_bind_with {S A B : Type} (m : M S A) (k : A -> M S B) (s : S)
      (Q1 : A -> S -> Prop) (D1 : S -> Prop) (U1 : Prop) Q D U :
  post m s Q1 D1 U1 ->
  (forall a s', Q1 a s' -> post (k a) s' Q D U) ->
  (forall s', D1 s' -> D s') -> (U1 -> U) ->
  post (bind m k) s Q D U.
Proof.
  intros Hm Hk HD HU. apply post_bind.
  eapply post_weaken; [exact Hm | exact Hk | exact HD | exact HU].
Qed.

(** What handling one successful output enqueues: the configuration sample,
    if it is due and available, directly followed by the media sample of the
    output. *)
Lemma collectOutput_post (h : Handle) (callerBuffer : option Z) (outputSample : OutputSample)
      (s : St Encoder.VideoEncoder W) :
  post (Encoder.collectOutput h outputSample) s
       (fun _ s' =>
          trace s' = trace s
          /\ sameSession (this s) (this s')
          /\ exists cfg,
              Encoder.encodedSamples_ (this s')
              = Encoder.encodedSamples_ (this s) ++ cfg
                ++ payloadOf (EvProcessOutput h callerBuffer S_OK (Some outputSample))
              /\ ((cfg = []
                   /\ Encoder.codecConfigEmitted_ (this s')
                      = Encoder.codecConfigEmitted_ (this s))
                  \/ exists c,
                      cfg = [c]
                      /\ Encoder.isConfiguration c = true
                      /\ Encoder.Sample_isValid c = true
                      /\ Encoder.isCleanPoint outputSample = true
                      /\ Encoder.codecConfigEmitted_ (this s) = false
                      /\ Encoder.codecConfigEmitted_ (this s') = true))
       (fun _ => False) False.
Proof.
  unfold Encoder.collectOutput. apply post_bind, post_get. cbv beta.
  destruct (Encoder.isCleanPoint outputSample && negb (Encoder.codecConfigEmitted_ (this s)))
    eqn:Hdue.
  - apply andb_prop in Hdue. destruct Hdue as [Hkey Hnot]. apply negb_true_iff in Hnot.
    eapply post_bind_with; [apply emitCodecConfig_post | | contradiction | contradiction].
    intros _ s1 (Htr1 & Hsame1 & Hcfg).
    eapply post_weaken; [apply (collectPayload_post h callerBuffer) | | auto | auto].
    cbv beta. intros _ s2 (Htr2 & Hsame2 & Hflag2 & Hq2).
    split; [congruence|]. split; [eapply sameSession_trans; eassumption|].
    destruct Hcfg as [[Hq1 Hflag1] | (d & Hd & Hq1 & Hflag1)].
    + exists []. split; [cbn [app]; congruence|]. left. split; [reflexivity | congruence].
    + eexists. split; [rewrite Hq2, Hq1, <- app_assoc; reflexivity|].
      right. eexists. split; [reflexivity|].
      repeat split; try assumption; try congruence.
      unfold Encoder.Sample_isValid. cbn. now destruct d.
  - apply post_bind, post_ret.
    eapply post_weaken; [apply (collectPayload_post h callerBuffer) | | auto | auto].
    cbv beta. intros _ s2 (Htr2 & Hsame2 & Hflag2 & Hq2).
    split; [exact Htr2|]. split; [exact Hsame2|].
    exists []. split; [exact Hq2|]. left. split; [reflexivity | exact Hflag2].
Qed.

(** What handling one successful output enqueues, exactly: the
    configuration sample that is due, directly followed by the media sample
    of the output; [codecConfigEmitted_] is set by the configuration sample
    and is not touched otherwise. *)
Lemma collectOutput_exact (h : Handle) (callerBuffer : option Z) (outputSample : OutputSample)
      (s : St Encoder.VideoEncoder W) :
  post (Encoder.collectOutput h outputSample) s
       (fun _ s' =>
          Encoder.encodedSamples_ (this s')
          = Encoder.encodedSamples_ (this s) ++ configurationDue h outputSample s
            ++ payloadOf (EvProcessOutput h callerBuffer S_OK (Some outputSample))
          /\ Encoder.codecConfigEmitted_ (this s')
             = Encoder.codecConfigEmitted_ (this s)
               || (0 <? List.length (configurationDue h outputSample s))%nat)
       (fun _ => False) False.
Proof.
  unfold Encoder.collectOutput, configurationDue. apply post_bind, post_get. cbv beta.
  assert (Hpayload : forall (s1 : St Encoder.VideoEncoder W) cfg,
             Encoder.encodedSamples_ (this s1) = Encoder.encodedSamples_ (this s) ++ cfg ->
             Encoder.codecConfigEmitted_ (this s1)
             = Encoder.codecConfigEmitted_ (this s) || (0 <? List.length cfg)%nat ->
             post (Encoder.collectPayload
                     outputSample
                     (Z.quot (match sampleTime outputSample with
                              | Some t => t | None => 0 end) 10)
                     (Encoder.isCleanPoint outputSample)) s1
                  (fun _ s' =>
                     Encoder.encodedSamples_ (this s')
                     = Encoder.encodedSamples_ (this s) ++ cfg
                       ++ payloadOf (EvProcessOutput h callerBuffer S_OK (Some outputSample))
                     /\ Encoder.codecConfigEmitted_ (this s')
                        = Encoder.codecConfigEmitted_ (this s) || (0 <? List.length cfg)%nat)
                  (fun _ => False) False).
  { intros s1 cfg Hq Hflag.
    eapply post_weaken; [apply (collectPayload_post h callerBuffer) | | auto | auto].
    cbv beta. intros _ s2 (_ & _ & Hflag2 & Hq2).
    split; [rewrite Hq2, Hq, <- app_assoc; reflexivity | congruence]. }
  destruct (Encoder.isCleanPoint outputSample && negb (Encoder.codecConfigEmitted_ (this s)))
    eqn:Hdue.
  - apply andb_prop in Hdue. destruct Hdue as [_ Hnot]. apply negb_true_iff in Hnot.
    apply post_bind. unfold Encoder.emitCodecConfig.
    apply post_bind, post_call. intros outputType w Hc. rewrite Hc. cbn [fst].
    cbv beta. cbn [this world trace].
    destruct outputType as [t|];
      [destruct (MF_MT_MPEG_SEQUENCE_HEADER t) as [header|];
       [destruct (0 <? sizeOf header)|]|].
    + apply post_bind, post_modify, post_modify.
      apply Hpayload; cbn; [reflexivity | now rewrite orb_true_r].
    + apply post_ret. apply Hpayload; cbn; [now rewrite app_nil_r | now rewrite orb_false_r].
    + apply post_ret. apply Hpayload; cbn; [now rewrite app_nil_r | now rewrite orb_false_r].
    + apply post_ret. apply Hpayload; cbn; [now rewrite app_nil_r | now rewrite orb_false_r].
  - apply post_bind, post_ret.
    apply Hpayload; cbn; [now rewrite app_nil_r | now rewrite orb_false_r].
Qed.

(** In the terms of [Enqueued]. *)
Lemma collectOutput_Enqueued (h : Handle) (callerBuffer : option Z)
      (outputSample : OutputSample) (s : St Encoder.VideoEncoder W) :
  post (Encoder.collectOutput h outputSample) s
       (fun _ s' =>
          trace s' = trace s
          /\ Enqueued (this s) (this s')
                      (payloadOf (EvProcessOutput h callerBuffer S_OK (Some outputSample))))
       (fun _ => False) False.
Proof.
  eapply post_weaken; [apply (collectOutput_post h callerBuffer) | | auto | auto].
  cbv beta. intros _ s' (Htr & Hsame & cfg & Hq & Hcfg).
  split; [exact Htr|]. split; [exact Hsame|].
  exists (cfg ++ payloadOf (EvProcessOutput h callerBuffer S_OK (Some outputSample))).
  destruct (payloadOf_media (EvProcessOutput h callerBuffer S_OK (Some outputSample)))
    as [Hm Hc].
  split; [exact Hq|].
  rewrite mediaSamples_app, configurationSamples_app, Hm, Hc.
  destruct Hcfg as [[-> Hflag] | (c & -> & Hc1 & _ & _ & Hf0 & Hf1)].
  - repeat split.
    + destruct (Encoder.codecConfigEmitted_ (this s)); cbn; lia.
    + rewrite Hflag. cbn. now rewrite orb_false_r.
  - unfold mediaSamples, configurationSamples. cbn [filter]. rewrite Hc1. cbn.
    rewrite Hf0, Hf1. repeat split. lia.
Qed.

Lemma Drained_nil (s s' : St Encoder.VideoEncoder W) :
  this s' = this s -> trace s' = trace s -> Drained s s' [].
Proof.
  intros Hthis Htrace. split; [|split].
  - rewrite Hthis. apply Enqueued_refl.
  - now rewrite Htrace, app_nil_r.
  - reflexivity.
Qed.

Lemma Drained_last (s s1 : St Encoder.VideoEncoder W) (h : Handle) (cb : option Z)
      (hr : HRESULT) (pSample : option OutputSample) :
  Enqueued (this s) (this s1) (payloadOf (EvProcessOutput h cb hr pSample)) ->
  trace s1 = trace s ++ [EvProcessOutput h cb hr pSample] ->
  Drained s s1 [EvProcessOutput h cb hr pSample].
Proof.
  intros HE Htrace. split; [|split].
  - unfold payloadsOf. cbn [flat_map]. now rewrite app_nil_r.
  - exact Htrace.
  - reflexivity.
Qed.

Lemma Drained_cons (s s1 s' : St Encoder.VideoEncoder W) (h : Handle) (cb : option Z)
      (hr : HRESULT) (pSample : option OutputSample) (evs : list Event) :
  Enqueued (this s) (this s1) (payloadOf (EvProcessOutput h cb hr pSample)) ->
  trace s1 = trace s ++ [EvProcessOutput h cb hr pSample] ->
  continues hr = true ->
  Drained s1 s' evs ->
  Drained s s' (EvProcessOutput h cb hr pSample :: evs).
Proof.
  intros HE Htrace Hcont (HE' & Htrace' & Hpass). split; [|split].
  - unfold payloadsOf. cbn [flat_map]. eapply Enqueued_trans; eassumption.
  - rewrite Htrace', Htrace, <- app_assoc. reflexivity.
  - cbn [isDrainPass]. rewrite Hcont, Hpass. now destruct evs.
Qed.

Lemma Starved_cons (n : nat) (s s1 s' : St Encoder.VideoEncoder W) (h : Handle)
      (cb : option Z) (hr : HRESULT) (pSample : option OutputSample) :
  Enqueued (this s) (this s1) (payloadOf (EvProcessOutput h cb hr pSample)) ->
  trace s1 = trace s ++ [EvProcessOutput h cb hr pSample] ->
  continues hr = true ->
  Starved n s1 s' ->
  Starved (S n) s s'.
Proof.
  intros HE Htrace Hcont (evs & Hd & Hall & Hlen).
  exists (EvProcessOutput h cb hr pSample :: evs). split; [|split].
  - eapply Drained_cons; eassumption.
  - cbn [forallb keepsDraining]. now rewrite Hcont, Hall.
  - cbn [List.length]. now rewrite Hlen.
Qed.

(** An output request that failed carries no sample. *)
Lemma payloadOf_failed (h : Handle) (cb : option Z) (hr : HRESULT)
      (pSample : option OutputSample) :
  isOk hr = false -> payloadOf (EvProcessOutput h cb hr pSample) = [].
Proof. intros Hhr. unfold payloadOf. rewrite Hhr. now destruct pSample. Qed.

Lemma isOk_eq (hr : HRESULT) : isOk hr = true -> hr = S_OK.
Proof. unfold isOk. apply Z.eqb_eq. Qed.

(** One pass of the loop from [ProcessOutput] onwards, given what the rest
    of the loop does. *)
Lemma drainOutput_post (n : nat) (h : Handle) (cb : option Z) (collected : Z)
      (continue : Z -> M (St Encoder.VideoEncoder W) Z) (s : St Encoder.VideoEncoder W) :
  (forall c s1,
      post (continue c) s1 (fun _ s' => exists evs, Drained s1 s' evs)
           (fun s' => Starved n s1 s') False) ->
  post (Encoder.drainOutput h cb collected continue) s
       (fun _ s' => exists evs, Drained s s' evs)
       (fun s' => Starved (S n) s s') False.
Proof.
  intros Hcontinue. unfold Encoder.drainOutput.
  apply post_bind, post_processOutput. intros hr pSample w. cbv beta.
  set (e := EvProcessOutput h cb hr pSample).
  destruct (hr =? MF_E_TRANSFORM_NEED_MORE_INPUT) eqn:Hneed.
  { apply post_ret. exists [e]. apply Drained_last; [|reflexivity].
    apply Z.eqb_eq in Hneed. subst hr. cbn [this].
    rewrite payloadOf_failed by reflexivity. apply Enqueued_refl. }
  destruct (hr =? MF_E_TRANSFORM_STREAM_CHANGE) eqn:Hchange.
  { apply Z.eqb_eq in Hchange. subst hr.
    assert (Hstep : forall s1,
               this s1 = this s
               \/ (exists p z, this s1 = Encoder.set_streamInfo p z (this s)) ->
               trace s1 = trace s ++ [e] ->
               post (continue collected) s1
                    (fun _ s' => exists evs, Drained s s' evs)
                    (fun s' => Starved (S n) s s') False).
    { intros s1 Hthis Htrace.
      assert (HE : Enqueued (this s) (this s1) (payloadOf e)).
      { unfold e. rewrite payloadOf_failed by reflexivity.
        destruct Hthis as [-> | (p & z & ->)]; [|apply Enqueued_streamInfo];
          apply Enqueued_refl. }
      eapply post_weaken; [apply Hcontinue | | | auto]; cbv beta.
      - intros _ s' [evs Hd]. exists (e :: evs).
        eapply Drained_cons; [exact HE | exact Htrace | reflexivity | exact Hd].
      - intros s' Hs. eapply Starved_cons; [exact HE | exact Htrace | reflexivity | exact Hs]. }
    wp; apply Hstep; cbn [this trace]; eauto. }
  destruct (negb (isOk hr)) eqn:Hfail.
  { apply negb_true_iff in Hfail.
    apply post_ret. exists [e]. apply Drained_last; [|reflexivity].
    cbn [this]. unfold e. rewrite payloadOf_failed by exact Hfail. apply Enqueued_refl. }
  apply negb_false_iff in Hfail.
  assert (Hcont : continues hr = true) by (unfold continues; now rewrite Hfail).
  assert (Hhr : hr = S_OK) by now apply isOk_eq.
  destruct pSample as [outputSample|].
  - eapply post_bind_with;
      [apply (collectOutput_Enqueued h cb outputSample) | | contradiction | contradiction].
    cbv beta. cbn [this trace]. intros b s1 [Htrace HE].
    rewrite <- Hhr in HE. fold e in HE.
    eapply post_weaken; [apply Hcontinue | | | auto]; cbv beta.
    + intros _ s' [evs Hd]. exists (e :: evs).
      eapply Drained_cons; [exact HE | exact Htrace | exact Hcont | exact Hd].
    + intros s' Hs. eapply Starved_cons; [exact HE | exact Htrace | exact Hcont | exact Hs].
  - assert (HE : Enqueued (this s) (this s) (payloadOf e)).
    { unfold e, payloadOf. apply Enqueued_refl. }
    eapply post_weaken; [apply Hcontinue | | | auto]; cbv beta.
    + intros _ s' [evs Hd]. exists (e :: evs).
      eapply (Drained_cons s (mkSt (this s) w (trace s ++ [e])));
        [exact HE | reflexivity | exact Hcont | exact Hd].
    + intros s' Hs.
      eapply (Starved_cons n s (mkSt (this s) w (trace s ++ [e])));
        [exact HE | reflexivity | exact Hcont | exact Hs].
Qed.

(** The loop of [drainOutputSamples]: it returns after one pass, or is still
    running after as many answered output requests as the model has fuel. *)
Lemma drainLoop_post (fuel : nat) :
  forall (h : Handle) (collected : Z) (s : St Encoder.VideoEncoder W),
    post (Encoder.drainLoop fuel h collected) s
         (fun _ s' => exists evs, Drained s s' evs)
         (fun s' => Starved fuel s s') False.
Proof.
  induction fuel as [|fuel IH]; intros h collected s.
  - apply post_diverge. exists []. split; [|split; reflexivity].
    now apply Drained_nil.
  - cbn [Encoder.drainLoop].
    assert (Hout : forall cb s1,
               this s1 = this s -> trace s1 = trace s ->
               post (Encoder.drainOutput h cb collected (Encoder.drainLoop fuel h)) s1
                    (fun _ s' => exists evs, Drained s s' evs)
                    (fun s' => Starved (S fuel) s s') False).
    { intros cb s1 Hthis Htrace.
      eapply post_weaken; [apply (drainOutput_post fuel); intros; apply IH | | | auto];
        cbv beta.
      - intros _ s' [evs (HE & Htr & Hpass)]. exists evs.
        split; [|split]; [now rewrite <- Hthis | now rewrite <- Htrace | exact Hpass].
      - intros s' (evs & (HE & Htr & Hpass) & Hall & Hlen). exists evs.
        split; [|split; assumption].
        split; [|split]; [now rewrite <- Hthis | now rewrite <- Htrace | exact Hpass]. }
    wp; try (apply Hout; reflexivity).
    all: exists []; now apply Drained_nil.
Qed.

Lemma continues_need_more_input : continues MF_E_TRANSFORM_NEED_MORE_INPUT = false.
Proof. reflexivity. Qed.

Lemma Finished_cons (h : Handle) (cb : option Z) (hr : HRESULT)
      (pSample : option OutputSample) (evs : list Event) :
  continues hr = true -> Finished evs -> Finished (EvProcessOutput h cb hr pSample :: evs).
Proof.
  intros Hcont [Hcomplete | [Hpass Hrefused]].
  - left. cbn [isCompletePass]. rewrite Hcont, Hcomplete.
    destruct evs; [discriminate | reflexivity].
  - right. split; [|exact Hrefused]. cbn [isDrainPass]. rewrite Hcont, Hpass.
    now destruct evs.
Qed.

Lemma Finished_last (h : Handle) (cb : option Z) (hr : HRESULT)
      (pSample : option OutputSample) :
  continues hr = false -> Finished [EvProcessOutput h cb hr pSample].
Proof. intros Hcont. left. cbn [isCompletePass]. now rewrite Hcont. Qed.

(** One pass of the loop from [ProcessOutput] onwards ends as the rest of
    the loop does, or on its own request. *)
Lemma drainOutput_Finished (h : Handle) (cb : option Z) (collected : Z)
      (continue : Z -> M (St Encoder.VideoEncoder W) Z) (s : St Encoder.VideoEncoder W) :
  (forall c s1,
      post (continue c) s1
           (fun _ s' => exists evs, trace s' = trace s1 ++ evs /\ Finished evs)
           (fun _ => True) False) ->
  post (Encoder.drainOutput h cb collected continue) s
       (fun _ s' => exists evs, trace s' = trace s ++ evs /\ Finished evs)
       (fun _ => True) False.
Proof.
  intros Hcontinue. unfold Encoder.drainOutput.
  apply post_bind, post_processOutput. intros hr pSample w. cbv beta.
  set (e := EvProcessOutput h cb hr pSample).
  assert (Hstep : forall c s1,
             trace s1 = trace s ++ [e] -> continues hr = true ->
             post (continue c) s1
                  (fun _ s' => exists evs, trace s' = trace s ++ evs /\ Finished evs)
                  (fun _ => True) False).
  { intros c s1 Htrace Hcont.
    eapply post_weaken; [apply Hcontinue | | auto | auto]; cbv beta.
    intros _ s' (evs & Htr & Hfin). exists (e :: evs).
    split; [rewrite Htr, Htrace, <- app_assoc; reflexivity|].
    now apply Finished_cons. }
  destruct (hr =? MF_E_TRANSFORM_NEED_MORE_INPUT) eqn:Hneed.
  { apply Z.eqb_eq in Hneed. apply post_ret. exists [e]. split; [reflexivity|].
    apply Finished_last. now subst hr. }
  destruct (hr =? MF_E_TRANSFORM_STREAM_CHANGE) eqn:Hchange.
  { assert (Hcont : continues hr = true)
      by (unfold continues; rewrite Hchange; apply orb_true_r).
    wp; (apply Hstep; [reflexivity | exact Hcont]). }
  destruct (negb (isOk hr)) eqn:Hfail.
  { apply negb_true_iff in Hfail. apply post_ret. exists [e]. split; [reflexivity|].
    apply Finished_last. unfold continues. now rewrite Hfail, Hchange. }
  apply negb_false_iff in Hfail.
  assert (Hcont : continues hr = true) by (unfold continues; now rewrite Hfail).
  destruct pSample as [outputSample|].
  - eapply post_bind_with;
      [apply (collectOutput_post h cb outputSample) | | contradiction | contradiction].
    cbv beta. cbn [this trace]. intros b s1 [Htrace _].
    apply Hstep; assumption.
  - apply Hstep; [reflexivity | exact Hcont].
Qed.

(** The loop of [drainOutputSamples], when it returns, has run a pass to
    its end. *)
Lemma drainLoop_Finished (fuel : nat) :
  forall (h : Handle) (collected : Z) (s : St Encoder.VideoEncoder W),
    post (Encoder.drainLoop fuel h collected) s
         (fun _ s' => exists evs, trace s' = trace s ++ evs /\ Finished evs)
         (fun _ => True) False.
Proof.
  induction fuel as [|fuel IH]; intros h collected s.
  - apply post_diverge. exact I.
  - cbn [Encoder.drainLoop].
    assert (Hout : forall cb s1,
               trace s1 = trace s ->
               post (Encoder.drainOutput h cb collected (Encoder.drainLoop fuel h)) s1
                    (fun _ s' => exists evs, trace s' = trace s ++ evs /\ Finished evs)
                    (fun _ => True) False).
    { intros cb s1 Htrace. rewrite <- Htrace.
      apply drainOutput_Finished. intros c s2. apply IH. }
    wp; try (apply Hout; reflexivity).
    all: exists []; split; [now rewrite app_nil_r|]; right; split; [reflexivity|].
    all: match goal with
         | Hb : MFCreateMemoryBuffer ?n ?w1 = (?a1, _), Hf : negb (isOk ?a1) = true |- _ =>
             exists w1; right; exists n; rewrite Hb; cbn [fst]; now apply negb_true_iff
         | Hc : MFCreateSample ?w1 = (?a1, _), Hf : negb (isOk ?a1) = true |- _ =>
             exists w1; left; rewrite Hc; cbn [fst]; now apply negb_true_iff
         end.
Qed.

(** [drainOutputSamples] on a valid encoder. *)
Lemma drainOutputSamples_post (fuel : nat) (s : St Encoder.VideoEncoder W) :
  Encoder.encoder_ (this s) <> None ->
  post (Encoder.drainOutputSamples fuel) s
       (fun _ s' => exists evs, Drained s s' evs)
       (fun s' => Starved fuel s s') False.
Proof.
  intros Hvalid. unfold Encoder.drainOutputSamples.
  apply post_bind, post_get. cbv beta.
  destruct (Encoder.encoder_ (this s)) as [h|]; [|contradiction].
  apply drainLoop_post.
Qed.

(** [drainOutputSamples] on a valid encoder, when it returns: one pass,
    run to its end. *)
Lemma drainOutputSamples_full (fuel : nat) (s : St Encoder.VideoEncoder W) :
  Encoder.encoder_ (this s) <> None ->
  post (Encoder.drainOutputSamples fuel) s
       (fun _ s' => exists evs, Drained s s' evs /\ Finished evs)
       (fun s' => Starved fuel s s') False.
Proof.
  intros Hvalid.
  assert (Hfinished : post (Encoder.drainOutputSamples fuel) s
                           (fun _ s' => exists evs, trace s' = trace s ++ evs /\ Finished evs)
                           (fun _ => True) False).
  { unfold Encoder.drainOutputSamples. apply post_bind, post_get. cbv beta.
    destruct (Encoder.encoder_ (this s)) as [h|]; [|contradiction].
    apply drainLoop_Finished. }
  eapply post_weaken;
    [apply (post_and _ _ _ _ _ _ _ _ (drainOutputSamples_post fuel s Hvalid) Hfinished)
    | | | tauto]; cbv beta.
  - intros _ s' [[evs Hd] (evs' & Htr & Hfin)]. exists evs. split; [exact Hd|].
    destruct Hd as (_ & Htr' & _). rewrite Htr' in Htr. apply app_inv_head in Htr.
    now subst evs'.
  - intros s' [Hs _]. exact Hs.
Qed.

End EncoderDrain.

(** ** Decoder: the frame of an output *)

Section DecoderOutputFacts.

Context {W : Type} `{Platform W}.



(** [popFrame] of a decoder whose transform provisions its own output
    samples is the output request. *)
Lemma Decoder_popFrame_provisioned (fuel : nat) (presentationTime : option Z)
      (s : St Decoder.VideoDecoder W) (h : Handle) :
  Decoder.decoder_ (this s) = Some h ->
  Decoder.mftProvidesOutputSamples_ (this s) = true ->
  Decoder.popFrame fuel presentationTime s
  = Decoder.popFrameOutput fuel h None presentationTime s.
Proof.
  intros Hvalid Hprovides. unfold Decoder.popFrame at 1. unfold bind at 1. unfold get.
  now rewrite Hvalid, Hprovides.
Qed.

End DecoderOutputFacts.

(** ** Stopping *)

Section StopFacts.

Context {W : Type} `{Platform W}.

(** [VideoDecoder::stop] on a started decoder: the three messages, in order,
    and no output request. *)
Lemma Decoder_stop_post (s : St Decoder.VideoDecoder W) :
  post Decoder.stop s
       (fun b s' =>
          b = true
          /\ ((Decoder.decoder_ (this s) = None \/ Decoder.isStarted_ (this s) = false)
              /\ s' = s
              \/ exists h hr0 hr1 hr2,
                  Decoder.decoder_ (this s) = Some h
                  /\ Decoder.isStarted_ (this s) = true
                  /\ this s' = Decoder.set_isStarted_ false (this s)
                  /\ trace s'
                     = trace s
                       ++ [EvProcessMessage h MFT_MESSAGE_COMMAND_DRAIN hr0;
                           EvProcessMessage h MFT_MESSAGE_NOTIFY_END_OF_STREAM hr1;
                           EvProcessMessage h MFT_MESSAGE_NOTIFY_END_STREAMING hr2]))
       (fun _ => False) False.
Proof.
  unfold Decoder.stop. wp; split; try reflexivity.
  - left. apply negb_true_iff in Heqb. split; [now right | reflexivity].
  - right. exists h, hr, hr0, hr1. apply negb_false_iff in Heqb.
    repeat split; try assumption. now rewrite <- !app_assoc.
  - left. split; [now left | reflexivity].
Qed.

(** [VideoEncoder::stop] on a started encoder: the drain message, one pass
    of [drainOutputSamples] whose media samples are appended to the queue,
    then the two notifications; it is still running only while the transform
    keeps answering the output requests. *)
Lemma Encoder_stop_post (fuel : nat) (s : St Encoder.VideoEncoder W) (h : Handle) :
  Encoder.encoder_ (this s) = Some h ->
  Encoder.isStarted_ (this s) = true ->
  post (Encoder.stop fuel) s
       (fun b s' =>
          b = true
          /\ Encoder.isStarted_ (this s') = false
          /\ exists hr0 evs hr1 hr2,
              trace s'
              = trace s
                ++ EvProcessMessage h MFT_MESSAGE_COMMAND_DRAIN hr0 :: evs
                ++ [EvProcessMessage h MFT_MESSAGE_NOTIFY_END_OF_STREAM hr1;
                    EvProcessMessage h MFT_MESSAGE_NOTIFY_END_STREAMING hr2]
              /\ Finished evs
              /\ exists new,
                  Encoder.encodedSamples_ (this s') = Encoder.encodedSamples_ (this s) ++ new
                  /\ mediaSamples new = payloadsOf evs)
       (fun s' =>
          exists hr0 evs,
            trace s' = trace s ++ EvProcessMessage h MFT_MESSAGE_COMMAND_DRAIN hr0 :: evs
            /\ forallb keepsDraining evs = true
            /\ List.length evs = fuel)
       False.
Proof.
  intros Hvalid Hstarted. unfold Encoder.stop.
  apply post_bind, post_get. cbv beta. rewrite Hvalid, Hstarted. cbn [negb].
  apply post_bind, post_processMessage. intros hr0 w. cbv beta.
  eapply post_bind_with; [apply (drainOutputSamples_full fuel) | | | auto].
  - cbn [this]. rewrite Hvalid. discriminate.
  - cbv beta. intros _ s1 [evs [(HE & Htrace & Hpass) Hfin]]. cbn [this trace] in HE, Htrace.
    wp. split; [reflexivity|]. split; [reflexivity|].
    exists hr0, evs, hr, hr1. split; [|split; [exact Hfin|]].
    + rewrite Htrace, <- !app_assoc. reflexivity.
    + destruct HE as (_ & new & Hq & Hm & _). exists new. split; assumption.
  - cbv beta. intros s1 (evs & (HE & Htrace & Hpass) & Hall & Hlen).
    cbn [this trace] in Htrace. exists hr0, evs.
    split; [|split; assumption]. rewrite Htrace, <- app_assoc. reflexivity.
Qed.



End StopFacts.



(** ** Submission *)

Lemma outputRequests_app (l r : list Event) :
  outputRequests (l ++ r) = (outputRequests l + outputRequests r)%nat.
Proof. unfold outputRequests. now rewrite filter_app, length_app. Qed.

Lemma outputRequests_draining (evs : list Event) :
  forallb keepsDraining evs = true -> outputRequests evs = List.length evs.
Proof.
  induction evs as [|e evs IH]; [reflexivity|].
  cbn [forallb]. intros Hall. apply andb_prop in Hall. destruct Hall as [He Hall].
  unfold outputRequests in *. cbn [filter].
  destruct e; try discriminate. cbn [isProcessOutput List.length]. now rewrite IH.
Qed.

Section SubmitFacts.

Context {W : Type} `{Platform W}.

Lemma Drained_valid (s s' : St Encoder.VideoEncoder W) (evs : list Event) :
  Drained s s' evs -> Encoder.encoder_ (this s') = Encoder.encoder_ (this s).
Proof. intros ((Hsame & _) & _). apply Hsame. Qed.

(** [pushFrame] from [ProcessInput] onwards. *)
Lemma submit_post (fuel : nat) (h : Handle) (i : InputSample)
      (s : St Encoder.VideoEncoder W) :
  Encoder.encoder_ (this s) = Some h ->
  post (Encoder.submit fuel h i) s
       (fun b s' =>
          (exists pay, Enqueued (this s) (this s') pay)
          /\ exists evs, trace s' = trace s ++ evs /\ Submitted h i b evs)
       (fun s' =>
          (exists pay, Enqueued (this s) (this s') pay)
          /\ exists evs, trace s' = trace s ++ evs /\ (fuel <= outputRequests evs)%nat)
       False.
Proof.
  intros Hvalid. unfold Encoder.submit.
  apply post_bind, post_processInput. intros hr w. cbv beta.
  destruct (hr =? MF_E_NOTACCEPTING) eqn:Hback.
  - apply Z.eqb_eq in Hback. subst hr.
    eapply post_bind_with; [apply (drainOutputSamples_full fuel) | | | auto].
    + cbn [this]. rewrite Hvalid. discriminate.
    + cbv beta. intros _ s1 [pass1 [Hd1 Hfin1]].
      pose proof (Drained_valid _ _ _ Hd1) as Hvalid1. cbn [this] in Hvalid1.
      destruct Hd1 as (HE1 & Htrace1 & Hpass1). cbn [this trace] in HE1, Htrace1.
      apply post_bind, post_processInput. intros hr2 w2. cbv beta.
      destruct (negb (isOk hr2)) eqn:Hfail.
      * apply negb_true_iff in Hfail. apply post_ret.
        split; [exists (payloadsOf pass1); exact HE1|].
        eexists. split; [rewrite Htrace1, <- !app_assoc; reflexivity|].
        right. right. exists pass1, hr2, []. cbn [app]. rewrite Hfail.
        repeat split; assumption.
      * apply negb_false_iff in Hfail.
        eapply post_bind_with; [apply (drainOutputSamples_full fuel) | | | auto].
        -- cbn [this]. rewrite Hvalid1, Hvalid. discriminate.
        -- cbv beta. intros _ s2 [pass2 [(HE2 & Htrace2 & Hpass2) Hfin2]].
           cbn [this trace] in HE2, Htrace2. apply post_ret.
           split; [eexists; eapply Enqueued_trans; eassumption|].
           eexists. split; [rewrite Htrace2, Htrace1, <- !app_assoc; reflexivity|].
           right. right. exists pass1, hr2, pass2. cbn [app]. rewrite Hfail.
           repeat split; assumption.
        -- cbv beta. intros s2 (pass2 & (HE2 & Htrace2 & Hpass2) & Hall2 & Hlen2).
           cbn [this trace] in HE2, Htrace2.
           split; [eexists; eapply Enqueued_trans; eassumption|].
           eexists. split; [rewrite Htrace2, Htrace1, <- !app_assoc; reflexivity|].
           rewrite !outputRequests_app, (outputRequests_draining pass2 Hall2). lia.
    + cbv beta. intros s1 (pass1 & (HE1 & Htrace1 & Hpass1) & Hall1 & Hlen1).
      cbn [this trace] in HE1, Htrace1.
      split; [exists (payloadsOf pass1); exact HE1|].
      eexists. split; [rewrite Htrace1, <- !app_assoc; reflexivity|].
      rewrite !outputRequests_app, (outputRequests_draining pass1 Hall1). lia.
  - apply Z.eqb_neq in Hback.
    destruct (negb (isOk hr)) eqn:Hfail.
    + apply negb_true_iff in Hfail.
      assert (Hdone : (exists pay, Enqueued (this s) (this s) pay)
                      /\ exists evs,
                          trace s ++ [EvProcessInput h i hr] = trace s ++ evs
                          /\ Submitted h i false evs).
      { split; [exists []; apply Enqueued_refl|].
        eexists. split; [reflexivity|]. left. exists hr. repeat split; assumption. }
      wp; apply Hdone.
    + apply negb_false_iff in Hfail.
      eapply post_bind_with; [apply (drainOutputSamples_full fuel) | | | auto].
      * cbn [this]. rewrite Hvalid. discriminate.
      * cbv beta. intros _ s1 [pass [(HE & Htrace & Hpass) Hfin]].
        cbn [this trace] in HE, Htrace. apply post_ret.
        split; [eexists; exact HE|].
        eexists. split; [rewrite Htrace, <- !app_assoc; reflexivity|].
        right. left. exists hr, pass. repeat split; assumption.
      * cbv beta. intros s1 (pass & (HE & Htrace & Hpass) & Hall & Hlen).
        cbn [this trace] in HE, Htrace.
        split; [eexists; exact HE|].
        eexists. split; [rewrite Htrace, <- !app_assoc; reflexivity|].
        rewrite !outputRequests_app, (outputRequests_draining pass Hall). lia.
Qed.

(** [pushFrame]: no call on the transform and the answer false, or, on a
    started encoder, a submission. *)
Lemma Encoder_pushFrame_post (fuel : nat) (frame : InputFrame) (t : Z)
      (s : St Encoder.VideoEncoder W) :
  post (Encoder.pushFrame fuel frame t) s
       (fun b s' =>
          (exists pay, Enqueued (this s) (this s') pay)
          /\ ((b = false /\ this s' = this s /\ trace s' = trace s)
              \/ exists h i evs,
                  Encoder.encoder_ (this s) = Some h
                  /\ Encoder.isStarted_ (this s) = true
                  /\ trace s' = trace s ++ evs
                  /\ Submitted h i b evs))
       (fun s' =>
          (exists pay, Enqueued (this s) (this s') pay)
          /\ exists evs, trace s' = trace s ++ evs /\ (fuel <= outputRequests evs)%nat)
       False.
Proof.
  assert (Hidle : (exists pay, Enqueued (this s) (this s) pay)
                  /\ ((false = false /\ this s = this s /\ trace s = trace s)
                      \/ exists h i evs,
                          Encoder.encoder_ (this s) = Some h
                          /\ Encoder.isStarted_ (this s) = true
                          /\ trace s = trace s ++ evs
                          /\ Submitted h i false evs)).
  { split; [exists []; apply Enqueued_refl|]. left. repeat split. }
  unfold Encoder.pushFrame.
  wp; try apply Hidle.
  eapply post_weaken; [apply (submit_post fuel h); exact Heqo | | | auto]; cbv beta.
  - cbn [this trace]. intros ok s' [HE (evs & Htrace & Hsub)].
    split; [exact HE|]. right. exists h. eexists. exists evs.
    apply negb_false_iff in Heqb0. repeat split; eassumption.
  - cbn [this trace]. intros s' HD. exact HD.
Qed.

End SubmitFacts.


(** ** Initialisation and release *)

Section LifecycleFacts.

Context {W : Type} `{Platform W}.

Ltac keep IH :=
  eapply post_weaken; [apply IH | cbv beta; cbn [this world trace]; auto ..].

Lemma Decoder_selectOutputType_post (fuel : nat) :
  forall (h : Handle) (typeIndex : Z) (s : St Decoder.VideoDecoder W),
    post (Decoder.selectOutputType fuel h typeIndex) s
         (fun _ s' => this s' = this s /\ trace s' = trace s)
         (fun s' => this s' = this s /\ trace s' = trace s) False.
Proof.
  induction fuel as [|fuel IH]; intros h typeIndex s.
  - apply post_diverge. split; reflexivity.
  - cbn [Decoder.selectOutputType]. wp; try (split; reflexivity); keep IH.
Qed.

Lemma Decoder_createDecoder_post (fuel n : nat) :
  forall (i : Z) (inputType : MediaType) (s : St Decoder.VideoDecoder W),
    post (Decoder.createDecoder fuel n i inputType) s
         (fun _ s' =>
            Decoder.isStarted_ (this s') = Decoder.isStarted_ (this s)
            /\ trace s' = trace s)
         (fun s' =>
            Decoder.isStarted_ (this s') = Decoder.isStarted_ (this s)
            /\ trace s' = trace s) False.
Proof.
  induction n as [|n IH]; intros i inputType s.
  - apply post_ret. split; reflexivity.
  - cbn [Decoder.createDecoder]. wp; try keep IH.
    eapply post_weaken; [apply Decoder_selectOutputType_post | | | auto]; cbv beta;
      cbn [this world trace].
    + intros outputTypeSet s1 [Hthis Htrace].
      wp; try keep IH; cbn [this trace]; try (rewrite Hthis, Htrace; split; reflexivity).
      all: rewrite Hthis, Htrace; auto.
    + intros s1 [Hthis Htrace]. now rewrite Hthis, Htrace.
Qed.

(** [initialize] of the decoder never touches [isStarted_] and makes no
    traced call. *)
Lemma Decoder_initialize_post (fuel : nat) (mime : string) (width height : Z)
      (config : option (list byte)) (configSize : Z) (s : St Decoder.VideoDecoder W) :
  post (Decoder.initialize fuel mime width height config configSize) s
       (fun _ s' =>
          Decoder.isStarted_ (this s') = Decoder.isStarted_ (this s)
          /\ trace s' = trace s)
       (fun s' =>
          Decoder.isStarted_ (this s') = Decoder.isStarted_ (this s)
          /\ trace s' = trace s) False.
Proof.
  unfold Decoder.initialize. wp; try (split; reflexivity).
  eapply post_weaken; [apply Decoder_createDecoder_post | | | auto]; cbv beta;
    cbn [this world trace].
  - intros created s1 [Hstarted Htrace].
    wp; cbn [this trace]; split; assumption.
  - intros s1 Hs1. exact Hs1.
Qed.

(** [release] of the decoder leaves no transform. *)
Lemma Decoder_release_post (s : St Decoder.VideoDecoder W) :
  post Decoder.release s
       (fun _ s' =>
          Decoder.decoder_ (this s') = None
          /\ (Decoder.decoder_ (this s) = None -> trace s' = trace s))
       (fun _ => False) False.
Proof.
  unfold Decoder.release.
  apply post_bind, post_get. cbv beta.
  destruct (Decoder.decoder_ (this s)) as [h|] eqn:Hvalid.
  - apply post_bind. apply post_bind.
    assert (Hstop : post (if Decoder.isStarted_ (this s)
                          then bind Decoder.stop (fun _ => ret tt) else ret tt) s
                         (fun _ s1 => True) (fun _ => False) False).
    { destruct (Decoder.isStarted_ (this s)); [|exact I].
      apply post_bind.
      eapply post_weaken; [apply Decoder_stop_post | | auto | auto].
      cbv beta. intros; exact I. }
    eapply post_weaken; [exact Hstop | | auto | auto]. cbv beta. intros _ s1 _.
    wp; split; try reflexivity; intros; discriminate.
  - wp; split; try assumption; auto.
Qed.

End LifecycleFacts.


(** ** The configuration sample *)

Lemma Keeps_refl (p : list Encoder.Sample) (e : Encoder.VideoEncoder) : Keeps p e p e.
Proof. split; auto. Qed.

Lemma Keeps_same (p : list Encoder.Sample) (e e' : Encoder.VideoEncoder) :
  Encoder.codecConfigEmitted_ e' = Encoder.codecConfigEmitted_ e ->
  Encoder.encodedSamples_ e' = Encoder.encodedSamples_ e ->
  Keeps p e p e'.
Proof. intros Hf Hq. unfold Keeps, Budget. rewrite Hf, Hq. auto. Qed.

Lemma Keeps_trans (p1 p2 p3 : list Encoder.Sample) (e1 e2 e3 : Encoder.VideoEncoder) :
  Keeps p1 e1 p2 e2 -> Keeps p2 e2 p3 e3 -> Keeps p1 e1 p3 e3.
Proof. intros [F1 B1] [F2 B2]. split; auto. Qed.

Lemma Enqueued_Keeps (e e' : Encoder.VideoEncoder) (pay p : list Encoder.Sample) :
  Enqueued e e' pay -> Keeps p e p e'.
Proof.
  intros (_ & new & Hq & _ & Hc & Hf). split.
  - intros Hset. rewrite Hf, Hset. reflexivity.
  - unfold Budget. rewrite Hq, configurationSamples_app, Hf.
    destruct (Encoder.codecConfigEmitted_ e); cbn [orb].
    + lia.
    + destruct (Nat.ltb_spec 0 (configurationSamples new)); lia.
Qed.

(** Taking the head of the queue moves it to the samples handed out. *)
Lemma pop_Keeps (e : Encoder.VideoEncoder) (sample : Encoder.Sample)
      (rest p : list Encoder.Sample) :
  Encoder.encodedSamples_ e = sample :: rest ->
  Keeps p e (p ++ [sample]) (Encoder.set_encodedSamples_ rest e).
Proof.
  intros Hq. split; [auto|].
  unfold Budget. cbn [Encoder.set_encodedSamples_ Encoder.encodedSamples_
                      Encoder.codecConfigEmitted_].
  rewrite Hq, configurationSamples_app.
  change (sample :: rest) with ([sample] ++ rest).
  rewrite (configurationSamples_app [sample] rest). lia.
Qed.

Lemma invalid_Keeps (e : Encoder.VideoEncoder) (p : list Encoder.Sample) :
  Keeps p e (p ++ [Encoder.Sample_]) e.
Proof.
  split; [auto|]. unfold Budget. rewrite configurationSamples_app.
  change (configurationSamples [Encoder.Sample_]) with 0%nat. lia.
Qed.

Section ConfigurationFacts.

Context {W : Type} `{Platform W}.

Lemma Encoder_start_post (s : St Encoder.VideoEncoder W) :
  post Encoder.start s
       (fun _ s' => forall p, Keeps p (this s) p (this s'))
       (fun _ => False) False.
Proof. unfold Encoder.start. wp; intros p; apply Keeps_same; reflexivity. Qed.

Lemma Encoder_stop_Keeps (fuel : nat) (s : St Encoder.VideoEncoder W) :
  post (Encoder.stop fuel) s
       (fun _ s' => forall p, Keeps p (this s) p (this s'))
       (fun s' => forall p, Keeps p (this s) p (this s'))
       False.
Proof.
  unfold Encoder.stop. apply post_bind, post_get. cbv beta.
  destruct (Encoder.encoder_ (this s)) as [h|] eqn:Hvalid;
    [|apply post_ret; intros p; apply Keeps_refl].
  destruct (negb (Encoder.isStarted_ (this s)));
    [apply post_ret; intros p; apply Keeps_refl|].
  apply post_bind, post_processMessage. intros hr0 w. cbv beta.
  eapply post_bind_with; [apply (drainOutputSamples_post fuel) | | | auto].
  - cbn [this]. rewrite Hvalid. discriminate.
  - cbv beta. intros _ s1 [evs (HE & _ & _)]. cbn [this] in HE.
    wp. intros p.
    eapply Keeps_trans; [apply (Enqueued_Keeps _ _ _ p HE) | apply Keeps_same; reflexivity].
  - cbv beta. intros s1 (evs & (HE & _ & _) & _). cbn [this] in HE.
    intros p. apply (Enqueued_Keeps _ _ _ p HE).
Qed.

Lemma Encoder_pushFrame_Keeps (fuel : nat) (frame : InputFrame) (t : Z)
      (s : St Encoder.VideoEncoder W) :
  post (Encoder.pushFrame fuel frame t) s
       (fun _ s' => forall p, Keeps p (this s) p (this s'))
       (fun s' => forall p, Keeps p (this s) p (this s'))
       False.
Proof.
  eapply post_weaken; [apply Encoder_pushFrame_post | | | auto]; cbv beta.
  - intros _ s' [[pay HE] _] p. apply (Enqueued_Keeps _ _ _ p HE).
  - intros s' [[pay HE] _] p. apply (Enqueued_Keeps _ _ _ p HE).
Qed.

Lemma Encoder_popSample_Keeps (fuel : nat) (s : St Encoder.VideoEncoder W) :
  post (Encoder.popSample fuel) s
       (fun sample s' => forall p, Keeps p (this s) (p ++ [sample]) (this s'))
       (fun s' => forall p, Keeps p (this s) p (this s'))
       False.
Proof.
  unfold Encoder.popSample. apply post_bind, post_get. cbv beta.
  destruct (Encoder.encodedSamples_ (this s)) as [|sample rest] eqn:Hq.
  - destruct (Encoder.encoder_ (this s)) as [h|] eqn:Hvalid;
      [|apply post_ret; intros p; apply invalid_Keeps].
    destruct (negb (Encoder.isStarted_ (this s)));
      [apply post_ret; intros p; apply invalid_Keeps|].
    eapply post_bind_with; [apply (drainOutputSamples_post fuel) | | | auto].
    + rewrite Hvalid. discriminate.
    + cbv beta. intros _ s1 [evs (HE & _ & _)].
      apply post_bind, post_get. cbv beta.
      destruct (Encoder.encodedSamples_ (this s1)) as [|sample rest] eqn:Hq1.
      * apply post_ret. intros p.
        eapply Keeps_trans; [apply (Enqueued_Keeps _ _ _ p HE) | apply invalid_Keeps].
      * wp. intros p.
        eapply Keeps_trans; [apply (Enqueued_Keeps _ _ _ p HE) | now apply pop_Keeps].
    + cbv beta. intros s1 (evs & (HE & _ & _) & _) p. apply (Enqueued_Keeps _ _ _ p HE).
  - wp. intros p. now apply pop_Keeps.
Qed.

(** Any sequence of calls keeps the budget. *)
Lemma runOps_Keeps (fuel : nat) (ops : list Op) :
  forall (popped : list Encoder.Sample) (s : St Encoder.VideoEncoder W),
    post (runOps fuel ops popped) s
         (fun popped' s' => Keeps popped (this s) popped' (this s'))
         (fun s' => exists popped', Keeps popped (this s) popped' (this s'))
         False.
Proof.
  induction ops as [|op ops IH]; intros popped s.
  - apply post_ret. apply Keeps_refl.
  - destruct op as [| |frame t|]; cbn [runOps].
    + eapply post_bind_with; [apply Encoder_start_post | | contradiction | auto].
      cbv beta. intros _ s1 Hk. eapply post_weaken; [apply IH | | | auto]; cbv beta.
      * intros popped' s' Hk'. eapply Keeps_trans; [apply Hk | exact Hk'].
      * intros s' [popped' Hk']. exists popped'.
        eapply Keeps_trans; [apply Hk | exact Hk'].
    + eapply post_bind_with; [apply (Encoder_stop_Keeps fuel) | | | auto]; cbv beta.
      * intros _ s1 Hk. eapply post_weaken; [apply IH | | | auto]; cbv beta.
        -- intros popped' s' Hk'. eapply Keeps_trans; [apply Hk | exact Hk'].
        -- intros s' [popped' Hk']. exists popped'.
           eapply Keeps_trans; [apply Hk | exact Hk'].
      * intros s1 Hk. exists popped. apply Hk.
    + eapply post_bind_with; [apply (Encoder_pushFrame_Keeps fuel) | | | auto]; cbv beta.
      * intros _ s1 Hk. eapply post_weaken; [apply IH | | | auto]; cbv beta.
        -- intros popped' s' Hk'. eapply Keeps_trans; [apply Hk | exact Hk'].
        -- intros s' [popped' Hk']. exists popped'.
           eapply Keeps_trans; [apply Hk | exact Hk'].
      * intros s1 Hk. exists popped. apply Hk.
    + eapply post_bind_with; [apply (Encoder_popSample_Keeps fuel) | | | auto]; cbv beta.
      * intros sample s1 Hk. eapply post_weaken; [apply IH | | | auto]; cbv beta.
        -- intros popped' s' Hk'. eapply Keeps_trans; [apply Hk | exact Hk'].
        -- intros s' [popped' Hk']. exists popped'.
           eapply Keeps_trans; [apply Hk | exact Hk'].
      * intros s1 Hk. exists popped. apply Hk.
Qed.

(** [release] of the encoder leaves no transform, an empty queue and
    [codecConfigEmitted_] cleared. *)
Lemma Encoder_release_post (fuel : nat) (s : St Encoder.VideoEncoder W) :
  post (Encoder.release fuel) s
       (fun _ s' =>
          Encoder.encoder_ (this s') = None
          /\ Encoder.codecConfigEmitted_ (this s') = false
          /\ Encoder.encodedSamples_ (this s') = [])
       (fun _ => True) False.
Proof.
  unfold Encoder.release.
  apply post_bind, post_get. cbv beta.
  destruct (Encoder.encoder_ (this s)) as [h|] eqn:Hvalid.
  - apply post_bind. apply post_bind.
    assert (Hstop : post (if Encoder.isStarted_ (this s)
                          then bind (Encoder.stop fuel) (fun _ => ret tt) else ret tt) s
                         (fun _ s1 => True) (fun _ => True) False).
    { destruct (Encoder.isStarted_ (this s)) eqn:Hstarted; [|exact I].
      apply post_bind.
      eapply post_weaken; [apply (Encoder_stop_post fuel s h Hvalid Hstarted) | | auto | auto].
      cbv beta. intros; exact I. }
    eapply post_weaken; [exact Hstop | | auto | auto]. cbv beta. intros _ s1 _.
    wp; repeat split.
  - wp; repeat split; exact Hvalid.
Qed.

(** C2, as the code has it.  From a state in which the configuration samples
    queued are covered by [codecConfigEmitted_] (none while it is false),
    any sequence of [start], [stop], [pushFrame] and [popSample] calls hands
    out and queues at most one configuration sample in all, and never clears
    [codecConfigEmitted_], stream change or not.  Handling a successful
    output enqueues the configuration sample that is due, directly before
    the media sample of that output: for a clean point, while
    [codecConfigEmitted_] is false, the sequence header of the current output
    type when it has one that is not empty, which sets [codecConfigEmitted_];
    nothing for any other output.  Only [release] clears
    [codecConfigEmitted_]. *)
Theorem one_configuration_sample (fuel : nat) (ops : list Op)
        (s : St Encoder.VideoEncoder W) (h : Handle) (callerBuffer : option Z)
        (outputSample : OutputSample) :
  ((configurationSamples (Encoder.encodedSamples_ (this s))
    <= if Encoder.codecConfigEmitted_ (this s) then 1 else 0)%nat ->
   match runOps fuel ops [] s with
   | Ok popped s' =>
       (configurationSamples popped
        + configurationSamples (Encoder.encodedSamples_ (this s')) <= 1)%nat
       /\ (Encoder.codecConfigEmitted_ (this s) = true ->
           Encoder.codecConfigEmitted_ (this s') = true)
   | Diverge s' =>
       (configurationSamples (Encoder.encodedSamples_ (this s')) <= 1)%nat
       /\ (Encoder.codecConfigEmitted_ (this s) = true ->
           Encoder.codecConfigEmitted_ (this s') = true)
   | Undefined => False
   end)
  /\ (exists b s',
         Encoder.collectOutput h outputSample s = Ok b s'
         /\ Encoder.encodedSamples_ (this s')
            = Encoder.encodedSamples_ (this s) ++ configurationDue h outputSample s
              ++ payloadOf (EvProcessOutput h callerBuffer S_OK (Some outputSample))
         /\ Encoder.codecConfigEmitted_ (this s')
            = Encoder.codecConfigEmitted_ (this s)
              || (0 <? List.length (configurationDue h outputSample s))%nat)
  /\ (forall outputType w' header,
         Encoder.isCleanPoint outputSample = true ->
         Encoder.codecConfigEmitted_ (this s) = false ->
         GetOutputCurrentType h (world s) = (Some outputType, w') ->
         MF_MT_MPEG_SEQUENCE_HEADER outputType = Some header ->
         header <> [] ->
         configurationDue h outputSample s
         = [ {| Encoder.data_ := header;
                Encoder.presentationTime_ :=
                  Z.quot (match sampleTime outputSample with
                          | Some t => t | None => 0 end) 10;
                Encoder.bufferFlags_ := Encoder.BUFFER_FLAG_CODEC_CONFIG |} ])
  /\ (Encoder.isCleanPoint outputSample = false
      \/ Encoder.codecConfigEmitted_ (this s) = true ->
      configurationDue h outputSample s = [])
  /\ match Encoder.release fuel s with
     | Ok _ s' =>
         Encoder.codecConfigEmitted_ (this s') = false
         /\ Encoder.encodedSamples_ (this s') = []
     | Diverge _ => True
     | Undefined => False
     end.
Proof.
  split; [|split; [|split; [|split]]].
  - intros Hbudget.
    pose proof (runOps_Keeps fuel ops [] s) as Hpost. unfold post in Hpost.
    assert (Hstart : Budget [] (this s)) by exact Hbudget.
    destruct (runOps fuel ops [] s) as [popped s'|s'|].
    + destruct Hpost as [Hflag Hkeep]. split; [|exact Hflag].
      specialize (Hkeep Hstart). unfold Budget in Hkeep.
      destruct (Encoder.codecConfigEmitted_ (this s')); lia.
    + destruct Hpost as [popped' [Hflag Hkeep]]. split; [|exact Hflag].
      specialize (Hkeep Hstart). unfold Budget in Hkeep.
      destruct (Encoder.codecConfigEmitted_ (this s')); lia.
    + exact Hpost.
  - destruct (post_returns _ _ _ (collectOutput_exact h callerBuffer outputSample s))
      as (b & s' & Hrun & Hq & Hflag).
    exists b, s'. repeat split; assumption.
  - intros outputType w' header Hkey Hnot Htype Hheader Hne.
    unfold configurationDue. rewrite Hkey, Hnot, Htype. cbn [andb negb fst].
    rewrite Hheader.
    destruct (Z.ltb_spec 0 (sizeOf header)) as [_ | Hempty]; [reflexivity|].
    destruct header; [contradiction|]. unfold sizeOf in Hempty. cbn in Hempty. lia.
  - intros Hnone. unfold configurationDue.
    destruct Hnone as [-> | ->]; [reflexivity|]. now rewrite andb_false_r.
  - pose proof (Encoder_release_post fuel s) as Hpost. unfold post in Hpost.
    destruct (Encoder.release fuel s) as [[] s'|s'|]; [|exact I|exact Hpost].
    destruct Hpost as (_ & Hflag & Hq). split; assumption.
Qed.

End ConfigurationFacts.

Lemma one_configuration_sample_witness :
  (configurationSamples (Encoder.encodedSamples_ (this Scripted.renegotiatingEncoder))
   <= if Encoder.codecConfigEmitted_ (this Scripted.renegotiatingEncoder) then 1 else 0)%nat
  /\ (exists popped s',
         runOps 10 [OpPushFrame Scripted.picture64 0; OpPopSample; OpPopSample;
                    OpStop; OpStart; OpPopSample]
                [] Scripted.renegotiatingEncoder = Ok popped s'
         /\ filter Encoder.isConfiguration popped
            = [ {| Encoder.data_ := [x67]; Encoder.presentationTime_ := 0;
                   Encoder.bufferFlags_ := Encoder.BUFFER_FLAG_CODEC_CONFIG |} ]
         /\ (configurationSamples popped
             + configurationSamples (Encoder.encodedSamples_ (this s')) <= 1)%nat)
  /\ (exists b s',
         Encoder.collectOutput
           0%nat
           {| sampleTime := Some 0; cleanPoint := Some 1;
              contiguous := Some {| buffer2D := None; locked := Some [x65] |} |}
           Scripted.renegotiatingEncoder = Ok b s'
         /\ Encoder.encodedSamples_ (this s')
            = [ {| Encoder.data_ := [x67]; Encoder.presentationTime_ := 0;
                   Encoder.bufferFlags_ := Encoder.BUFFER_FLAG_CODEC_CONFIG |};
                {| Encoder.data_ := [x65]; Encoder.presentationTime_ := 0;
                   Encoder.bufferFlags_ := Encoder.BUFFER_FLAG_KEY_FRAME |} ]
         /\ Encoder.codecConfigEmitted_ (this s') = true).
Proof.
  assert (Hbudget : (configurationSamples
                       (Encoder.encodedSamples_ (this Scripted.renegotiatingEncoder))
                     <= if Encoder.codecConfigEmitted_ (this Scripted.renegotiatingEncoder)
                        then 1 else 0)%nat) by (cbn; lia).
  split; [exact Hbudget|].
  pose proof (one_configuration_sample
                10 [OpPushFrame Scripted.picture64 0; OpPopSample; OpPopSample;
                    OpStop; OpStart; OpPopSample]
                Scripted.renegotiatingEncoder 0%nat None
                {| sampleTime := Some 0; cleanPoint := Some 1;
                   contiguous := Some {| buffer2D := None; locked := Some [x65] |} |}) as Hw.
  destruct Hw as (Hops & (b & s' & Hrun & Hq & Hflag) & _).
  split.
  - specialize (Hops Hbudget).
    assert (Hrunops : exists popped s',
               runOps 10 [OpPushFrame Scripted.picture64 0; OpPopSample; OpPopSample;
                          OpStop; OpStart; OpPopSample]
                      [] Scripted.renegotiatingEncoder = Ok popped s'
               /\ filter Encoder.isConfiguration popped
                  = [ {| Encoder.data_ := [x67]; Encoder.presentationTime_ := 0;
                         Encoder.bufferFlags_ := Encoder.BUFFER_FLAG_CODEC_CONFIG |} ])
      by (do 2 eexists; split; vm_compute; reflexivity).
    destruct Hrunops as (popped & s1 & Hrunops & Hconfig). rewrite Hrunops in Hops.
    exists popped, s1. split; [exact Hrunops|]. split; [exact Hconfig | apply Hops].
  - exists b, s'. split; [exact Hrun|]. split; [exact Hq | exact Hflag].
Defined.

(** C2 as stated fails.  [codecConfigEmitted_] is not reset on
    re-negotiation: after a key frame, a stream change and a key frame of the
    new stream, one pass of [drainOutputSamples] has queued the first
    sequence header only and the flag is still set.  And the configuration
    sample need not precede the first key-frame sample: where the output
    type carries no sequence header at the first key frame, it is queued
    after that key frame, before the second. *)
Lemma one_configuration_sample_counterexample :
  (exists s',
      Encoder.drainOutputSamples 10 Scripted.renegotiatingEncoder = Ok 2 s'
      /\ map (fun e => match e with EvProcessOutput _ _ hr _ => hr | _ => 1 end) (trace s')
         = [S_OK; MF_E_TRANSFORM_STREAM_CHANGE; S_OK; MF_E_TRANSFORM_NEED_MORE_INPUT]
      /\ map (fun q => (Encoder.data_ q, Encoder.bufferFlags_ q))
             (Encoder.encodedSamples_ (this s'))
         = [([x67], Encoder.BUFFER_FLAG_CODEC_CONFIG);
            ([x65], Encoder.BUFFER_FLAG_KEY_FRAME);
            ([x66], Encoder.BUFFER_FLAG_KEY_FRAME)]
      /\ Encoder.codecConfigEmitted_ (this s') = true)
  /\ (exists s',
         Encoder.drainOutputSamples 10 Scripted.lateHeaderEncoder = Ok 2 s'
         /\ map (fun q => (Encoder.data_ q, Encoder.bufferFlags_ q))
                (Encoder.encodedSamples_ (this s'))
            = [([x65], Encoder.BUFFER_FLAG_KEY_FRAME);
               ([x67], Encoder.BUFFER_FLAG_CODEC_CONFIG);
               ([x66], Encoder.BUFFER_FLAG_KEY_FRAME)]).
Proof.
  split.
  - eexists. split; [vm_compute; reflexivity|]. repeat split.
  - eexists. split; [vm_compute; reflexivity|]. reflexivity.
Qed.

(** ** Initialisation of the encoder *)

Section EncoderInitialize.

Context {W : Type} `{Platform W}.

Ltac keep IH :=
  eapply post_weaken; [apply IH | cbv beta; cbn [this world trace]; auto ..].

Lemma Encoder_selectInputType_post (fuel : nat) :
  forall (h : Handle) (typeIndex width height num den : Z) (s : St Encoder.VideoEncoder W),
    post (Encoder.selectInputType fuel h typeIndex width height num den) s
         (fun _ s' => this s' = this s /\ trace s' = trace s)
         (fun s' => this s' = this s /\ trace s' = trace s) False.
Proof.
  induction fuel as [|fuel IH]; intros h typeIndex width height num den s.
  - apply post_diverge. split; reflexivity.
  - cbn [Encoder.selectInputType]. wp; try (split; reflexivity); keep IH.
Qed.

(** The GOP configuration: at most the one call, with the GOP size of the
    interval; its answer is not looked at. *)
Lemma Encoder_configureGopSize_post (h : Handle) (iFrameInterval : Z)
      (frameRate : Double.double) (s : St Encoder.VideoEncoder W) :
  post (Encoder.configureGopSize h iFrameInterval frameRate) s
       (fun _ s' =>
          this s' = this s
          /\ (trace s' = trace s
              \/ exists gopSize hr,
                  Encoder.gopSizeOf iFrameInterval frameRate = Some gopSize
                  /\ trace s' = trace s ++ [EvSetGopSize h gopSize hr]))
       (fun _ => False) True.
Proof.
  unfold Encoder.configureGopSize. wp; try exact I; split; try reflexivity; auto.
  right. exists z, hr. split; reflexivity.
Qed.

Lemma Encoder_createEncoder_post (fuel n : nat) :
  forall (i : Z) (videoFormat : GUID) (width height num den bitrate iFrameInterval : Z)
         (frameRate : Double.double) (s : St Encoder.VideoEncoder W),
    post (Encoder.createEncoder fuel n i videoFormat width height num den bitrate
                                iFrameInterval frameRate) s
         (fun created s' =>
            Encoder.isStarted_ (this s') = Encoder.isStarted_ (this s)
            /\ (trace s' = trace s
                \/ exists h gopSize hr,
                    created = Some h
                    /\ Encoder.gopSizeOf iFrameInterval frameRate = Some gopSize
                    /\ trace s' = trace s ++ [EvSetGopSize h gopSize hr]))
         (fun s' =>
            Encoder.isStarted_ (this s') = Encoder.isStarted_ (this s)
            /\ trace s' = trace s) True.
Proof.
  induction n as [|n IH];
    intros i videoFormat width height num den bitrate iFrameInterval frameRate s.
  - apply post_ret. split; [reflexivity | now left].
  - cbn [Encoder.createEncoder]. cbv zeta. wp; try keep IH.
    eapply post_weaken; [apply Encoder_selectInputType_post | | | contradiction]; cbv beta;
      cbn [this world trace].
    + intros inputTypeSet s1 [Hthis Htrace].
      wp; try keep IH; cbn [this trace]; try (rewrite Hthis, Htrace; auto).
      all: (eapply post_weaken;
            [apply Encoder_configureGopSize_post | | contradiction | auto]);
        cbv beta; cbn [this world trace]; intros _ s3 [Hthis3 Htrace3];
        apply post_ret; rewrite Hthis3; cbn [this]; rewrite ?Hthis;
        (split; [reflexivity|]);
        rewrite ?Htrace in Htrace3;
        (destruct Htrace3 as [-> | (gopSize & hr & Hgop & ->)]; [now left|]);
        right; exists h0, gopSize, hr; repeat split; exact Hgop.
    + intros s1 [Hthis Htrace]. now rewrite Hthis, Htrace.
Qed.

(** With a GOP size that is defined, the GOP configuration has no undefined
    behaviour. *)
Lemma Encoder_createEncoder_defined (fuel n : nat) :
  forall (i : Z) (videoFormat : GUID) (width height num den bitrate iFrameInterval : Z)
         (frameRate : Double.double) (s : St Encoder.VideoEncoder W),
    Encoder.gopSizeOf iFrameInterval frameRate <> None ->
    post (Encoder.createEncoder fuel n i videoFormat width height num den bitrate
                                iFrameInterval frameRate) s
         (fun _ _ => True) (fun _ => True) False.
Proof.
  induction n as [|n IH];
    intros i videoFormat width height num den bitrate iFrameInterval frameRate s Hgop.
  - exact I.
  - cbn [Encoder.createEncoder]. cbv zeta.
    wp; try (eapply post_weaken; [apply IH; exact Hgop | auto ..]).
    eapply post_weaken; [apply Encoder_selectInputType_post | | | contradiction]; cbv beta;
      [|auto].
    intros inputTypeSet s1 _.
    unfold Encoder.configureGopSize.
    wp; try (eapply post_weaken; [apply IH; exact Hgop | auto ..]); try exact I;
      contradiction.
Qed.


(** [initialize] of the encoder never touches [isStarted_]; the one traced
    call it can make is the GOP configuration, after which it answers true
    whatever that call answered. *)
Lemma Encoder_initialize_post (fuel : nat) (width height : Z) (mime : string)
      (frameRate : Double.double) (bitrate iFrameInterval : Z)
      (s : St Encoder.VideoEncoder W) :
  post (Encoder.initialize fuel width height mime frameRate bitrate iFrameInterval) s
       (fun b s' =>
          Encoder.isStarted_ (this s') = Encoder.isStarted_ (this s)
          /\ (trace s' = trace s
              \/ exists h gopSize hr,
                  b = true
                  /\ Encoder.gopSizeOf iFrameInterval frameRate = Some gopSize
                  /\ trace s' = trace s ++ [EvSetGopSize h gopSize hr]))
       (fun s' =>
          Encoder.isStarted_ (this s') = Encoder.isStarted_ (this s)
          /\ trace s' = trace s) True.
Proof.
  unfold Encoder.initialize. wp; try exact I; try (split; [reflexivity | now left]).
  eapply post_weaken; [apply Encoder_createEncoder_post | | | auto]; cbv beta;
    cbn [this world trace].
  - intros created s1 [Hstarted Htrace].
    wp; cbn [this trace]; (split; [exact Hstarted|]).
    all: destruct Htrace as [Htrace | (h' & gopSize & hr & Hcreated & Hgop & Htrace)];
      [now left | try discriminate; right; exists h', gopSize, hr; repeat split; assumption].
  - intros s1 Hs1. exact Hs1.
Qed.

End EncoderInitialize.

(** ** Key-frame cadence *)






Example gopSize_30fps_1s : Encoder.gopSizeOf 1 Scripted.fps30 = Some 30.
Proof. vm_compute. reflexivity. Qed.

Example gopSize_2997fps_2s : Encoder.gopSizeOf 2 Scripted.fps2997 = Some 60.
Proof. vm_compute. reflexivity. Qed.

Example gopSize_03fps_1s : Encoder.gopSizeOf 1 Scripted.fps03 = Some 1.
Proof. vm_compute. reflexivity. Qed.




(** ** Submission and the lifecycle *)

Section LifecycleClaims.

Context {W : Type} `{Platform W}.

Lemma Decoder_pushSample_idle (data : option (list byte)) (size t : Z)
      (s : St Decoder.VideoDecoder W) :
  Decoder.decoder_ (this s) = None \/ Decoder.isStarted_ (this s) = false ->
  Decoder.pushSample data size t s = Ok false s.
Proof.
  intros Hidle. unfold Decoder.pushSample.
  destruct data as [sampleData|]; [|reflexivity].
  destruct (size =? 0); [reflexivity|].
  unfold bind, get.
  destruct (Decoder.decoder_ (this s)) as [h|]; [|reflexivity].
  destruct Hidle as [Hnone | ->]; [discriminate | reflexivity].
Qed.

Lemma Encoder_pushFrame_idle (fuel : nat) (frame : InputFrame) (t : Z)
      (s : St Encoder.VideoEncoder W) :
  Encoder.encoder_ (this s) = None \/ Encoder.isStarted_ (this s) = false ->
  Encoder.pushFrame fuel frame t s = Ok false s.
Proof.
  intros Hidle. unfold Encoder.pushFrame.
  destruct (negb (frameIsValid frame)); [reflexivity|].
  unfold bind, get.
  destruct (Encoder.encoder_ (this s)) as [h|]; [|reflexivity].
  destruct Hidle as [Hnone | ->]; [discriminate | reflexivity].
Qed.

(** C9.  [pushSample] and [pushFrame] answer false, leaving the session, the
    platform and the trace as they were, on a session without a transform or
    not started: so on a freshly constructed session, after [initialize]
    (which does not touch [isStarted_]) and before [start], and after
    [release].  They answer true on a started session with a transform
    only. *)
Theorem push_only_when_started (fuel : nat)
        (sd : St Decoder.VideoDecoder W) (se : St Encoder.VideoEncoder W)
        (data : option (list byte)) (size t : Z) (frame : InputFrame) :
  ((Decoder.decoder_ (this sd) = None \/ Decoder.isStarted_ (this sd) = false ->
    Decoder.pushSample data size t sd = Ok false sd)
   /\ (forall sd',
          Decoder.pushSample data size t sd = Ok true sd' ->
          Decoder.decoder_ (this sd) <> None /\ Decoder.isStarted_ (this sd) = true)
   /\ Decoder.pushSample data size t (mkSt Decoder.VideoDecoder_ (world sd) (trace sd))
      = Ok false (mkSt Decoder.VideoDecoder_ (world sd) (trace sd))
   /\ (Decoder.isStarted_ (this sd) = false ->
       forall mime width height config configSize b sd',
         Decoder.initialize fuel mime width height config configSize sd = Ok b sd' ->
         Decoder.pushSample data size t sd' = Ok false sd')
   /\ (exists sd',
          Decoder.release sd = Ok tt sd'
          /\ Decoder.pushSample data size t sd' = Ok false sd'))
  /\ ((Encoder.encoder_ (this se) = None \/ Encoder.isStarted_ (this se) = false ->
       Encoder.pushFrame fuel frame t se = Ok false se)
      /\ (forall se',
             Encoder.pushFrame fuel frame t se = Ok true se' ->
             Encoder.encoder_ (this se) <> None /\ Encoder.isStarted_ (this se) = true)
      /\ Encoder.pushFrame fuel frame t (mkSt Encoder.VideoEncoder_ (world se) (trace se))
         = Ok false (mkSt Encoder.VideoEncoder_ (world se) (trace se))
      /\ (Encoder.isStarted_ (this se) = false ->
          forall width height mime frameRate bitrate iFrameInterval b se',
            Encoder.initialize fuel width height mime frameRate bitrate iFrameInterval se
            = Ok b se' ->
            Encoder.pushFrame fuel frame t se' = Ok false se')
      /\ (forall se',
             Encoder.release fuel se = Ok tt se' ->
             Encoder.pushFrame fuel frame t se' = Ok false se')).
Proof.
  split.
  - split; [|split; [|split; [|split]]].
    + apply Decoder_pushSample_idle.
    + intros sd' Hrun.
      pose proof (post_ok _ _ _ _ _ _ _ (Decoder_pushSample_post data size t sd) Hrun)
        as [_ [[Hfalse _] | (h & i & hr & Hvalid & Hstarted & _)]]; [discriminate|].
      split; [congruence | exact Hstarted].
    + apply Decoder_pushSample_idle. now left.
    + intros Hstopped mime width height config configSize b sd' Hrun.
      pose proof (post_ok _ _ _ _ _ _ _
                          (Decoder_initialize_post fuel mime width height config configSize sd)
                          Hrun) as [Hstarted _].
      apply Decoder_pushSample_idle. right. congruence.
    + destruct (post_returns _ _ _ (Decoder_release_post sd)) as ([] & sd' & Hrun & Hnone & _).
      exists sd'. split; [exact Hrun|].
      apply Decoder_pushSample_idle. now left.
  - split; [|split; [|split; [|split]]].
    + apply Encoder_pushFrame_idle.
    + intros se' Hrun.
      pose proof (post_ok _ _ _ _ _ _ _ (Encoder_pushFrame_post fuel frame t se) Hrun)
        as [_ [[Hfalse _] | (h & i & evs & Hvalid & Hstarted & _)]]; [discriminate|].
      split; [congruence | exact Hstarted].
    + apply Encoder_pushFrame_idle. now left.
    + intros Hstopped width height mime frameRate bitrate iFrameInterval b se' Hrun.
      pose proof (post_ok _ _ _ _ _ _ _
                          (Encoder_initialize_post fuel width height mime frameRate bitrate
                                                   iFrameInterval se)
                          Hrun) as [Hstarted _].
      apply Encoder_pushFrame_idle. right. congruence.
    + intros se' Hrun.
      pose proof (post_ok _ _ _ _ _ _ _ (Encoder_release_post fuel se) Hrun) as [Hnone _].
      apply Encoder_pushFrame_idle. now left.
Qed.

End LifecycleClaims.

Lemma push_only_when_started_witness :
  (exists sd',
      Decoder.initialize 5 "video/avc" 64 64 None 0 Scripted.freshDecoder = Ok true sd'
      /\ Decoder.pushSample (Some [x00; x00; x00; x01; x65]) 5 0 sd' = Ok false sd')
  /\ (exists se',
         Encoder.initialize 5 64 64 "video/avc" Scripted.fps30 2000000 1 Scripted.freshEncoder
         = Ok true se'
         /\ Encoder.pushFrame 5 Scripted.picture64 0 se' = Ok false se')
  /\ (exists sd',
         Decoder.pushSample (Some [x00; x00; x00; x01; x65]) 5 0 Scripted.refusingDecoder
         = Ok false sd')
  /\ (exists se',
         Encoder.pushFrame 5 Scripted.picture64 0 Scripted.bufferedEncoder = Ok true se').
Proof.
  pose proof (push_only_when_started 5 Scripted.freshDecoder Scripted.freshEncoder
                                     (Some [x00; x00; x00; x01; x65]) 5 0 Scripted.picture64)
    as Hw.
  destruct Hw as [(_ & _ & _ & Hd & _) (_ & _ & _ & He & _)].
  split; [|split; [|split]].
  - eexists. split; [vm_compute; reflexivity|].
    eapply (Hd eq_refl "video/avc"%string 64 64 None 0). vm_compute. reflexivity.
  - eexists. split; [vm_compute; reflexivity|].
    eapply (He eq_refl 64 64 "video/avc"%string Scripted.fps30 2000000 1).
    vm_compute. reflexivity.
  - eexists. vm_compute. reflexivity.
  - eexists. vm_compute. reflexivity.
Defined.

(** ** The output buffer of [popFrame] *)

Section PopFrameFacts.

Context {W : Type} `{Platform W}.

Ltac keep IH :=
  eapply post_weaken; [apply IH | cbv beta; cbn [this world trace]; auto ..].

Lemma Decoder_renegotiateOutputType_post (fuel : nat) :
  forall (h : Handle) (typeIndex : Z) (s : St Decoder.VideoDecoder W),
    post (Decoder.renegotiateOutputType fuel h typeIndex) s
         (fun _ s' => this s' = this s /\ trace s' = trace s)
         (fun s' => this s' = this s /\ trace s' = trace s) False.
Proof.
  induction fuel as [|fuel IH]; intros h typeIndex s.
  - apply post_diverge. split; reflexivity.
  - cbn [Decoder.renegotiateOutputType]. wp; try (split; reflexivity); keep IH.
Qed.


(** [popFrame] from [ProcessOutput] onwards makes the one output request
    on the platform as it finds it, and its trace records the answer. *)
Lemma Decoder_popFrameOutput_request (fuel : nat) (h : Handle) (callerBuffer : option Z)
      (presentationTime : option Z) (s : St Decoder.VideoDecoder W) :
  post (Decoder.popFrameOutput fuel h callerBuffer presentationTime) s
       (fun _ s' =>
          trace s'
          = trace s
            ++ [EvProcessOutput h callerBuffer
                                (fst (fst (ProcessOutput h callerBuffer (world s))))
                                (snd (fst (ProcessOutput h callerBuffer (world s))))])
       (fun s' =>
          trace s'
          = trace s
            ++ [EvProcessOutput h callerBuffer
                                (fst (fst (ProcessOutput h callerBuffer (world s))))
                                (snd (fst (ProcessOutput h callerBuffer (world s))))])
       False.
Proof.
  unfold Decoder.popFrameOutput.
  destruct (ProcessOutput h callerBuffer (world s)) as [[hr pSample] w] eqn:Hanswer.
  apply post_bind. eapply post_processOutput_answer; [exact Hanswer|].
  cbv beta iota. cbn [fst snd].
  wp; try reflexivity.
  eapply post_weaken; [apply Decoder_renegotiateOutputType_post | | | auto]; cbv beta;
    cbn [this world trace].
  - intros _ s1 [Hthis Htrace]. wp; exact Htrace.
  - intros s1 [Hthis Htrace]. exact Htrace.
Qed.

(** C3, as the code has it.  Without a transform [popFrame] does nothing.
    With one, where the transform provisions its own output samples
    [popFrame] makes its one output request with no caller buffer.
    Otherwise it creates a sample and a memory buffer of
    [outputBufferSize_] bytes when that is not zero, and of
    [width_ * height_ * 3 / 2] bytes (in 32-bit arithmetic) when it is; when
    the platform refuses either it answers the invalid frame without a
    request, and else it makes its one output request with that buffer. *)
Theorem popFrame_output_buffer (fuel : nat) (presentationTime : option Z)
        (s : St Decoder.VideoDecoder W) :
  (Decoder.decoder_ (this s) = None ->
   Decoder.popFrame fuel presentationTime s = Ok (None, presentationTime) s)
  /\ (forall h,
         Decoder.decoder_ (this s) = Some h ->
         let size :=
           if Decoder.outputBufferSize_ (this s) =? 0
           then u32 (u32 (Decoder.width_ (this s) * Decoder.height_ (this s)) * 3) / 2
           else Decoder.outputBufferSize_ (this s) in
         let requested (callerBuffer : option Z) (w : W) :=
           match Decoder.popFrame fuel presentationTime s with
           | Ok _ s' | Diverge s' =>
               trace s'
               = trace s
                 ++ [EvProcessOutput h callerBuffer
                                     (fst (fst (ProcessOutput h callerBuffer w)))
                                     (snd (fst (ProcessOutput h callerBuffer w)))]
           | Undefined => False
           end in
         if Decoder.mftProvidesOutputSamples_ (this s) then requested None (world s)
         else
           let sample := MFCreateSample (world s) in
           let buffer := MFCreateMemoryBuffer size (snd sample) in
           if negb (isOk (fst sample)) then
             Decoder.popFrame fuel presentationTime s
             = Ok (None, presentationTime) (mkSt (this s) (snd sample) (trace s))
           else if negb (isOk (fst buffer)) then
             Decoder.popFrame fuel presentationTime s
             = Ok (None, presentationTime) (mkSt (this s) (snd buffer) (trace s))
           else requested (Some size) (snd buffer)).
Proof.
  split.
  - intros Hnone. unfold Decoder.popFrame, bind, get. now rewrite Hnone.
  - intros h Hvalid. cbv zeta.
    fold (Decoder.callerBufferSize (this s)).
    destruct (Decoder.mftProvidesOutputSamples_ (this s)) eqn:Hprovides.
    + assert (Hrun : Decoder.popFrame fuel presentationTime s
                     = Decoder.popFrameOutput fuel h None presentationTime s).
      { unfold Decoder.popFrame at 1. unfold bind at 1. unfold get.
        now rewrite Hvalid, Hprovides. }
      rewrite Hrun.
      pose proof (Decoder_popFrameOutput_request fuel h None presentationTime s) as Hpost.
      unfold post in Hpost.
      destruct (Decoder.popFrameOutput fuel h None presentationTime s); exact Hpost.
    + destruct (MFCreateSample (world s)) as [hr1 w1] eqn:Hsample. cbn [fst snd].
      destruct (MFCreateMemoryBuffer (Decoder.callerBufferSize (this s)) w1)
        as [hr2 w2] eqn:Hbuffer.
      cbn [fst snd].
      assert (Hrun : Decoder.popFrame fuel presentationTime s
                     = if negb (isOk hr1) then
                         Ok (None, presentationTime) (mkSt (this s) w1 (trace s))
                       else if negb (isOk hr2) then
                         Ok (None, presentationTime) (mkSt (this s) w2 (trace s))
                       else
                         Decoder.popFrameOutput
                           fuel h (Some (Decoder.callerBufferSize (this s)))
                           presentationTime (mkSt (this s) w2 (trace s))).
      { unfold Decoder.popFrame at 1. unfold bind at 1. unfold get.
        rewrite Hvalid, Hprovides. cbn [negb].
        unfold bind at 1. unfold call at 1. rewrite Hsample.
        destruct (negb (isOk hr1)); [reflexivity|].
        unfold bind at 1. unfold call at 1. cbn [world]. rewrite Hbuffer.
        destruct (negb (isOk hr2)); reflexivity. }
      rewrite Hrun.
      destruct (negb (isOk hr1)); [reflexivity|].
      destruct (negb (isOk hr2)); [reflexivity|].
      pose proof (Decoder_popFrameOutput_request
                    fuel h (Some (Decoder.callerBufferSize (this s))) presentationTime
                    (mkSt (this s) w2 (trace s))) as Hpost.
      unfold post in Hpost. cbn [trace world] in Hpost.
      destruct (Decoder.popFrameOutput _ _ _ _ _); exact Hpost.
Qed.

End PopFrameFacts.

Lemma popFrame_output_buffer_witness :
  Decoder.popFrame 5 None (mkSt (Scripted.startedDecoder 0) (Scripted.script [] [] []) [])
  = Ok (None, None)
       (mkSt (Scripted.startedDecoder 0) (Scripted.script [] [] [])
             [EvProcessOutput 0%nat (Some 6144) MF_E_TRANSFORM_NEED_MORE_INPUT None])
  /\ forall s',
      Decoder.popFrame 5 None (mkSt (Scripted.startedDecoder 0) (Scripted.script [] [] []) [])
      = Ok (None, None) s' ->
      trace s' = [EvProcessOutput 0%nat (Some 6144) MF_E_TRANSFORM_NEED_MORE_INPUT None].
Proof.
  split; [vm_compute; reflexivity|].
  intros s' Hrun.
  pose proof (popFrame_output_buffer
                5 None (mkSt (Scripted.startedDecoder 0) (Scripted.script [] [] []) []))
    as Hw.
  destruct Hw as [_ Hw]. specialize (Hw 0%nat eq_refl). cbv zeta in Hw.
  cbn [Decoder.mftProvidesOutputSamples_ Scripted.startedDecoder this] in Hw.
  change (negb (isOk (fst (MFCreateSample
                             (world (mkSt (Scripted.startedDecoder 0)
                                          (Scripted.script [] [] []) []))))))
    with false in Hw.
  cbv iota in Hw.
  rewrite Hrun in Hw.
  exact Hw.
Defined.

(** C3 as stated fails: with a declared output size of 1 byte and 64 x 64
    pixels the caller buffer has 1 byte, not the bigger of 1 and the 6144
    bytes of the computed worst case. *)
Lemma popFrame_output_buffer_counterexample :
  Decoder.popFrame 5 None (mkSt (Scripted.startedDecoder 1) (Scripted.script [] [] []) [])
  = Ok (None, None)
       (mkSt (Scripted.startedDecoder 1) (Scripted.script [] [] [])
             [EvProcessOutput 0%nat (Some 1) MF_E_TRANSFORM_NEED_MORE_INPUT None])
  /\ Z.max (Decoder.outputBufferSize_ (Scripted.startedDecoder 1))
           (Decoder.width_ (Scripted.startedDecoder 1)
            * Decoder.height_ (Scripted.startedDecoder 1) * 3 / 2) = 6144.
Proof. split; [vm_compute; reflexivity | reflexivity]. Qed.

(** * Further properties of the container codec *)

(** ** Writing and reading lengths *)

Lemma u8_byteOf (z : Z) : u8 (byteOf z) = z mod 256.
Proof.
  unfold byteOf, u8.
  assert (Hrange : 0 <= z mod 256 < 256) by (apply Z.mod_pos_bound; lia).
  destruct (Byte.of_N (Z.to_N (z mod 256))) as [b|] eqn:Hb.
  - apply Byte.to_of_N in Hb. rewrite Hb. apply Z2N.id. lia.
  - apply Byte.of_N_None_iff in Hb. lia.
Qed.

Lemma u8_byteOf_small (z : Z) : 0 <= z < 256 -> u8 (byteOf z) = z.
Proof. intros Hz. rewrite u8_byteOf. now apply Z.mod_small. Qed.

Lemma be32_be32bytes (n : Z) :
  0 <= n < 2 ^ 32 ->
  be32 (byteOf (n / 2 ^ 24)) (byteOf (n / 2 ^ 16)) (byteOf (n / 2 ^ 8)) (byteOf n) = n.
Proof.
  intros Hn. unfold be32. rewrite !u8_byteOf.
  change (2 ^ 24) with 16777216. change (2 ^ 16) with 65536. change (2 ^ 8) with 256.
  change (2 ^ 32) with 4294967296 in Hn.
  Z.div_mod_to_equations. lia.
Qed.

Lemma sizeOf_cons (a : byte) (l : list byte) : sizeOf (a :: l) = 1 + sizeOf l.
Proof. unfold sizeOf. cbn [List.length]. lia. Qed.

Lemma sizeOf_bytes (data : list byte) (from n : Z) : 0 <= n -> sizeOf (bytes data from n) <= n.
Proof.
  intros Hn. unfold sizeOf, bytes. rewrite length_firstn. lia.
Qed.

(** The bit-level two-byte read of the code is the big-endian value of the
    two bytes. *)
Lemma read16_value (data : list byte) (o : Z) :
  0 <= o -> o + 1 < 2 ^ 64 ->
  read16 data o = at_ data o * 2 ^ 8 + at_ data (o + 1).
Proof.
  intros Ho Hmax. unfold read16, shlsz.
  rewrite addsz_small by lia.
  pose proof (at_range data o) as H0. pose proof (at_range data (o + 1)) as H1.
  rewrite Z.shiftl_mul_pow2 by lia.
  rewrite size_t_small by lia.
  apply lor_shifted_low; lia.
Qed.

(** Reading behind a prefix. *)
Lemma read32_app (pre b : list byte) :
  sizeOf pre + 3 < 2 ^ 64 -> read32 (pre ++ b) (sizeOf pre) = leadingLength b.
Proof.
  intros Hmax. pose proof (sizeOf_nonneg pre) as Hpre.
  rewrite read32_value by lia. unfold leadingLength, be32.
  replace (sizeOf pre) with (sizeOf pre + Z.of_nat 0) at 1 by (simpl; lia).
  change 1 with (Z.of_nat 1). change 2 with (Z.of_nat 2) at 3.
  change 3 with (Z.of_nat 3).
  now rewrite !at_app_r.
Qed.

Lemma read16_app (pre : list byte) (b0 b1 : byte) (rest : list byte) :
  sizeOf pre + 1 < 2 ^ 64 ->
  read16 (pre ++ b0 :: b1 :: rest) (sizeOf pre) = u8 b0 * 2 ^ 8 + u8 b1.
Proof.
  intros Hmax. pose proof (sizeOf_nonneg pre) as Hpre.
  rewrite read16_value by lia.
  replace (sizeOf pre) with (sizeOf pre + Z.of_nat 0) at 1 by (simpl; lia).
  change 1 with (Z.of_nat 1).
  now rewrite !at_app_r.
Qed.

Lemma leadingLength_be32bytes (n : Z) (rest : list byte) :
  0 <= n < 2 ^ 32 -> leadingLength (be32bytes n ++ rest) = n.
Proof. intros Hn. unfold leadingLength, be32bytes. cbn [app nth]. now apply be32_be32bytes. Qed.

Lemma bytes_prefix (pre hd payload rest : list byte) :
  bytes (pre ++ hd ++ payload ++ rest) (sizeOf pre + sizeOf hd) (sizeOf payload) = payload.
Proof.
  unfold sizeOf at 3. rewrite bytes_app_r.
  rewrite firstn_app, Nat.sub_diag, firstn_all. cbn [firstn]. apply app_nil_r.
Qed.

(** ** Complete units before a malformed rest *)

Lemma incompleteUnit_stops (tail : list byte) :
  incompleteUnit tail = true ->
  sizeOf tail < 4 \/ leadingLength tail = 0 \/ sizeOf tail - 4 < leadingLength tail.
Proof.
  unfold incompleteUnit. intros Htail.
  apply orb_prop in Htail. destruct Htail as [Htail | Hover].
  - apply orb_prop in Htail. destruct Htail as [Hshort | Hzero].
    + left. now apply Z.ltb_lt.
    + right. left. now apply Z.eqb_eq.
  - right. right. now apply Z.ltb_lt.
Qed.

(** The loop of the code emits every complete unit, each behind a start
    code, and ends at the first rest that is no complete unit. *)
Lemma nalLoop_avcc (nals : list (list byte)) :
  forall (pre tail acc : list byte) (fuel : nat),
    Forall (fun payload => 0 < sizeOf payload < 2 ^ 32) nals ->
    incompleteUnit tail = true ->
    sizeOf (pre ++ avcc nals ++ tail) < 2 ^ 63 ->
    (List.length nals < fuel)%nat ->
    nalLoop fuel (pre ++ avcc nals ++ tail) (sizeOf (pre ++ avcc nals ++ tail))
            (sizeOf pre) acc
    = Some (acc ++ annexB nals).
Proof.
  induction nals as [|payload nals IH]; intros pre tail acc fuel Hnals Htail Hmax Hfuel.
  - destruct fuel as [|fuel]; [simpl in Hfuel; lia|].
    cbn [avcc flat_map app annexB]. rewrite app_nil_r.
    cbn [avcc flat_map app] in Hmax. rewrite sizeOf_app in *.
    pose proof (sizeOf_nonneg pre) as Hpre. pose proof (sizeOf_nonneg tail) as Htl.
    cbn [nalLoop]. rewrite (addsz_small (sizeOf pre) 4) by lia.
    destruct (Z.leb_spec (sizeOf pre + 4) (sizeOf pre + sizeOf tail)) as [Hfour | _];
      [|reflexivity].
    rewrite read32_app by lia.
    pose proof (leadingLength_range tail) as HL.
    rewrite addsz_small by lia.
    destruct (incompleteUnit_stops tail Htail) as [Hshort | [Hzero | Hover]]; [lia | |].
    + rewrite Hzero. reflexivity.
    + destruct (Z.eqb_spec (leadingLength tail) 0); [reflexivity|].
      destruct (Z.ltb_spec (sizeOf pre + sizeOf tail) (sizeOf pre + 4 + leadingLength tail));
        [reflexivity | lia].
  - destruct fuel as [|fuel]; [simpl in Hfuel; lia|].
    inversion Hnals as [|? ? Hpayload Hrest]; subst.
    cbn [avcc flat_map annexB]. fold (avcc nals). fold (annexB nals).
    rewrite <- !app_assoc.
    set (data := pre ++ be32bytes (sizeOf payload) ++ payload ++ avcc nals ++ tail).
    assert (Hsize : sizeOf data
                    = sizeOf pre + 4 + sizeOf payload + sizeOf (avcc nals ++ tail)).
    { unfold data. rewrite !sizeOf_app. change (sizeOf (be32bytes (sizeOf payload))) with 4.
      lia. }
    assert (Hdata : sizeOf data < 2 ^ 63).
    { unfold data. cbn [avcc flat_map] in Hmax. rewrite <- !app_assoc in Hmax. exact Hmax. }
    pose proof (sizeOf_nonneg pre) as Hpre.
    pose proof (sizeOf_nonneg (avcc nals ++ tail)) as Hafter.
    cbn [nalLoop]. rewrite (addsz_small (sizeOf pre) 4) by lia.
    destruct (Z.leb_spec (sizeOf pre + 4) (sizeOf data)) as [_ | Hno]; [|lia].
    assert (Hread : read32 data (sizeOf pre) = sizeOf payload).
    { unfold data. rewrite read32_app by lia. apply leadingLength_be32bytes. lia. }
    rewrite Hread.
    rewrite addsz_small by lia.
    destruct (Z.eqb_spec (sizeOf payload) 0) as [Hz | _]; [lia|].
    destruct (Z.ltb_spec (sizeOf data) (sizeOf pre + 4 + sizeOf payload)) as [Hover | _];
      [lia|].
    cbn [orb].
    assert (Hbytes : bytes data (sizeOf pre + 4) (sizeOf payload) = payload).
    { unfold data. change 4 with (sizeOf (be32bytes (sizeOf payload))).
      apply bytes_prefix. }
    rewrite Hbytes.
    assert (Hsplit : data = (pre ++ be32bytes (sizeOf payload) ++ payload) ++ avcc nals ++ tail).
    { unfold data. now rewrite <- !app_assoc. }
    assert (Hpre' : sizeOf (pre ++ be32bytes (sizeOf payload) ++ payload)
                    = sizeOf pre + 4 + sizeOf payload).
    { rewrite !sizeOf_app. change (sizeOf (be32bytes (sizeOf payload))) with 4. lia. }
    rewrite <- Hpre'. rewrite Hsplit.
    rewrite (IH _ tail _ fuel Hrest Htail).
    + now rewrite <- !app_assoc.
    + now rewrite <- Hsplit.
    + simpl in Hfuel. lia.
Qed.

Lemma avcc_size (nals : list (list byte)) :
  Z.of_nat (List.length nals) <= sizeOf (avcc nals).
Proof.
  induction nals as [|payload nals IH]; [reflexivity|].
  cbn [avcc flat_map List.length]. fold (avcc nals). rewrite !sizeOf_app.
  change (sizeOf (be32bytes (sizeOf payload))) with 4.
  pose proof (sizeOf_nonneg payload). lia.
Qed.

(** X1.  Round trip with a malformed rest.  A buffer made of units, each a
    payload of 1 to [2 ^ 32 - 1] bytes behind its length as four big-endian
    bytes, followed by bytes that do not begin with a complete unit (fewer
    than four bytes, or a length prefix that is zero or exceeds what
    follows).  A buffer of fewer than four bytes, which holds no unit, is
    refused and the caller's buffer is left as it was.  Any other is
    converted to exactly the payloads of its units, each behind a 4-byte
    start code; the rest is dropped without notice, success is reported
    exactly when there was at least one unit, and with none the caller's
    buffer ends up empty. *)
Theorem convert_keeps_complete_units (nals : list (list byte)) (tail old : list byte)
        (mime : string) :
  Forall (fun payload => 0 < sizeOf payload < 2 ^ 32) nals ->
  incompleteUnit tail = true ->
  sizeOf (avcc nals ++ tail) < 2 ^ 63 ->
  convertAvccToAnnexB (Some (avcc nals ++ tail)) (sizeOf (avcc nals ++ tail)) old false mime
  = (if sizeOf (avcc nals ++ tail) <? 4 then Some (false, old)
     else Some (negb (isEmpty (annexB nals)), annexB nals))
  /\ (sizeOf (avcc nals ++ tail) < 4 -> nals = [])
  /\ (nals = [] -> annexB nals = []).
Proof.
  intros Hnals Htail Hmax. split; [|split].
  - unfold convertAvccToAnnexB.
    destruct (Z.ltb_spec (sizeOf (avcc nals ++ tail)) 4) as [Hlt | Hmin]; [reflexivity|].
    cbn [negb].
    pose proof (nalLoop_avcc nals [] tail [] (S (Z.to_nat (sizeOf (avcc nals ++ tail))))
                             Hnals Htail) as Hloop.
    cbn [app] in Hloop. change (sizeOf []) with 0 in Hloop.
    rewrite Hloop; [reflexivity | exact Hmax |].
    pose proof (avcc_size nals) as Hcount. pose proof (sizeOf_nonneg tail) as Htl.
    rewrite sizeOf_app. lia.
  - intros Hshort. destruct nals as [|payload nals]; [reflexivity|].
    exfalso. cbn [avcc flat_map] in Hshort. rewrite !sizeOf_app in Hshort.
    change (sizeOf (be32bytes (sizeOf payload))) with 4 in Hshort.
    pose proof (sizeOf_nonneg payload). pose proof (sizeOf_nonneg tail).
    pose proof (sizeOf_nonneg (flat_map (fun payload0 => be32bytes (sizeOf payload0) ++ payload0)
                                        nals)).
    lia.
  - intros ->. reflexivity.
Qed.

Lemma convert_keeps_complete_units_witness :
  convertAvccToAnnexB
    (Some ([x00; x00; x00; x02; x65; x88; x00; x00; x00; x01; x41]
             ++ [x00; x00; x00; x09; x61])) 16 [xff] false "video/avc"
  = Some (true, [x00; x00; x00; x01; x65; x88; x00; x00; x00; x01; x41])
  /\ convertAvccToAnnexB (Some [x00; x00; x01]) 3 [xff] false "video/avc"
     = Some (false, [xff])
  /\ convertAvccToAnnexB (Some [x00; x00; x00; x09; x61]) 5 [xff] false "video/avc"
     = Some (false, []).
Proof.
  split; [|split].
  - apply (convert_keeps_complete_units [[x65; x88]; [x41]] [x00; x00; x00; x09; x61] [xff]
                                        "video/avc").
    + repeat constructor.
    + reflexivity.
    + reflexivity.
  - apply (convert_keeps_complete_units [] [x00; x00; x01] [xff] "video/avc").
    + constructor.
    + reflexivity.
    + reflexivity.
  - apply (convert_keeps_complete_units [] [x00; x00; x00; x09; x61] [xff] "video/avc").
    + constructor.
    + reflexivity.
    + reflexivity.
Defined.

(** ** What a conversion leaves in the caller's buffer *)

Lemma Appended_refl (acc : list byte) : Appended acc acc.
Proof. now left. Qed.

Lemma Appended_step (acc unit_ out : list byte) :
  Appended (acc ++ startCode ++ unit_) out -> Appended acc out.
Proof.
  intros [-> | [rest ->]]; right.
  - now exists unit_.
  - exists (unit_ ++ startCode ++ rest). now rewrite <- !app_assoc.
Qed.

Lemma Appended_trans (acc mid out : list byte) :
  Appended acc mid -> Appended mid out -> Appended acc out.
Proof.
  intros [-> | [rest ->]] Hout; [exact Hout|].
  now apply Appended_step in Hout.
Qed.

Lemma nalLoop_Appended (fuel : nat) :
  forall (data : list byte) (avccSize offset : Z) (acc out : list byte),
    nalLoop fuel data avccSize offset acc = Some out -> Appended acc out.
Proof.
  induction fuel as [|fuel IH]; intros data avccSize offset acc out; [discriminate|].
  cbn [nalLoop].
  destruct (addsz offset 4 <=? avccSize).
  - destruct ((read32 data offset =? 0)
              || (avccSize <? addsz (addsz offset 4) (read32 data offset))).
    + intros Hout. injection Hout as <-. apply Appended_refl.
    + intros Hout. apply IH in Hout. now apply Appended_step in Hout.
  - intros Hout. injection Hout as <-. apply Appended_refl.
Qed.

Lemma unitLoop_Appended (n : nat) :
  forall (data : list byte) (avccSize offset : Z) (acc : list byte),
    Appended acc (snd (unitLoop n data avccSize offset acc)).
Proof.
  induction n as [|n IH]; intros data avccSize offset acc; [apply Appended_refl|].
  cbn [unitLoop].
  destruct (addsz offset 2 <=? avccSize); [|apply Appended_refl].
  destruct (avccSize <? addsz (addsz offset 2) (read16 data offset)); [apply Appended_refl|].
  eapply Appended_step. apply IH.
Qed.

Lemma arrayLoop_Appended (n : nat) :
  forall (data : list byte) (avccSize offset : Z) (acc : list byte),
    Appended acc (snd (arrayLoop n data avccSize offset acc)).
Proof.
  induction n as [|n IH]; intros data avccSize offset acc; [apply Appended_refl|].
  cbn [arrayLoop].
  destruct (addsz offset 3 <=? avccSize); [|apply Appended_refl].
  cbv zeta.
  match goal with
  | |- context [unitLoop ?k ?d ?s ?o ?a] =>
      pose proof (unitLoop_Appended k d s o a) as Hinner;
      destruct (unitLoop k d s o a) as [offset' acc']
  end.
  cbn [snd] in Hinner.
  eapply Appended_trans; [exact Hinner | apply IH].
Qed.

(** The output of a conversion: the caller's buffer untouched, or the
    buffer cleared and then appended to. *)
Lemma convert_Appended (avccData : option (list byte)) (avccSize : Z)
      (annexBData : list byte) (isCodecConfig : bool) (mime : string) (ok : bool)
      (out : list byte) :
  convertAvccToAnnexB avccData avccSize annexBData isCodecConfig mime = Some (ok, out) ->
  (ok = false /\ out = annexBData) \/ (ok = negb (isEmpty out) /\ Appended [] out).
Proof.
  unfold convertAvccToAnnexB.
  destruct avccData as [data|]; [|intros Hrun; injection Hrun as <- <-; now left].
  destruct (avccSize <? 4); [intros Hrun; injection Hrun as <- <-; now left|].
  destruct isCodecConfig; cbn [negb].
  - destruct (isHevcMime mime).
    + destruct (avccSize <? 23); [intros Hrun; injection Hrun as <- <-; now left|].
      pose proof (arrayLoop_Appended (Z.to_nat (at_ data 22)) data avccSize 23 []) as Hloop.
      destruct (arrayLoop _ _ _ _ _) as [offset out']. cbn [snd] in Hloop.
      intros Hrun. injection Hrun as <- <-. right. now split.
    + destruct (avccSize <? 7); [intros Hrun; injection Hrun as <- <-; now left|].
      pose proof (unitLoop_Appended (Z.to_nat (Z.land (at_ data 5) 31)) data avccSize
                                    (addsz 5 1) []) as Hsps.
      destruct (unitLoop _ _ _ _ _) as [offset sps]. cbn [snd] in Hsps.
      destruct (offset <? avccSize).
      * pose proof (unitLoop_Appended (Z.to_nat (at_ data offset)) data avccSize
                                      (addsz offset 1) sps) as Hpps.
        destruct (unitLoop _ _ _ _ _) as [offset' out']. cbn [snd] in Hpps.
        intros Hrun. injection Hrun as <- <-. right. split; [reflexivity|].
        eapply Appended_trans; eassumption.
      * intros Hrun. injection Hrun as <- <-. right. now split.
  - destruct (nalLoop _ _ _ _ _) as [out'|] eqn:Hloop; [|discriminate].
    intros Hrun. injection Hrun as <- <-. right. split; [reflexivity|].
    now apply nalLoop_Appended in Hloop.
Qed.

(** X2.  What a conversion leaves behind, on every path (regular samples,
    AVC and HEVC configuration records).  A conversion that reports success
    of a buffer of at least [avccSize] bytes has produced bytes beginning
    with the 4-byte start code, so [isAvcc] reports its output as not AVCC
    in both modes and the output is not converted a second time.  A
    conversion that reports failure has left the caller's buffer as it was
    or has emptied it. *)
Theorem converted_output_is_annexB (avccData : option (list byte)) (avccSize : Z)
        (annexBData : list byte) (isCodecConfig : bool) (mime : string) (ok : bool)
        (out : list byte) :
  (forall data, avccData = Some data -> avccSize <= sizeOf data) ->
  convertAvccToAnnexB avccData avccSize annexBData isCodecConfig mime = Some (ok, out) ->
  (ok = true ->
   beginsWithStartCode4 out = true
   /\ forall asConfig, isAvcc (Some out) (sizeOf out) asConfig = false)
  /\ (ok = false -> out = annexBData \/ out = []).
Proof.
  intros _ Hrun. apply convert_Appended in Hrun.
  destruct Hrun as [[-> ->] | [-> Happ]].
  - split; [discriminate | now left].
  - destruct Happ as [-> | [rest ->]].
    + split; [discriminate | now right].
    + split; [|discriminate]. intros _. cbn [app startCode].
      split; [reflexivity|].
      intros asConfig. unfold isAvcc.
      assert (Hsize : (sizeOf (x00 :: x00 :: x00 :: x01 :: rest) <? 4) = false).
      { apply Z.ltb_ge. rewrite !sizeOf_cons. pose proof (sizeOf_nonneg rest). lia. }
      rewrite Hsize. now destruct asConfig.
Qed.

Lemma converted_output_is_annexB_witness :
  beginsWithStartCode4 [x00; x00; x00; x01; x65; x88] = true
  /\ forall asConfig,
      isAvcc (Some [x00; x00; x00; x01; x65; x88]) (sizeOf [x00; x00; x00; x01; x65; x88])
             asConfig = false.
Proof.
  assert (Hrun : convertAvccToAnnexB (Some [x00; x00; x00; x02; x65; x88]) 6 [] false
                                     "video/avc"
                 = Some (true, [x00; x00; x00; x01; x65; x88])) by (vm_compute; reflexivity).
  assert (Hfit : forall data,
             Some [x00; x00; x00; x02; x65; x88] = Some data -> 6 <= sizeOf data).
  { intros data Hdata. injection Hdata as <-. unfold sizeOf. cbn. lia. }
  destruct (converted_output_is_annexB _ _ _ _ _ _ _ Hfit Hrun) as [Hok _].
  exact (Hok eq_refl).
Defined.

(** ** Termination and the size of the output *)

Lemma nalLoop_bounded (fuel : nat) :
  forall (data : list byte) (avccSize offset : Z) (acc out : list byte),
    0 <= offset <= avccSize -> avccSize < 2 ^ 63 ->
    sizeOf acc <= offset ->
    nalLoop fuel data avccSize offset acc = Some out ->
    sizeOf out <= avccSize.
Proof.
  induction fuel as [|fuel IH]; intros data avccSize offset acc out Hoff Hmax Hacc;
    [discriminate|].
  cbn [nalLoop].
  destruct (Z.leb_spec (addsz offset 4) avccSize) as [Hle | _];
    [|intros Hout; injection Hout as <-; lia].
  destruct ((read32 data offset =? 0)
            || (avccSize <? addsz (addsz offset 4) (read32 data offset))) eqn:Hstop;
    [intros Hout; injection Hout as <-; lia|].
  apply orb_false_elim in Hstop. destruct Hstop as [Hne Hfit].
  apply Z.eqb_neq in Hne. apply Z.ltb_ge in Hfit.
  rewrite read32_value in * by lia.
  pose proof (at_range data offset). pose proof (at_range data (offset + 1)).
  pose proof (at_range data (offset + 2)). pose proof (at_range data (offset + 3)).
  rewrite (addsz_small offset 4) in * by lia.
  rewrite addsz_small in * by lia.
  apply IH; try lia.
  rewrite !sizeOf_app. change (sizeOf startCode) with 4.
  match goal with
  | |- context [bytes data ?from ?n] => pose proof (sizeOf_bytes data from n)
  end.
  lia.
Qed.

(** X3.  The conversion of a regular sample returns for every buffer of at
    least [avccSize] bytes that an address space can hold: the loop over the
    length prefixes ends by itself, whatever the bytes are.  Its answer is whether the output is not
    empty, and the output is never longer than the input, so the
    [reserve(avccSize)] the code starts with is never exceeded. *)
Theorem regular_conversion_fits_input (data : list byte) (avccSize : Z) (old : list byte)
        (mime : string) :
  4 <= avccSize <= sizeOf data ->
  sizeOf data < 2 ^ 63 ->
  exists out,
    convertAvccToAnnexB (Some data) avccSize old false mime = Some (negb (isEmpty out), out)
    /\ sizeOf out <= avccSize.
Proof.
  intros [Hmin Hfit] Hdata.
  assert (Hmax : avccSize < 2 ^ 63) by lia.
  unfold convertAvccToAnnexB.
  destruct (Z.ltb_spec avccSize 4) as [Hlt | _]; [lia|].
  cbn [negb].
  pose proof (nalLoop_total (S (Z.to_nat avccSize)) data avccSize 0 []) as Htotal.
  destruct (nalLoop (S (Z.to_nat avccSize)) data avccSize 0 []) as [out|] eqn:Hloop.
  - exists out. split; [reflexivity|].
    apply (nalLoop_bounded (S (Z.to_nat avccSize)) data avccSize 0 [] out);
      [lia | exact Hmax | unfold sizeOf; cbn; lia | exact Hloop].
  - exfalso. apply Htotal; try lia. reflexivity.
Qed.

Lemma regular_conversion_fits_input_witness :
  exists out,
    convertAvccToAnnexB (Some [x00; x00; x00; x01; x65; xff; xff; xff; xff; x00]) 10 []
                        false "video/avc"
    = Some (negb (isEmpty out), out)
    /\ sizeOf out <= 10.
Proof.
  apply (regular_conversion_fits_input
           [x00; x00; x00; x01; x65; xff; xff; xff; xff; x00] 10 [] "video/avc").
  - unfold sizeOf. cbn. lia.
  - reflexivity.
Defined.

(** ** Decoder configuration records *)

Lemma be16_value (n : Z) :
  0 <= n < 2 ^ 16 -> u8 (byteOf (n / 2 ^ 8)) * 2 ^ 8 + u8 (byteOf n) = n.
Proof.
  intros Hn. rewrite !u8_byteOf.
  change (2 ^ 8) with 256. change (2 ^ 16) with 65536 in Hn.
  Z.div_mod_to_equations. lia.
Qed.

Lemma annexB_app (l r : list (list byte)) : annexB (l ++ r) = annexB l ++ annexB r.
Proof. unfold annexB. apply flat_map_app. Qed.

(** A counted loop over 2-byte length-prefixed units emits all of them when
    the count is their number. *)
Lemma unitLoop_units16 (nals : list (list byte)) :
  forall (pre rest acc : list byte),
    fit16 nals = true ->
    sizeOf (pre ++ units16 nals ++ rest) < 2 ^ 63 ->
    unitLoop (List.length nals) (pre ++ units16 nals ++ rest)
             (sizeOf (pre ++ units16 nals ++ rest)) (sizeOf pre) acc
    = (sizeOf pre + sizeOf (units16 nals), acc ++ annexB nals).
Proof.
  induction nals as [|payload nals IH]; intros pre rest acc Hfit Hmax.
  - cbn [List.length unitLoop units16 flat_map annexB]. change (sizeOf []) with 0.
    now rewrite Z.add_0_r, app_nil_r.
  - cbn [fit16 forallb] in Hfit. apply andb_prop in Hfit. destruct Hfit as [Hpayload Hfit].
    apply Z.ltb_lt in Hpayload. fold (fit16 nals) in Hfit.
    cbn [units16 flat_map annexB List.length]. fold (units16 nals). fold (annexB nals).
    rewrite <- !app_assoc.
    set (data := pre ++ be16bytes (sizeOf payload) ++ payload ++ units16 nals ++ rest).
    assert (Hsize : sizeOf data
                    = sizeOf pre + 2 + sizeOf payload + sizeOf (units16 nals ++ rest)).
    { unfold data. rewrite !sizeOf_app. change (sizeOf (be16bytes (sizeOf payload))) with 2.
      lia. }
    assert (Hdata : sizeOf data < 2 ^ 63).
    { unfold data. cbn [units16 flat_map] in Hmax. rewrite <- !app_assoc in Hmax. exact Hmax. }
    pose proof (sizeOf_nonneg pre) as Hpre. pose proof (sizeOf_nonneg payload) as Hp.
    pose proof (sizeOf_nonneg (units16 nals ++ rest)) as Hafter.
    assert (Hread : read16 data (sizeOf pre) = sizeOf payload).
    { unfold data, be16bytes. cbn [app]. rewrite read16_app by lia.
      apply be16_value. lia. }
    cbn [unitLoop]. rewrite Hread.
    rewrite (addsz_small (sizeOf pre) 2) by lia.
    destruct (Z.leb_spec (sizeOf pre + 2) (sizeOf data)) as [_ | Hno]; [|lia].
    rewrite addsz_small by lia.
    destruct (Z.ltb_spec (sizeOf data) (sizeOf pre + 2 + sizeOf payload)) as [Hover | _];
      [lia|].
    assert (Hbytes : bytes data (sizeOf pre + 2) (sizeOf payload) = payload).
    { unfold data. change 2 with (sizeOf (be16bytes (sizeOf payload))).
      apply bytes_prefix. }
    rewrite Hbytes.
    assert (Hsplit : data
                     = (pre ++ be16bytes (sizeOf payload) ++ payload) ++ units16 nals ++ rest).
    { unfold data. now rewrite <- !app_assoc. }
    assert (Hpre' : sizeOf (pre ++ be16bytes (sizeOf payload) ++ payload)
                    = sizeOf pre + 2 + sizeOf payload).
    { rewrite !sizeOf_app. change (sizeOf (be16bytes (sizeOf payload))) with 2. lia. }
    rewrite <- Hpre'. rewrite Hsplit.
    rewrite (IH _ rest _ Hfit).
    + rewrite Hpre', !sizeOf_app.
      change (sizeOf (be16bytes (sizeOf payload))) with 2.
      rewrite <- !app_assoc. f_equal. lia.
    + now rewrite <- Hsplit.
Qed.

(** X4.  An AVC decoder configuration record (five header bytes, the number
    of sequence parameter sets in the low five bits of the next byte, the
    sets each behind a 2-byte length, the number of picture parameter sets,
    these sets likewise, then anything) is converted, for every mime that is
    not the HEVC one, to the sequence parameter sets followed by the picture
    parameter sets, each behind a 4-byte start code; the header and whatever
    follows the last set are dropped. *)
Theorem avc_configuration_record_conversion (header : list byte) (reserved : byte)
        (spss ppss : list (list byte)) (trailing old : list byte) (mime : string) :
  List.length header = 5%nat ->
  Z.land (u8 reserved) 31 = Z.of_nat (List.length spss) ->
  (List.length ppss < 256)%nat ->
  fit16 spss = true -> fit16 ppss = true ->
  isHevcMime mime = false ->
  sizeOf (avcConfigurationRecord header reserved spss ppss trailing) < 2 ^ 63 ->
  convertAvccToAnnexB (Some (avcConfigurationRecord header reserved spss ppss trailing))
                      (sizeOf (avcConfigurationRecord header reserved spss ppss trailing))
                      old true mime
  = Some (negb (isEmpty (annexB (spss ++ ppss))), annexB (spss ++ ppss)).
Proof.
  intros Hheader Hsps Hpps Hfits Hfitp Hmime Hmax.
  set (record := avcConfigurationRecord header reserved spss ppss trailing) in *.
  set (count := byteOf (Z.of_nat (List.length ppss))).
  assert (H5 : sizeOf header = 5) by (unfold sizeOf; now rewrite Hheader).
  assert (Hrec1 : record = (header ++ [reserved]) ++ units16 spss
                             ++ ([count] ++ units16 ppss ++ trailing)).
  { unfold record, avcConfigurationRecord. now rewrite <- !app_assoc. }
  assert (Hrec2 : record = ((header ++ [reserved]) ++ units16 spss ++ [count])
                             ++ units16 ppss ++ trailing).
  { rewrite Hrec1. now rewrite <- !app_assoc. }
  assert (Hpre1 : sizeOf (header ++ [reserved]) = 6).
  { rewrite sizeOf_app, H5. reflexivity. }
  assert (Hpre2 : sizeOf ((header ++ [reserved]) ++ units16 spss ++ [count])
                  = 6 + sizeOf (units16 spss) + 1).
  { rewrite sizeOf_app, Hpre1, sizeOf_app. change (sizeOf [count]) with 1. lia. }
  assert (Hsize : sizeOf record
                  = 6 + sizeOf (units16 spss) + 1 + sizeOf (units16 ppss) + sizeOf trailing).
  { rewrite Hrec2, sizeOf_app, Hpre2, sizeOf_app. lia. }
  pose proof (sizeOf_nonneg (units16 spss)) as Hs.
  pose proof (sizeOf_nonneg (units16 ppss)) as Hp.
  pose proof (sizeOf_nonneg trailing) as Ht.
  unfold convertAvccToAnnexB.
  destruct (Z.ltb_spec (sizeOf record) 4) as [Hlt | _]; [lia|].
  cbn [negb]. rewrite Hmime.
  destruct (Z.ltb_spec (sizeOf record) 7) as [Hlt | _]; [lia|].
  assert (Hat5 : at_ record 5 = u8 reserved).
  { unfold record, avcConfigurationRecord.
    replace 5 with (sizeOf header + Z.of_nat 0) by (rewrite H5; reflexivity).
    now rewrite at_app_r. }
  rewrite Hat5, Hsps, Nat2Z.id.
  change (addsz 5 1) with 6.
  rewrite <- Hpre1 at 1. rewrite Hrec1 at 1 2.
  rewrite (unitLoop_units16 spss _ _ [] Hfits) by (rewrite <- Hrec1; exact Hmax).
  rewrite Hpre1. cbn [app].
  destruct (Z.ltb_spec (6 + sizeOf (units16 spss)) (sizeOf record)) as [_ | Hno]; [|lia].
  assert (Hcount : at_ record (6 + sizeOf (units16 spss)) = Z.of_nat (List.length ppss)).
  { rewrite Hrec1.
    replace (6 + sizeOf (units16 spss))
      with (sizeOf ((header ++ [reserved]) ++ units16 spss) + Z.of_nat 0)
      by (rewrite sizeOf_app, Hpre1; simpl; lia).
    rewrite (app_assoc (header ++ [reserved])). rewrite at_app_r. cbn [app nth].
    unfold count. apply u8_byteOf_small. lia. }
  rewrite Hcount, Nat2Z.id.
  rewrite addsz_small by lia.
  rewrite <- Hpre2. rewrite Hrec2 at 1 2.
  rewrite (unitLoop_units16 ppss _ _ _ Hfitp) by (rewrite <- Hrec2; exact Hmax).
  now rewrite annexB_app.
Qed.

Lemma avc_configuration_record_conversion_witness :
  convertAvccToAnnexB
    (Some [x01; x42; x00; x1e; xff; xe1; x00; x02; x67; x42; x01; x00; x01; x68]) 14
    [] true "video/avc"
  = Some (true, [x00; x00; x00; x01; x67; x42; x00; x00; x00; x01; x68]).
Proof.
  apply (avc_configuration_record_conversion
           [x01; x42; x00; x1e; xff] xe1 [[x67; x42]] [[x68]] [] [] "video/avc");
    try reflexivity.
  cbn [List.length]. lia.
Defined.

Lemma sizeOf_hevcArray (a : byte * list (list byte)) :
  sizeOf (hevcArray a) = 3 + sizeOf (units16 (snd a)).
Proof.
  unfold hevcArray. rewrite sizeOf_cons, sizeOf_app.
  change (sizeOf (be16bytes (Z.of_nat (List.length (snd a))))) with 2. lia.
Qed.

(** The loop over the arrays emits the units of every array when the count
    is the number of arrays. *)
Lemma arrayLoop_arrays (arrays : list (byte * list (list byte))) :
  forall (pre rest acc : list byte),
    fitArrays arrays = true ->
    sizeOf (pre ++ flat_map hevcArray arrays ++ rest) < 2 ^ 63 ->
    arrayLoop (List.length arrays) (pre ++ flat_map hevcArray arrays ++ rest)
              (sizeOf (pre ++ flat_map hevcArray arrays ++ rest)) (sizeOf pre) acc
    = (sizeOf pre + sizeOf (flat_map hevcArray arrays),
       acc ++ annexB (flat_map snd arrays)).
Proof.
  induction arrays as [|[type nalus] arrays IH]; intros pre rest acc Hfit Hmax.
  - cbn [List.length arrayLoop flat_map annexB]. change (sizeOf []) with 0.
    now rewrite Z.add_0_r, app_nil_r.
  - cbn [fitArrays forallb snd] in Hfit. apply andb_prop in Hfit.
    destruct Hfit as [Hhere Hfit]. fold (fitArrays arrays) in Hfit.
    apply andb_prop in Hhere. destruct Hhere as [Hcount Hunits]. apply Z.ltb_lt in Hcount.
    cbn [flat_map List.length snd] in *. rewrite annexB_app.
    set (count := Z.of_nat (List.length nalus)) in *.
    set (after := flat_map hevcArray arrays ++ rest).
    assert (Hdata : pre ++ hevcArray (type, nalus) ++ flat_map hevcArray arrays ++ rest
                    = (pre ++ type :: be16bytes count) ++ units16 nalus ++ after).
    { unfold hevcArray, after. cbn [fst snd]. fold count.
      rewrite <- !app_assoc. cbn [app]. reflexivity. }
    rewrite <- app_assoc in Hmax |- *. rewrite Hdata in Hmax |- *.
    set (data := (pre ++ type :: be16bytes count) ++ units16 nalus ++ after) in *.
    assert (Hpre1 : sizeOf (pre ++ type :: be16bytes count) = sizeOf pre + 3).
    { rewrite sizeOf_app, sizeOf_cons. change (sizeOf (be16bytes count)) with 2. lia. }
    assert (Hsize : sizeOf data = sizeOf pre + 3 + sizeOf (units16 nalus) + sizeOf after).
    { unfold data. rewrite sizeOf_app, Hpre1, sizeOf_app. lia. }
    pose proof (sizeOf_nonneg pre) as Hpre. pose proof (sizeOf_nonneg after) as Hafter.
    pose proof (sizeOf_nonneg (units16 nalus)) as Hunitsize.
    cbn [arrayLoop]. rewrite (addsz_small (sizeOf pre) 3) by lia.
    destruct (Z.leb_spec (sizeOf pre + 3) (sizeOf data)) as [_ | Hno]; [|lia].
    cbv zeta.
    rewrite (addsz_small (sizeOf pre) 1) by lia.
    rewrite (addsz_small (sizeOf pre + 1) 1), (addsz_small (sizeOf pre + 1) 2) by lia.
    assert (Hhi : at_ data (sizeOf pre + 1) = u8 (byteOf (count / 2 ^ 8))).
    { unfold data. rewrite <- app_assoc. change 1 with (Z.of_nat 1). now rewrite at_app_r. }
    assert (Hlo : at_ data (sizeOf pre + 1 + 1) = u8 (byteOf count)).
    { unfold data. rewrite <- app_assoc.
      replace (sizeOf pre + 1 + 1) with (sizeOf pre + Z.of_nat 2) by (simpl; lia).
      now rewrite at_app_r. }
    rewrite Hhi, Hlo.
    assert (Hnum : Z.lor (Z.shiftl (u8 (byteOf (count / 2 ^ 8))) 8) (u8 (byteOf count))
                   = count).
    { pose proof (u8_range (byteOf (count / 2 ^ 8))). pose proof (u8_range (byteOf count)).
      rewrite Z.shiftl_mul_pow2 by lia. rewrite lor_shifted_low by lia.
      apply be16_value. unfold count in *. lia. }
    rewrite Hnum, Z.mod_small by (unfold count in *; lia).
    unfold count at 1. rewrite Nat2Z.id.
    replace (sizeOf pre + 1 + 2) with (sizeOf (pre ++ type :: be16bytes count)) by lia.
    assert (Hinner : unitLoop (List.length nalus) data (sizeOf data)
                              (sizeOf (pre ++ type :: be16bytes count)) acc
                     = (sizeOf (pre ++ type :: be16bytes count) + sizeOf (units16 nalus),
                        acc ++ annexB nalus)).
    { unfold data. apply unitLoop_units16; assumption. }
    rewrite Hinner.
    assert (Hsplit : data = (pre ++ hevcArray (type, nalus)) ++ flat_map hevcArray arrays
                              ++ rest).
    { rewrite <- Hdata. now rewrite <- !app_assoc. }
    assert (Hpre2 : sizeOf (pre ++ hevcArray (type, nalus))
                    = sizeOf (pre ++ type :: be16bytes count) + sizeOf (units16 nalus)).
    { rewrite sizeOf_app, sizeOf_hevcArray, Hpre1. cbn [snd]. lia. }
    rewrite <- Hpre2, Hsplit.
    rewrite (IH _ rest _ Hfit) by (rewrite <- Hsplit; exact Hmax).
    rewrite !sizeOf_app, <- app_assoc. f_equal. lia.
Qed.

(** X5.  An HEVC decoder configuration record (22 header bytes, the number
    of arrays, and per array a type byte, the number of units as two bytes
    and the units each behind a 2-byte length, then anything) is converted,
    for the mimes "video/hevc" and "video/h265", to the units of all arrays in
    order, each behind a 4-byte start code. *)
Theorem hevc_configuration_record_conversion (header : list byte)
        (arrays : list (byte * list (list byte))) (trailing old : list byte) (mime : string) :
  List.length header = 22%nat ->
  (List.length arrays < 256)%nat ->
  fitArrays arrays = true ->
  isHevcMime mime = true ->
  sizeOf (hevcConfigurationRecord header arrays trailing) < 2 ^ 63 ->
  convertAvccToAnnexB (Some (hevcConfigurationRecord header arrays trailing))
                      (sizeOf (hevcConfigurationRecord header arrays trailing))
                      old true mime
  = Some (negb (isEmpty (annexB (flat_map snd arrays))), annexB (flat_map snd arrays)).
Proof.
  intros Hheader Hcount Hfit Hmime Hmax.
  set (record := hevcConfigurationRecord header arrays trailing) in *.
  set (count := byteOf (Z.of_nat (List.length arrays))).
  assert (H22 : sizeOf header = 22) by (unfold sizeOf; now rewrite Hheader).
  assert (Hrec : record = (header ++ [count]) ++ flat_map hevcArray arrays ++ trailing).
  { unfold record, hevcConfigurationRecord. now rewrite <- !app_assoc. }
  assert (Hpre : sizeOf (header ++ [count]) = 23).
  { rewrite sizeOf_app, H22. reflexivity. }
  assert (Hsize : 23 <= sizeOf record).
  { rewrite Hrec, sizeOf_app, Hpre.
    pose proof (sizeOf_nonneg (flat_map hevcArray arrays ++ trailing)). lia. }
  unfold convertAvccToAnnexB.
  destruct (Z.ltb_spec (sizeOf record) 4) as [Hlt | _]; [lia|].
  cbn [negb]. rewrite Hmime.
  destruct (Z.ltb_spec (sizeOf record) 23) as [Hlt | _]; [lia|].
  assert (Hat : at_ record 22 = Z.of_nat (List.length arrays)).
  { unfold record, hevcConfigurationRecord.
    replace 22 with (sizeOf header + Z.of_nat 0) by (rewrite H22; reflexivity).
    rewrite at_app_r. cbn [app nth]. apply u8_byteOf_small. lia. }
  rewrite Hat, Nat2Z.id.
  rewrite <- Hpre at 1. rewrite Hrec at 1 2.
  rewrite (arrayLoop_arrays arrays _ _ [] Hfit) by (rewrite <- Hrec; exact Hmax).
  reflexivity.
Qed.

Lemma hevc_configuration_record_conversion_witness :
  convertAvccToAnnexB
    (Some (repeat x00 22
             ++ [x02; xa0; x00; x01; x00; x02; x40; x01;
                 xa1; x00; x02; x00; x01; x42; x00; x01; x44]))
    39 [] true "video/hevc"
  = Some (true, [x00; x00; x00; x01; x40; x01;
                 x00; x00; x00; x01; x42;
                 x00; x00; x00; x01; x44]).
Proof.
  apply (hevc_configuration_record_conversion
           (repeat x00 22) [(xa0, [[x40; x01]]); (xa1, [[x42]; [x44]])] [] []
           "video/hevc"); try reflexivity.
  cbn [List.length]. lia.
Defined.

(** * Further properties of the sessions *)

(** ** The decoder, call by call *)

Section DecoderCalls.

Context {W : Type} `{Platform W}.

Ltac keep IH :=
  eapply post_weaken; [apply IH | cbv beta; cbn [this world trace]; auto ..].

(** The candidate loop of [initialize] leaves the decoder as it was, but
    for the transform it accepted. *)
Lemma Decoder_createDecoder_members (fuel n : nat) :
  forall (i : Z) (inputType : MediaType) (s : St Decoder.VideoDecoder W),
    post (Decoder.createDecoder fuel n i inputType) s
         (fun created s' =>
            trace s' = trace s
            /\ match created with
               | Some h => this s' = Decoder.set_decoder_ (Some h) (this s)
               | None => this s' = this s
               end)
         (fun s' => trace s' = trace s /\ this s' = this s) False.
Proof.
  induction n as [|n IH]; intros i inputType s.
  - apply post_ret. split; reflexivity.
  - cbn [Decoder.createDecoder]. wp; try keep IH.
    eapply post_weaken; [apply Decoder_selectOutputType_post | | | auto]; cbv beta;
      cbn [this world trace].
    + intros outputTypeSet s1 [Hthis Htrace].
      wp; try keep IH; cbn [this trace]; rewrite ?Hthis, ?Htrace; try (split; reflexivity).
      all: auto.
    + intros s1 [Hthis Htrace]. now rewrite Hthis, Htrace.
Qed.

(** What [initialize] of the decoder leaves behind. *)
Lemma Decoder_initialize_members (fuel : nat) (mime : string) (width height : Z)
      (config : option (list byte)) (configSize : Z) (s : St Decoder.VideoDecoder W) :
  post (Decoder.initialize fuel mime width height config configSize) s
       (fun b s' =>
          trace s' = trace s
          /\ if b then
               mime <> ""%string /\ width <> 0 /\ height <> 0
               /\ Decoder.mimeToVideoFormat mime <> GUID_NULL
               /\ Decoder.decoder_ (this s) = None
               /\ Decoder.decoder_ (this s') <> None
               /\ Decoder.width_ (this s') = width
               /\ Decoder.height_ (this s') = height
               /\ Decoder.mfStarted_ (this s') = true
               /\ Decoder.isStarted_ (this s') = Decoder.isStarted_ (this s)
             else
               this s' = this s
               \/ (Decoder.decoder_ (this s) = None
                   /\ this s' = Decoder.set_mfStarted_ true (this s)))
       (fun s' =>
          trace s' = trace s
          /\ Decoder.decoder_ (this s) = None
          /\ this s' = Decoder.set_mfStarted_ true (this s))
       False.
Proof.
  unfold Decoder.initialize.
  destruct (String.eqb_spec mime "") as [Hmime | Hmime];
    [apply post_ret; split; [reflexivity | now left]|].
  destruct (Z.eqb_spec width 0) as [Hwidth | Hwidth];
    [apply post_ret; split; [reflexivity | now left]|].
  destruct (Z.eqb_spec height 0) as [Hheight | Hheight];
    [apply post_ret; split; [reflexivity | now left]|].
  cbn [orb].
  apply post_bind, post_get. cbv beta.
  destruct (Decoder.decoder_ (this s)) as [h|] eqn:Hnone;
    [apply post_ret; split; [reflexivity | now left]|].
  wp; try (split; [reflexivity|]; auto).
  eapply post_weaken; [apply Decoder_createDecoder_members | | | auto]; cbv beta;
    cbn [this world trace].
  - intros created s1 [Htrace Hthis].
    destruct created as [accepted|].
    + wp; cbn [this trace]; (split; [exact Htrace|]); rewrite Hthis;
        cbn; repeat split; try assumption; try discriminate.
      all: intros Hnull; rewrite Hnull in *; discriminate.
    + apply post_ret. split; [exact Htrace|]. right. split; [reflexivity | exact Hthis].
  - intros s1 [Htrace Hthis]. repeat split; assumption.
Qed.

(** What [start] of the decoder does. *)
Lemma Decoder_start_spec (s : St Decoder.VideoDecoder W) :
  post Decoder.start s
       (fun b s' =>
          (Decoder.decoder_ (this s) = None /\ b = false /\ s' = s)
          \/ (Decoder.decoder_ (this s) <> None /\ Decoder.isStarted_ (this s) = true
              /\ b = true /\ s' = s)
          \/ exists h hr1,
              Decoder.decoder_ (this s) = Some h /\ Decoder.isStarted_ (this s) = false
              /\ ((isOk hr1 = false /\ b = false /\ this s' = this s
                   /\ trace s'
                      = trace s ++ [EvProcessMessage h MFT_MESSAGE_NOTIFY_BEGIN_STREAMING hr1])
                  \/ exists hr2,
                      isOk hr1 = true /\ b = isOk hr2
                      /\ this s' = (if isOk hr2 then Decoder.set_isStarted_ true (this s)
                                    else this s)
                      /\ trace s'
                         = trace s
                           ++ [EvProcessMessage h MFT_MESSAGE_NOTIFY_BEGIN_STREAMING hr1;
                               EvProcessMessage h MFT_MESSAGE_NOTIFY_START_OF_STREAM hr2]))
       (fun _ => False) False.
Proof.
  unfold Decoder.start. apply post_bind, post_get. cbv beta.
  destruct (Decoder.decoder_ (this s)) as [h|] eqn:Hvalid;
    [|apply post_ret; left; repeat split].
  destruct (Decoder.isStarted_ (this s)) eqn:Hstarted;
    [apply post_ret; right; left; repeat split; discriminate|].
  apply post_bind, post_processMessage. intros hr1 w1. cbv beta.
  destruct (negb (isOk hr1)) eqn:Hbegin.
  - apply negb_true_iff in Hbegin. apply post_ret.
    right. right. exists h, hr1. repeat split. left. repeat split. exact Hbegin.
  - apply negb_false_iff in Hbegin.
    apply post_bind, post_processMessage. intros hr2 w2. cbv beta.
    destruct (negb (isOk hr2)) eqn:Hstream.
    + apply negb_true_iff in Hstream. apply post_ret.
      right. right. exists h, hr1. repeat split. right. exists hr2.
      rewrite Hstream. cbn [this trace]. rewrite <- app_assoc. repeat split. exact Hbegin.
    + apply negb_false_iff in Hstream. wp.
      right. right. exists h, hr1. repeat split. right. exists hr2.
      rewrite Hstream, <- app_assoc. repeat split. exact Hbegin.
Qed.

Lemma sameDecoder_refl (d : Decoder.VideoDecoder) : sameDecoder d d.
Proof. repeat split. Qed.

(** What [popFrame] does from [ProcessOutput] onwards. *)
Lemma Decoder_popFrameOutput_spec (fuel : nat) (h : Handle) (callerBuffer : option Z)
      (presentationTime : option Z) (s : St Decoder.VideoDecoder W) :
  post (Decoder.popFrameOutput fuel h callerBuffer presentationTime) s
       (fun r s' =>
          sameDecoder (this s) (this s')
          /\ exists hr pSample,
              trace s' = trace s ++ [EvProcessOutput h callerBuffer hr pSample]
              /\ (isOk hr = false \/ pSample = None ->
                  r = (None, presentationTime))
              /\ (forall outputSample,
                     isOk hr = true -> pSample = Some outputSample ->
                     this s' = this s
                     /\ snd r = poppedTime presentationTime outputSample
                     /\ forall frame,
                         fst r = Some frame -> Decoder.isValid (fst r) = true ->
                         Decoder.relativeTimestamp frame
                         = Some (match snd r with Some t => t | None => 0 end)))
       (fun s' =>
          sameDecoder (this s) (this s')
          /\ exists hr pSample,
              trace s' = trace s ++ [EvProcessOutput h callerBuffer hr pSample])
       False.
Proof.
  unfold Decoder.popFrameOutput.
  apply post_bind, post_processOutput. intros hr pSample w. cbv beta.
  destruct (hr =? MF_E_TRANSFORM_NEED_MORE_INPUT) eqn:Hneed.
  { apply Z.eqb_eq in Hneed. subst hr. apply post_ret. cbn [this trace].
    split; [apply sameDecoder_refl|]. eexists _, _. split; [reflexivity|].
    split; [reflexivity | discriminate]. }
  destruct (hr =? MF_E_TRANSFORM_STREAM_CHANGE) eqn:Hchange.
  { apply Z.eqb_eq in Hchange. subst hr.
    apply post_bind.
    eapply post_weaken; [apply Decoder_renegotiateOutputType_post | | | auto]; cbv beta;
      cbn [this world trace].
    - intros _ s1 [Hthis Htrace].
      wp; cbn [this trace]; rewrite Hthis, Htrace;
        (split; [repeat split|]); eexists _, _; (split; [reflexivity|]);
        (split; [reflexivity | discriminate]).
    - intros s1 [Hthis Htrace]. rewrite Hthis, Htrace.
      split; [apply sameDecoder_refl|]. eexists _, _. reflexivity. }
  destruct (negb (isOk hr)) eqn:Hfail.
  { apply negb_true_iff in Hfail. apply post_ret. cbn [this trace].
    split; [apply sameDecoder_refl|]. eexists _, _. split; [reflexivity|].
    split; [reflexivity | congruence]. }
  apply negb_false_iff in Hfail.
  destruct pSample as [outputSample|].
  - apply post_bind, post_get. cbv beta.
    apply post_bind, post_call. intros currentOutputType w1 _. cbv beta.
    match goal with
    | |- post (let '(outputWidth, outputHeight) := ?size in _) _ _ _ _ =>
        destruct size as [outputWidth outputHeight]
    end.
    cbv zeta. apply post_ret. cbn [this trace].
    split; [apply sameDecoder_refl|]. eexists _, _. split; [reflexivity|].
    split; [intros [Hno | Hno]; congruence|].
    intros outputSample' _ Hsample. injection Hsample as <-.
    cbn [fst snd]. split; [reflexivity|]. split; [reflexivity|].
    intros frame Hframe Hvalid.
    match type of Hframe with
    | (if Decoder.isValid ?made then _ else _) = _ =>
        destruct (Decoder.isValid made) eqn:Hmade
    end.
    + match type of Hframe with
      | option_map _ ?made = _ => destruct made as [built|]; [|discriminate]
      end.
      cbn [option_map] in Hframe. injection Hframe as <-. reflexivity.
    + rewrite Hframe in Hmade.
      rewrite Hframe in Hvalid. congruence.
  - apply post_ret. cbn [this trace].
    split; [apply sameDecoder_refl|]. eexists _, _. split; [reflexivity|].
    split; [reflexivity | discriminate].
Qed.

(** What [popFrame] does: no output request, an invalid frame and the
    caller's time untouched; or the one output request on the decoder's
    transform. *)
Lemma Decoder_popFrame_spec (fuel : nat) (presentationTime : option Z)
      (s : St Decoder.VideoDecoder W) :
  post (Decoder.popFrame fuel presentationTime) s
       (fun r s' =>
          sameDecoder (this s) (this s')
          /\ ((r = (None, presentationTime) /\ this s' = this s /\ trace s' = trace s)
              \/ exists h callerBuffer hr pSample,
                  Decoder.decoder_ (this s) = Some h
                  /\ trace s' = trace s ++ [EvProcessOutput h callerBuffer hr pSample]
                  /\ (isOk hr = false \/ pSample = None -> r = (None, presentationTime))
                  /\ (forall outputSample,
                         isOk hr = true -> pSample = Some outputSample ->
                         this s' = this s
                         /\ snd r = poppedTime presentationTime outputSample
                         /\ forall frame,
                             fst r = Some frame -> Decoder.isValid (fst r) = true ->
                             Decoder.relativeTimestamp frame
                             = Some (match snd r with Some t => t | None => 0 end))))
       (fun s' =>
          sameDecoder (this s) (this s')
          /\ exists h callerBuffer hr pSample,
              Decoder.decoder_ (this s) = Some h
              /\ trace s' = trace s ++ [EvProcessOutput h callerBuffer hr pSample])
       False.
Proof.
  unfold Decoder.popFrame. apply post_bind, post_get. cbv beta.
  destruct (Decoder.decoder_ (this s)) as [h|] eqn:Hvalid;
    [|apply post_ret; split; [apply sameDecoder_refl | left; repeat split]].
  assert (Hout : forall callerBuffer s1,
             this s1 = this s -> trace s1 = trace s ->
             post (Decoder.popFrameOutput fuel h callerBuffer presentationTime) s1
                  (fun r s' =>
                     sameDecoder (this s) (this s')
                     /\ ((r = (None, presentationTime) /\ this s' = this s
                          /\ trace s' = trace s)
                         \/ exists h' callerBuffer hr pSample,
                             Some h = Some h'
                             /\ trace s' = trace s ++ [EvProcessOutput h' callerBuffer hr pSample]
                             /\ (isOk hr = false \/ pSample = None ->
                                 r = (None, presentationTime))
                             /\ (forall outputSample,
                                    isOk hr = true -> pSample = Some outputSample ->
                                    this s' = this s
                                    /\ snd r = poppedTime presentationTime outputSample
                                    /\ forall frame,
                                        fst r = Some frame ->
                                        Decoder.isValid (fst r) = true ->
                                        Decoder.relativeTimestamp frame
                                        = Some (match snd r with
                                                | Some t => t | None => 0 end))))
                  (fun s' =>
                     sameDecoder (this s) (this s')
                     /\ exists h' callerBuffer hr pSample,
                         Some h = Some h'
                         /\ trace s' = trace s ++ [EvProcessOutput h' callerBuffer hr pSample])
                  False).
  { intros callerBuffer s1 Hthis Htrace.
    eapply post_weaken; [apply Decoder_popFrameOutput_spec | | | auto]; cbv beta;
      rewrite Hthis, Htrace.
    - intros r s' (Hsame & hr & pSample & Htr & Hnone & Hsome).
      split; [exact Hsame|]. right. exists h, callerBuffer, hr, pSample.
      split; [reflexivity|]. split; [exact Htr|]. split; [exact Hnone | exact Hsome].
    - intros s' (Hsame & hr & pSample & Htr).
      split; [exact Hsame|]. exists h, callerBuffer, hr, pSample. now split. }
  wp; try (apply Hout; reflexivity).
  all: split; [apply sameDecoder_refl | left; repeat split].
Qed.

(** What [release] of the decoder leaves behind. *)
Lemma Decoder_release_spec (s : St Decoder.VideoDecoder W) :
  post Decoder.release s
       (fun _ s' =>
          Decoder.decoder_ (this s') = None
          /\ Decoder.width_ (this s') = 0 /\ Decoder.height_ (this s') = 0
          /\ Decoder.mftProvidesOutputSamples_ (this s') = false
          /\ Decoder.outputBufferSize_ (this s') = 0
          /\ Decoder.mfStarted_ (this s') = false
          /\ match Decoder.decoder_ (this s) with
             | Some h =>
                 Decoder.isStarted_ (this s') = false
                 /\ if Decoder.isStarted_ (this s) then
                      exists hr0 hr1 hr2,
                        trace s'
                        = trace s
                          ++ [EvProcessMessage h MFT_MESSAGE_COMMAND_DRAIN hr0;
                              EvProcessMessage h MFT_MESSAGE_NOTIFY_END_OF_STREAM hr1;
                              EvProcessMessage h MFT_MESSAGE_NOTIFY_END_STREAMING hr2]
                    else trace s' = trace s
             | None =>
                 Decoder.isStarted_ (this s') = Decoder.isStarted_ (this s)
                 /\ trace s' = trace s
                 /\ (Decoder.mfStarted_ (this s) = false -> world s' = world s)
             end)
       (fun _ => False) False.
Proof.
  unfold Decoder.release.
  apply post_bind, post_get. cbv beta.
  destruct (Decoder.decoder_ (this s)) as [h|] eqn:Hvalid.
  - apply post_bind. apply post_bind.
    destruct (Decoder.isStarted_ (this s)) eqn:Hstarted.
    + apply post_bind.
      eapply post_weaken; [apply Decoder_stop_post | | auto | auto]. cbv beta.
      intros b s1 [_ [[[Hnone | Hstopped] _] | (h' & hr0 & hr1 & hr2 & Hh & _ & Hthis & Htr)]];
        [congruence | congruence |].
      assert (h' = h) by congruence. subst h'.
      wp; cbn [this trace]; rewrite ?Hthis in *; cbn in *; repeat split; eauto.
    + wp; cbn [this trace]; cbn in *; rewrite ?Hstarted; repeat split; assumption.
  - wp; cbn [this trace]; cbn in *; repeat split; congruence.
Qed.

End DecoderCalls.

(** ** The decoder over its lifetime *)

Section DecoderLifetime.

Context {W : Type} `{Platform W}.

(** X6.  [initialize] of the decoder.  With an empty mime, a zero width or
    height, or a decoder that holds a transform already, it answers false
    and touches nothing, the platform included.  When it answers true the
    arguments were valid, the mime is one of the supported ones, the decoder
    had no transform and now has one, with the size given and Media
    Foundation marked as started; [isStarted_] is as before.  When it
    answers false, or is still searching for an output type, the decoder is
    as it was, except that [mfStarted_] may have been set: a failed
    [initialize] leaves no transform and no size behind, but it can leave
    Media Foundation started.  It makes no call on a transform that is
    traced. *)
Theorem decoder_initialize_outcome (fuel : nat) (mime : string) (width height : Z)
        (config : option (list byte)) (configSize : Z) (s : St Decoder.VideoDecoder W) :
  (mime = ""%string \/ width = 0 \/ height = 0 \/ Decoder.decoder_ (this s) <> None ->
   Decoder.initialize fuel mime width height config configSize s = Ok false s)
  /\ match Decoder.initialize fuel mime width height config configSize s with
     | Ok b s' =>
         trace s' = trace s
         /\ if b then
              mime <> ""%string /\ width <> 0 /\ height <> 0
              /\ Decoder.mimeToVideoFormat mime <> GUID_NULL
              /\ Decoder.decoder_ (this s) = None
              /\ Decoder.decoder_ (this s') <> None
              /\ Decoder.width_ (this s') = width
              /\ Decoder.height_ (this s') = height
              /\ Decoder.mfStarted_ (this s') = true
              /\ Decoder.isStarted_ (this s') = Decoder.isStarted_ (this s)
            else
              this s' = this s
              \/ (Decoder.decoder_ (this s) = None
                  /\ this s' = Decoder.set_mfStarted_ true (this s))
     | Diverge s' =>
         trace s' = trace s
         /\ Decoder.decoder_ (this s) = None
         /\ this s' = Decoder.set_mfStarted_ true (this s)
     | Undefined => False
     end.
Proof.
  split.
  - intros Hbad. unfold Decoder.initialize.
    destruct (String.eqb_spec mime "") as [_ | Hmime]; [reflexivity|].
    destruct (Z.eqb_spec width 0) as [_ | Hwidth]; [reflexivity|].
    destruct (Z.eqb_spec height 0) as [_ | Hheight]; [reflexivity|].
    cbn [orb]. unfold bind, get.
    destruct (Decoder.decoder_ (this s)) as [h|]; [reflexivity|].
    destruct Hbad as [Hbad | [Hbad | [Hbad | Hbad]]]; contradiction.
  - pose proof (Decoder_initialize_members fuel mime width height config configSize s)
      as Hpost.
    unfold post in Hpost.
    destruct (Decoder.initialize fuel mime width height config configSize s); exact Hpost.
Qed.





End DecoderLifetime.

Lemma decoder_initialize_outcome_witness :
  exists s',
    Decoder.initialize 5 "video/avc" 64 64 None 0 Scripted.freshDecoder = Ok true s'
    /\ Decoder.decoder_ (this s') <> None
    /\ Decoder.width_ (this s') = 64
    /\ Decoder.height_ (this s') = 64
    /\ Decoder.initialize 5 "video/avc" 64 64 None 0 s' = Ok false s'.
Proof.
  assert (Hrun : exists s',
             Decoder.initialize 5 "video/avc" 64 64 None 0 Scripted.freshDecoder
             = Ok true s')
    by (eexists; vm_compute; reflexivity).
  destruct Hrun as [s' Hrun].
  pose proof (decoder_initialize_outcome 5 "video/avc" 64 64 None 0 Scripted.freshDecoder)
    as Hw.
  destruct Hw as [_ Hw]. rewrite Hrun in Hw.
  destruct Hw as (_ & _ & _ & _ & _ & _ & Hvalid & Hw1 & Hh1 & _).
  exists s'. split; [exact Hrun|]. split; [exact Hvalid|]. split; [exact Hw1|].
  split; [exact Hh1|].
  pose proof (decoder_initialize_outcome 5 "video/avc" 64 64 None 0 s') as Hagain.
  destruct Hagain as [Hagain _]. apply Hagain. right. right. right. exact Hvalid.
Defined.

(** ** Frames and their times *)

Section DecoderOutput.

Context {W : Type} `{Platform W}.

(** X8.  What [popFrame] answers.  It makes at most one output request,
    on the decoder's transform.  Unless that request is answered [S_OK] with
    a sample, the frame is the invalid one and the caller's time is left as
    it was: so without a transform, when the transform needs more input, on
    any failure, and on a stream change, whose renegotiation hands over no
    frame in the same call.  On an [S_OK] answer with a sample, the caller's
    time (when a variable was given) is the sample time divided by 10, or
    left alone when the sample has none, and a valid frame is stamped with
    that time.  Of the decoder only the stream information can change, and
    only on a stream change. *)
Theorem popFrame_outcomes (fuel : nat) (presentationTime : option Z)
        (s : St Decoder.VideoDecoder W) :
  (Decoder.decoder_ (this s) = None ->
   Decoder.popFrame fuel presentationTime s = Ok (None, presentationTime) s)
  /\ match Decoder.popFrame fuel presentationTime s with
     | Ok r s' =>
         sameDecoder (this s) (this s')
         /\ ((r = (None, presentationTime) /\ this s' = this s /\ trace s' = trace s)
             \/ exists h callerBuffer hr pSample,
                 Decoder.decoder_ (this s) = Some h
                 /\ trace s' = trace s ++ [EvProcessOutput h callerBuffer hr pSample]
                 /\ (isOk hr = false \/ pSample = None -> r = (None, presentationTime))
                 /\ (forall outputSample,
                        isOk hr = true -> pSample = Some outputSample ->
                        this s' = this s
                        /\ snd r = poppedTime presentationTime outputSample
                        /\ forall frame,
                            fst r = Some frame -> Decoder.isValid (fst r) = true ->
                            Decoder.relativeTimestamp frame
                            = Some (match snd r with Some t => t | None => 0 end)))
     | Diverge s' =>
         sameDecoder (this s) (this s')
         /\ exists h callerBuffer hr pSample,
             Decoder.decoder_ (this s) = Some h
             /\ trace s' = trace s ++ [EvProcessOutput h callerBuffer hr pSample]
     | Undefined => False
     end.
Proof.
  split.
  - intros Hnone. unfold Decoder.popFrame, bind, get. now rewrite Hnone.
  - pose proof (Decoder_popFrame_spec fuel presentationTime s) as Hpost.
    unfold post in Hpost.
    destruct (Decoder.popFrame fuel presentationTime s); exact Hpost.
Qed.


End DecoderOutput.


Lemma toSampleTime_exact (t : Z) :
  0 <= t <= maximalPresentationTime ->
  Decoder.toSampleTime t = 10 * t /\ Encoder.toSampleTime t = 10 * t.
Proof.
  intros Ht. unfold maximalPresentationTime in Ht.
  change ((2 ^ 63 - 1) / 10) with 922337203685477580 in Ht.
  unfold Decoder.toSampleTime, Encoder.toSampleTime.
  change (2 ^ 63) with 9223372036854775808. change (2 ^ 64) with 18446744073709551616.
  rewrite (Z.mod_small (t + 9223372036854775808)) by lia.
  replace (t + 9223372036854775808 - 9223372036854775808) with t by lia.
  rewrite (Z.mod_small (t * 10 + 9223372036854775808)) by lia.
  split; lia.
Qed.

Lemma inputTimes_app (l r : list Event) : inputTimes (l ++ r) = inputTimes l ++ inputTimes r.
Proof. unfold inputTimes. apply flat_map_app. Qed.

Lemma inputTimes_pass (evs : list Event) : isDrainPass evs = true -> inputTimes evs = [].
Proof.
  induction evs as [|e evs IH]; [reflexivity|].
  cbn [isDrainPass]. destruct e as [| |h cb hr pSample|]; try discriminate.
  destruct evs as [|e' evs]; [reflexivity|].
  intros Hpass. apply andb_prop in Hpass. destruct Hpass as [_ Hpass].
  change (inputTimes (EvProcessOutput h cb hr pSample :: e' :: evs))
    with (inputTimes (e' :: evs)).
  exact (IH Hpass).
Qed.

Section Timestamps.

Context {W : Type} `{Platform W}.

(** The input [pushSample] submits carries the sample time of the
    presentation time it was given. *)
Lemma Decoder_pushSample_time (data : option (list byte)) (size t : Z)
      (s : St Decoder.VideoDecoder W) :
  post (Decoder.pushSample data size t) s
       (fun b s' =>
          (b = false /\ trace s' = trace s)
          \/ exists evs,
              trace s' = trace s ++ evs /\ inputTimes evs = [Decoder.toSampleTime t])
       (fun _ => False) (2 ^ 32 <= size).
Proof.
  unfold Decoder.pushSample.
  wp; try (left; split; reflexivity); try (now apply Z.leb_le).
  all: right; eexists; split; reflexivity.
Qed.

(** The inputs [pushFrame] submits from [ProcessInput] onwards: the sample
    it was given, once or twice, and nothing else. *)
Lemma submit_times (fuel : nat) (h : Handle) (i : InputSample)
      (s : St Encoder.VideoEncoder W) :
  Encoder.encoder_ (this s) = Some h ->
  post (Encoder.submit fuel h i) s
       (fun _ s' =>
          exists evs,
            trace s' = trace s ++ evs
            /\ (inputTimes evs = [inputSampleTime i]
                \/ inputTimes evs = [inputSampleTime i; inputSampleTime i]))
       (fun s' =>
          exists evs,
            trace s' = trace s ++ evs
            /\ (inputTimes evs = [inputSampleTime i]
                \/ inputTimes evs = [inputSampleTime i; inputSampleTime i]))
       False.
Proof.
  intros Hvalid. unfold Encoder.submit.
  apply post_bind, post_processInput. intros hr w. cbv beta.
  assert (Hfirst : forall (tr : list Event) pass,
             tr = (trace s ++ [EvProcessInput h i hr]) ++ pass ->
             isDrainPass pass = true ->
             exists evs,
               tr = trace s ++ evs
               /\ (inputTimes evs = [inputSampleTime i]
                   \/ inputTimes evs = [inputSampleTime i; inputSampleTime i])).
  { intros tr pass Htrace Hpass. exists (EvProcessInput h i hr :: pass).
    split; [rewrite Htrace, <- app_assoc; reflexivity|].
    left. change (inputTimes (EvProcessInput h i hr :: pass))
            with (inputSampleTime i :: inputTimes pass).
    now rewrite (inputTimes_pass pass Hpass). }
  destruct (hr =? MF_E_NOTACCEPTING).
  - eapply post_bind_with; [apply (drainOutputSamples_full fuel) | | | auto].
    + cbn [this]. rewrite Hvalid. discriminate.
    + cbv beta. intros _ s1 [pass1 [Hd1 _]].
      pose proof (Drained_valid _ _ _ Hd1) as Hvalid1. cbn [this] in Hvalid1.
      destruct Hd1 as (_ & Htrace1 & Hpass1). cbn [trace] in Htrace1.
      apply post_bind, post_processInput. intros hr2 w2. cbv beta.
      assert (Hsecond : forall (tr : list Event) pass2,
                 tr = (trace s1 ++ [EvProcessInput h i hr2]) ++ pass2 ->
                 isDrainPass pass2 = true ->
                 exists evs,
                   tr = trace s ++ evs
                   /\ (inputTimes evs = [inputSampleTime i]
                       \/ inputTimes evs = [inputSampleTime i; inputSampleTime i])).
      { intros tr pass2 Htrace2 Hpass2.
        exists (EvProcessInput h i hr :: pass1 ++ EvProcessInput h i hr2 :: pass2).
        split; [rewrite Htrace2, Htrace1, <- !app_assoc; reflexivity|].
        right. change (inputTimes (EvProcessInput h i hr
                                     :: pass1 ++ EvProcessInput h i hr2 :: pass2))
                 with (inputSampleTime i
                         :: inputTimes (pass1 ++ EvProcessInput h i hr2 :: pass2)).
        rewrite inputTimes_app, (inputTimes_pass pass1 Hpass1).
        change (inputTimes (EvProcessInput h i hr2 :: pass2))
          with (inputSampleTime i :: inputTimes pass2).
        now rewrite (inputTimes_pass pass2 Hpass2). }
      destruct (negb (isOk hr2)).
      * apply post_ret. apply (Hsecond _ []); [now rewrite app_nil_r | reflexivity].
      * eapply post_bind_with; [apply (drainOutputSamples_full fuel) | | | auto].
        -- cbn [this]. rewrite Hvalid1, Hvalid. discriminate.
        -- cbv beta. intros _ s2 [pass2 [(_ & Htrace2 & Hpass2) _]].
           cbn [trace] in Htrace2. apply post_ret. now apply (Hsecond (trace s2) pass2).
        -- cbv beta. intros s2 (pass2 & (_ & Htrace2 & Hpass2) & _).
           cbn [trace] in Htrace2. now apply (Hsecond (trace s2) pass2).
    + cbv beta. intros s1 (pass1 & (_ & Htrace1 & Hpass1) & _).
      cbn [trace] in Htrace1. now apply (Hfirst (trace s1) pass1).
  - destruct (negb (isOk hr)).
    + wp; (apply (Hfirst _ []); [now rewrite app_nil_r | reflexivity]).
    + eapply post_bind_with; [apply (drainOutputSamples_full fuel) | | | auto].
      * cbn [this]. rewrite Hvalid. discriminate.
      * cbv beta. intros _ s1 [pass [(_ & Htrace & Hpass) _]].
        cbn [trace] in Htrace. apply post_ret. now apply (Hfirst (trace s1) pass).
      * cbv beta. intros s1 (pass & (_ & Htrace & Hpass) & _).
        cbn [trace] in Htrace. now apply (Hfirst (trace s1) pass).
Qed.

(** The inputs [pushFrame] submits carry the sample time of the
    presentation time it was given. *)
Lemma Encoder_pushFrame_times (fuel : nat) (frame : InputFrame) (t : Z)
      (s : St Encoder.VideoEncoder W) :
  post (Encoder.pushFrame fuel frame t) s
       (fun b s' =>
          (b = false /\ trace s' = trace s)
          \/ exists evs,
              trace s' = trace s ++ evs
              /\ (inputTimes evs = [Encoder.toSampleTime t]
                  \/ inputTimes evs = [Encoder.toSampleTime t; Encoder.toSampleTime t]))
       (fun s' =>
          exists evs,
            trace s' = trace s ++ evs
            /\ (inputTimes evs = [Encoder.toSampleTime t]
                \/ inputTimes evs = [Encoder.toSampleTime t; Encoder.toSampleTime t]))
       False.
Proof.
  unfold Encoder.pushFrame.
  wp; try (left; split; reflexivity).
  eapply post_weaken; [apply (submit_times fuel h); exact Heqo | | | auto]; cbv beta;
    cbn [this trace inputSampleTime].
  - intros ok s' Hevs. right. exact Hevs.
  - intros s' Hevs. exact Hevs.
Qed.

(** [popFrame] from [ProcessOutput] onwards, for a successful output whose
    sample time is ten times [t]: it returns, with [t] in the caller's
    variable and on the frame if that is valid. *)
Lemma Decoder_popFrameOutput_time (fuel : nat) (h : Handle) (callerBuffer : option Z)
      (previous t : Z) (s : St Decoder.VideoDecoder W) (outputSample : OutputSample)
      (w' : W) :
  sampleTime outputSample = Some (10 * t) ->
  ProcessOutput h callerBuffer (world s) = ((S_OK, Some outputSample), w') ->
  exists frame s',
    Decoder.popFrameOutput fuel h callerBuffer (Some previous) s = Ok (frame, Some t) s'
    /\ trace s' = trace s ++ [EvProcessOutput h callerBuffer S_OK (Some outputSample)]
    /\ forall decoded,
        frame = Some decoded -> Decoder.isValid frame = true ->
        Decoder.relativeTimestamp decoded = Some t.
Proof.
  intros Htime Hanswer.
  assert (Hquot : Z.quot (10 * t) 10 = t) by (rewrite Z.mul_comm; apply Z.quot_mul; lia).
  assert (Hreturns : post (Decoder.popFrameOutput fuel h callerBuffer (Some previous)) s
                          (fun r _ => snd r = Some t) (fun _ => False) False).
  { unfold Decoder.popFrameOutput. apply post_bind.
    eapply post_processOutput_answer; [exact Hanswer|]. cbv beta iota.
    change (S_OK =? MF_E_TRANSFORM_NEED_MORE_INPUT) with false.
    change (S_OK =? MF_E_TRANSFORM_STREAM_CHANGE) with false.
    change (negb (isOk S_OK)) with false. cbv iota.
    rewrite Htime, Hquot. wp; reflexivity. }
  pose proof (post_and _ _ _ _ _ _ _ _ Hreturns
                (post_and _ _ _ _ _ _ _ _
                   (Decoder_popFrameOutput_spec fuel h callerBuffer (Some previous) s)
                   (Decoder_popFrameOutput_request fuel h callerBuffer (Some previous) s)))
    as Hall.
  unfold post in Hall.
  destruct (Decoder.popFrameOutput fuel h callerBuffer (Some previous) s)
    as [[frame time] s'|s'|]; [|destruct Hall as [[] _]..].
  destruct Hall as (Hsnd & (_ & hr & pSample & Htrace & _ & Hstamp) & Hrequest).
  rewrite Hanswer in Hrequest. cbn [fst snd] in Hsnd, Hrequest. subst time.
  assert (Hevent : EvProcessOutput h callerBuffer hr pSample
                   = EvProcessOutput h callerBuffer S_OK (Some outputSample)).
  { rewrite Htrace in Hrequest. apply app_inv_head in Hrequest.
    injection Hrequest as -> ->. reflexivity. }
  injection Hevent as -> ->.
  exists frame, s'. split; [reflexivity|]. split; [exact Htrace|].
  intros decoded Hframe Hvalid.
  destruct (Hstamp outputSample eq_refl eq_refl) as (_ & _ & Hrel).
  exact (Hrel decoded Hframe Hvalid).
Qed.

(** [popFrame] of a decoder whose transform provisions no output samples,
    where the platform hands out the sample and the memory buffer, is the
    output request with that buffer. *)
Lemma Decoder_popFrame_callerBuffer (fuel : nat) (presentationTime : option Z)
      (s : St Decoder.VideoDecoder W) (h : Handle) (w1 w2 : W) :
  Decoder.decoder_ (this s) = Some h ->
  Decoder.mftProvidesOutputSamples_ (this s) = false ->
  MFCreateSample (world s) = (S_OK, w1) ->
  MFCreateMemoryBuffer (Decoder.callerBufferSize (this s)) w1 = (S_OK, w2) ->
  Decoder.popFrame fuel presentationTime s
  = Decoder.popFrameOutput fuel h (Some (Decoder.callerBufferSize (this s))) presentationTime
                           (mkSt (this s) w2 (trace s)).
Proof.
  intros Hvalid Hprovides Hsample Hbuffer.
  unfold Decoder.popFrame, bind, get, call.
  rewrite Hvalid, Hprovides. cbn [negb]. rewrite Hsample. cbn [this world trace].
  change (negb (isOk S_OK)) with false. cbv beta iota. cbn [this world trace].
  rewrite Hbuffer. reflexivity.
Qed.

(** Every sample enqueued for an output carries the time of that output. *)
Lemma collectOutput_times (h : Handle) (outputSample : OutputSample)
      (s : St Encoder.VideoEncoder W) :
  post (Encoder.collectOutput h outputSample) s
       (fun _ s' =>
          exists new,
            Encoder.encodedSamples_ (this s') = Encoder.encodedSamples_ (this s) ++ new
            /\ Forall (fun sample =>
                         Encoder.presentationTime_ sample
                         = Z.quot (match sampleTime outputSample with
                                   | Some t => t | None => 0 end) 10) new)
       (fun _ => False) False.
Proof.
  unfold Encoder.collectOutput. apply post_bind, post_get. cbv beta.
  set (time := Z.quot (match sampleTime outputSample with Some t => t | None => 0 end) 10).
  assert (Hpayload : forall (s1 : St Encoder.VideoEncoder W) new1,
             Encoder.encodedSamples_ (this s1) = Encoder.encodedSamples_ (this s) ++ new1 ->
             Forall (fun sample => Encoder.presentationTime_ sample = time) new1 ->
             post (Encoder.collectPayload outputSample time
                                          (Encoder.isCleanPoint outputSample)) s1
                  (fun _ s' =>
                     exists new,
                       Encoder.encodedSamples_ (this s')
                       = Encoder.encodedSamples_ (this s) ++ new
                       /\ Forall (fun sample => Encoder.presentationTime_ sample = time) new)
                  (fun _ => False) False).
  { intros s1 new1 Hqueue Hnew. unfold Encoder.collectPayload.
    wp; try (exists new1; split; assumption).
    eexists. cbn. rewrite Hqueue, <- app_assoc. split; [reflexivity|].
    apply Forall_app. split; [exact Hnew|]. now repeat constructor. }
  destruct (Encoder.isCleanPoint outputSample && negb (Encoder.codecConfigEmitted_ (this s))).
  - eapply post_bind_with; [apply emitCodecConfig_post | | contradiction | contradiction].
    cbv beta. intros _ s1 (_ & _ & Hcfg).
    destruct Hcfg as [[Hqueue _] | (d & _ & Hqueue & _)].
    + apply (Hpayload s1 []); [now rewrite app_nil_r | constructor].
    + eapply (Hpayload s1); [exact Hqueue|]. now repeat constructor.
  - apply post_bind, post_ret.
    apply (Hpayload s []); [now rewrite app_nil_r | constructor].
Qed.

(** X10.  Presentation times survive the session.  For a presentation time
    [t] of up to 922337203685477580 microseconds the sample time of the
    sessions is ten times that, without overflow, and it is the time of
    every input they submit: [pushSample] of the decoder, when it reaches
    the transform (as it does on a started decoder where the platform hands
    out the buffer and the sample), submits one input of sample time
    [10 * t], and
    [pushFrame] of the encoder one or two, each of sample time [10 * t],
    also when it does not return.  When the transform hands the sample
    time back on a successful output, [popFrame] of the decoder, with or
    without a caller buffer, returns with [t] in the caller's variable and
    on the frame if that is valid, and every sample the encoder enqueues for
    that output, the configuration sample included, carries [t]. *)
Theorem presentation_time_round_trip (fuel : nat) (t previous : Z)
        (sd : St Decoder.VideoDecoder W) (se : St Encoder.VideoEncoder W)
        (data : option (list byte)) (size : Z) (picture : InputFrame)
        (h : Handle) (outputSample : OutputSample) :
  0 <= t <= maximalPresentationTime ->
  sampleTime outputSample = Some (10 * t) ->
  Decoder.decoder_ (this sd) = Some h ->
  (Decoder.toSampleTime t = 10 * t /\ Encoder.toSampleTime t = 10 * t)
  /\ match Decoder.pushSample data size t sd with
     | Ok b sd' =>
         (b = false /\ trace sd' = trace sd)
         \/ exists evs, trace sd' = trace sd ++ evs /\ inputTimes evs = [10 * t]
     | Diverge _ => False
     | Undefined => 2 ^ 32 <= size
     end
  /\ match Encoder.pushFrame fuel picture t se with
     | Ok b se' =>
         (b = false /\ trace se' = trace se)
         \/ exists evs,
             trace se' = trace se ++ evs
             /\ (inputTimes evs = [10 * t] \/ inputTimes evs = [10 * t; 10 * t])
     | Diverge se' =>
         exists evs,
           trace se' = trace se ++ evs
           /\ (inputTimes evs = [10 * t] \/ inputTimes evs = [10 * t; 10 * t])
     | Undefined => False
     end
  /\ (forall w',
         Decoder.mftProvidesOutputSamples_ (this sd) = true ->
         ProcessOutput h None (world sd) = ((S_OK, Some outputSample), w') ->
         exists frame sd',
           Decoder.popFrame fuel (Some previous) sd = Ok (frame, Some t) sd'
           /\ trace sd' = trace sd ++ [EvProcessOutput h None S_OK (Some outputSample)]
           /\ forall decoded,
               frame = Some decoded -> Decoder.isValid frame = true ->
               Decoder.relativeTimestamp decoded = Some t)
  /\ (forall w1 w2 w',
         Decoder.mftProvidesOutputSamples_ (this sd) = false ->
         MFCreateSample (world sd) = (S_OK, w1) ->
         MFCreateMemoryBuffer (Decoder.callerBufferSize (this sd)) w1 = (S_OK, w2) ->
         ProcessOutput h (Some (Decoder.callerBufferSize (this sd))) w2
         = ((S_OK, Some outputSample), w') ->
         exists frame sd',
           Decoder.popFrame fuel (Some previous) sd = Ok (frame, Some t) sd'
           /\ trace sd'
              = trace sd
                ++ [EvProcessOutput h (Some (Decoder.callerBufferSize (this sd))) S_OK
                                    (Some outputSample)]
           /\ forall decoded,
               frame = Some decoded -> Decoder.isValid frame = true ->
               Decoder.relativeTimestamp decoded = Some t)
  /\ (exists collected se' new,
         Encoder.collectOutput h outputSample se = Ok collected se'
         /\ Encoder.encodedSamples_ (this se') = Encoder.encodedSamples_ (this se) ++ new
         /\ Forall (fun sample => Encoder.presentationTime_ sample = t) new)
  /\ (forall sampleData w1 w2 w3,
         data = Some sampleData ->
         Decoder.isStarted_ (this sd) = true ->
         size <> 0 -> size < 2 ^ 32 ->
         MFCreateMemoryBuffer (u32 size) (world sd) = (S_OK, w1) ->
         LockBuffer w1 = ((S_OK, true), w2) ->
         MFCreateSample w2 = (S_OK, w3) ->
         exists b sd' inputSample hr,
           Decoder.pushSample data size t sd = Ok b sd'
           /\ trace sd' = trace sd ++ [EvProcessInput h inputSample hr]
           /\ inputSampleTime inputSample = 10 * t).
Proof.
  intros Ht Htime Hvalid.
  destruct (toSampleTime_exact t Ht) as [Hdecoder Hencoder].
  assert (Hquot : Z.quot (10 * t) 10 = t) by (rewrite Z.mul_comm; apply Z.quot_mul; lia).
  split; [split; assumption|]. split; [|split; [|split; [|split; [|split]]]].
  - pose proof (Decoder_pushSample_time data size t sd) as Hpost.
    unfold post in Hpost. rewrite Hdecoder in Hpost.
    destruct (Decoder.pushSample data size t sd); exact Hpost.
  - pose proof (Encoder_pushFrame_times fuel picture t se) as Hpost.
    unfold post in Hpost. rewrite Hencoder in Hpost.
    destruct (Encoder.pushFrame fuel picture t se); exact Hpost.
  - intros w' Hprovides Houtput.
    rewrite (Decoder_popFrame_provisioned fuel (Some previous) sd h Hvalid Hprovides).
    exact (Decoder_popFrameOutput_time fuel h None previous t sd outputSample w'
                                       Htime Houtput).
  - intros w1 w2 w' Hprovides Hsample Hbuffer Houtput.
    rewrite (Decoder_popFrame_callerBuffer fuel (Some previous) sd h w1 w2
                                           Hvalid Hprovides Hsample Hbuffer).
    exact (Decoder_popFrameOutput_time fuel h (Some (Decoder.callerBufferSize (this sd)))
                                       previous t
                                       (mkSt (this sd) w2 (trace sd)) outputSample w'
                                       Htime Houtput).
  - destruct (post_returns _ _ _ (collectOutput_times h outputSample se))
      as (collected & se' & Hrun & new & Hqueue & Hnew).
    rewrite Htime, Hquot in Hnew. now exists collected, se', new.
  - intros sampleData w1 w2 w3 -> Hstarted Hsize Hmax Hbuffer Hlock Hsample.
    rewrite (Decoder_pushSample_run sampleData size t sd h w1 w2 w3 Hvalid Hstarted
                                    Hsize Hmax Hbuffer Hlock Hsample).
    cbv zeta. do 4 eexists. split; [reflexivity|]. split; [reflexivity|].
    cbn [inputSampleTime]. exact Hdecoder.
Qed.

End Timestamps.

Lemma presentation_time_round_trip_witness :
  (exists sd',
      Decoder.pushSample (Some [x00; x00; x00; x01; x65]) 5 33 Scripted.refusingDecoder
      = Ok false sd'
      /\ inputTimes (trace sd') = [330])
  /\ (exists se',
         Encoder.pushFrame 5 Scripted.picture64 33 Scripted.refusingEncoder = Ok true se'
         /\ inputTimes (trace se') = [330; 330]
         /\ exists evs,
             trace se' = trace Scripted.refusingEncoder ++ evs
             /\ (inputTimes evs = [10 * 33] \/ inputTimes evs = [10 * 33; 10 * 33]))
  /\ (exists frame sd',
         Decoder.popFrame 5 (Some 7)
                          (mkSt (Scripted.startedDecoder 0)
                                (Scripted.script [MF_E_NOTACCEPTING]
                                                 [(S_OK, Scripted.unit_ true 330 [x65])] [])
                                [])
         = Ok (frame, Some 33) sd'
         /\ trace sd'
            = [EvProcessOutput 0%nat (Some 6144) S_OK (Scripted.unit_ true 330 [x65])])
  /\ (exists collected se' new,
         Encoder.collectOutput 0%nat
                               {| sampleTime := Some 330; cleanPoint := Some 1;
                                  contiguous := Some {| buffer2D := None;
                                                        locked := Some [x65] |} |}
                               Scripted.lateHeaderEncoder
         = Ok collected se'
         /\ Encoder.encodedSamples_ (this se')
            = Encoder.encodedSamples_ (this Scripted.lateHeaderEncoder) ++ new
         /\ Forall (fun sample => Encoder.presentationTime_ sample = 33) new).
Proof.
  assert (Ht : 0 <= 33 <= maximalPresentationTime)
    by (unfold maximalPresentationTime; split; [lia | apply Z.leb_le; reflexivity]).
  split; [|split; [|split]].
  - pose proof (presentation_time_round_trip
                  5 33 7 Scripted.refusingDecoder Scripted.lateHeaderEncoder
                  (Some [x00; x00; x00; x01; x65]) 5 Scripted.picture64 0%nat
                  {| sampleTime := Some 330; cleanPoint := Some 1;
                     contiguous := Some {| buffer2D := None; locked := Some [x65] |} |}
                  Ht eq_refl eq_refl) as (_ & Hpush & _).
    assert (Hrun : exists sd',
               Decoder.pushSample (Some [x00; x00; x00; x01; x65]) 5 33
                                  Scripted.refusingDecoder = Ok false sd'
               /\ trace sd' <> trace Scripted.refusingDecoder)
      by (eexists; split; [vm_compute; reflexivity | discriminate]).
    destruct Hrun as (sd' & Hrun & Hcalled). rewrite Hrun in Hpush.
    exists sd'. split; [exact Hrun|].
    destruct Hpush as [[_ Hsame] | (evs & Htrace & Htimes)]; [contradiction|].
    rewrite Htrace. exact Htimes.
  - pose proof (presentation_time_round_trip
                  5 33 7 Scripted.refusingDecoder Scripted.refusingEncoder
                  (Some [x00; x00; x00; x01; x65]) 5 Scripted.picture64 0%nat
                  {| sampleTime := Some 330; cleanPoint := Some 1;
                     contiguous := Some {| buffer2D := None; locked := Some [x65] |} |}
                  Ht eq_refl eq_refl) as (_ & _ & Hpush & _).
    assert (Hrun : exists se',
               Encoder.pushFrame 5 Scripted.picture64 33 Scripted.refusingEncoder
               = Ok true se'
               /\ inputTimes (trace se') = [330; 330])
      by (eexists; split; [vm_compute; reflexivity | reflexivity]).
    destruct Hrun as (se' & Hrun & Hinputs). rewrite Hrun in Hpush.
    exists se'. split; [exact Hrun|]. split; [exact Hinputs|].
    destruct Hpush as [[Hfalse _] | Hevs]; [discriminate Hfalse | exact Hevs].
  - pose proof (presentation_time_round_trip
                  5 33 7
                  (mkSt (Scripted.startedDecoder 0)
                        (Scripted.script [MF_E_NOTACCEPTING]
                                         [(S_OK, Scripted.unit_ true 330 [x65])] [])
                        [])
                  Scripted.lateHeaderEncoder
                  (Some [x00; x00; x00; x01; x65]) 5 Scripted.picture64 0%nat
                  {| sampleTime := Some 330; cleanPoint := Some 1;
                     contiguous := Some {| buffer2D := None; locked := Some [x65] |} |}
                  Ht eq_refl eq_refl) as (_ & _ & _ & _ & Hpop & _).
    destruct (Hpop (Scripted.script [MF_E_NOTACCEPTING]
                                    [(S_OK, Scripted.unit_ true 330 [x65])] [])
                   (Scripted.script [MF_E_NOTACCEPTING]
                                    [(S_OK, Scripted.unit_ true 330 [x65])] [])
                   (Scripted.script [MF_E_NOTACCEPTING] [] [])
                   eq_refl eq_refl eq_refl eq_refl)
      as (frame & sd' & Hrun & Htrace & _).
    exists frame, sd'. split; [exact Hrun | exact Htrace].
  - pose proof (presentation_time_round_trip
                  5 33 7 Scripted.refusingDecoder Scripted.lateHeaderEncoder
                  (Some [x00; x00; x00; x01; x65]) 5 Scripted.picture64 0%nat
                  {| sampleTime := Some 330; cleanPoint := Some 1;
                     contiguous := Some {| buffer2D := None; locked := Some [x65] |} |}
                  Ht eq_refl eq_refl) as (_ & _ & _ & _ & _ & Hcollect & _).
    exact Hcollect.
Defined.

(** ** The encoder, call by call *)

Lemma Grown_refl (e : Encoder.VideoEncoder) : Grown e e.
Proof. exists []. now rewrite app_nil_r. Qed.

Lemma Grown_same (e e' : Encoder.VideoEncoder) :
  Encoder.encodedSamples_ e' = Encoder.encodedSamples_ e -> Grown e e'.
Proof. intros Hq. exists []. now rewrite app_nil_r. Qed.

Lemma Grown_trans (e1 e2 e3 : Encoder.VideoEncoder) : Grown e1 e2 -> Grown e2 e3 -> Grown e1 e3.
Proof.
  intros (n1 & Q1 & W1) (n2 & Q2 & W2). exists (n1 ++ n2).
  rewrite Q2, Q1, <- app_assoc, forallb_app, W1, W2. now split.
Qed.

Lemma payloadOf_wellFormed (e : Event) : forallb wellFormed (payloadOf e) = true.
Proof.
  destruct e as [| | h cb hr [os|] |]; try reflexivity.
  unfold payloadOf. destruct (isOk hr); [|reflexivity].
  destruct (contiguous os) as [mb|]; [|reflexivity].
  destruct (locked mb) as [d|]; [|reflexivity].
  destruct (Z.ltb_spec 0 (sizeOf d)) as [Hd|]; [|reflexivity].
  cbn [forallb]. rewrite andb_true_r. unfold wellFormed, Encoder.Sample_isValid. cbn.
  destruct d; [discriminate Hd|].
  destruct (cleanPoint os) as [c|]; [destruct (c =? 0)|]; reflexivity.
Qed.

Lemma payloadsOf_app (l r : list Event) : payloadsOf (l ++ r) = payloadsOf l ++ payloadsOf r.
Proof. unfold payloadsOf. apply flat_map_app. Qed.

Section EncoderCalls.

Context {W : Type} `{Platform W}.

Ltac keep IH :=
  eapply post_weaken; [apply IH | cbv beta; cbn [this world trace]; auto ..].

(** Handling one successful output appends well-formed samples only. *)
Lemma collectOutput_Grown (h : Handle) (outputSample : OutputSample)
      (s : St Encoder.VideoEncoder W) :
  post (Encoder.collectOutput h outputSample) s
       (fun _ s' => Grown (this s) (this s')) (fun _ => False) False.
Proof.
  unfold Encoder.collectOutput. apply post_bind, post_get. cbv beta.
  assert (Hpayload : forall (s1 : St Encoder.VideoEncoder W),
             Grown (this s) (this s1) ->
             post (Encoder.collectPayload
                     outputSample
                     (Z.quot (match sampleTime outputSample with Some t => t | None => 0 end)
                             10)
                     (Encoder.isCleanPoint outputSample)) s1
                  (fun _ s' => Grown (this s) (this s')) (fun _ => False) False).
  { intros s1 Hgrown.
    eapply post_weaken; [apply (collectPayload_post h None) | | auto | auto].
    cbv beta. intros _ s2 (_ & _ & _ & Hq).
    eapply Grown_trans; [exact Hgrown|].
    eexists. split; [exact Hq | apply payloadOf_wellFormed]. }
  destruct (Encoder.isCleanPoint outputSample && negb (Encoder.codecConfigEmitted_ (this s))).
  - eapply post_bind_with; [apply emitCodecConfig_post | | contradiction | contradiction].
    cbv beta. intros _ s1 (_ & _ & Hcfg). apply Hpayload.
    destruct Hcfg as [[Hq _] | (d & Hd & Hq & _)]; [now apply Grown_same|].
    eexists. split; [exact Hq|].
    cbn [forallb]. rewrite andb_true_r. unfold wellFormed, Encoder.Sample_isValid. cbn.
    now destruct d.
  - apply post_bind, post_ret. apply Hpayload, Grown_refl.
Qed.

(** One pass of the loop from [ProcessOutput] onwards appends well-formed
    samples only, given that the rest of the loop does. *)
Lemma drainOutput_Grown (h : Handle) (cb : option Z) (collected : Z)
      (continue : Z -> M (St Encoder.VideoEncoder W) Z) (s : St Encoder.VideoEncoder W) :
  (forall c s1,
      post (continue c) s1 (fun _ s' => Grown (this s1) (this s'))
           (fun s' => Grown (this s1) (this s')) False) ->
  post (Encoder.drainOutput h cb collected continue) s
       (fun _ s' => Grown (this s) (this s'))
       (fun s' => Grown (this s) (this s')) False.
Proof.
  intros Hcontinue. unfold Encoder.drainOutput.
  assert (Hrest : forall c (s1 : St Encoder.VideoEncoder W),
             Grown (this s) (this s1) ->
             post (continue c) s1 (fun _ s' => Grown (this s) (this s'))
                  (fun s' => Grown (this s) (this s')) False).
  { intros c s1 Hgrown.
    eapply post_weaken; [apply Hcontinue | | | auto]; cbv beta;
      intros; eapply Grown_trans; eassumption. }
  apply post_bind, post_processOutput. intros hr pSample w. cbv beta.
  destruct (hr =? MF_E_TRANSFORM_NEED_MORE_INPUT); [apply post_ret, Grown_refl|].
  destruct (hr =? MF_E_TRANSFORM_STREAM_CHANGE).
  { wp; apply Hrest; cbn [this]; now apply Grown_same. }
  destruct (negb (isOk hr)); [apply post_ret, Grown_refl|].
  destruct pSample as [outputSample|].
  - eapply post_bind_with; [apply collectOutput_Grown | | contradiction | contradiction].
    cbv beta. cbn [this]. intros b s1 Hgrown. now apply Hrest.
  - apply Hrest, Grown_refl.
Qed.

Lemma drainLoop_Grown (fuel : nat) :
  forall (h : Handle) (collected : Z) (s : St Encoder.VideoEncoder W),
    post (Encoder.drainLoop fuel h collected) s
         (fun _ s' => Grown (this s) (this s'))
         (fun s' => Grown (this s) (this s')) False.
Proof.
  induction fuel as [|fuel IH]; intros h collected s.
  - apply post_diverge, Grown_refl.
  - cbn [Encoder.drainLoop].
    assert (Hout : forall cb (s1 : St Encoder.VideoEncoder W),
               this s1 = this s ->
               post (Encoder.drainOutput h cb collected (Encoder.drainLoop fuel h)) s1
                    (fun _ s' => Grown (this s) (this s'))
                    (fun s' => Grown (this s) (this s')) False).
    { intros cb s1 Hthis. rewrite <- Hthis.
      apply drainOutput_Grown. intros; apply IH. }
    wp; try (apply Hout; reflexivity); apply Grown_refl.
Qed.

(** A pass of [drainOutputSamples], in full: the output requests it made,
    the samples they carried appended in order, all of them well-formed. *)
Lemma drainOutputSamples_spec (fuel : nat) (s : St Encoder.VideoEncoder W) :
  Encoder.encoder_ (this s) <> None ->
  post (Encoder.drainOutputSamples fuel) s
       (fun _ s' => (exists evs, Drained s s' evs) /\ Grown (this s) (this s'))
       (fun s' => Starved fuel s s' /\ Grown (this s) (this s'))
       False.
Proof.
  intros Hvalid.
  assert (Hgrown : post (Encoder.drainOutputSamples fuel) s
                        (fun _ s' => Grown (this s) (this s'))
                        (fun s' => Grown (this s) (this s')) False).
  { unfold Encoder.drainOutputSamples. apply post_bind, post_get. cbv beta.
    destruct (Encoder.encoder_ (this s)) as [h|]; [|contradiction].
    apply drainLoop_Grown. }
  eapply post_weaken;
    [apply (post_and _ _ _ _ _ _ _ _ (drainOutputSamples_post fuel s Hvalid) Hgrown)
    | auto | auto | intros [[] _]].
Qed.

Lemma Moved_refl (s s' : St Encoder.VideoEncoder W) :
  this s' = this s -> trace s' = trace s -> Moved s s' [].
Proof.
  intros Hthis Htrace. unfold Moved. rewrite Hthis, Htrace, app_nil_r.
  split; [reflexivity|]. split; [apply Enqueued_refl|].
  split; [apply Grown_refl | reflexivity].
Qed.

Lemma Moved_trans (s1 s2 s3 : St Encoder.VideoEncoder W) (l r : list Event) :
  Moved s1 s2 l -> Moved s2 s3 r -> Moved s1 s3 (l ++ r).
Proof.
  intros (T1 & E1 & G1 & F1) (T2 & E2 & G2 & F2). unfold Moved.
  rewrite T2, T1, <- app_assoc, payloadsOf_app, forallb_app, F1, F2.
  split; [reflexivity|]. split; [eapply Enqueued_trans; eassumption|].
  split; [eapply Grown_trans; eassumption | reflexivity].
Qed.

Lemma Moved_input (s s' : St Encoder.VideoEncoder W) (h : Handle) (i : InputSample)
      (hr : HRESULT) :
  this s' = this s -> trace s' = trace s ++ [EvProcessInput h i hr] ->
  Moved s s' [EvProcessInput h i hr].
Proof.
  intros Hthis Htrace. unfold Moved. rewrite Hthis, Htrace.
  split; [reflexivity|]. split; [apply Enqueued_refl|].
  split; [apply Grown_refl | reflexivity].
Qed.

Lemma isDrainPass_outputs (evs : list Event) :
  isDrainPass evs = true -> forallb isProcessOutput evs = true.
Proof.
  induction evs as [|e evs IH]; [reflexivity|].
  cbn [isDrainPass]. destruct e; try discriminate.
  destruct evs as [|e' evs]; [reflexivity|].
  intros Hpass. apply andb_prop in Hpass. destruct Hpass as [_ Hpass].
  cbn [forallb isProcessOutput andb]. now apply IH.
Qed.

Lemma outputs_transfers (evs : list Event) :
  forallb isProcessOutput evs = true -> forallb isTransfer evs = true.
Proof.
  induction evs as [|e evs IH]; [reflexivity|].
  cbn [forallb]. intros Hall. apply andb_prop in Hall. destruct Hall as [He Hall].
  unfold isTransfer at 1. rewrite He, orb_true_r. now apply IH.
Qed.

Lemma Drained_Moved (s s' : St Encoder.VideoEncoder W) (evs : list Event) :
  Drained s s' evs -> Grown (this s) (this s') -> Moved s s' evs.
Proof.
  intros (HE & Htrace & Hpass) Hgrown.
  split; [exact Htrace|]. split; [exact HE|]. split; [exact Hgrown|].
  now apply outputs_transfers, isDrainPass_outputs.
Qed.

(** A drain pass, returned or still running, as a move. *)
Lemma drainOutputSamples_Moved (fuel : nat) (s : St Encoder.VideoEncoder W) :
  Encoder.encoder_ (this s) <> None ->
  post (Encoder.drainOutputSamples fuel) s
       (fun _ s' => exists evs, Moved s s' evs /\ forallb isProcessOutput evs = true)
       (fun s' => exists evs, Moved s s' evs /\ forallb isProcessOutput evs = true)
       False.
Proof.
  intros Hvalid.
  eapply post_weaken; [apply (drainOutputSamples_spec fuel s Hvalid) | | | auto]; cbv beta.
  - intros _ s' [[evs Hd] Hgrown]. exists evs.
    split; [now apply Drained_Moved|]. apply isDrainPass_outputs, Hd.
  - intros s' [(evs & Hd & _) Hgrown]. exists evs.
    split; [now apply Drained_Moved|]. apply isDrainPass_outputs, Hd.
Qed.

Lemma Moved_valid (s s' : St Encoder.VideoEncoder W) (evs : list Event) :
  Moved s s' evs -> sameSession (this s) (this s').
Proof. intros (_ & [Hsame _] & _). exact Hsame. Qed.

(** [pushFrame] from [ProcessInput] onwards, as a move. *)
Lemma submit_Moved (fuel : nat) (h : Handle) (i : InputSample)
      (s : St Encoder.VideoEncoder W) :
  Encoder.encoder_ (this s) = Some h ->
  post (Encoder.submit fuel h i) s
       (fun _ s' => exists evs, Moved s s' evs)
       (fun s' => exists evs, Moved s s' evs)
       False.
Proof.
  intros Hvalid. unfold Encoder.submit.
  apply post_bind, post_processInput. intros hr w. cbv beta.
  set (s0 := mkSt (this s) w (trace s ++ [EvProcessInput h i hr])).
  assert (H0 : Moved s s0 [EvProcessInput h i hr]) by now apply Moved_input.
  assert (Hvalid0 : Encoder.encoder_ (this s0) <> None) by (cbn; congruence).
  assert (Hdrain : forall (s1 : St Encoder.VideoEncoder W) evs1 (k : Z -> M _ bool),
             Moved s s1 evs1 ->
             (forall z s2, (exists evs, Moved s s2 evs) ->
                           post (k z) s2 (fun _ s' => exists evs, Moved s s' evs)
                                (fun s' => exists evs, Moved s s' evs) False) ->
             post (bind (Encoder.drainOutputSamples fuel) k) s1
                  (fun _ s' => exists evs, Moved s s' evs)
                  (fun s' => exists evs, Moved s s' evs) False).
  { intros s1 evs1 k H1 Hk.
    eapply post_bind_with; [apply (drainOutputSamples_Moved fuel s1) | | | auto]; cbv beta.
    - destruct (Moved_valid _ _ _ H1) as [Hsame _]. rewrite Hsame. congruence.
    - intros z s2 (evs2 & H2 & _). apply Hk. eexists. eapply Moved_trans; eassumption.
    - intros s2 (evs2 & H2 & _). eexists. eapply Moved_trans; eassumption. }
  destruct (hr =? MF_E_NOTACCEPTING).
  - apply (Hdrain s0 _ _ H0). intros _ s2 [evs2 H2].
    apply post_bind, post_processInput. intros hr2 w2. cbv beta.
    set (s3 := mkSt (this s2) w2 (trace s2 ++ [EvProcessInput h i hr2])).
    assert (H3 : Moved s s3 (evs2 ++ [EvProcessInput h i hr2])).
    { eapply Moved_trans; [exact H2 | now apply Moved_input]. }
    destruct (negb (isOk hr2)); [apply post_ret; eexists; exact H3|].
    apply (Hdrain s3 _ _ H3). intros _ s4 Hs4. apply post_ret. exact Hs4.
  - destruct (negb (isOk hr)).
    + wp; eexists; (eapply Moved_trans; [exact H0 | now apply Moved_refl]).
    + apply (Hdrain s0 _ _ H0). intros _ s2 Hs2. apply post_ret. exact Hs2.
Qed.

(** [pushFrame] as a move: without a started encoder with a transform it
    makes no call at all. *)
Lemma Encoder_pushFrame_Moved (fuel : nat) (frame : InputFrame) (t : Z)
      (s : St Encoder.VideoEncoder W) :
  post (Encoder.pushFrame fuel frame t) s
       (fun _ s' =>
          exists evs,
            Moved s s' evs
            /\ (evs = []
                \/ (Encoder.encoder_ (this s) <> None
                    /\ Encoder.isStarted_ (this s) = true)))
       (fun s' =>
          exists evs,
            Moved s s' evs
            /\ (evs = []
                \/ (Encoder.encoder_ (this s) <> None
                    /\ Encoder.isStarted_ (this s) = true)))
       False.
Proof.
  assert (Hidle : exists evs,
             Moved s s evs
             /\ (evs = []
                 \/ (Encoder.encoder_ (this s) <> None
                     /\ Encoder.isStarted_ (this s) = true))).
  { exists []. split; [now apply Moved_refl | now left]. }
  unfold Encoder.pushFrame.
  wp; try apply Hidle.
  all: try (exists []; split; [now apply Moved_refl | now left]).
  apply negb_false_iff in Heqb0.
  eapply post_weaken; [apply (submit_Moved fuel h); exact Heqo | | | auto]; cbv beta;
    cbn [this trace].
  - intros _ s' [evs (Htr & HE & HG & HF)]. exists evs.
    split; [unfold Moved; auto|]. right. split; [congruence | exact Heqb0].
  - intros s' [evs (Htr & HE & HG & HF)]. exists evs.
    split; [unfold Moved; auto|]. right. split; [congruence | exact Heqb0].
Qed.

(** What [start] of the encoder does. *)
Lemma Encoder_start_spec (s : St Encoder.VideoEncoder W) :
  post Encoder.start s
       (fun b s' =>
          (Encoder.encoder_ (this s) = None /\ b = false /\ s' = s)
          \/ (Encoder.encoder_ (this s) <> None /\ Encoder.isStarted_ (this s) = true
              /\ b = true /\ s' = s)
          \/ exists h hr0 hr1,
              Encoder.encoder_ (this s) = Some h /\ Encoder.isStarted_ (this s) = false
              /\ ((isOk hr1 = false /\ b = false /\ this s' = this s
                   /\ trace s'
                      = trace s
                        ++ [EvProcessMessage h MFT_MESSAGE_COMMAND_FLUSH hr0;
                            EvProcessMessage h MFT_MESSAGE_NOTIFY_BEGIN_STREAMING hr1])
                  \/ exists hr2,
                      isOk hr1 = true /\ b = isOk hr2
                      /\ this s' = (if isOk hr2 then Encoder.set_isStarted_ true (this s)
                                    else this s)
                      /\ trace s'
                         = trace s
                           ++ [EvProcessMessage h MFT_MESSAGE_COMMAND_FLUSH hr0;
                               EvProcessMessage h MFT_MESSAGE_NOTIFY_BEGIN_STREAMING hr1;
                               EvProcessMessage h MFT_MESSAGE_NOTIFY_START_OF_STREAM hr2]))
       (fun _ => False) False.
Proof.
  unfold Encoder.start. apply post_bind, post_get. cbv beta.
  destruct (Encoder.encoder_ (this s)) as [h|] eqn:Hvalid;
    [|apply post_ret; left; repeat split].
  destruct (Encoder.isStarted_ (this s)) eqn:Hstarted;
    [apply post_ret; right; left; repeat split; discriminate|].
  apply post_bind, post_processMessage. intros hr0 w0. cbv beta.
  apply post_bind, post_processMessage. intros hr1 w1. cbv beta.
  destruct (negb (isOk hr1)) eqn:Hbegin.
  - apply negb_true_iff in Hbegin. apply post_ret.
    right. right. exists h, hr0, hr1. repeat split. left.
    cbn [this trace]. rewrite <- app_assoc. repeat split. exact Hbegin.
  - apply negb_false_iff in Hbegin.
    apply post_bind, post_processMessage. intros hr2 w2. cbv beta.
    destruct (negb (isOk hr2)) eqn:Hstream.
    + apply negb_true_iff in Hstream. apply post_ret.
      right. right. exists h, hr0, hr1. repeat split. right. exists hr2.
      rewrite Hstream. cbn [this trace]. rewrite <- !app_assoc. repeat split. exact Hbegin.
    + apply negb_false_iff in Hstream. wp.
      right. right. exists h, hr0, hr1. repeat split. right. exists hr2.
      rewrite Hstream, <- !app_assoc. repeat split. exact Hbegin.
Qed.

(** What [stop] of the encoder does. *)
Lemma Encoder_stop_spec (fuel : nat) (s : St Encoder.VideoEncoder W) :
  post (Encoder.stop fuel) s
       (fun b s' =>
          b = true
          /\ (((Encoder.encoder_ (this s) = None \/ Encoder.isStarted_ (this s) = false)
               /\ s' = s)
              \/ exists h hr0 evs hr1 hr2 drained,
                  Encoder.encoder_ (this s) = Some h
                  /\ Encoder.isStarted_ (this s) = true
                  /\ trace s'
                     = trace s
                       ++ EvProcessMessage h MFT_MESSAGE_COMMAND_DRAIN hr0 :: evs
                       ++ [EvProcessMessage h MFT_MESSAGE_NOTIFY_END_OF_STREAM hr1;
                           EvProcessMessage h MFT_MESSAGE_NOTIFY_END_STREAMING hr2]
                  /\ forallb isProcessOutput evs = true
                  /\ Enqueued (this s) drained (payloadsOf evs)
                  /\ Grown (this s) drained
                  /\ this s' = Encoder.set_isStarted_ false drained))
       (fun s' =>
          exists h hr0 evs,
            Encoder.encoder_ (this s) = Some h
            /\ Encoder.isStarted_ (this s) = true
            /\ trace s' = trace s ++ EvProcessMessage h MFT_MESSAGE_COMMAND_DRAIN hr0 :: evs
            /\ forallb isProcessOutput evs = true
            /\ Enqueued (this s) (this s') (payloadsOf evs)
            /\ Grown (this s) (this s'))
       False.
Proof.
  unfold Encoder.stop. apply post_bind, post_get. cbv beta.
  destruct (Encoder.encoder_ (this s)) as [h|] eqn:Hvalid;
    [|apply post_ret; split; [reflexivity | left; split; [now left | reflexivity]]].
  destruct (Encoder.isStarted_ (this s)) eqn:Hstarted; cbn [negb];
    [|apply post_ret; split; [reflexivity | left; split; [now right | reflexivity]]].
  apply post_bind, post_processMessage. intros hr0 w. cbv beta.
  eapply post_bind_with; [apply (drainOutputSamples_Moved fuel) | | | auto].
  - cbn [this]. rewrite Hvalid. discriminate.
  - cbv beta. intros _ s1 [evs [(Htrace & HE & HG & _) Houtputs]].
    cbn [this trace] in Htrace, HE, HG.
    wp. split; [reflexivity|]. right. exists h, hr0, evs, hr, hr1, (this s1).
    split; [reflexivity|]. split; [reflexivity|].
    split; [rewrite Htrace, <- !app_assoc; reflexivity|].
    split; [exact Houtputs|]. split; [exact HE|]. split; [exact HG | reflexivity].
  - cbv beta. intros s1 [evs [(Htrace & HE & HG & _) Houtputs]].
    cbn [this trace] in Htrace, HE, HG.
    exists h, hr0, evs. split; [reflexivity|]. split; [reflexivity|].
    split; [rewrite Htrace, <- !app_assoc; reflexivity|].
    split; [exact Houtputs|]. split; [exact HE | exact HG].
Qed.

(** What [popSample] does: it requests output only on a started encoder
    whose queue is empty, and hands out the head of the queue it then
    finds, or the invalid sample when there is none. *)
Lemma Encoder_popSample_spec (fuel : nat) (s : St Encoder.VideoEncoder W) :
  post (Encoder.popSample fuel) s
       (fun sample s' =>
          exists evs (s1 : St Encoder.VideoEncoder W),
            Moved s s1 evs
            /\ forallb isProcessOutput evs = true
            /\ (evs = []
                \/ (Encoder.encoder_ (this s) <> None
                    /\ Encoder.isStarted_ (this s) = true
                    /\ Encoder.encodedSamples_ (this s) = []))
            /\ trace s' = trace s1
            /\ ((exists rest,
                    Encoder.encodedSamples_ (this s1) = sample :: rest
                    /\ this s' = Encoder.set_encodedSamples_ rest (this s1))
                \/ (Encoder.encodedSamples_ (this s1) = []
                    /\ sample = Encoder.Sample_ /\ this s' = this s1)))
       (fun s' =>
          exists evs,
            Moved s s' evs
            /\ forallb isProcessOutput evs = true
            /\ Encoder.encoder_ (this s) <> None
            /\ Encoder.isStarted_ (this s) = true)
       False.
Proof.
  unfold Encoder.popSample. apply post_bind, post_get. cbv beta.
  assert (Hhere : Moved s s []) by now apply Moved_refl.
  destruct (Encoder.encodedSamples_ (this s)) as [|sample rest] eqn:Hq.
  - destruct (Encoder.encoder_ (this s)) as [h|] eqn:Hvalid.
    + destruct (Encoder.isStarted_ (this s)) eqn:Hstarted; cbn [negb].
      * eapply post_bind_with; [apply (drainOutputSamples_Moved fuel) | | | auto].
        -- rewrite Hvalid. discriminate.
        -- cbv beta. intros _ s1 (evs & Hmoved & Houtputs).
           apply post_bind, post_get. cbv beta.
           destruct (Encoder.encodedSamples_ (this s1)) as [|sample rest] eqn:Hq1.
           ++ apply post_ret. exists evs, s1. split; [exact Hmoved|].
              split; [exact Houtputs|]. split; [right; repeat split; discriminate|].
              split; [reflexivity|]. right. repeat split. exact Hq1.
           ++ wp. exists evs, s1. split; [exact Hmoved|].
              split; [exact Houtputs|]. split; [right; repeat split; discriminate|].
              split; [reflexivity|]. left. exists rest. split; [exact Hq1 | reflexivity].
        -- cbv beta. intros s1 (evs & Hmoved & Houtputs). exists evs.
           split; [exact Hmoved|]. split; [exact Houtputs|]. split; [discriminate | reflexivity].
      * apply post_ret. exists [], s. split; [exact Hhere|]. split; [reflexivity|].
        split; [now left|]. split; [reflexivity|]. right. repeat split. exact Hq.
    + apply post_ret. exists [], s. split; [exact Hhere|]. split; [reflexivity|].
      split; [now left|]. split; [reflexivity|]. right. repeat split. exact Hq.
  - wp. exists [], s. split; [exact Hhere|]. split; [reflexivity|].
    split; [now left|]. split; [reflexivity|]. left. exists rest. split; [exact Hq | reflexivity].
Qed.

(** The candidate loop of [initialize] leaves the encoder as it was, but
    for the transform it accepted. *)
Lemma Encoder_createEncoder_members (fuel n : nat) :
  forall (i : Z) (videoFormat : GUID) (width height num den bitrate iFrameInterval : Z)
         (frameRate : Double.double) (s : St Encoder.VideoEncoder W),
    post (Encoder.createEncoder fuel n i videoFormat width height num den bitrate
                                iFrameInterval frameRate) s
         (fun created s' =>
            match created with
            | Some h => this s' = Encoder.set_encoder_ (Some h) (this s)
            | None => this s' = this s
            end)
         (fun s' => this s' = this s) True.
Proof.
  induction n as [|n IH];
    intros i videoFormat width height num den bitrate iFrameInterval frameRate s.
  - apply post_ret. reflexivity.
  - cbn [Encoder.createEncoder]. cbv zeta. wp; try keep IH.
    eapply post_weaken; [apply Encoder_selectInputType_post | | | contradiction]; cbv beta;
      cbn [this world trace].
    + intros inputTypeSet s1 [Hthis Htrace].
      wp; try keep IH; cbn [this trace]; rewrite ?Hthis; auto.
      all: (eapply post_weaken;
            [apply Encoder_configureGopSize_post | | contradiction | auto]);
        cbv beta; cbn [this world trace]; intros _ s3 [Hthis3 _];
        apply post_ret; rewrite Hthis3; cbn [this]; now rewrite ?Hthis.
    + intros s1 [Hthis Htrace]. exact Hthis.
Qed.

(** What [initialize] of the encoder leaves behind. *)
Lemma Encoder_initialize_members (fuel : nat) (width height : Z) (mime : string)
      (frameRate : Double.double) (bitrate iFrameInterval : Z)
      (s : St Encoder.VideoEncoder W) :
  post (Encoder.initialize fuel width height mime frameRate bitrate iFrameInterval) s
       (fun b s' =>
          if b then
            (width <> 0 /\ width <= Encoder.maximalWidth_
             /\ height <> 0 /\ height <= Encoder.maximalHeight_)
            /\ (bitrate <> 0 /\ bitrate <= Encoder.maximalBitrate_)
            /\ Double.leb frameRate Double.zero = false
            /\ mime <> ""%string
            /\ Encoder.mimeToVideoFormat mime <> GUID_NULL
            /\ Encoder.encoder_ (this s) = None
            /\ Encoder.encoder_ (this s') <> None
            /\ Encoder.width_ (this s') = width
            /\ Encoder.height_ (this s') = height
            /\ Encoder.mfStarted_ (this s') = true
            /\ Encoder.isStarted_ (this s') = Encoder.isStarted_ (this s)
            /\ Encoder.encodedSamples_ (this s') = Encoder.encodedSamples_ (this s)
            /\ Encoder.codecConfigEmitted_ (this s') = Encoder.codecConfigEmitted_ (this s)
          else
            this s' = this s
            \/ (Encoder.encoder_ (this s) = None
                /\ this s' = Encoder.set_mfStarted_ true (this s)))
       (fun s' =>
          Encoder.encoder_ (this s) = None
          /\ this s' = Encoder.set_mfStarted_ true (this s))
       True.
Proof.
  unfold Encoder.initialize.
  destruct (Z.eqb_spec width 0) as [Hw0 | Hw0]; [apply post_ret; now left|].
  destruct (Z.eqb_spec height 0) as [Hh0 | Hh0]; [apply post_ret; now left|].
  destruct (Z.ltb_spec Encoder.maximalWidth_ width) as [Hw1 | Hw1];
    [apply post_ret; now left|].
  destruct (Z.ltb_spec Encoder.maximalHeight_ height) as [Hh1 | Hh1];
    [apply post_ret; now left|].
  cbn [orb].
  destruct (Z.eqb_spec bitrate 0) as [Hb0 | Hb0]; [apply post_ret; now left|].
  destruct (Z.ltb_spec (u32 Encoder.maximalBitrate_) bitrate) as [Hb1 | Hb1];
    [apply post_ret; now left|].
  cbn [orb].
  destruct (Double.leb frameRate Double.zero) eqn:Hrate; [apply post_ret; now left|].
  destruct (String.eqb_spec mime "") as [Hmime | Hmime]; [apply post_ret; now left|].
  apply post_bind, post_get. cbv beta.
  destruct (Encoder.encoder_ (this s)) as [h|] eqn:Hnone; [apply post_ret; now left|].
  wp; try exact I; auto.
  eapply post_weaken; [apply Encoder_createEncoder_members | | | auto]; cbv beta;
    cbn [this world trace].
  - intros created s1 Hthis.
    destruct created as [accepted|].
    + wp; cbn [this trace]; rewrite Hthis; cbn; repeat split; try assumption;
        try discriminate.
      all: intros Hnull; rewrite Hnull in *; discriminate.
    + apply post_ret. right. split; [reflexivity | exact Hthis].
  - intros s1 Hthis. split; [reflexivity | exact Hthis].
Qed.

(** What [release] of the encoder leaves behind. *)
Lemma Encoder_release_spec (fuel : nat) (s : St Encoder.VideoEncoder W) :
  post (Encoder.release fuel) s
       (fun _ s' =>
          Encoder.encoder_ (this s') = None
          /\ Encoder.width_ (this s') = 0 /\ Encoder.height_ (this s') = 0
          /\ Encoder.mftProvidesOutputSamples_ (this s') = false
          /\ Encoder.outputBufferSize_ (this s') = 0
          /\ Encoder.codecConfigEmitted_ (this s') = false
          /\ Encoder.encodedSamples_ (this s') = []
          /\ Encoder.mfStarted_ (this s') = false
          /\ match Encoder.encoder_ (this s) with
             | Some h =>
                 Encoder.isStarted_ (this s') = false
                 /\ if Encoder.isStarted_ (this s) then
                      exists hr0 evs hr1 hr2,
                        trace s'
                        = trace s
                          ++ EvProcessMessage h MFT_MESSAGE_COMMAND_DRAIN hr0 :: evs
                          ++ [EvProcessMessage h MFT_MESSAGE_NOTIFY_END_OF_STREAM hr1;
                              EvProcessMessage h MFT_MESSAGE_NOTIFY_END_STREAMING hr2]
                        /\ forallb isProcessOutput evs = true
                    else trace s' = trace s
             | None =>
                 Encoder.isStarted_ (this s') = Encoder.isStarted_ (this s)
                 /\ trace s' = trace s
                 /\ (Encoder.mfStarted_ (this s) = false -> world s' = world s)
             end)
       (fun s' =>
          exists h hr0 evs,
            Encoder.encoder_ (this s) = Some h
            /\ Encoder.isStarted_ (this s) = true
            /\ trace s' = trace s ++ EvProcessMessage h MFT_MESSAGE_COMMAND_DRAIN hr0 :: evs
            /\ forallb isProcessOutput evs = true
            /\ Enqueued (this s) (this s') (payloadsOf evs)
            /\ Grown (this s) (this s'))
       False.
Proof.
  unfold Encoder.release.
  apply post_bind, post_get. cbv beta.
  destruct (Encoder.encoder_ (this s)) as [h|] eqn:Hvalid.
  - apply post_bind. apply post_bind.
    destruct (Encoder.isStarted_ (this s)) eqn:Hstarted.
    + apply post_bind.
      eapply post_weaken; [apply (Encoder_stop_spec fuel) | | | auto]; cbv beta.
      * intros b s1 [_ [[[Hnone | Hstopped] _] | Hran]]; [congruence | congruence |].
        destruct Hran as (h' & hr0 & evs & hr1 & hr2 & drained & Hh & _ & Htr & Hout
                          & _ & _ & Hthis).
        assert (h' = h) by congruence. subst h'.
        wp; cbn [this trace]; rewrite ?Hthis in *; cbn in *; repeat split; eauto.
        all: exists hr0, evs, hr1, hr2; split; assumption.
      * intros s1 (h' & hr0 & evs & Hh & _ & Hrest).
        assert (h' = h) by congruence. subst h'.
        exists h, hr0, evs. split; [reflexivity|]. split; [reflexivity | exact Hrest].
    + wp; cbn [this trace]; cbn in *; rewrite ?Hstarted; repeat split; assumption.
  - wp; cbn [this trace]; cbn in *; repeat split; congruence.
Qed.

End EncoderCalls.

(** ** The encoder over its lifetime *)

Section EncoderLifetime.

Context {W : Type} `{Platform W}.

Ltac keep IH :=
  eapply post_weaken; [apply IH | cbv beta; cbn [this world trace]; auto ..].

(** X11.  [initialize] of the encoder.  With a zero or oversized width or
    height, a zero or oversized bit rate, a frame rate that is not above
    zero, an empty mime, or an encoder that holds a transform already, it
    answers false and touches nothing, the platform included.  When it
    answers true the arguments were valid, the mime is one of the supported
    ones, the encoder had no transform and now has one, with the size given
    and Media Foundation marked as started; [isStarted_], the queue and
    [codecConfigEmitted_] are as before.  When it answers false, or is still
    searching for an input type, the encoder is as it was, except that
    [mfStarted_] may have been set.  Its behaviour is defined whenever the
    frame rate numerator [frameRate * 1000 + 0.5] and the GOP size are
    in the range of [UINT32]. *)
Theorem encoder_initialize_outcome (fuel : nat) (width height : Z) (mime : string)
        (frameRate : Double.double) (bitrate iFrameInterval : Z)
        (s : St Encoder.VideoEncoder W) :
  (width = 0 \/ height = 0
   \/ Encoder.maximalWidth_ < width \/ Encoder.maximalHeight_ < height
   \/ bitrate = 0 \/ Encoder.maximalBitrate_ < bitrate
   \/ Double.leb frameRate Double.zero = true
   \/ mime = ""%string \/ Encoder.encoder_ (this s) <> None ->
   Encoder.initialize fuel width height mime frameRate bitrate iFrameInterval s
   = Ok false s)
  /\ match Encoder.initialize fuel width height mime frameRate bitrate iFrameInterval s with
     | Ok b s' =>
         if b then
           (width <> 0 /\ width <= Encoder.maximalWidth_
            /\ height <> 0 /\ height <= Encoder.maximalHeight_)
           /\ (bitrate <> 0 /\ bitrate <= Encoder.maximalBitrate_)
           /\ Double.leb frameRate Double.zero = false
           /\ mime <> ""%string
           /\ Encoder.mimeToVideoFormat mime <> GUID_NULL
           /\ Encoder.encoder_ (this s) = None
           /\ Encoder.encoder_ (this s') <> None
           /\ Encoder.width_ (this s') = width
           /\ Encoder.height_ (this s') = height
           /\ Encoder.mfStarted_ (this s') = true
           /\ Encoder.isStarted_ (this s') = Encoder.isStarted_ (this s)
           /\ Encoder.encodedSamples_ (this s') = Encoder.encodedSamples_ (this s)
           /\ Encoder.codecConfigEmitted_ (this s') = Encoder.codecConfigEmitted_ (this s)
         else
           this s' = this s
           \/ (Encoder.encoder_ (this s) = None
               /\ this s' = Encoder.set_mfStarted_ true (this s))
     | Diverge s' =>
         Encoder.encoder_ (this s) = None
         /\ this s' = Encoder.set_mfStarted_ true (this s)
     | Undefined =>
         Double.toUINT32 (Double.add (Double.mul frameRate Double.thousand) Double.half)
         = None
         \/ Encoder.gopSizeOf iFrameInterval frameRate = None
     end.
Proof.
  split.
  - intros Hbad. unfold Encoder.initialize.
    destruct (Z.eqb_spec width 0) as [_ | Hw0]; [reflexivity|].
    destruct (Z.eqb_spec height 0) as [_ | Hh0]; [reflexivity|].
    destruct (Z.ltb_spec Encoder.maximalWidth_ width) as [_ | Hw1]; [reflexivity|].
    destruct (Z.ltb_spec Encoder.maximalHeight_ height) as [_ | Hh1]; [reflexivity|].
    cbn [orb].
    destruct (Z.eqb_spec bitrate 0) as [_ | Hb0]; [reflexivity|].
    destruct (Z.ltb_spec (u32 Encoder.maximalBitrate_) bitrate) as [_ | Hb1]; [reflexivity|].
    cbn [orb].
    destruct (Double.leb frameRate Double.zero) eqn:Hrate; [reflexivity|].
    destruct (String.eqb_spec mime "") as [_ | Hmime]; [reflexivity|].
    unfold bind, get.
    destruct (Encoder.encoder_ (this s)) as [h|]; [reflexivity|].
    change (u32 Encoder.maximalBitrate_) with Encoder.maximalBitrate_ in Hb1.
    repeat (destruct Hbad as [Hbad | Hbad]; [try contradiction; try lia; try discriminate|]).
    contradiction.
  - pose proof (Encoder_initialize_members fuel width height mime frameRate bitrate
                                           iFrameInterval s) as Hpost.
    unfold post in Hpost.
    destruct (Encoder.initialize fuel width height mime frameRate bitrate iFrameInterval s)
      as [b s'|s'|] eqn:Hrun; try exact Hpost.
    destruct (Double.toUINT32 (Double.add (Double.mul frameRate Double.thousand)
                                          Double.half)) as [numerator|] eqn:Hnum;
      [|now left].
    destruct (Encoder.gopSizeOf iFrameInterval frameRate) as [gopSize|] eqn:Hgop;
      [|now right].
    exfalso.
    assert (Hdefined : post (Encoder.initialize fuel width height mime frameRate bitrate
                                                iFrameInterval) s
                            (fun _ _ => True) (fun _ => True) False).
    { unfold Encoder.initialize. rewrite Hnum.
      wp; try exact I.
      eapply post_weaken; [apply Encoder_createEncoder_defined | | auto | auto].
      - rewrite Hgop. discriminate.
      - cbv beta. intros created s1 _. wp; exact I. }
    unfold post in Hdefined. rewrite Hrun in Hdefined. exact Hdefined.
Qed.

End EncoderLifetime.

Lemma encoder_initialize_outcome_witness :
  exists s',
    Encoder.initialize 5 64 64 "video/avc" Scripted.fps30 2000000 1 Scripted.freshEncoder
    = Ok true s'
    /\ Encoder.encoder_ (this s') <> None
    /\ Encoder.width_ (this s') = 64
    /\ Encoder.height_ (this s') = 64
    /\ Encoder.initialize 5 64 64 "video/avc" Scripted.fps30 2000000 1 s' = Ok false s'.
Proof.
  assert (Hrun : exists s',
             Encoder.initialize 5 64 64 "video/avc" Scripted.fps30 2000000 1
                                Scripted.freshEncoder = Ok true s')
    by (eexists; vm_compute; reflexivity).
  destruct Hrun as [s' Hrun].
  pose proof (encoder_initialize_outcome 5 64 64 "video/avc" Scripted.fps30 2000000 1
                                         Scripted.freshEncoder) as Hw.
  destruct Hw as [_ Hw]. rewrite Hrun in Hw.
  destruct Hw as (_ & _ & _ & _ & _ & _ & Hvalid & Hw1 & Hh1 & _).
  exists s'. split; [exact Hrun|]. split; [exact Hvalid|]. split; [exact Hw1|].
  split; [exact Hh1|].
  pose proof (encoder_initialize_outcome 5 64 64 "video/avc" Scripted.fps30 2000000 1 s')
    as Hagain.
  destruct Hagain as [Hagain _]. apply Hagain. do 8 right. exact Hvalid.
Defined.

(** ** Starting, and what the sessions refuse *)

Section StartProtocol.

Context {W : Type} `{Platform W}.

(** X12.  [start] of either session.  Without a transform it answers false
    and does nothing; on a started session it answers true and does
    nothing.  Otherwise the decoder notifies the beginning of streaming and,
    only if the transform accepted that, the start of the stream; the
    encoder does the same after a flush command whose answer it ignores.
    [start] answers whether both notifications were accepted, and sets
    [isStarted_] exactly then; nothing else of the session changes. *)
Theorem start_protocol (sd : St Decoder.VideoDecoder W) (se : St Encoder.VideoEncoder W) :
  (exists b sd',
      Decoder.start sd = Ok b sd'
      /\ ((Decoder.decoder_ (this sd) = None /\ b = false /\ sd' = sd)
          \/ (Decoder.decoder_ (this sd) <> None /\ Decoder.isStarted_ (this sd) = true
              /\ b = true /\ sd' = sd)
          \/ exists h hr1,
              Decoder.decoder_ (this sd) = Some h /\ Decoder.isStarted_ (this sd) = false
              /\ ((isOk hr1 = false /\ b = false /\ this sd' = this sd
                   /\ trace sd'
                      = trace sd
                        ++ [EvProcessMessage h MFT_MESSAGE_NOTIFY_BEGIN_STREAMING hr1])
                  \/ exists hr2,
                      isOk hr1 = true /\ b = isOk hr2
                      /\ this sd' = (if isOk hr2 then Decoder.set_isStarted_ true (this sd)
                                     else this sd)
                      /\ trace sd'
                         = trace sd
                           ++ [EvProcessMessage h MFT_MESSAGE_NOTIFY_BEGIN_STREAMING hr1;
                               EvProcessMessage h MFT_MESSAGE_NOTIFY_START_OF_STREAM hr2])))
  /\ (exists b se',
         Encoder.start se = Ok b se'
         /\ ((Encoder.encoder_ (this se) = None /\ b = false /\ se' = se)
             \/ (Encoder.encoder_ (this se) <> None /\ Encoder.isStarted_ (this se) = true
                 /\ b = true /\ se' = se)
             \/ exists h hr0 hr1,
                 Encoder.encoder_ (this se) = Some h /\ Encoder.isStarted_ (this se) = false
                 /\ ((isOk hr1 = false /\ b = false /\ this se' = this se
                      /\ trace se'
                         = trace se
                           ++ [EvProcessMessage h MFT_MESSAGE_COMMAND_FLUSH hr0;
                               EvProcessMessage h MFT_MESSAGE_NOTIFY_BEGIN_STREAMING hr1])
                     \/ exists hr2,
                         isOk hr1 = true /\ b = isOk hr2
                         /\ this se' = (if isOk hr2
                                        then Encoder.set_isStarted_ true (this se)
                                        else this se)
                         /\ trace se'
                            = trace se
                              ++ [EvProcessMessage h MFT_MESSAGE_COMMAND_FLUSH hr0;
                                  EvProcessMessage h MFT_MESSAGE_NOTIFY_BEGIN_STREAMING hr1;
                                  EvProcessMessage h MFT_MESSAGE_NOTIFY_START_OF_STREAM
                                                   hr2]))).
Proof.
  split.
  - destruct (post_returns _ _ _ (Decoder_start_spec sd)) as (b & sd' & Hrun & Hspec).
    exists b, sd'. split; [exact Hrun | exact Hspec].
  - destruct (post_returns _ _ _ (Encoder_start_spec se)) as (b & se' & Hrun & Hspec).
    exists b, se'. split; [exact Hrun | exact Hspec].
Qed.

(** X13.  What the sessions refuse before anything else.  [pushSample]
    answers false for a null pointer or a size of zero, and [pushFrame] for
    an invalid frame or, on an encoder with a transform, a frame whose width
    or height is not the one given to [initialize], whether the session is
    started or not; the session, the platform and the trace are left as they
    were. *)
Theorem pushes_reject_invalid_input (fuel : nat) (t : Z)
        (sd : St Decoder.VideoDecoder W) (se : St Encoder.VideoEncoder W)
        (data : option (list byte)) (size : Z) (frame : InputFrame) :
  (data = None \/ size = 0 -> Decoder.pushSample data size t sd = Ok false sd)
  /\ (frameIsValid frame = false
      \/ frameWidth frame <> Encoder.width_ (this se)
      \/ frameHeight frame <> Encoder.height_ (this se) ->
      Encoder.pushFrame fuel frame t se = Ok false se).
Proof.
  split.
  - intros [-> | ->]; [reflexivity|]. unfold Decoder.pushSample. now destruct data.
  - intros Hbad. unfold Encoder.pushFrame.
    destruct (frameIsValid frame); cbn [negb]; [|reflexivity].
    unfold bind, get.
    destruct (Encoder.encoder_ (this se)) as [h|]; [|reflexivity].
    destruct (Encoder.isStarted_ (this se)); cbn [negb]; [|reflexivity].
    destruct (Z.eqb_spec (frameWidth frame) (Encoder.width_ (this se))) as [Hw | Hw];
      [|reflexivity].
    destruct (Z.eqb_spec (frameHeight frame) (Encoder.height_ (this se))) as [Hh | Hh];
      [|reflexivity].
    destruct Hbad as [Hbad | [Hbad | Hbad]]; [discriminate | contradiction | contradiction].
Qed.

End StartProtocol.

Lemma start_protocol_witness :
  (exists sd',
      Decoder.start (mkSt (Decoder.set_isStarted_ false (Scripted.startedDecoder 0))
                          (Scripted.script [] [] []) [])
      = Ok true sd'
      /\ trace sd' = [EvProcessMessage 0%nat MFT_MESSAGE_NOTIFY_BEGIN_STREAMING S_OK;
                      EvProcessMessage 0%nat MFT_MESSAGE_NOTIFY_START_OF_STREAM S_OK])
  /\ (exists se',
         Encoder.start (mkSt (Encoder.set_isStarted_ false Scripted.startedEncoder)
                             (Scripted.script [] [] []) [])
         = Ok true se'
         /\ trace se' = [EvProcessMessage 0%nat MFT_MESSAGE_COMMAND_FLUSH S_OK;
                         EvProcessMessage 0%nat MFT_MESSAGE_NOTIFY_BEGIN_STREAMING S_OK;
                         EvProcessMessage 0%nat MFT_MESSAGE_NOTIFY_START_OF_STREAM S_OK]).
Proof.
  pose proof (start_protocol
                (mkSt (Decoder.set_isStarted_ false (Scripted.startedDecoder 0))
                      (Scripted.script [] [] []) [])
                (mkSt (Encoder.set_isStarted_ false Scripted.startedEncoder)
                      (Scripted.script [] [] []) [])) as [Hd He].
  split.
  - destruct Hd as (b & sd' & Hrun & _). vm_compute in Hrun. inversion Hrun; subst.
    eexists. split; reflexivity.
  - destruct He as (b & se' & Hrun & _). vm_compute in Hrun. inversion Hrun; subst.
    eexists. split; reflexivity.
Defined.

Lemma pushes_reject_invalid_input_witness :
  Decoder.pushSample (Some [x65]) 0 0 Scripted.refusingDecoder
  = Ok false Scripted.refusingDecoder
  /\ Encoder.pushFrame 5 {| frameIsValid := true; frameWidth := 32; frameHeight := 64;
                            framePixelFormat := 0 |} 0 Scripted.bufferedEncoder
     = Ok false Scripted.bufferedEncoder.
Proof.
  pose proof (pushes_reject_invalid_input
                5 0 Scripted.refusingDecoder Scripted.bufferedEncoder (Some [x65]) 0
                {| frameIsValid := true; frameWidth := 32; frameHeight := 64;
                   framePixelFormat := 0 |}) as [Hd He].
  split.
  - apply Hd. now right.
  - apply He. right. left. discriminate.
Defined.

(** ** Releasing *)

Section Release.

Context {W : Type} `{Platform W}.

(** X14.  [release] brings a session back to the freshly constructed one.
    [release] of the decoder returns and leaves no transform, a zero size,
    the default stream information and Media Foundation not started; on a
    decoder for which [isStarted_] implies a transform the decoder is then
    equal to a default-constructed one.  A second [release] changes nothing
    and makes no call.  The same holds for the encoder, whose queue and [codecConfigEmitted_] are
    cleared as well, whenever its [release] returns; it can fail to return
    only inside the drain pass of the [stop] it runs on a started encoder. *)
Theorem release_restores_default (fuel : nat)
        (sd : St Decoder.VideoDecoder W) (se : St Encoder.VideoEncoder W) :
  (exists sd',
      Decoder.release sd = Ok tt sd'
      /\ Decoder.decoder_ (this sd') = None
      /\ Decoder.mfStarted_ (this sd') = false
      /\ ((Decoder.decoder_ (this sd) = None -> Decoder.isStarted_ (this sd) = false) ->
          this sd' = Decoder.VideoDecoder_)
      /\ Decoder.release sd' = Ok tt sd')
  /\ match Encoder.release fuel se with
     | Ok _ se' =>
         Encoder.encoder_ (this se') = None
         /\ Encoder.mfStarted_ (this se') = false
         /\ ((Encoder.encoder_ (this se) = None -> Encoder.isStarted_ (this se) = false) ->
             this se' = Encoder.VideoEncoder_)
         /\ Encoder.release fuel se' = Ok tt se'
     | Diverge se' =>
         exists h hr0 evs,
           Encoder.encoder_ (this se) = Some h
           /\ Encoder.isStarted_ (this se) = true
           /\ trace se' = trace se ++ EvProcessMessage h MFT_MESSAGE_COMMAND_DRAIN hr0 :: evs
           /\ forallb isProcessOutput evs = true
     | Undefined => False
     end.
Proof.
  split.
  - destruct (post_returns _ _ _ (Decoder_release_spec sd))
      as ([] & sd' & Hrun & Hnone & Hw & Hh & Hp & Hz & Hmf & Hrest).
    exists sd'. split; [exact Hrun|]. split; [exact Hnone|]. split; [exact Hmf|].
    destruct sd' as [d w tr]. destruct d as [tf wd hd started mf provides size].
    cbn in Hnone, Hw, Hh, Hp, Hz, Hmf, Hrest. subst.
    split; [|reflexivity].
    intros Hassert. cbn. unfold Decoder.VideoDecoder_. f_equal.
    destruct (Decoder.decoder_ (this sd)).
    + exact (proj1 Hrest).
    + destruct Hrest as [-> _]. now apply Hassert.
  - pose proof (Encoder_release_spec fuel se) as Hpost. unfold post in Hpost.
    destruct (Encoder.release fuel se) as [[] se'|se'|]; [| |exact Hpost].
    + destruct Hpost as (Hnone & Hw & Hh & Hp & Hz & Hc & Hq & Hmf & Hrest).
      split; [exact Hnone|]. split; [exact Hmf|].
      destruct se' as [e w tr]. destruct e as [tf wd hd started mf provides size emitted q].
      cbn in Hnone, Hw, Hh, Hp, Hz, Hc, Hq, Hmf, Hrest. subst.
      split; [|reflexivity].
      intros Hassert. cbn. unfold Encoder.VideoEncoder_. f_equal.
      destruct (Encoder.encoder_ (this se)).
      * exact (proj1 Hrest).
      * destruct Hrest as [-> _]. now apply Hassert.
    + destruct Hpost as (h & hr0 & evs & Hh & Hs & Htr & Hout & _).
      exists h, hr0, evs. repeat split; assumption.
Qed.

(** X15.  What [popSample] hands out.  On an encoder with an empty queue
    that has no transform or is not started it answers the invalid sample
    and does nothing.  When the samples queued are well-formed (not empty,
    flagged as nothing, key frame or codec configuration), the sample handed
    out is well-formed too, or it is the invalid sample and the queue is
    empty afterwards: an invalid sample means that nothing was available.
    No sample handed out is flagged as end of stream or as a partial frame,
    and none as both key frame and codec configuration; the queue stays
    well-formed. *)
Theorem popSample_outcomes (fuel : nat) (s : St Encoder.VideoEncoder W) :
  (Encoder.encodedSamples_ (this s) = [] ->
   Encoder.encoder_ (this s) = None \/ Encoder.isStarted_ (this s) = false ->
   Encoder.popSample fuel s = Ok Encoder.Sample_ s)
  /\ (forallb wellFormed (Encoder.encodedSamples_ (this s)) = true ->
      match Encoder.popSample fuel s with
      | Ok sample s' =>
          (wellFormed sample = true
           \/ (sample = Encoder.Sample_ /\ Encoder.encodedSamples_ (this s') = []))
          /\ (Encoder.Sample_isValid sample = false ->
              Encoder.encodedSamples_ (this s') = [])
          /\ Encoder.isEndOfStream sample = false
          /\ Encoder.isPartialFrame sample = false
          /\ Encoder.isKeyFrame sample && Encoder.isConfiguration sample = false
          /\ forallb wellFormed (Encoder.encodedSamples_ (this s')) = true
      | Diverge s' => forallb wellFormed (Encoder.encodedSamples_ (this s')) = true
      | Undefined => False
      end).
Proof.
  split.
  - intros Hq Hidle. unfold Encoder.popSample, bind, get. rewrite Hq.
    destruct (Encoder.encoder_ (this s)) as [h|]; [|reflexivity].
    destruct Hidle as [Hnone | ->]; [discriminate | reflexivity].
  - intros Hqueue.
    assert (Hflags : forall sample,
               wellFormed sample = true \/ sample = Encoder.Sample_ ->
               Encoder.isEndOfStream sample = false
               /\ Encoder.isPartialFrame sample = false
               /\ Encoder.isKeyFrame sample && Encoder.isConfiguration sample = false).
    { intros sample [Hwell | ->]; [|repeat split].
      unfold wellFormed in Hwell. apply andb_prop in Hwell. destruct Hwell as [_ Hflag].
      unfold Encoder.isEndOfStream, Encoder.isPartialFrame, Encoder.isKeyFrame,
        Encoder.isConfiguration.
      apply orb_prop in Hflag. destruct Hflag as [Hflag | Hflag];
        [apply orb_prop in Hflag; destruct Hflag as [Hflag | Hflag]|];
        apply Z.eqb_eq in Hflag; rewrite Hflag; repeat split. }
    assert (Hgrown : forall e e', Grown e e' ->
               forallb wellFormed (Encoder.encodedSamples_ e) = true ->
               forallb wellFormed (Encoder.encodedSamples_ e') = true).
    { intros e e' (new & -> & Hnew) He. now rewrite forallb_app, He, Hnew. }
    pose proof (Encoder_popSample_spec fuel s) as Hpost. unfold post in Hpost.
    destruct (Encoder.popSample fuel s) as [sample s'|s'|]; [| |exact Hpost].
    + destruct Hpost as (evs & s1 & (_ & _ & HG & _) & _ & _ & _ & Hpop).
      pose proof (Hgrown _ _ HG Hqueue) as Hq1.
      destruct Hpop as [(rest & Hhead & ->) | (Hempty & -> & ->)].
      * rewrite Hhead in Hq1. cbn [forallb] in Hq1. apply andb_prop in Hq1.
        destruct Hq1 as [Hsample Hrest].
        split; [now left|]. split.
        { intros Hinvalid. unfold wellFormed in Hsample. rewrite Hinvalid in Hsample.
          discriminate. }
        destruct (Hflags sample (or_introl Hsample)) as (He & Hp & Hk).
        repeat split; assumption.
      * split; [right; now split|]. split; [intros _; exact Hempty|].
        repeat split. now rewrite Hempty.
    + destruct Hpost as (evs & (_ & _ & HG & _) & _). exact (Hgrown _ _ HG Hqueue).
Qed.

End Release.

Lemma release_restores_default_witness :
  (exists sd',
      Decoder.release Scripted.bufferedDecoder = Ok tt sd'
      /\ this sd' = Decoder.VideoDecoder_
      /\ Decoder.release sd' = Ok tt sd')
  /\ (exists se',
         Encoder.release 5 Scripted.bufferedEncoder = Ok tt se'
         /\ this se' = Encoder.VideoEncoder_).
Proof.
  pose proof (release_restores_default 5 Scripted.bufferedDecoder Scripted.bufferedEncoder)
    as Hw.
  destruct Hw as [(sd' & Hrun & _ & _ & Hdefault & Hagain) He].
  split.
  - exists sd'. split; [exact Hrun|]. split; [|exact Hagain].
    apply Hdefault. discriminate.
  - assert (Hrune : exists se', Encoder.release 5 Scripted.bufferedEncoder = Ok tt se')
      by (eexists; vm_compute; reflexivity).
    destruct Hrune as [se' Hrune]. rewrite Hrune in He.
    destruct He as (_ & _ & Hdefaulte & _).
    exists se'. split; [exact Hrune|]. apply Hdefaulte. discriminate.
Defined.

Lemma popSample_outcomes_witness :
  exists sample s',
    Encoder.popSample 5 Scripted.bufferedEncoder = Ok sample s'
    /\ wellFormed sample = true
    /\ Encoder.encodedSamples_ (this s')
       = [ {| Encoder.data_ := [x42]; Encoder.presentationTime_ := 2;
              Encoder.bufferFlags_ := Encoder.BUFFER_FLAG_NONE |} ].
Proof.
  pose proof (popSample_outcomes 5 Scripted.bufferedEncoder) as Hw.
  destruct Hw as [_ Hw]. specialize (Hw eq_refl).
  assert (Hrun : exists s',
             Encoder.popSample 5 Scripted.bufferedEncoder
             = Ok {| Encoder.data_ := [x41]; Encoder.presentationTime_ := 1;
                     Encoder.bufferFlags_ := Encoder.BUFFER_FLAG_NONE |} s'
             /\ Encoder.encodedSamples_ (this s')
                = [ {| Encoder.data_ := [x42]; Encoder.presentationTime_ := 2;
                       Encoder.bufferFlags_ := Encoder.BUFFER_FLAG_NONE |} ])
    by (eexists; split; vm_compute; reflexivity).
  destruct Hrun as (s' & Hrun & Hrest). rewrite Hrun in Hw.
  destruct Hw as (_ & _ & _ & _ & _ & _).
  eexists _, s'. split; [exact Hrun|]. split; [reflexivity | exact Hrest].
Defined.

(** ** The encoder over its lifetime *)

Section EncoderInvariants.

Context {W : Type} `{Platform W}.

Lemma EncoderInvariant_Grown (e e' : Encoder.VideoEncoder) :
  Encoder.encoder_ e <> None -> sameSession e e' -> Grown e e' ->
  EncoderInvariant e -> EncoderInvariant e'.
Proof.
  unfold EncoderInvariant. intros Hvalid (He & _ & Hw & Hh & Hm) (new & Hq & Hnew).
  rewrite He, Hw, Hh, Hm, Hq. destruct (Encoder.encoder_ e); [|contradiction].
  intros (Hmf & Hw0 & Hw1 & Hh0 & Hh1 & Hqueue). rewrite forallb_app, Hqueue, Hnew.
  repeat split; assumption.
Qed.

Lemma EncoderInvariant_Moved (s s' : St Encoder.VideoEncoder W) (evs : list Event) :
  Encoder.encoder_ (this s) <> None -> Moved s s' evs ->
  EncoderInvariant (this s) -> EncoderInvariant (this s').
Proof.
  intros Hvalid (_ & [Hsame _] & HG & _). now apply EncoderInvariant_Grown.
Qed.

Lemma EncoderInvariant_popped (e : Encoder.VideoEncoder) (sample : Encoder.Sample)
      (rest : list Encoder.Sample) :
  Encoder.encodedSamples_ e = sample :: rest ->
  EncoderInvariant e -> EncoderInvariant (Encoder.set_encodedSamples_ rest e).
Proof.
  unfold EncoderInvariant. intros Hq. cbn.
  destruct (Encoder.encoder_ e).
  - intros (Hmf & Hw0 & Hw1 & Hh0 & Hh1 & Hqueue). rewrite Hq in Hqueue.
    cbn [forallb] in Hqueue. apply andb_prop in Hqueue. destruct Hqueue as [_ Hrest].
    repeat split; assumption.
  - intros (_ & _ & _ & _ & _ & _ & Hempty). congruence.
Qed.

Lemma Encoder_popSample_idle (fuel : nat) (s : St Encoder.VideoEncoder W) :
  Encoder.encodedSamples_ (this s) = [] ->
  Encoder.encoder_ (this s) = None \/ Encoder.isStarted_ (this s) = false ->
  Encoder.popSample fuel s = Ok Encoder.Sample_ s.
Proof.
  intros Hq Hidle. unfold Encoder.popSample, bind, get. rewrite Hq.
  destruct (Encoder.encoder_ (this s)) as [h|]; [|reflexivity].
  destruct Hidle as [Hnone | ->]; [discriminate | reflexivity].
Qed.

Lemma post_bind_ok {S A B : Type} (m : M S A) (k : A -> M S B) (s s1 : S) (a : A)
      (Q : B -> S -> Prop) (D : S -> Prop) (U : Prop) :
  m s = Ok a s1 -> post (k a) s1 Q D U -> post (bind m k) s Q D U.
Proof. intros Hm Hk. unfold post, bind in *. now rewrite Hm. Qed.

(** Every call keeps the invariant. *)
Lemma runEncoder_invariant (fuel : nat) (calls : list EncoderCall) :
  forall (popped : list Encoder.Sample) (s : St Encoder.VideoEncoder W),
    EncoderInvariant (this s) ->
    post (runEncoder fuel calls popped) s
         (fun _ s' => EncoderInvariant (this s'))
         (fun s' => EncoderInvariant (this s')) True.
Proof.
  induction calls as [|c calls IH]; intros popped s Hinv; cbn [runEncoder].
  - apply post_ret. exact Hinv.
  - destruct c as [width height mime frameRate bitrate interval| |[| |frame t|]].
    + eapply post_bind_with; [apply Encoder_initialize_members | | | auto]; cbv beta.
      * intros b s1 Hout. apply IH. destruct b.
        -- destruct Hout as ((Hw0 & Hw1 & Hh0 & Hh1) & _ & _ & _ & _ & Hnone & Hvalid
                             & Hw & Hh & Hmf & _ & Hq & _).
           unfold EncoderInvariant in *. rewrite Hnone in Hinv.
           destruct Hinv as (_ & _ & _ & _ & _ & _ & Hempty).
           destruct (Encoder.encoder_ (this s1)); [|contradiction].
           rewrite Hw, Hh, Hq, Hempty. repeat split; assumption.
        -- destruct Hout as [-> | [Hnone ->]]; [exact Hinv|].
           unfold EncoderInvariant in *. cbn. now rewrite Hnone in *.
      * intros s1 (Hnone & ->). unfold EncoderInvariant in *. cbn. now rewrite Hnone in *.
    + eapply post_bind_with; [apply Encoder_release_spec | | | auto]; cbv beta.
      * intros _ s1 (Hnone & Hw & Hh & Hp & Hz & Hc & Hq & _ & Hrest). apply IH.
        unfold EncoderInvariant in *. rewrite Hnone.
        destruct (Encoder.encoder_ (this s)).
        -- destruct Hrest as [Hstarted _]. repeat split; assumption.
        -- destruct Hrest as (Hstarted & _). destruct Hinv as (Hidle & _).
           rewrite Hstarted. repeat split; assumption.
      * intros s1 (h & hr0 & evs & Hh & _ & _ & _ & [Hsame _] & HG).
        apply (EncoderInvariant_Grown (this s)); [congruence | assumption..].
    + eapply post_bind_with; [apply Encoder_start_spec | | contradiction | auto]; cbv beta.
      intros b s1 Hout. apply IH.
      destruct Hout as [(_ & _ & ->) | [(_ & _ & _ & ->) | (h & hr0 & hr1 & Hvalid & _ & Hout)]];
        try exact Hinv.
      destruct Hout as [(_ & _ & -> & _) | (hr2 & _ & _ & -> & _)]; [exact Hinv|].
      destruct (isOk hr2); [|exact Hinv].
      unfold EncoderInvariant in *. cbn. now rewrite Hvalid in *.
    + eapply post_bind_with; [apply Encoder_stop_spec | | | auto]; cbv beta.
      * intros b s1 [_ Hout]. apply IH.
        destruct Hout as [[_ ->] | (h & hr0 & evs & hr1 & hr2 & drained & Hvalid & _ & _ & _
                                    & [Hsame _] & HG & ->)]; [exact Hinv|].
        assert (Hdrained : EncoderInvariant drained)
          by (apply (EncoderInvariant_Grown (this s)); [congruence | assumption..]).
        destruct Hsame as (Hd & _). rewrite Hvalid in Hd.
        unfold EncoderInvariant in *. cbn. now rewrite Hd in *.
      * intros s1 (h & hr0 & evs & Hh & _ & _ & _ & [Hsame _] & HG).
        apply (EncoderInvariant_Grown (this s)); [congruence | assumption..].
    + destruct (Encoder.encoder_ (this s)) as [h|] eqn:Hvalid.
      * eapply post_bind_with; [apply Encoder_pushFrame_Moved | | | auto]; cbv beta.
        -- intros b s1 (evs & Hmoved & _). apply IH.
           apply (EncoderInvariant_Moved s s1 evs); [congruence | assumption..].
        -- intros s1 (evs & Hmoved & _).
           apply (EncoderInvariant_Moved s s1 evs); [congruence | assumption..].
      * eapply post_bind_ok; [apply Encoder_pushFrame_idle; left; exact Hvalid|].
        apply IH. exact Hinv.
    + destruct (Encoder.encoder_ (this s)) as [h|] eqn:Hvalid.
      * eapply post_bind_with; [apply Encoder_popSample_spec | | | auto]; cbv beta.
        -- intros sample s1 (evs & s0 & Hmoved & _ & _ & _ & Hpop). apply IH.
           assert (Hinv0 : EncoderInvariant (this s0))
             by (apply (EncoderInvariant_Moved s s0 evs); [congruence | assumption..]).
           destruct Hpop as [(rest & Hhead & ->) | (_ & _ & ->)]; [|exact Hinv0].
           now apply (EncoderInvariant_popped (this s0) sample rest).
        -- intros s1 (evs & Hmoved & _).
           apply (EncoderInvariant_Moved s s1 evs); [congruence | assumption..].
      * eapply post_bind_ok; [apply Encoder_popSample_idle|].
        -- unfold EncoderInvariant in Hinv. rewrite Hvalid in Hinv. apply Hinv.
        -- left. exact Hvalid.
        -- apply IH. exact Hinv.
Qed.

(** X16.  The class invariant of the encoder.  After any sequence of calls
    of the public interface on a freshly constructed encoder whose behaviour
    is defined, returned or still inside a loop of the last call: an encoder with a transform has
    Media Foundation started, a size with no zero and within the maximal
    size, and a queue of well-formed samples only; an encoder without one is
    not started, its size and stream information are the defaults, its queue
    is empty and no codec configuration counts as emitted.  So [isStarted_]
    implies [isInitialized()], the condition [isStarted] asserts. *)
Theorem encoder_class_invariant (fuel : nat) (calls : list EncoderCall) (w : W)
        (tr : list Event) :
  match runEncoder fuel calls [] (mkSt Encoder.VideoEncoder_ w tr) with
  | Ok _ s' | Diverge s' =>
      EncoderInvariant (this s')
      /\ (Encoder.isStarted_ (this s') = true -> Encoder.encoder_ (this s') <> None)
  | Undefined => True
  end.
Proof.
  assert (Hassert : forall e,
             EncoderInvariant e ->
             EncoderInvariant e
             /\ (Encoder.isStarted_ e = true -> Encoder.encoder_ e <> None)).
  { intros e Hinv. split; [exact Hinv|]. unfold EncoderInvariant in Hinv.
    destruct (Encoder.encoder_ e); [discriminate|].
    destruct Hinv as [Hidle _]. congruence. }
  pose proof (runEncoder_invariant fuel calls [] (mkSt Encoder.VideoEncoder_ w tr)) as Hrun.
  unfold post in Hrun.
  destruct (runEncoder fuel calls [] (mkSt Encoder.VideoEncoder_ w tr)).
  - apply Hassert, Hrun. cbn. repeat split.
  - apply Hassert, Hrun. cbn. repeat split.
  - exact I.
Qed.

End EncoderInvariants.

(** ** The order of the transform calls *)







Section Protocol.

Context {W : Type} `{Platform W}.






End Protocol.

(** ** The order of the samples *)

Lemma validMedia_app (l r : list Encoder.Sample) :
  validMedia (l ++ r) = validMedia l ++ validMedia r.
Proof. apply filter_app. Qed.

Lemma payloadsOf_wellFormed (evs : list Event) : forallb wellFormed (payloadsOf evs) = true.
Proof.
  induction evs as [|e evs IH]; [reflexivity|].
  change (payloadsOf (e :: evs)) with (payloadOf e ++ payloadsOf evs).
  now rewrite forallb_app, payloadOf_wellFormed, IH.
Qed.

Lemma validMedia_new (new : list Encoder.Sample) (evs : list Event) :
  mediaSamples new = payloadsOf evs -> validMedia new = payloadsOf evs.
Proof.
  assert (Hsplit : validMedia new = filter Encoder.Sample_isValid (mediaSamples new)).
  { unfold validMedia, mediaSamples. induction new as [|a new IH]; [reflexivity|].
    cbn [filter]. destruct (Encoder.isConfiguration a); cbn [negb].
    - rewrite andb_false_r. exact IH.
    - rewrite andb_true_r. cbn [filter]. destruct (Encoder.Sample_isValid a); now rewrite IH. }
  intros Hnew. rewrite Hsplit, Hnew. clear Hsplit Hnew.
  pose proof (payloadsOf_wellFormed evs) as Hwell.
  induction (payloadsOf evs) as [|a l IH]; [reflexivity|].
  cbn [forallb] in Hwell. apply andb_prop in Hwell. destruct Hwell as [Ha Hl].
  unfold wellFormed in Ha. apply andb_prop in Ha. destruct Ha as [Ha _].
  cbn [filter]. rewrite Ha, IH by exact Hl. reflexivity.
Qed.

Lemma Enqueued_delivered (popped : list Encoder.Sample) (e e' : Encoder.VideoEncoder)
      (evs : list Event) :
  Enqueued e e' (payloadsOf evs) ->
  validMedia (popped ++ Encoder.encodedSamples_ e')
  = validMedia (popped ++ Encoder.encodedSamples_ e) ++ payloadsOf evs.
Proof.
  intros (_ & new & Hq & Hmedia & _).
  rewrite Hq, app_assoc, validMedia_app, (validMedia_new new evs Hmedia). reflexivity.
Qed.

Lemma delivered_trans (tr tr1 tr2 evs1 evs2 : list Event) (a b c : list Encoder.Sample) :
  tr1 = tr ++ evs1 -> validMedia b = validMedia a ++ payloadsOf evs1 ->
  tr2 = tr1 ++ evs2 -> validMedia c = validMedia b ++ payloadsOf evs2 ->
  tr2 = tr ++ (evs1 ++ evs2) /\ validMedia c = validMedia a ++ payloadsOf (evs1 ++ evs2).
Proof.
  intros -> Hb -> Hc. rewrite Hc, Hb, payloadsOf_app, !app_assoc. split; reflexivity.
Qed.

Section Delivery.

Context {W : Type} `{Platform W}.

Lemma runOps_delivery (fuel : nat) (ops : list Op) :
  forall (popped : list Encoder.Sample) (s : St Encoder.VideoEncoder W),
    post (runOps fuel ops popped) s
         (fun popped' s' =>
            exists evs,
              trace s' = trace s ++ evs
              /\ validMedia (popped' ++ Encoder.encodedSamples_ (this s'))
                 = validMedia (popped ++ Encoder.encodedSamples_ (this s)) ++ payloadsOf evs)
         (fun s' =>
            exists evs popped',
              trace s' = trace s ++ evs
              /\ validMedia (popped' ++ Encoder.encodedSamples_ (this s'))
                 = validMedia (popped ++ Encoder.encodedSamples_ (this s)) ++ payloadsOf evs)
         False.
Proof.
  induction ops as [|op ops IH]; intros popped s; cbn [runOps].
  - apply post_ret. exists []. rewrite !app_nil_r. split; reflexivity.
  - assert (Hrest : forall popped1 (s1 : St Encoder.VideoEncoder W) evs1,
               trace s1 = trace s ++ evs1 ->
               validMedia (popped1 ++ Encoder.encodedSamples_ (this s1))
               = validMedia (popped ++ Encoder.encodedSamples_ (this s)) ++ payloadsOf evs1 ->
               post (runOps fuel ops popped1) s1
                    (fun popped' s' =>
                       exists evs,
                         trace s' = trace s ++ evs
                         /\ validMedia (popped' ++ Encoder.encodedSamples_ (this s'))
                            = validMedia (popped ++ Encoder.encodedSamples_ (this s))
                              ++ payloadsOf evs)
                    (fun s' =>
                       exists evs popped',
                         trace s' = trace s ++ evs
                         /\ validMedia (popped' ++ Encoder.encodedSamples_ (this s'))
                            = validMedia (popped ++ Encoder.encodedSamples_ (this s))
                              ++ payloadsOf evs)
                    False).
    { intros popped1 s1 evs1 Htr1 Hq1.
      eapply post_weaken; [apply (IH popped1 s1) | | | auto]; cbv beta.
      - intros popped' s' (evs2 & Htr2 & Hq2). exists (evs1 ++ evs2).
        exact (delivered_trans _ _ _ _ _ _ _ _ Htr1 Hq1 Htr2 Hq2).
      - intros s' (evs2 & popped' & Htr2 & Hq2). exists (evs1 ++ evs2), popped'.
        exact (delivered_trans _ _ _ _ _ _ _ _ Htr1 Hq1 Htr2 Hq2). }
    assert (Hsame : post (runOps fuel ops popped) s
                         (fun popped' s' =>
                            exists evs,
                              trace s' = trace s ++ evs
                              /\ validMedia (popped' ++ Encoder.encodedSamples_ (this s'))
                                 = validMedia (popped ++ Encoder.encodedSamples_ (this s))
                                   ++ payloadsOf evs)
                         (fun s' =>
                            exists evs popped',
                              trace s' = trace s ++ evs
                              /\ validMedia (popped' ++ Encoder.encodedSamples_ (this s'))
                                 = validMedia (popped ++ Encoder.encodedSamples_ (this s))
                                   ++ payloadsOf evs)
                         False).
    { apply (Hrest popped s []); change (payloadsOf []) with (@nil Encoder.Sample);
        now rewrite app_nil_r. }
    destruct op as [| |frame t|].
    + eapply post_bind_with; [apply Encoder_start_spec | | contradiction | auto]; cbv beta.
      intros b s1 Hout.
      destruct Hout as [(_ & _ & ->) | [(_ & _ & _ & ->) | (h & hr0 & hr1 & _ & _ & Hout)]].
      * exact Hsame.
      * exact Hsame.
      * destruct Hout as [(_ & _ & Hthis & Htr) | (hr2 & _ & _ & Hthis & Htr)];
          apply (Hrest popped s1 _ Htr); rewrite Hthis; cbn [payloadsOf flat_map payloadOf app];
          rewrite app_nil_r; [reflexivity|].
        destruct (isOk hr2); reflexivity.
    + eapply post_bind_with; [apply Encoder_stop_spec | | | auto]; cbv beta.
      * intros b s1 [_ Hout].
        destruct Hout as [[_ ->] | (h & hr0 & evs & hr1 & hr2 & drained & _ & _ & Htr & _
                                    & Henq & _ & Hthis)].
        -- exact Hsame.
        -- apply (Hrest popped s1 _ Htr). rewrite Hthis.
           change (payloadsOf (EvProcessMessage h MFT_MESSAGE_COMMAND_DRAIN hr0 :: evs
                               ++ [EvProcessMessage h MFT_MESSAGE_NOTIFY_END_OF_STREAM hr1;
                                   EvProcessMessage h MFT_MESSAGE_NOTIFY_END_STREAMING hr2]))
             with (payloadsOf (evs
                               ++ [EvProcessMessage h MFT_MESSAGE_NOTIFY_END_OF_STREAM hr1;
                                   EvProcessMessage h MFT_MESSAGE_NOTIFY_END_STREAMING hr2])).
           rewrite payloadsOf_app. cbn [payloadsOf flat_map payloadOf app].
           rewrite app_nil_r. exact (Enqueued_delivered popped _ _ evs Henq).
      * intros s1 (h & hr0 & evs & _ & _ & Htr & _ & Henq & _).
        exists (EvProcessMessage h MFT_MESSAGE_COMMAND_DRAIN hr0 :: evs), popped.
        split; [exact Htr|]. exact (Enqueued_delivered popped _ _ evs Henq).
    + eapply post_bind_with; [apply Encoder_pushFrame_Moved | | | auto]; cbv beta.
      * intros b s1 (evs & (Htr & Henq & _) & _).
        apply (Hrest popped s1 _ Htr). exact (Enqueued_delivered popped _ _ evs Henq).
      * intros s1 (evs & (Htr & Henq & _) & _). exists evs, popped.
        split; [exact Htr|]. exact (Enqueued_delivered popped _ _ evs Henq).
    + eapply post_bind_with; [apply Encoder_popSample_spec | | | auto]; cbv beta.
      * intros sample s1 (evs & s0 & (Htr0 & Henq & _) & _ & _ & Htr & Hpop).
        rewrite Htr0 in Htr. apply (Hrest (popped ++ [sample]) s1 _ Htr).
        rewrite <- (Enqueued_delivered popped _ _ evs Henq).
        destruct Hpop as [(rest & Hhead & ->) | (Hempty & -> & ->)].
        -- rewrite Hhead, <- app_assoc. reflexivity.
        -- rewrite Hempty, !app_nil_r, validMedia_app, app_nil_r. reflexivity.
      * intros s1 (evs & (Htr & Henq & _) & _). exists evs, popped.
        split; [exact Htr|]. exact (Enqueued_delivered popped _ _ evs Henq).
Qed.

(** X18.  The encoder delivers in order and loses nothing.  Over any
    sequence of [start], [stop], [pushFrame] and [popSample] calls, the
    media samples handed out by [popSample], followed by those still
    queued, are the media samples queued at the beginning followed by the
    payload of every output the transform handed over meanwhile, in the
    order in which the transform handed them over; invalid samples and the
    configuration sample apart. *)
Theorem samples_delivered_in_order (fuel : nat) (ops : list Op)
        (s : St Encoder.VideoEncoder W) :
  match runOps fuel ops [] s with
  | Ok popped s' =>
      exists evs,
        trace s' = trace s ++ evs
        /\ validMedia (popped ++ Encoder.encodedSamples_ (this s'))
           = validMedia (Encoder.encodedSamples_ (this s)) ++ payloadsOf evs
  | Diverge s' =>
      exists evs popped,
        trace s' = trace s ++ evs
        /\ validMedia (popped ++ Encoder.encodedSamples_ (this s'))
           = validMedia (Encoder.encodedSamples_ (this s)) ++ payloadsOf evs
  | Undefined => False
  end.
Proof.
  pose proof (runOps_delivery fuel ops [] s) as Hrun. unfold post in Hrun.
  destruct (runOps fuel ops [] s); exact Hrun.
Qed.

End Delivery.

(** ** Sessions run on the scripted platform *)


Lemma popFrame_outcomes_witness :
  exists frame s',
    Decoder.popFrame 5 (Some 7) Scripted.bufferedDecoder = Ok (frame, Some 0) s'
    /\ sameDecoder (this Scripted.bufferedDecoder) (this s').
Proof.
  pose proof (popFrame_outcomes 5 (Some 7) Scripted.bufferedDecoder) as Hw.
  destruct Hw as [_ Hw].
  assert (Hrun : exists frame s',
             Decoder.popFrame 5 (Some 7) Scripted.bufferedDecoder = Ok (frame, Some 0) s')
    by (do 2 eexists; vm_compute; reflexivity).
  destruct Hrun as (frame & s' & Hrun). rewrite Hrun in Hw.
  exists frame, s'. split; [exact Hrun | apply Hw].
Defined.

Lemma encoder_class_invariant_witness :
  exists popped s',
    runEncoder 5 [CallEncoderInitialize 64 64 "video/avc" Scripted.fps30 2000000 1;
                  CallEncoder OpStart;
                  CallEncoder (OpPushFrame Scripted.picture64 0);
                  CallEncoder OpPopSample; CallEncoder OpStop]
               [] (mkSt Encoder.VideoEncoder_
                        (Scripted.script [] [(S_OK, Scripted.unit_ false 10 [x41])] []) [])
    = Ok popped s'
    /\ EncoderInvariant (this s')
    /\ Encoder.encoder_ (this s') <> None.
Proof.
  pose proof (encoder_class_invariant
                5 [CallEncoderInitialize 64 64 "video/avc" Scripted.fps30 2000000 1;
                   CallEncoder OpStart;
                   CallEncoder (OpPushFrame Scripted.picture64 0);
                   CallEncoder OpPopSample; CallEncoder OpStop]
                (Scripted.script [] [(S_OK, Scripted.unit_ false 10 [x41])] []) []) as Hw.
  assert (Hrun : exists popped s',
             runEncoder 5 [CallEncoderInitialize 64 64 "video/avc" Scripted.fps30 2000000 1;
                           CallEncoder OpStart;
                           CallEncoder (OpPushFrame Scripted.picture64 0);
                           CallEncoder OpPopSample; CallEncoder OpStop]
                        [] (mkSt Encoder.VideoEncoder_
                                 (Scripted.script [] [(S_OK, Scripted.unit_ false 10 [x41])]
                                                  []) [])
             = Ok popped s'
             /\ Encoder.encoder_ (this s') <> None)
    by (do 2 eexists; split; [vm_compute; reflexivity | discriminate]).
  destruct Hrun as (popped & s' & Hrun & Hvalid). rewrite Hrun in Hw.
  exists popped, s'. split; [exact Hrun|]. split; [apply Hw | exact Hvalid].
Defined.


Lemma samples_delivered_in_order_witness :
  exists s',
    runOps 5 [OpPopSample; OpPushFrame Scripted.picture64 0; OpPopSample; OpPopSample]
           [] Scripted.bufferedEncoder
    = Ok [ {| Encoder.data_ := [x41]; Encoder.presentationTime_ := 1;
              Encoder.bufferFlags_ := Encoder.BUFFER_FLAG_NONE |};
           {| Encoder.data_ := [x42]; Encoder.presentationTime_ := 2;
              Encoder.bufferFlags_ := Encoder.BUFFER_FLAG_NONE |};
           Encoder.Sample_ ] s'
    /\ exists evs,
        trace s' = trace Scripted.bufferedEncoder ++ evs
        /\ payloadsOf evs
           = [ {| Encoder.data_ := [x41]; Encoder.presentationTime_ := 1;
                  Encoder.bufferFlags_ := Encoder.BUFFER_FLAG_NONE |};
               {| Encoder.data_ := [x42]; Encoder.presentationTime_ := 2;
                  Encoder.bufferFlags_ := Encoder.BUFFER_FLAG_NONE |} ].
Proof.
  pose proof (samples_delivered_in_order
                5 [OpPopSample; OpPushFrame Scripted.picture64 0; OpPopSample; OpPopSample]
                Scripted.bufferedEncoder) as Hw.
  assert (Hrun : exists s',
             runOps 5 [OpPopSample; OpPushFrame Scripted.picture64 0; OpPopSample;
                       OpPopSample]
                    [] Scripted.bufferedEncoder
             = Ok [ {| Encoder.data_ := [x41]; Encoder.presentationTime_ := 1;
                       Encoder.bufferFlags_ := Encoder.BUFFER_FLAG_NONE |};
                    {| Encoder.data_ := [x42]; Encoder.presentationTime_ := 2;
                       Encoder.bufferFlags_ := Encoder.BUFFER_FLAG_NONE |};
                    Encoder.Sample_ ] s'
             /\ Encoder.encodedSamples_ (this s') = [])
    by (eexists; split; vm_compute; reflexivity).
  destruct Hrun as (s' & Hrun & Hempty). rewrite Hrun in Hw.
  destruct Hw as (evs & Htr & Hmedia).
  exists s'. split; [exact Hrun|]. exists evs. split; [exact Htr|].
  rewrite Hempty in Hmedia. cbn [app validMedia filter] in Hmedia.
  symmetry. exact Hmedia.
Defined.
